(* ===== verification/_CoqProject ===== *)
-Q . S2P
Prelude.v
Kstate.v
Demo.v
Sched.v
Mem.v
MemSpec.v
Cprintf.v
Kalloc.v
KallocSpec.v
Vm.v
PageTable.v
VmSpec.v
VmOps.v
AddrSpace.v
Sleeplock.v
Bio.v
Ide.v
Log.v
Inode.v
Console.v
Dir.v
Pipe.v
File.v
Proc.v
Exec.v
Sysproc.v
Sysfile.v
Trap.v
Ptable.v
Kinv.v
Machine.v
Fair.v
ProcSpec.v
Reap.v
CloneSpec.v
ForkSpec.v
BioSpec.v
IdeSpec.v
LogSpec.v
LogOps.v
FsTx.v
FsBlock.v
FsMap.v
FsFile.v
FsInode.v
FsSpec.v
FsOp.v
FsSys.v
FsDemo.v
Mkfs.v
MkfsSpec.v
MkfsImage.v
MkfsMain.v
FsBoot.v
FsCache.v
FsPath.v
FsImage.v
FsHole.v
ConsoleSpec.v
Kbd.v
PipeSpec.v
Spinlock.v
Ulib.v
Grep.v
Umalloc.v
UmallocSpec.v
Sh.v
ShSpec.v
ShPrint.v
ShRun.v
