(* ===== verification/Prelude.v ===== *)
(** * A verification of xv6 with kernel threads

    The program is the xv6 teaching kernel for the x86, extended with kernel
    threads ([clone], [join], [threadkill] and the thread ids), together with
    its file system, its user library and some of its user programs; all the
    sources lie flat in [src/].  This library translates the C code into Rocq
    functions and proves what makes it correct.

    ** How the code is modelled

    A C function becomes a computation of the state monad of this file:
    [M S A] takes a state and ends in one of five ways, [Ret a s] (it
    returned), [Switch s] (the process gave the CPU away in [swtch], leaving
    [s] to the scheduler), [Panic msg], [Fault] (a null or wild access), and
    [NoFuel] (a loop ran out of the bound given to it, which the theorems
    exclude).  Kernel code runs over [kstate] of Kstate.v: one record with the
    process table, the files, inodes, buffers and pipes, the log, the console,
    the disk, the physical memory as a map from addresses to bytes, the
    control registers that matter ([cr3], the kernel stack pointer), the
    current process of the CPU, and the spin locks it holds.  Pointers into
    the kernel's fixed tables are indices; pages are addresses.  Integers are
    [Z] with [u32], [s32] and so on written where C converts or wraps.

    A function that sleeps is cut at the point where it gives the CPU away:
    [pipewrite] ends in [Switch], and [pipewrite_return] is what the process
    runs when the scheduler resumes it; likewise for [sleep], [wait], [join],
    [piperead], [sys_sleep], [acquiresleep], [begin_op], [consoleread] and
    [yield].  The characters written to the console are kept as a list.

    ** The parts of the system and the files that model them

    - Machine words, record updates, the monad, loops and frame rules: this
      file.  Data and constants ([param.h], [mmu.h], [fs.h], [proc.h], ...):
      Kstate.v; small concrete states for examples: Demo.v.
    - Memory and strings ([string.c], [x86.h]): Mem.v, proved in MemSpec.v.
      Formatted output ([console.c]: [cprintf]): Cprintf.v.
    - Spin locks ([spinlock.c]): Spinlock.v, on several CPUs; the other files
      use the list of locks held by the executing CPU, which Spinlock.v
      relates to the lock words.  Sleep locks ([sleeplock.c]): Sleeplock.v.
    - Physical pages ([kalloc.c]): Kalloc.v, proved in KallocSpec.v.  Page
      tables and address spaces ([vm.c]): Vm.v; PageTable.v gives the view of
      a directory as a set of tables and entries, VmSpec.v, VmOps.v and
      AddrSpace.v prove the operations against it.
    - Disk and buffer cache ([memide.c], [bio.c]): Bio.v, proved in BioSpec.v.
      Log ([log.c]): Log.v, proved in LogSpec.v (crashes) and LogOps.v (space).
      Inodes, directories, paths ([fs.c]): Inode.v, Dir.v.  Open files
      ([file.c]): File.v.  They are proved in the files whose names begin
      with Fs: FsTx.v (blocks inside a transaction), FsBlock.v (the bitmap),
      FsMap.v (the block map), FsFile.v and FsInode.v (bytes of a file, inodes
      on disk), FsSpec.v, FsOp.v and FsSys.v (inode locks, transactions,
      [fileread] and [filewrite]), FsDemo.v (a small file system as example),
      FsCache.v (references to inodes), FsPath.v (directories and paths) and
      FsBoot.v (recovery and set up in [forkret]).
      The interrupt-driven driver ([ide.c]): Ide.v, proved in IdeSpec.v, over
      a type class that states what an ATA drive does.
      Console ([console.c]): Console.v, proved in ConsoleSpec.v; keyboard
      ([kbd.c], [kbd.h]): Kbd.v.  Pipes ([pipe.c]): Pipe.v, proved in
      PipeSpec.v.
    - The image builder ([mkfs.c]): Mkfs.v, proved in MkfsSpec.v (appending
      to a file), MkfsImage.v (the files of an image) and MkfsMain.v.  FsImage.v
      and FsHole.v compose it with the kernel that boots from its image.
    - Processes and threads ([proc.c]): Sched.v (sleep, wakeup, yield) and
      Proc.v (fork, clone, join, exit, wait, kill, the scheduler).  Program
      loading ([exec.c]): Exec.v.  System calls ([syscall.c], [sysproc.c],
      [sysfile.c]): Sysproc.v, Sysfile.v.  Traps ([trap.c]): Trap.v.
    - Machine.v composes these into a transition system of one CPU: user code
      traps, a process leaves the CPU, the scheduler picks and resumes one.
    - User code: the library ([ulib.c], [printf.c]) in Ulib.v, the allocator
      ([umalloc.c]) in Umalloc.v and UmallocSpec.v, [grep.c] in Grep.v, the
      shell ([sh.c]) in Sh.v, ShSpec.v, ShPrint.v and ShRun.v.

    ** What is proved

    - Machine.v, Ptable.v, Kinv.v: the process table invariant (ids unique and
      below [nextpid], parents alive, init alive, the CPU's process RUNNING)
      holds in every reachable configuration; it is proved once for each
      primitive update and composed through every system call by the [Keeps]
      instances.  Fair.v: a RUNNABLE process stays so until it is dispatched,
      and fewer than [NPROC] others are dispatched before it.
    - ProcSpec.v, Reap.v, CloneSpec.v, ForkSpec.v: what [fork], [clone],
      [join], [wait], [exit], [kill], [threadkill], [sleep], [wakeup], [trap]
      and the scheduler do, by branch, errors included.
    - KallocSpec.v to AddrSpace.v: every page is free or used once; growing,
      copying and freeing an address space do all of their work or, when
      memory runs out, give everything back; copies share no page.
    - BioSpec.v, LogSpec.v, LogOps.v: a crash at any point of [commit] is
      recovered to the state before or after the whole transaction; the log
      is never full for a transaction within its reservation.
    - FsBlock.v to FsSys.v: [balloc] hands out a free block once; a file is
      the sequence of its bytes, read by [fileread] and changed by [filewrite]
      at its offset, in the cache and, once the transaction has ended, on
      disk.  FsPath.v: [namex] finds what the path names and keeps no other
      reference.  MkfsMain.v, FsImage.v: the image of [mkfs] is a file system,
      and the kernel that boots from it reads the files it was made of.
      FsHole.v: the one shape of root directory for which this fails.
    - IdeSpec.v: however requests, interrupts and the rest of the kernel
      interleave, no process sleeps on a request the drive will not get to,
      requests are served in order, and one that returns has its block
      transferred; alone, a request does what [memide.c] does.  What the rest
      of the kernel may do meanwhile is the relation [others].
    - ConsoleSpec.v, Kbd.v: the input buffer is a line editor, and a text
      typed as scan codes is what the reader of the console gets.
    - Spinlock.v: mutual exclusion in every interleaving, and refinement of an
      atomic lock.  PipeSpec.v: a pipe is a bounded queue, counters wrapping.
    - MemSpec.v, Ulib.v, Grep.v, UmallocSpec.v, ShSpec.v, ShPrint.v, ShRun.v:
      overlap of [memmove], numbers printed and read back, the regular
      expression matcher equivalent to its language, [malloc] and [free]
      losing and overlapping nothing, and the shell's parser total, inverse to
      printing, and its pipelines plumbed as the command says.

    ** Bounds

    Loops over fixed tables ([NPROC], [NFILE], [NBUF], ...) are recursions over
    the range.  Other loops take fuel, and the theorems say how much is
    enough: the walk over a page range uses its number of pages, the matcher
    of grep the length of the text, the shell's parser four times the length
    of the line plus four, [malloc] twice the number of free blocks plus four,
    reading, writing and appending to a file the number of its blocks plus
    three, a path its length plus one.
    The propagation of a descriptor to sharing threads (Sysfile.v) sets one
    more table entry at every level, so [NPROC + 1] levels are enough.

    ** Abstractions and what is not modelled

    - Data passed between user memory and files or pipes goes by content: a
      read returns the bytes, and the system call stores them.
    - The disk under the buffer cache is the memory disk of the [kernelmemfs]
      build ([memide.c]), whose requests complete at once; [ide_memide] of
      IdeSpec.v relates it to the driver with interrupts.
    - Link addresses and the initial user program are parameters
      ([KernelLayout] of Kstate.v, arguments of [userinit]).  The files of the
      host that [mkfs] reads, and whether it can write, are parameters too.
    - The theorems about whole operations on files ([filewrite], booting)
      start where no other process has a transaction open; those about one
      step of a transaction allow any number of open ones.
    - Not modelled: device register programming and boot ([lapic.c],
      [ioapic.c], [mp.c], [uart.c], [main.c], [bootmain.c]), segment and
      interrupt descriptors and assembly code, whose effects are outside the
      state of the model; the thread library ([threadlib.c]: wrappers of
      [clone] and [join], and a spin lock in user memory), the small user
      programs and the test programs. *)
From stdpp Require Export base gmap list list_numbers numbers strings.
From Stdlib Require Export ZArith Lia.

#[export] Set Warnings "-clear-no-such-hyp".

Declare Scope kern_scope.
Delimit Scope kern_scope with kern.
Open Scope kern_scope.

(** * Machine integers *)

Open Scope Z_scope.

(** C [uint], [ushort], [uchar] are kept as [Z] in their unsigned range and
    [int], [short] as [Z] in their signed range; these truncate to a width. *)
Definition u32 (z : Z) : Z := z mod 2 ^ 32.
Definition u16 (z : Z) : Z := z mod 2 ^ 16.
Definition u8 (z : Z) : Z := z mod 2 ^ 8.
Definition s32 (z : Z) : Z := (z + 2 ^ 31) mod 2 ^ 32 - 2 ^ 31.
Definition s16 (z : Z) : Z := (z + 2 ^ 15) mod 2 ^ 16 - 2 ^ 15.

(** Linear arithmetic with the widths, division and remainder by constants. *)
Ltac width_lia :=
  unfold u32, u16, u8, s32, s16 in *;
  change (2 ^ 32) with 4294967296 in *; change (2 ^ 31) with 2147483648 in *;
  change (2 ^ 24) with 16777216 in *; change (2 ^ 16) with 65536 in *;
  change (2 ^ 15) with 32768 in *; change (2 ^ 8) with 256 in *;
  Z.to_euclidean_division_equations; lia.

(** A C condition: non-zero is true. *)
Definition ctrue (z : Z) : bool := negb (z =? 0).
Definition of_bool (b : bool) : Z := if b then 1 else 0.

(** * Record updates *)

(** [r <| proj := v |>] replaces one field of a record whose [Eta] instance
    lists its fields. *)
Class Eta (R : Type) := eta : R -> R.
Class Setter {R E : Type} (proj : R -> E) := upd : (E -> E) -> R -> R.
Arguments upd {R E} proj {_} f r.

Ltac solve_setter :=
  lazymatch goal with
  | |- @Setter ?R ?E ?proj =>
      let f := fresh "f" in
      let r := fresh "r" in
      intros f r;
      let e := constr:(@eta R _ r) in
      let e := eval hnf in e in
      lazymatch e with
      | context C [proj r] => let b := context C [f (proj r)] in exact b
      end
  end.
#[global] Hint Extern 1 (Setter _) => solve_setter : typeclass_instances.

Definition const_upd {E : Type} (v : E) : E -> E := fun _ => v.
Arguments const_upd {E} v _ /.

Notation "r <| proj := v |>" := (upd proj (const_upd v) r)
  (at level 1, left associativity, format "r <| proj := v |>") : kern_scope.
Notation "r <| proj ::= f |>" := (upd proj f r)
  (at level 1, left associativity, format "r <| proj ::= f |>") : kern_scope.

(** * The kernel monad *)

(** What a piece of kernel code does from a state: it returns; it leaves the
    CPU through [swtch] (a [sleep], a [yield] or the end of [exit]), with the
    state the scheduler finds; it calls [panic]; it does something C leaves
    undefined (an invalid pointer, a signed overflow); or the model's loop
    bound is too small. *)
Inductive outcome (S A : Type) : Type :=
| Ret (a : A) (s : S)
| Switch (s : S)
| Panic (msg : string)
| Fault
| NoFuel.
Arguments Ret {S A} a s.
Arguments Switch {S A} s.
Arguments Panic {S A} msg.
Arguments Fault {S A}.
Arguments NoFuel {S A}.

Definition M (S A : Type) : Type := S -> outcome S A.

Section Monad.
Context {S : Type}.

Definition ret {A} (a : A) : M S A := fun s => Ret a s.
Definition bind {A B} (m : M S A) (f : A -> M S B) : M S B := fun s =>
  match m s with
  | Ret a s' => f a s'
  | Switch s' => Switch s'
  | Panic msg => Panic msg
  | Fault => Fault
  | NoFuel => NoFuel
  end.
Definition panic {A} (msg : string) : M S A := fun _ => Panic msg.
Definition fault {A} : M S A := fun _ => Fault.
Definition nofuel {A} : M S A := fun _ => NoFuel.
Definition swtch {A} : M S A := fun s => Switch s.
Definition gets {A} (f : S -> A) : M S A := fun s => Ret (f s) s.
Definition modify (f : S -> S) : M S unit := fun s => Ret tt (f s).
(** A null or out-of-range access faults. *)
Definition deref {A} (o : option A) : M S A :=
  match o with Some a => ret a | None => fault end.
End Monad.

Notation "x <- m ;; k" := (bind m (fun x => k))
  (at level 20, m at level 99, k at level 200) : kern_scope.
Notation "' p <- m ;; k" := (bind m (fun x => match x with p => k end))
  (at level 20, p pattern, m at level 99, k at level 200) : kern_scope.
Notation "m ;;; k" := (bind m (fun _ => k))
  (at level 100, k at level 200, right associativity) : kern_scope.

Definition whenM {S} (b : bool) (m : M S unit) : M S unit := if b then m else ret tt.

(** ** Loops *)

(** [for] over a fixed range without an exit. *)
Fixpoint forM {S A} (l : list A) (body : A -> M S unit) : M S unit :=
  match l with
  | [] => ret tt
  | a :: l => body a;;; forM l body
  end.

(** [for] over a fixed range with [continue], [break] and [return]: the
    result is [Some r] when the body returned [r] from the function. *)
Inductive ctl (R : Type) : Type := Continue | Break | Return (r : R).
Arguments Continue {R}.
Arguments Break {R}.
Arguments Return {R} r.

Fixpoint scan {S A R} (l : list A) (body : A -> M S (ctl R)) : M S (option R) :=
  match l with
  | [] => ret None
  | a :: l =>
      c <- body a;;
      match c with
      | Continue => scan l body
      | Break => ret None
      | Return r => ret (Some r)
      end
  end.

(** A loop with a carried variable: the body continues with [inl] and leaves
    the loop with [inr]. *)
Fixpoint loop {S A R} (fuel : nat) (body : A -> M S (A + R)) (a : A) : M S R :=
  match fuel with
  | O => nofuel
  | Datatypes.S fuel =>
      x <- body a;;
      match x with inl a' => loop fuel body a' | inr r => ret r end
  end.

(** ** Laws of the monad *)

Section Laws.
Context {S : Type}.

Lemma bind_ret_l {A B} (a : A) (f : A -> M S B) s : bind (ret a) f s = f a s.
Proof. reflexivity. Qed.

Lemma bind_assoc {A B C} (m : M S A) (f : A -> M S B) (g : B -> M S C) s :
  bind (bind m f) g s = bind m (fun a => bind (f a) g) s.
Proof. unfold bind. by destruct (m s). Qed.

Lemma bind_Ret {A B} (m : M S A) (f : A -> M S B) s b s' :
  bind m f s = Ret b s' <-> exists a s1, m s = Ret a s1 /\ f a s1 = Ret b s'.
Proof.
  unfold bind. split.
  - destruct (m s) eqn:E; try done. eauto.
  - by intros (a & s1 & -> & ?).
Qed.

Lemma bind_eq {A B} (m : M S A) (f : A -> M S B) s a s' :
  m s = Ret a s' -> bind m f s = f a s'.
Proof. unfold bind. by intros ->. Qed.

Lemma bind_gets {A B} (g : S -> A) (f : A -> M S B) s : bind (gets g) f s = f (g s) s.
Proof. reflexivity. Qed.
Lemma bind_modify {B} (g : S -> S) (f : unit -> M S B) s :
  bind (modify g) f s = f tt (g s).
Proof. reflexivity. Qed.
Lemma bind_deref {A B} (a : A) (f : A -> M S B) s : bind (deref (Some a)) f s = f a s.
Proof. reflexivity. Qed.
Lemma bind_panic {A B} msg (f : A -> M S B) s : bind (panic msg) f s = Panic msg.
Proof. reflexivity. Qed.
Lemma bind_fault {A B} (f : A -> M S B) s : bind fault f s = Fault.
Proof. reflexivity. Qed.
End Laws.

(** Running code symbolically: [mrun] performs the primitive operations at
    the head of a computation. *)
Create Rewrite HintDb kern.
#[export] Hint Rewrite @bind_ret_l @bind_assoc @bind_gets @bind_modify @bind_deref
  @bind_panic @bind_fault : kern.
Ltac mrun := autorewrite with kern; cbv beta.

(** Unfolds the monad. *)
Ltac munfold :=
  unfold deref, bind, gets, modify, ret, panic, fault, nofuel, swtch in *;
  cbv beta match in *.

(** ** Frame reasoning *)

(** [Keeps R Q m]: from any state, [m] relates the state it starts from to
    the state it returns in by [R], and to the one it switches away in by
    [Q].  The instances compose, so that what a whole function leaves alone
    follows from what its primitive updates leave alone. *)
Class Keeps {S A} (R Q : S -> S -> Prop) (m : M S A) : Prop :=
  keeps : forall s, match m s with
                    | Ret _ s' => R s s'
                    | Switch s' => Q s s'
                    | _ => True
                    end.

Lemma keeps_Ret {S A} R Q (m : M S A) `{!Keeps R Q m} s a s' :
  m s = Ret a s' -> R s s'.
Proof. intros E. specialize (keeps (Keeps := Keeps0) s). by rewrite E. Qed.

Lemma keeps_Switch {S A} R Q (m : M S A) `{!Keeps R Q m} s s' :
  m s = Switch s' -> Q s s'.
Proof. intros E. specialize (keeps (Keeps := Keeps0) s). by rewrite E. Qed.

Class Frame {S} (R Q : S -> S -> Prop) : Prop := {
  frame_refl : forall s, R s s;
  frame_trans : forall a b c, R a b -> R b c -> R a c;
  frame_switch : forall a b c, R a b -> Q b c -> Q a c;
}.

Lemma keeps_weaken {S A} (R Q R' Q' : S -> S -> Prop) (m : M S A) :
  (forall s s', R s s' -> R' s s') -> (forall s s', Q s s' -> Q' s s') ->
  Keeps R Q m -> Keeps R' Q' m.
Proof. intros HR HQ Hm s. specialize (Hm s). destruct (m s); auto. Qed.

Section Keeps.
Context {S : Type} (R Q : S -> S -> Prop) `{!Frame R Q}.

#[export] Instance keeps_ret {A} (a : A) : Keeps R Q (ret a).
Proof. intros s. apply frame_refl. Qed.
#[export] Instance keeps_panic {A} msg : Keeps R Q (panic (A:=A) msg).
Proof. done. Qed.
#[export] Instance keeps_fault {A} : Keeps R Q (fault (A:=A)).
Proof. done. Qed.
#[export] Instance keeps_nofuel {A} : Keeps R Q (nofuel (A:=A)).
Proof. done. Qed.
#[export] Instance keeps_gets {A} (f : S -> A) : Keeps R Q (gets f).
Proof. intros s. apply frame_refl. Qed.
#[export] Instance keeps_deref {A} (o : option A) : Keeps R Q (deref o).
Proof. destruct o; apply _. Qed.

Lemma keeps_bind {A B} (m : M S A) (f : A -> M S B) :
  Keeps R Q m -> (forall a, Keeps R Q (f a)) -> Keeps R Q (bind m f).
Proof.
  intros Hm Hf s. specialize (Hm s). unfold bind.
  destruct (m s) as [a s1| | | |]; try done.
  specialize (Hf a s1). destruct (f a s1); try done.
  - eapply frame_trans; eauto.
  - eapply frame_switch; eauto.
Qed.

Lemma keeps_if {A} (b : bool) (m1 m2 : M S A) :
  Keeps R Q m1 -> Keeps R Q m2 -> Keeps R Q (if b then m1 else m2).
Proof. by destruct b. Qed.
Lemma keeps_when b (m : M S unit) : Keeps R Q m -> Keeps R Q (whenM b m).
Proof. destruct b; [done|intros; apply _]. Qed.

Lemma keeps_forM {A} (l : list A) body :
  (forall a, Keeps R Q (body a)) -> Keeps R Q (forM l body).
Proof. intros. induction l; simpl; [apply _|]. by apply keeps_bind. Qed.

Lemma keeps_scan {A T} (l : list A) (body : A -> M S (ctl T)) :
  (forall a, Keeps R Q (body a)) -> Keeps R Q (scan l body).
Proof.
  intros. induction l; simpl; [apply _|].
  apply keeps_bind; [done|]. intros []; try done; apply _.
Qed.

Lemma keeps_loop {A T} n (body : A -> M S (A + T)) a :
  (forall a, Keeps R Q (body a)) -> Keeps R Q (loop n body a).
Proof.
  intros. revert a. induction n; intros a; simpl; [apply _|].
  apply keeps_bind; [done|]. intros []; try done; apply _.
Qed.
End Keeps.

(** Descends through the control structure of a function to its primitive
    updates and the calls that have an instance. *)
Ltac keeps_step :=
  lazymatch goal with
  | |- forall _, _ => intros ?
  | |- Keeps _ _ (let _ := _ in _) => cbv zeta
  | |- Keeps _ _ (bind _ _) => apply keeps_bind; [apply _| |]
  | |- Keeps _ _ (whenM _ _) => apply keeps_when; [apply _|]
  | |- Keeps _ _ (forM _ _) => apply keeps_forM; [apply _|]
  | |- Keeps _ _ (scan _ _) => apply keeps_scan; [apply _|]
  | |- Keeps _ _ (loop _ _ _) => apply keeps_loop; [apply _|]
  | |- Keeps _ _ (match ?x with _ => _ end) => destruct x
  | |- Keeps _ _ _ => apply _
  end.
Ltac solve_keeps := repeat keeps_step.

(** * Lists *)

(** First index from [i] at which [P] holds. *)
Fixpoint find_from {A} (P : A -> bool) (i : nat) (l : list A) : option nat :=
  match l with
  | [] => None
  | a :: l => if P a then Some i else find_from P (S i) l
  end.

Definition find_index {A} (P : A -> bool) (l : list A) : option nat := find_from P 0 l.

Lemma find_from_Some {A} (P : A -> bool) i l k :
  find_from P i l = Some k <->
  exists a, (i <= k)%nat /\ l !! (k - i)%nat = Some a /\ P a = true /\
    forall j b, (i <= j < k)%nat -> l !! (j - i)%nat = Some b -> P b = false.
Proof.
  revert i. induction l as [|a l IH]; intros i; simpl.
  { split; [done|]. intros (? & ? & ? & _). done. }
  destruct (P a) eqn:Ha; split.
  - intros [= <-]. exists a. rewrite Nat.sub_diag. repeat split; auto. lia.
  - intros (b & Hik & Hb & HPb & Hmin). f_equal.
    destruct (decide (i = k)) as [|Hne]; [done|].
    specialize (Hmin i a). rewrite Nat.sub_diag in Hmin.
    rewrite Hmin in Ha; [done|lia|done].
  - intros (b & Hik & Hb & HPb & Hmin)%IH. exists b.
    replace (k - i)%nat with (S (k - S i)) by lia.
    repeat split; auto; [lia|].
    intros j c Hj. destruct (decide (j = i)) as [->|].
    { rewrite Nat.sub_diag. by intros [= ->]. }
    replace (j - i)%nat with (S (j - S i)) by lia. apply Hmin. lia.
  - intros (b & Hik & Hb & HPb & Hmin). apply IH. exists b.
    destruct (decide (i = k)) as [->|].
    { rewrite Nat.sub_diag in Hb. injection Hb as ->. congruence. }
    replace (k - i)%nat with (S (k - S i)) in Hb by lia.
    repeat split; auto; [lia|].
    intros j c Hj Hc. apply (Hmin j); [lia|].
    by replace (j - i)%nat with (S (j - S i)) by lia.
Qed.

Lemma find_from_None {A} (P : A -> bool) i l :
  find_from P i l = None <-> forall j a, l !! j = Some a -> P a = false.
Proof.
  revert i. induction l as [|a l IH]; intros i; simpl.
  { split; [|done]. intros _ j b. done. }
  destruct (P a) eqn:Ha; split; intros H; try done.
  - by specialize (H 0%nat a eq_refl); congruence.
  - intros [|j] b; [by intros [= <-]|]. apply IH with (S i). done.
  - apply IH. intros j b. apply (H (S j)).
Qed.

(** What [find_index] returns: the first index whose element satisfies [P]. *)
Lemma find_index_Some {A} (P : A -> bool) l k :
  find_index P l = Some k <->
  exists a, l !! k = Some a /\ P a = true /\
    forall j b, (j < k)%nat -> l !! j = Some b -> P b = false.
Proof.
  unfold find_index. rewrite find_from_Some.
  split; intros (a & H); exists a; rewrite ?Nat.sub_0_r in *;
    repeat split; try apply H; try lia.
  - intros j b Hj Hb. apply (proj2 (proj2 (proj2 H)) j); [lia|]. by rewrite Nat.sub_0_r.
  - intros j b Hj. rewrite Nat.sub_0_r. apply H. lia.
Qed.

Lemma find_index_None {A} (P : A -> bool) l :
  find_index P l = None <-> forall j a, l !! j = Some a -> P a = false.
Proof. apply find_from_None. Qed.

Lemma filter_ne_id {A} `{EqDecision A} (x : A) (l : list A) :
  x ∉ l -> filter (.≠ x) l = l.
Proof.
  induction l as [|y l IH]; [done|]. intros H.
  rewrite filter_cons_True by set_solver. f_equal. apply IH. set_solver.
Qed.

Lemma Forall2_fmap_self {A} (P : A -> A -> Prop) (f : A -> A) (l : list A) :
  (forall x, P x (f x)) -> Forall2 P l (f <$> l).
Proof. intros H. induction l; constructor; auto. Qed.

Lemma list_alter_at {A} (f : A -> A) i x (l : list A) :
  l !! i = Some x -> alter f i l = <[i := f x]> l.
Proof.
  intros H. apply list_eq. intros j. destruct (decide (i = j)) as [->|Hne].
  - rewrite list_lookup_alter_eq, list_lookup_insert_eq; [by rewrite H|].
    by eapply lookup_lt_Some.
  - by rewrite list_lookup_alter_ne, list_lookup_insert_ne.
Qed.
Lemma list_alter_inserted {A} (f : A -> A) i x (l : list A) :
  alter f i (<[i := x]> l) = <[i := f x]> l.
Proof. revert i. induction l as [|y l IH]; intros [|i]; [done..|]. cbn. f_equal. apply IH. Qed.

(** * Total runs *)

Section Runs.
Context {St : Type}.

(** [m] returns from [s], and its result and end state satisfy [Q]. *)
Definition returns {A} (m : M St A) (s : St) (Q : A -> St -> Prop) : Prop :=
  exists a s', m s = Ret a s' /\ Q a s'.

Lemma returns_bind {A B} (m : M St A) (f : A -> M St B) s Q1 Q2 :
  returns m s Q1 -> (forall a s', Q1 a s' -> returns (f a) s' Q2) -> returns (bind m f) s Q2.
Proof.
  intros (a & s1 & E & H1) Hf. destruct (Hf a s1 H1) as (b & s2 & E2 & H2).
  exists b, s2. split; [|done]. by rewrite (bind_eq _ _ _ _ _ E).
Qed.
Lemma returns_ret {A} (a : A) s (Q : A -> St -> Prop) : Q a s -> returns (ret a) s Q.
Proof. intros H. by exists a, s. Qed.
Lemma returns_gets {A} (f : St -> A) s : returns (gets f) s (fun a s' => a = f s /\ s' = s).
Proof. by exists (f s), s. Qed.
Lemma returns_modify (f : St -> St) s : returns (modify f) s (fun _ s' => s' = f s).
Proof. by exists tt, (f s). Qed.
Lemma returns_mono {A} (m : M St A) s (Q Q' : A -> St -> Prop) :
  returns m s Q -> (forall a s', Q a s' -> Q' a s') -> returns m s Q'.
Proof. intros (a & s' & E & H) HQ. exists a, s'. auto. Qed.

(** A loop over [0 .. n-1] with an invariant. *)
Lemma returns_forM (I : nat -> St -> Prop) (body : nat -> M St unit) n s :
  I 0%nat s ->
  (forall i s, (i < n)%nat -> I i s -> returns (body i) s (fun _ => I (S i))) ->
  returns (forM (seq 0 n) body) s (fun _ => I n).
Proof.
  intros H0 Hbody.
  assert (Hgen : forall k i s, (i + k = n)%nat -> I i s ->
            returns (forM (seq i k) body) s (fun _ => I n)).
  { induction k as [|k IH]; intros i s1 Hik Hi; cbn [seq forM].
    - apply returns_ret. by rewrite <- Hik, Nat.add_0_r.
    - eapply returns_bind; [apply Hbody; [lia|done]|]. intros [] s2 H2. apply IH; [lia|done]. }
  by apply Hgen.
Qed.

(** A loop over a list; the invariant tells the elements done. *)
Lemma returns_forM_list {A} (I : list A -> St -> Prop) (body : A -> M St unit) l s :
  I [] s ->
  (forall pre a post s, l = pre ++ a :: post -> I pre s -> returns (body a) s (fun _ => I (pre ++ [a]))) ->
  returns (forM l body) s (fun _ => I l).
Proof.
  intros H0 Hbody.
  assert (Hgen : forall post pre s, l = pre ++ post -> I pre s -> returns (forM post body) s (fun _ => I l)).
  { induction post as [|a post IH]; intros pre s1 E Hi; cbn [forM].
    - apply returns_ret. by rewrite E, app_nil_r.
    - eapply returns_bind; [by eapply Hbody|]. intros [] s2 H2. apply (IH (pre ++ [a])); [|done]. by rewrite <- app_assoc. }
  by apply (Hgen l []).
Qed.

(** A loop with an invariant on the variable it carries and a measure that
    falls below the loop's fuel. *)
Section Loop.
Context {A R : Type} (I : A -> St -> Prop) (meas : A -> nat) (body : A -> M St (A + R)).

Lemma returns_loop n a s (Q : R -> St -> Prop) :
  I a s -> (meas a < n)%nat ->
  (forall a s, I a s -> returns (body a) s (fun x s' =>
     match x with inl a' => I a' s' /\ (meas a' < meas a)%nat | inr r => Q r s' end)) ->
  returns (loop n body a) s Q.
Proof.
  intros Ha Hn Hbody. revert a s Ha Hn. induction n as [|n IH]; intros a s Ha Hn; [lia|]. cbn [loop].
  eapply returns_bind; [by apply Hbody|]. intros [a'|r] s'; [|apply returns_ret].
  intros [Ha' Hm]. apply IH; [done|lia].
Qed.

Lemma panics_loop n a s msg :
  I a s -> (meas a < n)%nat ->
  (forall a s, I a s -> body a s = Panic msg \/
     exists a' s', body a s = Ret (inl a') s' /\ I a' s' /\ (meas a' < meas a)%nat) ->
  loop n body a s = Panic msg.
Proof.
  intros Ha Hn Hbody. revert a s Ha Hn. induction n as [|n IH]; intros a s Ha Hn; [lia|]. cbn [loop].
  destruct (Hbody a s Ha) as [E|(a' & s' & E & Ha' & Hm)].
  - unfold bind. by rewrite E.
  - rewrite (bind_eq _ _ _ _ _ E). apply IH; [done|lia].
Qed.
End Loop.

Lemma returns_run {A B} (m : M St A) (f : A -> M St B) s a s' Q : m s = Ret a s' -> returns (f a) s' Q -> returns (bind m f) s Q.
Proof. intros E H. unfold returns. by rewrite (bind_eq _ _ _ _ _ E). Qed.

(** What is true of the rest of a run that returns is true of the run. *)
Lemma bind_ends {A B} (m : M St A) (f : A -> M St B) s Q (W : outcome St B -> Prop) :
  returns m s Q -> (forall a s', Q a s' -> W (f a s')) -> W (bind m f s).
Proof. intros (a & s1 & E & HQ) Hf. rewrite (bind_eq _ _ _ _ _ E). by apply Hf. Qed.

Lemma returns_ret_bind {A B} (a : A) (f : A -> M St B) s Q : returns (f a) s Q -> returns (bind (ret a) f) s Q.
Proof. done. Qed.

Lemma returns_assoc {A B C} (m : M St A) (f : A -> M St B) (g : B -> M St C) s Q :
  returns (bind m (fun a => bind (f a) g)) s Q -> returns (bind (bind m f) g) s Q.
Proof. intros (c & s' & E & HQ). exists c, s'. split; [|done]. by rewrite bind_assoc. Qed.

(** A run that stops in a panic: after its first command, or in it. *)
Lemma panics_bind {A B} (m : M St A) (f : A -> M St B) s Q msg :
  returns m s Q -> (forall a s', Q a s' -> f a s' = Panic msg) -> bind m f s = Panic msg.
Proof. apply (bind_ends m f s Q (fun o => o = Panic msg)). Qed.
Lemma panics_first {A B} (m : M St A) (f : A -> M St B) s msg : m s = Panic msg -> bind m f s = Panic msg.
Proof. intros E. unfold bind. by rewrite E. Qed.
End Runs.

(** Runs the first command of a sequence by the rule [lem] and names its
    result, the state after it and what holds there. *)
Tactic Notation "tx_step" uconstr(lem) "as" ident(a) ident(s) ident(X) :=
  eapply returns_bind;
  [eapply lem; first [done|apply list_elem_of_here|assumption|idtac]
  |intros a s X; cbn beta in X].
Tactic Notation "panic_step" uconstr(lem) "as" ident(a) ident(s) ident(X) :=
  eapply panics_bind;
  [eapply lem; first [done|apply list_elem_of_here|assumption|idtac]
  |intros a s X; cbn beta in X].
