(* ===== verification/Kstate.v ===== *)
(** Data model of the kernel: the constants of [param.h], [mmu.h],
    [memlayout.h], [fs.h] and [buf.h], the structures of [proc.h], [file.h],
    [buf.h], [sleeplock.h], [x86.h], [log.c], [pipe.c], [kalloc.c] and
    [console.c], and the record of all kernel state the operations of the
    other files act on.

    Pointers into the kernel's fixed tables ([struct proc *], [struct file *],
    [struct inode *], [struct buf *]) are indices, with [None] for the null
    pointer; pointers to allocated pages are kernel virtual addresses. *)
From S2P Require Import Prelude.

(** * Constants *)

(** param.h *)
Definition NPROC : nat := 64.
Definition KSTACKSIZE : Z := 4096.
Definition NCPU : nat := 8.
Definition NOFILE : nat := 16.
Definition NFILE : nat := 100.
Definition NINODE : nat := 50.
Definition NDEV : Z := 10.
Definition ROOTDEV : Z := 1.
Definition MAXARG : nat := 32.
Definition MAXOPBLOCKS : Z := 10.
Definition LOGSIZE : Z := MAXOPBLOCKS * 3.
Definition NBUF : nat := Z.to_nat (MAXOPBLOCKS * 3).
Definition FSSIZE : Z := 1000.

(** memlayout.h *)
Definition EXTMEM : Z := 0x100000.
Definition PHYSTOP : Z := 0xE000000.
Definition DEVSPACE : Z := 0xFE000000.
Definition KERNBASE : Z := 0x80000000.
Definition KERNLINK : Z := KERNBASE + EXTMEM.
Definition V2P (a : Z) : Z := u32 (a - KERNBASE).
Definition P2V (a : Z) : Z := u32 (a + KERNBASE).

(** mmu.h *)
Definition FL_IF : Z := 0x200.
Definition SEG_KCODE : Z := 1.
Definition SEG_KDATA : Z := 2.
Definition SEG_UCODE : Z := 3.
Definition SEG_UDATA : Z := 4.
Definition SEG_TSS : Z := 5.
Definition DPL_USER : Z := 3.
Definition NPDENTRIES : nat := 1024.
Definition NPTENTRIES : nat := 1024.
Definition PGSIZE : Z := 4096.
Definition PTXSHIFT : Z := 12.
Definition PDXSHIFT : Z := 22.
Definition PTE_P : Z := 1.
Definition PTE_W : Z := 2.
Definition PTE_U : Z := 4.
Definition PDX (va : Z) : Z := Z.land (Z.shiftr va PDXSHIFT) 0x3FF.
Definition PTX (va : Z) : Z := Z.land (Z.shiftr va PTXSHIFT) 0x3FF.
Definition PGADDR (d t o : Z) : Z :=
  u32 (Z.lor (Z.lor (Z.shiftl d PDXSHIFT) (Z.shiftl t PTXSHIFT)) o).
Definition PGROUNDUP (sz : Z) : Z := Z.land (u32 (sz + PGSIZE - 1)) (u32 (Z.lnot (PGSIZE - 1))).
Definition PGROUNDDOWN (a : Z) : Z := Z.land a (u32 (Z.lnot (PGSIZE - 1))).
Definition PTE_ADDR (pte : Z) : Z := Z.land pte (u32 (Z.lnot 0xFFF)).
Definition PTE_FLAGS (pte : Z) : Z := Z.land pte 0xFFF.

(** fs.h, stat.h and fcntl.h *)
Definition ROOTINO : Z := 1.
Definition BSIZE : Z := 512.
Definition NDIRECT : Z := 12.
Definition NINDIRECT : Z := BSIZE / 4.
Definition MAXFILE : Z := NDIRECT + NINDIRECT.
Definition sizeof_dinode : Z := 64.
Definition IPB : Z := BSIZE / sizeof_dinode.
Definition BPB : Z := BSIZE * 8.
Definition DIRSIZ : Z := 14.
Definition sizeof_dirent : Z := 16.
Definition T_DIR : Z := 1.
Definition T_FILE : Z := 2.
Definition T_DEV : Z := 3.
Definition O_RDONLY : Z := 0.
Definition O_WRONLY : Z := 1.
Definition O_RDWR : Z := 2.
Definition O_CREATE : Z := 0x200.

(** buf.h, pipe.c, console.c and file.h *)
Definition B_VALID : Z := 2.
Definition B_DIRTY : Z := 4.
Definition PIPESIZE : Z := 512.
Definition INPUT_BUF : Z := 128.
Definition CONSOLE : Z := 1.

(** * What the linker decides *)

(** Addresses the linker script [kernel.ld] provides: [data] is aligned to a
    page, after the text linked at [KERNLINK], and [end] is the first address
    after the kernel, which the boot page table ([entrypgdir], 4 MB) maps. *)
Class KernelLayout := {
  kdata : Z;
  kend : Z;
  trapret : Z;
  forkret_addr : Z;
  kdata_aligned : kdata mod PGSIZE = 0;
  kdata_linked : KERNLINK < kdata;
  kend_after : kdata <= kend;
  kend_mapped : kend < P2V (4 * 1024 * 1024);
}.

(** * Names of spin locks and sleep channels *)

(** The spin locks of the kernel, one constructor per lock object. *)
Inductive lockid : Type :=
| L_ptable | L_kmem | L_ftable | L_icache | L_bcache | L_log | L_cons
| L_ide | L_ticks
| L_pipe (p : Z)
| L_bufsleep (b : nat)     (* the [lk] inside the sleep lock of a buffer *)
| L_inodesleep (i : nat).  (* the [lk] inside the sleep lock of an inode *)
#[export] Instance lockid_eq_dec : EqDecision lockid.
Proof. solve_decision. Defined.

(** The addresses processes sleep on, one constructor per object. *)
Inductive chan : Type :=
| C_proc (i : nat)         (* a [struct proc], in [wait] and [join] *)
| C_ticks                  (* [&ticks] *)
| C_log                    (* [&log] *)
| C_buf (b : nat)          (* a [struct buf], in [iderw] *)
| C_bufsleep (b : nat)     (* the sleep lock of a buffer *)
| C_inodesleep (i : nat)   (* the sleep lock of an inode *)
| C_nread (p : Z)          (* [&p->nread] *)
| C_nwrite (p : Z)         (* [&p->nwrite] *)
| C_input.                 (* [&input.r] *)
#[export] Instance chan_eq_dec : EqDecision chan.
Proof. solve_decision. Defined.

(** * Structures *)

(** proc.h: [enum procstate] *)
Inductive procstate : Type := UNUSED | EMBRYO | SLEEPING | RUNNABLE | RUNNING | ZOMBIE.
#[export] Instance procstate_eq_dec : EqDecision procstate.
Proof. solve_decision. Defined.

(** x86.h: [struct trapframe], without its padding fields *)
Record trapframe : Type := mkTf {
  tf_edi : Z;
  tf_esi : Z;
  tf_ebp : Z;
  tf_oesp : Z;
  tf_ebx : Z;
  tf_edx : Z;
  tf_ecx : Z;
  tf_eax : Z;
  tf_gs : Z;
  tf_fs : Z;
  tf_es : Z;
  tf_ds : Z;
  tf_trapno : Z;
  tf_err : Z;
  tf_eip : Z;
  tf_cs : Z;
  tf_eflags : Z;
  tf_esp : Z;
  tf_ss : Z;
}.
#[export] Instance eta_trapframe : Eta trapframe := fun r =>
  mkTf (tf_edi r) (tf_esi r) (tf_ebp r) (tf_oesp r) (tf_ebx r) (tf_edx
    r) (tf_ecx r) (tf_eax r) (tf_gs r) (tf_fs r) (tf_es r) (tf_ds r)
    (tf_trapno r) (tf_err r) (tf_eip r) (tf_cs r) (tf_eflags r) (tf_esp
    r) (tf_ss r).

Definition sizeof_trapframe : Z := 76.
Definition tf_zero : trapframe := mkTf 0 0 0 0 0 0 0 0 0 0 0 0 0 0 0 0 0 0 0.

(** proc.h: [struct context] *)
Record context : Type := mkCtx {
  cx_edi : Z;
  cx_esi : Z;
  cx_ebx : Z;
  cx_ebp : Z;
  cx_eip : Z;
}.
#[export] Instance eta_context : Eta context := fun r =>
  mkCtx (cx_edi r) (cx_esi r) (cx_ebx r) (cx_ebp r) (cx_eip r).

Definition sizeof_context : Z := 20.
Definition ctx_zero : context := mkCtx 0 0 0 0 0.

(** proc.h: [struct proc].  [p_tf] and [p_context] are the contents of the
    frames that [tf] and [context] point to in the process's kernel stack. *)
Record proc : Type := mkProc {
  p_sz : Z;
  p_pgdir : Z;
  p_kstack : Z;
  p_state : procstate;
  p_pid : Z;
  p_parent : option nat;
  p_tf : trapframe;
  p_context : context;
  p_chan : option chan;
  p_killed : Z;
  p_ofile : list (option nat);
  p_cwd : option nat;
  p_name : list Z;
  p_isThread : Z;
  p_tstack : Z;
  p_pthread : option nat;
  p_tgid : Z;
  p_CLONE_VM : Z;
  p_CLONE_FILES : Z;
  p_CLONE_FS : Z;
  p_CLONE_PARENT : Z;
  p_CLONE_THREAD : Z;
  p_ofile_clone : list (option nat);
  p_cwd_clone : list (option nat);
}.
#[export] Instance eta_proc : Eta proc := fun r =>
  mkProc (p_sz r) (p_pgdir r) (p_kstack r) (p_state r) (p_pid r)
    (p_parent r) (p_tf r) (p_context r) (p_chan r) (p_killed r) (p_ofile
    r) (p_cwd r) (p_name r) (p_isThread r) (p_tstack r) (p_pthread r)
    (p_tgid r) (p_CLONE_VM r) (p_CLONE_FILES r) (p_CLONE_FS r)
    (p_CLONE_PARENT r) (p_CLONE_THREAD r) (p_ofile_clone r) (p_cwd_clone
    r).

Definition proc_zero : proc :=
  mkProc 0 0 0 UNUSED 0 None tf_zero ctx_zero None 0 (replicate NOFILE None) None
    (replicate 16 0) 0 0 None 0 0 0 0 0 0 (replicate NPROC None) (replicate NPROC None).

(** sleeplock.h: [struct sleeplock]; its spin lock is named by [lockid] *)
Record sleeplock : Type := mkSl {
  sl_locked : Z;
  sl_pid : Z;
}.
#[export] Instance eta_sleeplock : Eta sleeplock := fun r =>
  mkSl (sl_locked r) (sl_pid r).

Definition sl_zero : sleeplock := mkSl 0 0.

(** file.h: the type of a [struct file] *)
Inductive ftype : Type := FD_NONE | FD_PIPE | FD_INODE.
#[export] Instance ftype_eq_dec : EqDecision ftype.
Proof. solve_decision. Defined.

(** file.h: [struct file] *)
Record file : Type := mkFile {
  f_type : ftype;
  f_ref : Z;
  f_readable : Z;
  f_writable : Z;
  f_pipe : Z;
  f_ip : option nat;
  f_off : Z;
}.
#[export] Instance eta_file : Eta file := fun r =>
  mkFile (f_type r) (f_ref r) (f_readable r) (f_writable r) (f_pipe r)
    (f_ip r) (f_off r).

Definition file_zero : file := mkFile FD_NONE 0 0 0 0 None 0.

(** file.h: [struct inode], the in-memory copy of an inode *)
Record inode : Type := mkInode {
  i_dev : Z;
  i_inum : Z;
  i_ref : Z;
  i_lock : sleeplock;
  i_valid : Z;
  i_type : Z;
  i_major : Z;
  i_minor : Z;
  i_nlink : Z;
  i_size : Z;
  i_addrs : list Z;
}.
#[export] Instance eta_inode : Eta inode := fun r =>
  mkInode (i_dev r) (i_inum r) (i_ref r) (i_lock r) (i_valid r) (i_type
    r) (i_major r) (i_minor r) (i_nlink r) (i_size r) (i_addrs r).

Definition inode_zero : inode :=
  mkInode 0 0 0 sl_zero 0 0 0 0 0 0 (replicate (Z.to_nat (NDIRECT + 1)) 0).

(** buf.h: [struct buf]; the links [prev], [next] are the order of
    [bc_order] below and [qnext] the order of [k_idequeue] *)
Record buf : Type := mkBuf {
  b_flags : Z;
  b_dev : Z;
  b_blockno : Z;
  b_lock : sleeplock;
  b_refcnt : Z;
  b_data : list Z;
}.
#[export] Instance eta_buf : Eta buf := fun r =>
  mkBuf (b_flags r) (b_dev r) (b_blockno r) (b_lock r) (b_refcnt r)
    (b_data r).

Definition zero_block : list Z := replicate (Z.to_nat BSIZE) 0.
Definition buf_zero : buf := mkBuf 0 0 0 sl_zero 0 zero_block.

(** bio.c: [bcache]; [bc_order] lists the buffers from [head.next], the
    most recently used, to [head.prev] *)
Record bcache : Type := mkBc {
  bc_buf : list buf;
  bc_order : list nat;
}.
#[export] Instance eta_bcache : Eta bcache := fun r =>
  mkBc (bc_buf r) (bc_order r).

(** fs.h: [struct superblock] *)
Record superblock : Type := mkSb {
  sb_size : Z;
  sb_nblocks : Z;
  sb_ninodes : Z;
  sb_nlog : Z;
  sb_logstart : Z;
  sb_inodestart : Z;
  sb_bmapstart : Z;
}.
#[export] Instance eta_superblock : Eta superblock := fun r =>
  mkSb (sb_size r) (sb_nblocks r) (sb_ninodes r) (sb_nlog r)
    (sb_logstart r) (sb_inodestart r) (sb_bmapstart r).

Definition sb_zero : superblock := mkSb 0 0 0 0 0 0 0.

(** fs.h: [struct dinode], the on-disk inode *)
Record dinode : Type := mkDinode {
  d_type : Z;
  d_major : Z;
  d_minor : Z;
  d_nlink : Z;
  d_size : Z;
  d_addrs : list Z;
}.
#[export] Instance eta_dinode : Eta dinode := fun r =>
  mkDinode (d_type r) (d_major r) (d_minor r) (d_nlink r) (d_size r)
    (d_addrs r).

(** fs.h: [struct dirent] *)
Record dirent : Type := mkDirent {
  de_inum : Z;
  de_name : list Z;
}.
#[export] Instance eta_dirent : Eta dirent := fun r =>
  mkDirent (de_inum r) (de_name r).

(** log.c: [struct log] with its [struct logheader] *)
Record log : Type := mkLog {
  lg_start : Z;
  lg_size : Z;
  lg_outstanding : Z;
  lg_committing : Z;
  lg_dev : Z;
  lg_n : Z;
  lg_block : list Z;
}.
#[export] Instance eta_log : Eta log := fun r =>
  mkLog (lg_start r) (lg_size r) (lg_outstanding r) (lg_committing r)
    (lg_dev r) (lg_n r) (lg_block r).

Definition log_zero : log := mkLog 0 0 0 0 0 0 (replicate (Z.to_nat LOGSIZE) 0).

(** pipe.c: [struct pipe] *)
Record pipe : Type := mkPipe {
  pi_data : list Z;
  pi_nread : Z;
  pi_nwrite : Z;
  pi_readopen : Z;
  pi_writeopen : Z;
}.
#[export] Instance eta_pipe : Eta pipe := fun r =>
  mkPipe (pi_data r) (pi_nread r) (pi_nwrite r) (pi_readopen r)
    (pi_writeopen r).

(** kalloc.c: [kmem]; the free list runs through the free pages *)
Record kmem : Type := mkKmem {
  km_use_lock : Z;
  km_freelist : Z;
}.
#[export] Instance eta_kmem : Eta kmem := fun r =>
  mkKmem (km_use_lock r) (km_freelist r).

(** console.c: [input] *)
Record input : Type := mkInput {
  in_buf : list Z;
  in_r : Z;
  in_w : Z;
  in_e : Z;
}.
#[export] Instance eta_input : Eta input := fun r =>
  mkInput (in_buf r) (in_r r) (in_w r) (in_e r).

(** The devices a [devsw] entry can name; only the console registers one. *)
Inductive device : Type := Dev_console.

(** Byte-addressed memory as the kernel sees it: physical address [pa] is at
    [P2V pa].  A byte never written reads as zero. *)
Abbreviation mem := (gmap Z Z).

(** All kernel state, seen from the CPU that executes: its number, the
    process it runs, the page directory it has loaded and its kernel stack
    top, the spin locks it holds, and the shared tables.  [k_out] is what was
    sent to the console.  [k_dwrites] is a history variable: the block writes
    the disk has carried out, latest first. *)
Record kstate : Type := mkK {
  k_cpu : Z;
  k_cur : option nat;
  k_cr3 : Z;
  k_esp0 : Z;
  k_held : list lockid;
  k_procs : list proc;
  k_nextpid : Z;
  k_initproc : option nat;
  k_first : Z;
  k_mem : mem;
  k_kmem : kmem;
  k_kpgdir : Z;
  k_ftable : list file;
  k_pipes : gmap Z pipe;
  k_icache : list inode;
  k_sb : superblock;
  k_log : log;
  k_bcache : bcache;
  k_disk : list (list Z);
  k_dwrites : list (Z * list Z);
  k_devsw : list (option device);
  k_ticks : Z;
  k_input : input;
  k_out : list Z;
}.
#[export] Instance eta_kstate : Eta kstate := fun r =>
  mkK (k_cpu r) (k_cur r) (k_cr3 r) (k_esp0 r) (k_held r) (k_procs r)
    (k_nextpid r) (k_initproc r) (k_first r) (k_mem r) (k_kmem r)
    (k_kpgdir r) (k_ftable r) (k_pipes r) (k_icache r) (k_sb r) (k_log
    r) (k_bcache r) (k_disk r) (k_dwrites r) (k_devsw r) (k_ticks r)
    (k_input r) (k_out r).

(** States are equal when their fields are. *)
Lemma kstate_ext (s s' : kstate) :
  k_cpu s = k_cpu s' -> k_cur s = k_cur s' -> k_cr3 s = k_cr3 s' -> k_esp0 s = k_esp0 s' ->
  k_held s = k_held s' -> k_procs s = k_procs s' -> k_nextpid s = k_nextpid s' ->
  k_initproc s = k_initproc s' -> k_first s = k_first s' -> k_mem s = k_mem s' ->
  k_kmem s = k_kmem s' -> k_kpgdir s = k_kpgdir s' -> k_ftable s = k_ftable s' ->
  k_pipes s = k_pipes s' -> k_icache s = k_icache s' -> k_sb s = k_sb s' ->
  k_log s = k_log s' -> k_bcache s = k_bcache s' -> k_disk s = k_disk s' ->
  k_dwrites s = k_dwrites s' -> k_devsw s = k_devsw s' -> k_ticks s = k_ticks s' ->
  k_input s = k_input s' -> k_out s = k_out s' -> s = s'.
Proof. destruct s, s'. cbn. by intros; subst. Qed.

Definition K (A : Type) : Type := M kstate A.

(** The data segment as the boot loader leaves it: zeros, but for the
    initialised [nextpid] and [first]. *)
Definition kstate_zero : kstate :=
  mkK 0 None 0 0 [] (replicate NPROC proc_zero) 1 None 1 ∅ (mkKmem 0 0) 0
    (replicate NFILE file_zero) ∅ (replicate NINODE inode_zero) sb_zero log_zero
    (mkBc (replicate NBUF buf_zero) []) [] [] (replicate (Z.to_nat NDEV) None) 0
    (mkInput (replicate (Z.to_nat INPUT_BUF) 0) 0 0 0) [].

(** * Access to the tables *)

Definition get_proc (i : nat) : K proc :=
  s <- gets k_procs;; deref (s !! i).
Definition upd_proc (i : nat) (f : proc -> proc) : K unit :=
  modify (fun s => s <| k_procs ::= alter f i |>).

Lemma bind_upd_proc {B} i f (k : unit -> K B) s :
  bind (upd_proc i f) k s = k tt (s <| k_procs ::= alter f i |>).
Proof. reflexivity. Qed.
#[export] Hint Rewrite @bind_upd_proc : kern.

Lemma get_proc_eq i p s : k_procs s !! i = Some p -> get_proc i s = Ret p s.
Proof. intros H. unfold get_proc. mrun. by rewrite H. Qed.

Lemma get_proc_Ret i p s s' : get_proc i s = Ret p s' -> k_procs s !! i = Some p /\ s' = s.
Proof.
  unfold get_proc. mrun. destruct (k_procs s !! i); [|done]. by intros [= -> ->].
Qed.

Definition get_file (i : nat) : K file :=
  s <- gets k_ftable;; deref (s !! i).
Definition upd_file (i : nat) (f : file -> file) : K unit :=
  modify (fun s => s <| k_ftable ::= alter f i |>).

Definition get_inode (i : nat) : K inode :=
  s <- gets k_icache;; deref (s !! i).
Definition upd_inode (i : nat) (f : inode -> inode) : K unit :=
  modify (fun s => s <| k_icache ::= alter f i |>).

Definition get_buf (i : nat) : K buf :=
  s <- gets (bc_buf ∘ k_bcache);; deref (s !! i).
Definition upd_buf (i : nat) (f : buf -> buf) : K unit :=
  modify (fun s => s <| k_bcache ::= (fun c => c <| bc_buf ::= alter f i |>) |>).

Definition upd_log (f : log -> log) : K unit :=
  modify (fun s => s <| k_log ::= f |>).

(** The bytes of a string constant; [nl] is the newline. *)
Definition nl : string := String (Ascii.ascii_of_nat 10) EmptyString.
Definition str_bytes (s : string) : list Z :=
  (fun a => Z.of_N (Ascii.N_of_ascii a)) <$> String.list_ascii_of_string s.

(** * Spin locks as the executing CPU sees them *)

(** [acquire] and [release] of spinlock.c between two points at which the CPU
    runs kernel code: a lock taken twice by one CPU, or released when it is
    not held, is a panic.  [Spinlock] proves that the lock words, the owner
    fields and the [pushcli] depth of the real routines implement this. *)
Definition acquire (l : lockid) : K unit :=
  h <- gets k_held;;
  if decide (l ∈ h) then panic "acquire"
  else modify (fun s => s <| k_held := l :: h |>).

Definition release (l : lockid) : K unit :=
  h <- gets k_held;;
  if decide (l ∈ h) then modify (fun s => s <| k_held := filter (.≠ l) h |>)
  else panic "release".

(** A state whose lock list is put back is the state. *)
Lemma held_id s : s <| k_held := k_held s |> = s.
Proof. by destruct s. Qed.
Lemma held_back h x s : k_held s = h -> (s <| k_held := x |>) <| k_held := h |> = s.
Proof. intros <-. by destruct s. Qed.
