(* ===== verification/Demo.v ===== *)
(** A concrete layout of the kernel image and small concrete states, on which
    the examples of the other files run. *)
From S2P Require Import Prelude Kstate.

(** An image whose data segment starts at 0x80108000 and ends at 0x80115000. *)
Definition demo_layout : KernelLayout.
Proof.
  refine {| kdata := 0x80108000; kend := 0x80115000; trapret := 0x80105a00;
            forkret_addr := 0x80103a00 |}; vm_compute; done.
Defined.

(** ** Reading the end of a run *)

Definition is_Ret {S A} (o : outcome S A) : bool :=
  match o with Ret _ _ => true | _ => false end.
Definition is_Switch {S A} (o : outcome S A) : bool :=
  match o with Switch _ => true | _ => false end.
Definition end_state {S A} (d : S) (o : outcome S A) : S :=
  match o with Ret _ s | Switch s => s | _ => d end.
Definition result {S A} (o : outcome S A) : option A :=
  match o with Ret a _ => Some a | _ => None end.

Lemma result_eq {S A} (d : S) (o : outcome S A) a :
  result o = Some a -> o = Ret a (end_state d o).
Proof. destruct o; simpl; congruence. Qed.
Lemma is_Switch_eq {S A} (d : S) (o : outcome S A) :
  is_Switch o = true -> o = Switch (end_state d o).
Proof. by destruct o. Qed.

(** Closes an equation by evaluating both sides. *)
Ltac by_eq := lazymatch goal with |- _ = _ => reflexivity end.

(** ** States *)

Definition demo_proc (pid : Z) (st : procstate) (parent : option nat) : proc :=
  proc_zero <| p_pid := pid |> <| p_tgid := pid |> <| p_state := st |> <| p_parent := parent |>
    <| p_kstack := 0x80200000 + 4096 * pid |> <| p_pgdir := 0x80300000 + 4096 * pid |>.

(** The given processes in the first slots, process [cur] running. *)
Definition demo (ps : list proc) (cur : nat) : kstate :=
  kstate_zero <| k_procs := ps ++ replicate (NPROC - length ps) proc_zero |>
    <| k_nextpid := 1 + Z.of_nat (length ps) |> <| k_initproc := Some 0%nat |>
    <| k_cur := Some cur |>.

(** init runs and its child waits for the CPU. *)
Definition demo2 : kstate :=
  demo [demo_proc 1 RUNNING None; demo_proc 2 RUNNABLE (Some 0%nat)] 0.

(** init runs; it has a thread that sleeps and a child that has exited. *)
Definition demo_thread (pid : Z) (st : procstate) : proc :=
  (demo_proc pid st (Some 0%nat)) <| p_tgid := 1 |> <| p_isThread := 1 |>
    <| p_pthread := Some 0%nat |> <| p_pgdir := 0x80301000 |>.
Definition demo3 : kstate :=
  demo [demo_proc 1 RUNNING None; demo_thread 2 SLEEPING; demo_proc 3 ZOMBIE (Some 0%nat)] 0.
