(* ===== verification/Sched.v ===== *)
(** Sleeping, waking and switching ([proc.c]: [sleep], [wakeup1], [wakeup],
    [sched], [yield]).  A process that leaves the CPU ends in [Switch] with
    the state its [swtch] leaves to the scheduler; [sleep_return] is what it
    runs when the scheduler comes back to it. *)
From S2P Require Import Prelude Kstate.

(** [myproc]: the process this CPU runs; using a null result faults. *)
Definition myproc : K nat := c <- gets k_cur;; deref c.

Definition sched {A} : K A :=
  i <- myproc;;
  h <- gets k_held;;
  if negb (bool_decide (L_ptable ∈ h)) then panic "sched ptable.lock"
  else if negb (length h =? 1)%nat then panic "sched locks"
  else
    p <- get_proc i;;
    if bool_decide (p_state p = RUNNING) then panic "sched running"
    else swtch.

Definition yield : K unit :=
  acquire L_ptable;;;
  i <- myproc;;
  upd_proc i (fun p => p <| p_state := RUNNABLE |>);;;
  sched.
(** [yield] after [sched] returns. *)
Definition yield_return : K unit := release L_ptable.

Definition sleep {A} (ch : chan) (lk : lockid) : K A :=
  c <- gets k_cur;;
  match c with
  | None => panic "sleep"
  | Some i =>
      whenM (bool_decide (lk <> L_ptable)) (acquire L_ptable;;; release lk);;;
      upd_proc i (fun p => p <| p_chan := Some ch |> <| p_state := SLEEPING |>);;;
      sched
  end.
(** [sleep] after [sched] returns. *)
Definition sleep_return (lk : lockid) : K unit :=
  i <- myproc;;
  upd_proc i (fun p => p <| p_chan := None |>);;;
  whenM (bool_decide (lk <> L_ptable)) (release L_ptable;;; acquire lk).

Definition wake (ch : option chan) (p : proc) : proc :=
  if bool_decide (p_state p = SLEEPING) && bool_decide (p_chan p = ch)
  then p <| p_state := RUNNABLE |> else p.

Definition wakeup1 (ch : option chan) : K unit :=
  modify (fun s => s <| k_procs ::= fmap (wake ch) |>).

Definition wakeup (ch : chan) : K unit :=
  acquire L_ptable;;; wakeup1 (Some ch);;; release L_ptable.

(** * Locks *)

(** Taking a lock that is not held, and giving back the last one taken. *)
Lemma acquire_ok l s :
  l ∉ k_held s -> acquire l s = Ret tt (s <| k_held := l :: k_held s |>).
Proof. intros H. unfold acquire, bind, gets. by rewrite decide_False. Qed.

Lemma release_ok l h s :
  k_held s = l :: h -> l ∉ h -> release l s = Ret tt (s <| k_held := h |>).
Proof.
  intros Hs Hl. unfold release, bind, gets, modify. rewrite Hs.
  rewrite decide_True by set_solver. do 2 f_equal. rewrite filter_cons_False by auto.
  by rewrite filter_ne_id.
Qed.

(** * What code that may sleep leaves alone *)

(** A process as [wakeup] leaves it. *)
Definition woken (p p' : proc) : Prop :=
  p' = p \/ (p_state p = SLEEPING /\ p' = p <| p_state := RUNNABLE |>).

#[export] Instance woken_preorder : PreOrder woken.
Proof.
  split; [by left|]. intros p q r [->|[Hs ->]] [->|[Hs' ->]]; unfold woken; auto.
Qed.

Lemma wake_woken ch p : woken p (wake ch p).
Proof.
  unfold wake, woken. destruct (_ && _) eqn:E; [|auto]. right.
  apply andb_true_iff in E as [E%bool_decide_eq_true _]. auto.
Qed.

Lemma wake_wake ch p : wake ch (wake ch p) = wake ch p.
Proof.
  unfold wake at 2 3. destruct (bool_decide (p_state p = SLEEPING)
    && bool_decide (p_chan p = ch)) eqn:E; unfold wake; [done|by rewrite E].
Qed.

(** The fields only process management changes. *)
Definition sys_core (s : kstate) :=
  (k_cpu s, k_cur s, k_cr3 s, k_esp0 s, k_nextpid s, k_initproc s, k_first s, k_kpgdir s).

(** [sys_frame s s']: between [s] and [s'] processes were woken and nothing
    else happened to the process table.  [sys_slept s s']: then the current
    process went to sleep, and the scheduler finds only [ptable.lock] held. *)
Definition sys_frame (s s' : kstate) : Prop :=
  sys_core s' = sys_core s /\ Forall2 woken (k_procs s) (k_procs s').
Definition sys_slept (s s' : kstate) : Prop :=
  exists i ch s1, k_cur s = Some i /\ sys_frame s s1 /\ sys_core s' = sys_core s /\
    k_held s' = [L_ptable] /\
    k_procs s' = alter (fun p => p <| p_chan := Some ch |> <| p_state := SLEEPING |>) i
                   (k_procs s1).

Abbreviation SysKeeps := (Keeps sys_frame sys_slept).

#[export] Instance sys_frame_Frame : Frame sys_frame sys_slept.
Proof.
  split.
  - intros s. split; [done|]. reflexivity.
  - intros a b c [H1 H2] [H3 H4]. split; [congruence|]. by trans (k_procs b).
  - intros a b c [H1 H2] (i & ch & s1 & Hc & [H3 H4] & H5 & H6 & H7).
    assert (Hcur : k_cur b = k_cur a) by (unfold sys_core in H1; congruence).
    exists i, ch, s1. repeat split; [congruence|congruence| |congruence|done|done].
    by trans (k_procs b).
Qed.

Lemma sys_modify (f : kstate -> kstate) :
  (forall s, sys_core (f s) = sys_core s) -> (forall s, k_procs (f s) = k_procs s) ->
  SysKeeps (modify f).
Proof. intros H1 H2 s. split; [done|]. by rewrite H2. Qed.
#[export] Hint Extern 1 (Keeps sys_frame sys_slept (modify _)) =>
  apply sys_modify; intros ?; reflexivity : typeclass_instances.

#[export] Instance acquire_keeps l : SysKeeps (acquire l).
Proof. unfold acquire. solve_keeps. Qed.
#[export] Instance release_keeps l : SysKeeps (release l).
Proof. unfold release. solve_keeps. Qed.
#[export] Instance myproc_keeps : SysKeeps myproc.
Proof. unfold myproc. solve_keeps. Qed.
#[export] Instance get_proc_keeps i : SysKeeps (get_proc i).
Proof. unfold get_proc. solve_keeps. Qed.
#[export] Instance get_file_keeps i : SysKeeps (get_file i).
Proof. unfold get_file. solve_keeps. Qed.
#[export] Instance get_inode_keeps i : SysKeeps (get_inode i).
Proof. unfold get_inode. solve_keeps. Qed.
#[export] Instance get_buf_keeps i : SysKeeps (get_buf i).
Proof. unfold get_buf. solve_keeps. Qed.
#[export] Instance upd_file_keeps i f : SysKeeps (upd_file i f).
Proof. unfold upd_file. apply _. Qed.
#[export] Instance upd_inode_keeps i f : SysKeeps (upd_inode i f).
Proof. unfold upd_inode. apply _. Qed.
#[export] Instance upd_buf_keeps i f : SysKeeps (upd_buf i f).
Proof. unfold upd_buf. apply _. Qed.
#[export] Instance upd_log_keeps f : SysKeeps (upd_log f).
Proof. unfold upd_log. apply _. Qed.

#[export] Instance wakeup1_keeps ch : SysKeeps (wakeup1 ch).
Proof.
  intros s. split; [done|]. apply Forall2_fmap_self. intros p. apply wake_woken.
Qed.
#[export] Instance wakeup_keeps ch : SysKeeps (wakeup ch).
Proof. unfold wakeup. solve_keeps. Qed.

(** Leaving through [sched] needs [ptable.lock] and no other lock. *)
Lemma sched_Switch {A} s s' :
  sched (A:=A) s = Switch s' -> s' = s /\ k_held s = [L_ptable].
Proof.
  unfold sched, myproc, get_proc. munfold. destruct (k_cur s); [|done].
  case_bool_decide as Hin; cbn; [|done].
  destruct (k_held s) as [|l [|]]; cbn; [done| |done].
  destruct (_ !! _); cbn; [|done].
  case_bool_decide; [done|]. intros [= <-]. split; [done|].
  by apply list_elem_of_singleton in Hin as <-.
Qed.

Lemma sched_Ret {A} s (a : A) s' : sched s <> Ret a s'.
Proof.
  unfold sched, myproc, get_proc. munfold. destruct (k_cur s); [|done].
  destruct (negb _); [done|]. destruct (negb _); [done|].
  destruct (_ !! _); cbn; [|done]. by destruct (bool_decide _).
Qed.

Lemma sleep_no_Ret {A} ch lk s (a : A) s' : sleep ch lk s <> Ret a s'.
Proof.
  unfold sleep. mrun. destruct (k_cur s); [|done].
  intros (? & s1 & _ & (? & s2 & _ & Hs)%bind_Ret)%bind_Ret. by apply sched_Ret in Hs.
Qed.

#[export] Instance sleep_keeps {A} ch lk : SysKeeps (sleep (A:=A) ch lk).
Proof.
  intros s. unfold sleep. unfold bind at 1, gets at 1.
  destruct (k_cur s) as [i|] eqn:Hi; [|done].
  assert (Hk : SysKeeps (whenM (bool_decide (lk <> L_ptable))
                           (acquire L_ptable;;; release lk))) by solve_keeps.
  specialize (Hk s). unfold bind at 1.
  destruct (whenM _ _ s) as [[] s1| | | |]; try done.
  unfold bind at 1, upd_proc, modify.
  destruct (sched _) as [a s2|s2| | |] eqn:Hsw; try done.
  { by apply sched_Ret in Hsw. }
  apply sched_Switch in Hsw as [-> Hh].
  exists i, ch, s1. repeat split; try done; apply Hk.
Qed.
