(* ===== verification/Mem.v ===== *)
(** Byte-addressed memory and the C string library of the kernel
    ([string.c]), with the little-endian layout of words in memory and in
    disk blocks.

    [memset], [memmove] and [memcmp] act on memory, where overlap matters.
    The [str*] functions act on character arrays given as lists of bytes, a
    read past the end of the array being [None]. *)
From S2P Require Import Prelude Kstate Sched.

(** * Loads and stores *)

Definition ld8 (m : mem) (a : Z) : Z := default 0 (m !! a).
Definition st8 (m : mem) (a v : Z) : mem := <[a := u8 v]> m.

Definition ld32 (m : mem) (a : Z) : Z :=
  ld8 m a + ld8 m (a + 1) * 2 ^ 8 + ld8 m (a + 2) * 2 ^ 16 + ld8 m (a + 3) * 2 ^ 24.
Definition st32 (m : mem) (a v : Z) : mem :=
  st8 (st8 (st8 (st8 m a v) (a + 1) (Z.shiftr v 8)) (a + 2) (Z.shiftr v 16))
    (a + 3) (Z.shiftr v 24).

(** x86.h: [stosb] and [stosl], the [rep stos] instructions. *)
Fixpoint stosb (m : mem) (a v : Z) (n : nat) : mem :=
  match n with
  | O => m
  | S n => stosb (st8 m a v) (a + 1) v n
  end.
Fixpoint stosl (m : mem) (a v : Z) (n : nat) : mem :=
  match n with
  | O => m
  | S n => stosl (st32 m a v) (a + 4) v n
  end.

(** * string.c on memory *)

Definition memset (m : mem) (dst c n : Z) : mem :=
  if (dst mod 4 =? 0) && (n mod 4 =? 0) then
    let c := Z.land c 0xFF in
    stosl m dst
      (Z.lor (Z.lor (Z.lor (Z.shiftl c 24) (Z.shiftl c 16)) (Z.shiftl c 8)) c)
      (Z.to_nat (n / 4))
  else stosb m dst c (Z.to_nat n).

(** [*d++ = *s++] and [*--d = *--s], [n] times. *)
Fixpoint copy_up (m : mem) (d s : Z) (n : nat) : mem :=
  match n with
  | O => m
  | S n => copy_up (st8 m d (ld8 m s)) (d + 1) (s + 1) n
  end.
Fixpoint copy_down (m : mem) (d s : Z) (n : nat) : mem :=
  match n with
  | O => m
  | S n => copy_down (st8 m (d - 1) (ld8 m (s - 1))) (d - 1) (s - 1) n
  end.

Definition memmove (m : mem) (dst src n : Z) : mem :=
  if (src <? dst) && (dst <? src + n)
  then copy_down m (dst + n) (src + n) (Z.to_nat n)
  else copy_up m dst src (Z.to_nat n).

Fixpoint memcmp (m : mem) (v1 v2 : Z) (n : nat) : Z :=
  match n with
  | O => 0
  | S n =>
      if negb (ld8 m v1 =? ld8 m v2) then ld8 m v1 - ld8 m v2
      else memcmp m (v1 + 1) (v2 + 1) n
  end.

(** * string.c on character arrays *)

Fixpoint strncmp (p q : list Z) (n : nat) : option Z :=
  match n with
  | O => Some 0
  | S n' =>
      match p, q with
      | a :: p', b :: q' =>
          if ctrue a && (a =? b) then strncmp p' q' n' else Some (a - b)
      | _, _ => None
      end
  end.

(** The bytes [strncpy] writes from [s[0]] on: exactly [n] of them. *)
Fixpoint strncpy_bytes (t : list Z) (n : nat) : option (list Z) :=
  match n with
  | O => Some []
  | S n' =>
      match t with
      | [] => None
      | 0 :: _ => Some (replicate n 0)
      | c :: t' => rest ← strncpy_bytes t' n'; Some (c :: rest)
      end
  end.

(** The bytes [safestrcpy] writes when [n > 0]: at most [n - 1] characters
    of [t] and a terminating zero. *)
Fixpoint safestrcpy_bytes (t : list Z) (n : nat) : option (list Z) :=
  match n with
  | O => Some []
  | S O => Some [0]
  | S n' =>
      match t with
      | [] => None
      | 0 :: _ => Some [0; 0]
      | c :: t' => rest ← safestrcpy_bytes t' n'; Some (c :: rest)
      end
  end.

(** Storing [w] at the start of the array [s]; running off its end is [None]. *)
Definition write_prefix (s w : list Z) : option (list Z) :=
  if (length w <=? length s)%nat then Some (w ++ drop (length w) s) else None.

Definition strncpy (s t : list Z) (n : Z) : option (list Z) :=
  w ← strncpy_bytes t (Z.to_nat n); write_prefix s w.
Definition safestrcpy (s t : list Z) (n : Z) : option (list Z) :=
  if n <=? 0 then Some s
  else w ← safestrcpy_bytes t (Z.to_nat n); write_prefix s w.

Fixpoint strlen (s : list Z) : option Z :=
  match s with
  | [] => None
  | 0 :: _ => Some 0
  | _ :: s' => n ← strlen s'; Some (n + 1)
  end.

(** * Words in byte arrays *)

(** Little-endian fields of the structures that live in disk blocks. *)
Definition byte_at (l : list Z) (i : Z) : Z := default 0 (l !! Z.to_nat i).
Definition get16 (l : list Z) (i : Z) : Z := byte_at l i + byte_at l (i + 1) * 2 ^ 8.
Definition get32 (l : list Z) (i : Z) : Z :=
  byte_at l i + byte_at l (i + 1) * 2 ^ 8 + byte_at l (i + 2) * 2 ^ 16
  + byte_at l (i + 3) * 2 ^ 24.
Definition le16 (v : Z) : list Z := [u8 v; u8 (Z.shiftr v 8)].
Definition le32 (v : Z) : list Z :=
  [u8 v; u8 (Z.shiftr v 8); u8 (Z.shiftr v 16); u8 (Z.shiftr v 24)].

(** [memmove(l + i, w, n)] for arrays that do not overlap. *)
Definition splice (l : list Z) (i : Z) (w : list Z) : list Z :=
  take (Z.to_nat i) l ++ w ++ drop (Z.to_nat i + length w) l.
Definition slice (l : list Z) (i n : Z) : list Z :=
  take (Z.to_nat n) (drop (Z.to_nat i) l).

(** * The kernel's memory *)

Definition kld32 (a : Z) : K Z := gets (fun s => ld32 (k_mem s) a).
Definition kst32 (a v : Z) : K unit :=
  modify (fun s => s <| k_mem ::= fun m => st32 m a v |>).
Definition kmemset (dst c n : Z) : K unit :=
  modify (fun s => s <| k_mem ::= fun m => memset m dst c n |>).
Definition kmemmove (dst src n : Z) : K unit :=
  modify (fun s => s <| k_mem ::= fun m => memmove m dst src n |>).
(** [memmove] from an array outside the modelled memory. *)
Fixpoint store_bytes (m : mem) (a : Z) (l : list Z) : mem :=
  match l with
  | [] => m
  | b :: l => store_bytes (st8 m a b) (a + 1) l
  end.
Fixpoint load_bytes (m : mem) (a : Z) (n : nat) : list Z :=
  match n with
  | O => []
  | S n => ld8 m a :: load_bytes m (a + 1) n
  end.
Definition kstore_bytes (a : Z) (l : list Z) : K unit :=
  modify (fun s => s <| k_mem ::= fun m => store_bytes m a l |>).

Arguments ld8 : simpl never.
Arguments st8 : simpl never.
Arguments ld32 : simpl never.
Arguments st32 : simpl never.
Arguments memset : simpl never.
Arguments memmove : simpl never.

(** * Frame *)

#[export] Instance kld32_keeps a : SysKeeps (kld32 a).
Proof. unfold kld32. solve_keeps. Qed.
#[export] Instance kst32_keeps a v : SysKeeps (kst32 a v).
Proof. unfold kst32. solve_keeps. Qed.
#[export] Instance kmemset_keeps d c n : SysKeeps (kmemset d c n).
Proof. unfold kmemset. solve_keeps. Qed.
#[export] Instance kmemmove_keeps d c n : SysKeeps (kmemmove d c n).
Proof. unfold kmemmove. solve_keeps. Qed.
#[export] Instance kstore_bytes_keeps a l : SysKeeps (kstore_bytes a l).
Proof. unfold kstore_bytes. solve_keeps. Qed.
