(* ===== verification/MemSpec.v ===== *)
(** What the memory and string routines compute: every byte of memory after
    [memset] and [memmove] (also when source and destination overlap), words
    in memory and in byte arrays, and the C string functions. *)
From S2P Require Import Prelude Kstate Sched Mem.

(** * Bytes and words *)

Lemma u8_bound v : 0 <= u8 v < 256.
Proof. width_lia. Qed.
Lemma u8_id v : 0 <= v < 256 -> u8 v = v.
Proof. width_lia. Qed.
Lemma u32_id v : 0 <= v < 2 ^ 32 -> u32 v = v.
Proof. width_lia. Qed.
Lemma s32_id v : 0 <= v < 2 ^ 31 -> s32 v = v.
Proof. width_lia. Qed.

(** The memory holds bytes. *)
Definition bytes (m : mem) : Prop := forall a, 0 <= ld8 m a < 256.

Lemma ld8_st8 m a v x : ld8 (st8 m a v) x = if x =? a then u8 v else ld8 m x.
Proof.
  unfold ld8, st8. destruct (Z.eqb_spec x a) as [->|Hne].
  - by rewrite lookup_insert_eq.
  - by rewrite lookup_insert_ne.
Qed.

Lemma bytes_st8 m a v : bytes m -> bytes (st8 m a v).
Proof. intros H x. rewrite ld8_st8. destruct (_ =? _); [apply u8_bound|apply H]. Qed.

(** The four bytes of a word put together again. *)
Lemma word_bytes v :
  u8 v + u8 (Z.shiftr v 8) * 2 ^ 8 + u8 (Z.shiftr v 16) * 2 ^ 16
  + u8 (Z.shiftr v 24) * 2 ^ 24 = u32 v.
Proof. rewrite !Z.shiftr_div_pow2 by lia. width_lia. Qed.

Lemma ld32_st32 m a v : ld32 (st32 m a v) a = u32 v.
Proof.
  unfold ld32, st32. rewrite !ld8_st8, <- word_bytes.
  repeat (case_match; try lia).
Qed.

Lemma ld8_st32_ne m a v x : x < a \/ a + 4 <= x -> ld8 (st32 m a v) x = ld8 m x.
Proof. intros H. unfold st32. rewrite !ld8_st8. repeat (case_match; try lia). Qed.

Lemma ld32_st32_ne m a v x : x + 4 <= a \/ a + 4 <= x -> ld32 (st32 m a v) x = ld32 m x.
Proof. intros H. unfold ld32. by rewrite !ld8_st32_ne by lia. Qed.

Lemma ld32_bound m a : bytes m -> 0 <= ld32 m a < 2 ^ 32.
Proof.
  intros H. unfold ld32. pose proof (H a). pose proof (H (a + 1)).
  pose proof (H (a + 2)). pose proof (H (a + 3)). lia.
Qed.

Lemma bytes_st32 m a v : bytes m -> bytes (st32 m a v).
Proof. intros H. unfold st32. by repeat apply bytes_st8. Qed.

(** [x] is one of the [n] addresses from [a] on. *)
Definition within (a n x : Z) : bool := (a <=? x) && (x <? a + n).

Lemma within_spec a n x : reflect (a <= x < a + n) (within a n x).
Proof. apply iff_reflect. unfold within. lia. Qed.

(** Case analysis on the tests in the goal. *)
Ltac by_range :=
  repeat match goal with
  | |- context [within ?a ?n ?x] => destruct (within_spec a n x)
  | |- context [?x =? ?y] => destruct (Z.eqb_spec x y)
  end; try lia; try done.

(** * memset *)

Lemma ld8_stosb m a v n x :
  ld8 (stosb m a v n) x = if within a (Z.of_nat n) x then u8 v else ld8 m x.
Proof.
  revert m a. induction n as [|n IH]; intros m a; simpl stosb.
  - by_range.
  - rewrite IH, ld8_st8. by_range.
Qed.

(** The word [stosl] stores has four equal bytes. *)
Definition spread (c : Z) : Z :=
  Z.lor (Z.lor (Z.lor (Z.shiftl c 24) (Z.shiftl c 16)) (Z.shiftl c 8)) c.

(** A test that passes on every byte. *)
Lemma byte_cases (P : Z -> bool) :
  forallb P (seqZ 0 256) = true -> forall c, 0 <= c < 256 -> P c = true.
Proof.
  intros H c Hc. eapply forallb_forall in H; [exact H|].
  apply list_elem_of_In, elem_of_seqZ. lia.
Qed.

Lemma spread_bytes c :
  0 <= c < 256 ->
  u8 (spread c) = c /\ u8 (Z.shiftr (spread c) 8) = c /\
  u8 (Z.shiftr (spread c) 16) = c /\ u8 (Z.shiftr (spread c) 24) = c.
Proof.
  revert c. set (P c := (u8 (spread c) =? c) && (u8 (Z.shiftr (spread c) 8) =? c)
    && (u8 (Z.shiftr (spread c) 16) =? c) && (u8 (Z.shiftr (spread c) 24) =? c)).
  intros c Hc. enough (P c = true) as H by (unfold P in H; lia).
  revert c Hc. apply byte_cases. vm_compute. reflexivity.
Qed.

Lemma ld8_stosl m a c n x :
  0 <= c < 256 ->
  ld8 (stosl m a (spread c) n) x = if within a (4 * Z.of_nat n) x then c else ld8 m x.
Proof.
  intros Hc. destruct (spread_bytes c Hc) as (E0 & E1 & E2 & E3).
  revert m a. induction n as [|n IH]; intros m a; simpl stosl; [by_range|].
  rewrite IH. unfold st32. rewrite !ld8_st8, E0, E1, E2, E3. by_range.
Qed.

Lemma memset_bytes m dst c n x :
  0 <= n -> ld8 (memset m dst c n) x = if within dst n x then u8 c else ld8 m x.
Proof.
  intros Hn. unfold memset. destruct ((_ =? 0) && (_ =? 0)) eqn:E.
  - assert (Hc : Z.land c 255 = u8 c) by (apply (Z.land_ones c 8); lia).
    cbv zeta. rewrite Hc. fold (spread (u8 c)). rewrite ld8_stosl by apply u8_bound.
    replace (4 * Z.of_nat (Z.to_nat (n / 4))) with n by width_lia. done.
  - rewrite ld8_stosb. by rewrite Z2Nat.id.
Qed.

Lemma bytes_memset m dst c n : 0 <= n -> bytes m -> bytes (memset m dst c n).
Proof.
  intros Hn H x. rewrite memset_bytes by done. destruct (within _ _ _); [apply u8_bound|apply H].
Qed.

(** [memset] stores the low byte of [c] in exactly the [n] bytes from
    [dst] on, whether it runs byte by byte or word by word. *)
Theorem memset_spec m dst c n x :
  0 <= n ->
  ld8 (memset m dst c n) x = if within dst n x then u8 c else ld8 m x.
Proof. apply memset_bytes. Qed.

Lemma memset_spec_witness :
  ld8 (memset ∅ 8 0x141 8) 15 = 0x41 /\ ld8 (memset ∅ 9 0x141 7) 8 = ld8 ∅ 8.
Proof.
  split; [apply (memset_spec ∅ 8 0x141 8 15)|apply (memset_spec ∅ 9 0x141 7 8)]; lia.
Defined.

(** * memmove *)

Lemma ld8_copy_up m d s n x :
  bytes m -> d <= s \/ s + Z.of_nat n <= d ->
  ld8 (copy_up m d s n) x =
    if within d (Z.of_nat n) x then ld8 m (x - d + s) else ld8 m x.
Proof.
  revert m d s. induction n as [|n IH]; intros m d s Hm Ho; simpl copy_up; [by_range|].
  rewrite IH by (try apply bytes_st8; auto; lia). rewrite !ld8_st8, u8_id by apply Hm.
  by_range; f_equal; lia.
Qed.

Lemma ld8_copy_down m d s n x :
  bytes m -> s <= d ->
  ld8 (copy_down m d s n) x =
    if within (d - Z.of_nat n) (Z.of_nat n) x then ld8 m (x - d + s) else ld8 m x.
Proof.
  revert m d s. induction n as [|n IH]; intros m d s Hm Ho; simpl copy_down; [by_range|].
  rewrite IH by (try apply bytes_st8; auto; lia). rewrite !ld8_st8, u8_id by apply Hm.
  by_range; f_equal; lia.
Qed.

Lemma memmove_bytes m dst src n x :
  bytes m -> 0 <= n ->
  ld8 (memmove m dst src n) x =
    if within dst n x then ld8 m (x - dst + src) else ld8 m x.
Proof.
  intros Hm Hn. unfold memmove. destruct (_ && _) eqn:E.
  - rewrite ld8_copy_down by (done || lia). rewrite Z2Nat.id by done.
    replace (dst + n - n) with dst by lia. by_range; f_equal; lia.
  - rewrite ld8_copy_up by (done || lia). by rewrite Z2Nat.id.
Qed.
Lemma bytes_memmove m dst src n : bytes m -> 0 <= n -> bytes (memmove m dst src n).
Proof. intros H Hn x. rewrite memmove_bytes by done. by destruct (within _ _ _). Qed.

(** [memmove] moves the [n] bytes at [src] to [dst] as they were before
    the call, for every overlap of the two ranges, and changes nothing else. *)
Theorem memmove_spec m dst src n x :
  bytes m -> 0 <= n ->
  ld8 (memmove m dst src n) x =
    if within dst n x then ld8 m (x - dst + src) else ld8 m x.
Proof. apply memmove_bytes. Qed.

Lemma bytes_empty : bytes ∅.
Proof. intros a. unfold ld8. rewrite lookup_empty. simpl. lia. Qed.

(** Five bytes moved two places up, on top of themselves. *)
Lemma memmove_spec_witness :
  ld8 (memmove (store_bytes ∅ 100 [1; 2; 3; 4; 5]) 102 100 5) 104 = 3.
Proof.
  rewrite (memmove_spec (store_bytes ∅ 100 [1; 2; 3; 4; 5]) 102 100 5 104); [reflexivity| |lia].
  simpl. repeat apply bytes_st8. apply bytes_empty.
Defined.

(** * Arrays in memory *)

Lemma ld8_store_bytes m a l x :
  Forall (fun b => 0 <= b < 256) l ->
  ld8 (store_bytes m a l) x =
    if within a (Z.of_nat (length l)) x then default 0 (l !! Z.to_nat (x - a)) else ld8 m x.
Proof.
  intros Hl. revert m a. induction Hl as [|b l Hb Hl IH]; intros m a; simpl store_bytes;
    [simpl; by_range|].
  rewrite IH, ld8_st8, u8_id by done. simpl length. by_range.
  - replace (Z.to_nat (x - a)) with (S (Z.to_nat (x - (a + 1)))) by lia. done.
  - by replace (Z.to_nat (x - a)) with 0%nat by lia.
Qed.

Lemma load_bytes_lookup m a n i :
  load_bytes m a n !! i = if (i <? n)%nat then Some (ld8 m (a + Z.of_nat i)) else None.
Proof.
  revert a i. induction n as [|n IH]; intros a i; simpl load_bytes; [done|].
  destruct i as [|i]; simpl.
  - by rewrite Z.add_0_r.
  - rewrite IH. destruct (Nat.ltb_spec i n), (Nat.ltb_spec (S i) (S n)); try lia; [|done].
    do 2 f_equal. lia.
Qed.

Lemma length_load_bytes m a n : length (load_bytes m a n) = n.
Proof. revert a. induction n; intros a; simpl; auto. Qed.

(** Storing an array and loading it again. *)
Lemma load_store_bytes m a l :
  Forall (fun b => 0 <= b < 256) l -> load_bytes (store_bytes m a l) a (length l) = l.
Proof.
  intros Hl. apply list_eq. intros i. rewrite load_bytes_lookup.
  destruct (Nat.ltb_spec i (length l)) as [Hi|Hi].
  - rewrite ld8_store_bytes by done. by_range.
    replace (Z.to_nat (a + Z.of_nat i - a)) with i by lia.
    by destruct (lookup_lt_is_Some_2 l i Hi) as [b ->].
  - symmetry. by apply lookup_ge_None.
Qed.

(** * Fields of byte arrays *)

Lemma byte_at_splice l i w j :
  0 <= i -> i + Z.of_nat (length w) <= Z.of_nat (length l) -> 0 <= j ->
  byte_at (splice l i w) j =
    if (i <=? j) && (j <? i + Z.of_nat (length w)) then byte_at w (j - i) else byte_at l j.
Proof.
  intros Hi Hl Hj. unfold byte_at, splice. f_equal.
  destruct (Z.leb_spec i j); cbn [andb].
  - rewrite lookup_app_r by (rewrite length_take; lia). rewrite length_take_le by lia.
    replace (Z.to_nat j - Z.to_nat i)%nat with (Z.to_nat (j - i)) by lia.
    destruct (Z.ltb_spec j (i + Z.of_nat (length w))).
    + by rewrite lookup_app_l by lia.
    + rewrite lookup_app_r by lia. rewrite lookup_drop.
      by replace (_ + _ + _)%nat with (Z.to_nat j) by lia.
  - rewrite lookup_app_l by (rewrite length_take; lia). by rewrite lookup_take_lt by lia.
Qed.

Lemma length_splice l i w :
  0 <= i -> i + Z.of_nat (length w) <= Z.of_nat (length l) -> length (splice l i w) = length l.
Proof.
  intros Hi Hl. unfold splice. rewrite !length_app, length_take, length_drop. lia.
Qed.

Lemma get32_le32 v : byte_at (le32 v) 0 + byte_at (le32 v) 1 * 2 ^ 8
  + byte_at (le32 v) 2 * 2 ^ 16 + byte_at (le32 v) 3 * 2 ^ 24 = u32 v.
Proof.
  unfold le32. change (u8 v + u8 (Z.shiftr v 8) * 2 ^ 8 + u8 (Z.shiftr v 16) * 2 ^ 16
    + u8 (Z.shiftr v 24) * 2 ^ 24 = u32 v).
  rewrite !Z.shiftr_div_pow2 by lia. width_lia.
Qed.

(** Reading back a word just written, and a word somewhere else. *)
Lemma get32_splice_eq l i v :
  0 <= i -> i + 4 <= Z.of_nat (length l) -> get32 (splice l i (le32 v)) i = u32 v.
Proof.
  intros Hi Hl. unfold get32. rewrite !byte_at_splice by (cbn; lia).
  change (Z.of_nat (length (le32 v))) with 4. rewrite <- get32_le32.
  repeat match goal with
  | |- context [?a <=? ?b] => destruct (Z.leb_spec a b); [|lia]
  | |- context [?a <? ?b] => destruct (Z.ltb_spec a b); [|lia]
  end; cbn [andb].
  replace (i - i) with 0 by lia. replace (i + 1 - i) with 1 by lia.
  replace (i + 2 - i) with 2 by lia. by replace (i + 3 - i) with 3 by lia.
Qed.
Lemma get32_splice_ne l i w j :
  0 <= i -> 0 <= j -> i + Z.of_nat (length w) <= Z.of_nat (length l) ->
  j + 4 <= i \/ i + Z.of_nat (length w) <= j -> get32 (splice l i w) j = get32 l j.
Proof.
  intros Hi Hj Hl Hd. unfold get32. rewrite !byte_at_splice by lia.
  repeat match goal with
  | |- context [?a <=? ?b] => destruct (Z.leb_spec a b)
  | |- context [?a <? ?b] => destruct (Z.ltb_spec a b)
  end; cbn [andb]; first [done|lia].
Qed.
