(* ===== verification/Cprintf.v ===== *)
(** Formatted output of the kernel ([console.c]: [printint], [cprintf]) and
    the characters it hands to [consputc]. *)
From S2P Require Import Prelude Kstate Sched.

(** [digits[x % base]], from "0123456789abcdef". *)
Definition digit (d : Z) : Z := if d <? 10 then 48 + d else 87 + d.

(** The [do ... while((x /= base) != 0)] loop of [printint]: the digits from
    the least significant one.  32-bit numbers have at most 32 digits. *)
Fixpoint digits (fuel : nat) (x base : Z) : list Z :=
  match fuel with
  | O => []
  | S fuel =>
      digit (x mod base) :: if x / base =? 0 then [] else digits fuel (x / base) base
  end.

(** [xx] is an [int]; the characters in the order they are printed. *)
Definition printint (xx base : Z) (sign : bool) : list Z :=
  let neg := sign && (xx <? 0) in
  let x := if neg then u32 (- xx) else u32 xx in
  let buf := digits 32 x base ++ (if neg then [45] else []) in
  rev buf.

(** An argument of [cprintf]: a word, or a string with [None] for null. *)
Inductive arg : Type := A_int (z : Z) | A_str (s : option (list Z)).

Definition arg_int (a : arg) : Z := match a with A_int z => s32 z | A_str _ => 0 end.
Definition arg_str (a : arg) : list Z :=
  match a with
  | A_str (Some s) => s
  | _ => str_bytes "(null)"
  end.

(** The output of [cprintf(fmt, args)]; a missing argument is [None]. *)
Fixpoint format (fmt : list Z) (args : list arg) : option (list Z) :=
  match fmt with
  | [] => Some []
  | 37 :: [] => Some []
  | 37 :: c :: fmt =>
      if (c =? 100) (* d *) then
        match args with
        | a :: args => rest ← format fmt args; Some (printint (arg_int a) 10 true ++ rest)
        | [] => None
        end
      else if (c =? 120) || (c =? 112) (* x, p *) then
        match args with
        | a :: args => rest ← format fmt args; Some (printint (arg_int a) 16 false ++ rest)
        | [] => None
        end
      else if (c =? 115) (* s *) then
        match args with
        | a :: args => rest ← format fmt args; Some (arg_str a ++ rest)
        | [] => None
        end
      else if (c =? 37) then rest ← format fmt args; Some (37 :: rest)
      else rest ← format fmt args; Some (37 :: c :: rest)
  | c :: fmt => rest ← format fmt args; Some (c :: rest)
  end.

Definition emit (l : list Z) : K unit :=
  modify (fun s => s <| k_out ::= fun o => o ++ l |>).

(** With [cons.locking] set, as after [consoleinit]. *)
Definition cprintf (fmt : string) (args : list arg) : K unit :=
  acquire L_cons;;;
  out <- deref (format (str_bytes fmt) args);;
  emit out;;;
  release L_cons.

(** * Frame *)

#[export] Instance emit_keeps l : SysKeeps (emit l).
Proof. unfold emit. solve_keeps. Qed.
#[export] Instance cprintf_keeps f l : SysKeeps (cprintf f l).
Proof. unfold cprintf. solve_keeps. Qed.
