(* ===== verification/Kalloc.v ===== *)
(** The physical page allocator ([kalloc.c]).  The free list is the one the
    code builds: [kmem.freelist] points to a free page whose first word
    points to the next one. *)
From S2P Require Import Prelude Kstate Sched Mem.

Section Kalloc.
Context `{KL : KernelLayout}.

(** [if(kmem.use_lock) acquire(&kmem.lock)] and its release. *)
Definition kmem_acquire : K unit :=
  u <- gets (km_use_lock ∘ k_kmem);; whenM (ctrue u) (acquire L_kmem).
Definition kmem_release : K unit :=
  u <- gets (km_use_lock ∘ k_kmem);; whenM (ctrue u) (release L_kmem).

Definition set_freelist (r : Z) : K unit :=
  modify (fun s => s <| k_kmem ::= fun k => k <| km_freelist := r |> |>).

Definition kfree_invalid (v : Z) : bool :=
  ctrue (v mod PGSIZE) || (v <? kend) || (PHYSTOP <=? V2P v).

Definition kfree (v : Z) : K unit :=
  if kfree_invalid v then panic "kfree"
  else
    kmemset v 1 PGSIZE;;;
    kmem_acquire;;;
    r <- gets (km_freelist ∘ k_kmem);;
    kst32 v r;;;
    set_freelist v;;;
    kmem_release.

Definition kalloc : K Z :=
  kmem_acquire;;;
  r <- gets (km_freelist ∘ k_kmem);;
  whenM (ctrue r) (n <- kld32 r;; set_freelist n);;;
  kmem_release;;;
  ret r.

(** [p += PGSIZE] while a whole page fits below [vend]. *)
Definition freerange (vstart vend : Z) : K unit :=
  let p0 := PGROUNDUP vstart in
  loop (Z.to_nat ((vend - p0) / PGSIZE) + 1)
    (fun p =>
       if p + PGSIZE <=? vend then kfree p;;; ret (inl (p + PGSIZE))
       else ret (inr tt)) p0.

Definition set_use_lock (b : Z) : K unit :=
  modify (fun s => s <| k_kmem ::= fun k => k <| km_use_lock := b |> |>).

Definition kinit1 (vstart vend : Z) : K unit :=
  set_use_lock 0;;; freerange vstart vend.
Definition kinit2 (vstart vend : Z) : K unit :=
  freerange vstart vend;;; set_use_lock 1.

(** * Frame *)

#[export] Instance kmem_acquire_keeps : SysKeeps kmem_acquire.
Proof. unfold kmem_acquire. solve_keeps. Qed.
#[export] Instance kmem_release_keeps : SysKeeps kmem_release.
Proof. unfold kmem_release. solve_keeps. Qed.
#[export] Instance set_freelist_keeps r : SysKeeps (set_freelist r).
Proof. unfold set_freelist. solve_keeps. Qed.
#[export] Instance kfree_keeps v : SysKeeps (kfree v).
Proof. unfold kfree. solve_keeps. Qed.
#[export] Instance kalloc_keeps : SysKeeps kalloc.
Proof. unfold kalloc. solve_keeps. Qed.
#[export] Instance freerange_keeps a b : SysKeeps (freerange a b).
Proof. unfold freerange. solve_keeps. Qed.

End Kalloc.
