(* ===== verification/KallocSpec.v ===== *)
(** The page allocator implements a set of free pages: [free_list] reads the
    list the code threads through the pages, and [kalloc], [kfree] and
    [freerange] take from it and add to it. *)
From S2P Require Import Prelude Kstate Demo Sched Mem MemSpec Kalloc.

Section Spec.
Context `{KL : KernelLayout}.

(** * Abstraction *)

(** The pages linked from [head] by the words at their start. *)
Fixpoint free_list (m : mem) (head : Z) (l : list Z) : Prop :=
  match l with
  | [] => head = 0
  | p :: l => head = p /\ free_list m (ld32 m p) l
  end.

(** An address [kfree] accepts. *)
Definition page_ok (v : Z) : Prop := kfree_invalid v = false /\ 0 <= v < 2 ^ 32.

Lemma page_ok_check v :
  negb (kfree_invalid v) && (0 <=? v) && (v <? 2 ^ 32) = true -> page_ok v.
Proof. rewrite !andb_true_iff, negb_true_iff. intros [[H ?] ?]. split; [done|lia]. Qed.

Record alloc_inv (s : kstate) (l : list Z) : Prop := mkAlloc {
  al_list : free_list (k_mem s) (km_freelist (k_kmem s)) l;
  al_nodup : NoDup l;
  al_pages : Forall page_ok l;
  al_lock : km_use_lock (k_kmem s) <> 0 -> L_kmem ∉ k_held s;
  al_bytes : bytes (k_mem s);
}.

(** * Lemmas *)

Lemma alloc_inv_nil s :
  km_freelist (k_kmem s) = 0 -> km_use_lock (k_kmem s) = 0 -> bytes (k_mem s) -> alloc_inv s [].
Proof. intros H0 H1 Hb. split; [exact H0|constructor|constructor|done|done]. Qed.

Lemma page_ok_facts v : page_ok v -> v mod PGSIZE = 0 /\ 0 < v < 2 ^ 32.
Proof.
  intros [H Hb]. unfold kfree_invalid in H.
  rewrite !orb_false_iff in H. destruct H as [[Ha Hk] _]. unfold ctrue in Ha.
  pose proof kend_after. pose proof kdata_linked. change KERNLINK with 0x80100000 in *. lia.
Qed.

(** Two different pages do not overlap. *)
Lemma page_disjoint v w :
  page_ok v -> page_ok w -> v <> w -> v + PGSIZE <= w \/ w + PGSIZE <= v.
Proof.
  intros [Hv _]%page_ok_facts [Hw _]%page_ok_facts Hne. change PGSIZE with 4096 in *. width_lia.
Qed.

Lemma free_list_ext m m' head l :
  (forall p, p ∈ l -> ld32 m' p = ld32 m p) -> free_list m head l -> free_list m' head l.
Proof.
  revert head. induction l as [|p l IH]; intros head He; simpl; [done|].
  intros [-> H]. split; [done|]. rewrite He by set_solver. apply IH; [set_solver|done].
Qed.

(** The lock the allocator takes. *)
Definition kmem_lk (s : kstate) : list lockid :=
  if km_use_lock (k_kmem s) =? 0 then [] else [L_kmem].

Lemma kmem_acquire_ok s :
  (km_use_lock (k_kmem s) <> 0 -> L_kmem ∉ k_held s) ->
  kmem_acquire s = Ret tt (s <| k_held := kmem_lk s ++ k_held s |>).
Proof.
  intros Hl. unfold kmem_acquire, whenM, ctrue, kmem_lk. mrun. simpl.
  destruct (Z.eqb_spec (km_use_lock (k_kmem s)) 0) as [E|E]; simpl.
  - by rewrite held_id.
  - by rewrite acquire_ok by auto.
Qed.

Lemma kmem_release_ok h s :
  k_held s = kmem_lk s ++ h -> (km_use_lock (k_kmem s) <> 0 -> L_kmem ∉ h) ->
  kmem_release s = Ret tt (s <| k_held := h |>).
Proof.
  unfold kmem_release, whenM, ctrue, kmem_lk. intros Hh Hl. mrun. simpl. revert Hh.
  destruct (Z.eqb_spec (km_use_lock (k_kmem s)) 0) as [E|E]; simpl; intros Hh.
  - rewrite <- Hh. by rewrite held_id.
  - apply release_ok; auto.
Qed.

(** The state after [kfree v]. *)
Definition freed (v : Z) (s : kstate) : kstate :=
  s <| k_mem := st32 (memset (k_mem s) v 1 PGSIZE) v (km_freelist (k_kmem s)) |>
    <| k_kmem ::= fun k => k <| km_freelist := v |> |>.

Lemma freed_mem v s :
  k_mem (freed v s) = st32 (memset (k_mem s) v 1 PGSIZE) v (km_freelist (k_kmem s)).
Proof. reflexivity. Qed.

Lemma kfree_run v s :
  page_ok v -> (km_use_lock (k_kmem s) <> 0 -> L_kmem ∉ k_held s) ->
  kfree v s = Ret tt (freed v s).
Proof.
  intros [Hv _] Hl. unfold kfree, kmemset, kst32, set_freelist. rewrite Hv. mrun.
  erewrite bind_eq by (apply kmem_acquire_ok; exact Hl). mrun.
  by rewrite (kmem_release_ok (k_held s)).
Qed.

(** The state after [kalloc] takes page [p]. *)
Definition taken (p : Z) (s : kstate) : kstate :=
  s <| k_kmem ::= fun k => k <| km_freelist := ld32 (k_mem s) p |> |>.

Lemma kalloc_run s :
  (km_use_lock (k_kmem s) <> 0 -> L_kmem ∉ k_held s) ->
  kalloc s = let r := km_freelist (k_kmem s) in
             Ret r (if r =? 0 then s else taken r s).
Proof.
  intros Hl. unfold kalloc, kld32, set_freelist.
  rewrite (bind_eq _ _ _ _ _ (kmem_acquire_ok s Hl)). mrun. unfold whenM, ctrue. simpl.
  destruct (Z.eqb_spec (km_freelist (k_kmem s)) 0) as [E|E]; simpl negb; cbv iota; mrun.
  - erewrite bind_eq by (apply (kmem_release_ok (k_held s)); [reflexivity|exact Hl]).
    unfold ret. f_equal. by destruct s.
  - erewrite bind_eq by (apply (kmem_release_ok (k_held s)); [reflexivity|exact Hl]).
    unfold ret. f_equal.
Qed.

Lemma freed_page_bytes v s x :
  page_ok v -> bytes (k_mem s) -> x < v \/ v + PGSIZE <= x ->
  ld8 (k_mem (freed v s)) x = ld8 (k_mem s) x.
Proof.
  intros Hv Hb Hx. rewrite freed_mem. change PGSIZE with 4096 in *. rewrite ld8_st32_ne by lia.
  rewrite memset_bytes by lia. by_range.
Qed.

Lemma freed_inv v s l :
  alloc_inv s l -> page_ok v -> v ∉ l -> alloc_inv (freed v s) (v :: l).
Proof.
  intros [Hl Hnd Hp Hk Hb] Hv Hn. pose proof (page_ok_facts _ Hv) as [_ Hpos].
  assert (Hm : bytes (memset (k_mem s) v 1 PGSIZE)) by (by apply bytes_memset).
  split; rewrite ?freed_mem.
  - split; [done|]. rewrite ld32_st32, u32_id.
    + eapply free_list_ext, Hl. intros p Hin.
      assert (page_ok p) as Hpp by (by eapply Forall_forall).
      destruct (page_disjoint v p Hv Hpp) as [?|?]; [by intros ->| |];
        change PGSIZE with 4096 in *; rewrite ld32_st32_ne by lia; unfold ld32;
        rewrite !memset_bytes by lia; by_range.
    + destruct l as [|p l]; simpl in Hl; [lia|]. destruct Hl as [-> _].
      apply Forall_cons_1 in Hp as [Hp _]. apply page_ok_facts in Hp. lia.
  - by apply NoDup_cons.
  - by apply Forall_cons.
  - done.
  - by apply bytes_st32.
Qed.

Lemma taken_inv p s l : alloc_inv s (p :: l) -> alloc_inv (taken p s) l.
Proof.
  intros [[_ Hl] Hnd Hp Hk Hb]. split; cbn; try done.
  - by apply NoDup_cons in Hnd as [_ Hnd].
  - by apply Forall_cons in Hp as [_ Hp].
Qed.

(** C33: [kalloc] takes the first free page off the list, or returns 0 and
    changes nothing when memory is exhausted; the page it returns is a valid
    page that is no longer free, and no byte of memory changes. *)
Theorem kalloc_spec s l :
  alloc_inv s l ->
  match l with
  | [] => kalloc s = Ret 0 s
  | p :: l' => exists s', kalloc s = Ret p s' /\ alloc_inv s' l' /\
                 page_ok p /\ (p ∉ l') /\ k_mem s' = k_mem s
  end.
Proof.
  intros Hinv. rewrite kalloc_run by apply Hinv. cbv zeta.
  destruct l as [|p l]; pose proof (al_list _ _ Hinv) as Hl; simpl in Hl.
  - by rewrite Hl.
  - destruct Hl as [Hh _]. pose proof (al_pages _ _ Hinv) as [Hp _]%Forall_cons.
    pose proof (page_ok_facts _ Hp) as [_ ?]. rewrite Hh.
    rewrite (proj2 (Z.eqb_neq p 0)) by lia. eexists. split; [done|].
    split; [by apply taken_inv|]. split; [done|]. split; [|done].
    by pose proof (al_nodup _ _ Hinv) as [? _]%NoDup_cons.
Qed.

(** [kfree] of a valid page that is not already free puts it in front of
    the free list, overwrites only that page, and so the next [kalloc]
    returns it. *)
Theorem kfree_spec s l v :
  alloc_inv s l -> page_ok v -> v ∉ l ->
  exists s', kfree v s = Ret tt s' /\ alloc_inv s' (v :: l) /\
    (forall x, x < v \/ v + PGSIZE <= x -> ld8 (k_mem s') x = ld8 (k_mem s) x) /\
    (forall x, v + 4 <= x < v + PGSIZE -> ld8 (k_mem s') x = 1) /\
    exists s'', kalloc s' = Ret v s''.
Proof.
  intros Hinv Hv Hn. exists (freed v s). pose proof (freed_inv v s l Hinv Hv Hn) as Hinv'.
  split; [apply kfree_run; [done|apply Hinv]|]. split; [done|]. split; [|split].
  - intros x Hx. apply freed_page_bytes; [done|apply Hinv|done].
  - intros x Hx. rewrite freed_mem. change PGSIZE with 4096 in *. rewrite ld8_st32_ne by lia.
    rewrite memset_bytes by lia. by_range.
  - rewrite kalloc_run by apply Hinv'. cbv zeta. cbn.
    eexists. reflexivity.
Qed.

(** * freerange *)

(** The [n] pages from [p] on, in the order they end up on the list. *)
Definition pages_from (p : Z) (n : nat) : list Z :=
  reverse ((fun i => p + PGSIZE * Z.of_nat i) <$> seq 0 n).

Lemma pages_from_S p n : pages_from p (S n) = pages_from (p + PGSIZE) n ++ [p].
Proof.
  unfold pages_from. rewrite <- cons_seq, fmap_cons, reverse_cons. f_equal.
  - f_equal. rewrite <- fmap_S_seq, <- list_fmap_compose. apply list_fmap_ext.
    intros i x _. simpl. lia.
  - f_equal. lia.
Qed.

Lemma freerange_loop n p vend s l fuel :
  (n < fuel)%nat -> alloc_inv s l ->
  p + PGSIZE * Z.of_nat n <= vend < p + PGSIZE * Z.of_nat n + PGSIZE ->
  (forall v, v ∈ pages_from p n -> page_ok v /\ (v ∉ l)) ->
  exists s', loop fuel (fun p => if p + PGSIZE <=? vend then kfree p;;; ret (inl (p + PGSIZE))
                                 else ret (inr tt)) p s = Ret tt s' /\
    alloc_inv s' (pages_from p n ++ l).
Proof.
  revert p s l fuel. induction n as [|n IH]; intros p s l fuel Hf Hinv Hend Hpages;
    (destruct fuel as [|fuel]; [lia|]); simpl loop.
  - exists s. rewrite (proj2 (Z.leb_gt _ _)) by lia. by mrun.
  - rewrite (proj2 (Z.leb_le _ _)) by (change PGSIZE with 4096 in *; lia).
    destruct (Hpages p) as [Hp Hnp]; [rewrite pages_from_S; set_solver|].
    mrun. rewrite (bind_eq _ _ _ _ _ (kfree_run p s Hp (al_lock _ _ Hinv))). mrun.
    edestruct (IH (p + PGSIZE) (freed p s) (p :: l) fuel) as (s' & Hr & Hi).
    + lia.
    + by apply freed_inv.
    + lia.
    + intros v Hv. destruct (Hpages v) as [Hv1 Hv2]; [rewrite pages_from_S; set_solver|].
      split; [done|]. rewrite not_elem_of_cons. split; [|done]. intros ->.
      unfold pages_from in Hv. rewrite elem_of_reverse, list_elem_of_fmap in Hv.
      destruct Hv as (i & Hi & _). change PGSIZE with 4096 in Hi. lia.
    + exists s'. rewrite Hr. split; [done|]. by rewrite pages_from_S, <- app_assoc.
Qed.

(** [freerange] terminates and frees every whole page between the rounded
    up start and the end, each exactly once, keeping the pages that were
    free before. *)
Theorem freerange_spec vstart vend n s l :
  alloc_inv s l ->
  let p0 := PGROUNDUP vstart in
  p0 + PGSIZE * Z.of_nat n <= vend < p0 + PGSIZE * Z.of_nat n + PGSIZE ->
  (forall v, v ∈ pages_from p0 n -> page_ok v /\ (v ∉ l)) ->
  exists s', freerange vstart vend s = Ret tt s' /\ alloc_inv s' (pages_from p0 n ++ l).
Proof.
  intros Hinv p0 Hend Hpages. unfold freerange. fold p0.
  apply freerange_loop; try done. change PGSIZE with 4096 in *. width_lia.
Qed.
End Spec.

(** * Examples *)

#[local] Existing Instance demo_layout.

Lemma empty_alloc_inv : alloc_inv kstate_zero [].
Proof. apply alloc_inv_nil; [done..|apply bytes_empty]. Qed.

Definition page0 : Z := 0x80200000.

Lemma page0_ok : page_ok page0.
Proof. split; [reflexivity|unfold page0; lia]. Qed.

Lemma kfree_spec_witness :
  exists s', kfree page0 kstate_zero = Ret tt s' /\ alloc_inv s' [page0].
Proof.
  destruct (kfree_spec kstate_zero [] page0) as (s' & H & Hi & _).
  - exact empty_alloc_inv.
  - exact page0_ok.
  - apply not_elem_of_nil.
  - exists s'. split; [exact H|exact Hi].
Defined.

Lemma kalloc_spec_witness :
  kalloc kstate_zero = Ret 0 kstate_zero /\
  exists s', kalloc (freed page0 kstate_zero) = Ret page0 s' /\ alloc_inv s' [].
Proof.
  split; [exact (kalloc_spec kstate_zero [] empty_alloc_inv)|].
  destruct (kalloc_spec (freed page0 kstate_zero) [page0]) as (s' & H & Hi & _).
  - apply freed_inv; [exact empty_alloc_inv|exact page0_ok|apply not_elem_of_nil].
  - exists s'. split; [exact H|exact Hi].
Defined.

Lemma freerange_spec_witness :
  exists s', freerange (page0 - 100) (page0 + 3 * PGSIZE + 7) kstate_zero = Ret tt s' /\
    alloc_inv s' [page0 + 2 * PGSIZE; page0 + PGSIZE; page0].
Proof.
  apply (freerange_spec (page0 - 100) (page0 + 3 * PGSIZE + 7) 3 kstate_zero []).
  - exact empty_alloc_inv.
  - vm_compute. split; [discriminate|reflexivity].
  - apply (proj1 (Forall_forall (fun v => page_ok v /\ (v ∉ [])) _)).
    repeat (apply Forall_cons_2; [split; [split; [reflexivity|by vm_compute]|
      apply not_elem_of_nil]|]). apply Forall_nil_2.
Defined.
