(* ===== verification/Vm.v ===== *)
(** Two-level page tables and user address spaces ([vm.c]).  Page directories
    and page tables are pages of the kernel's memory, read and written word
    by word. *)
From S2P Require Import Prelude Kstate Sched Mem Cprintf Kalloc.

Section Vm.
Context `{KL : KernelLayout}.

(** Returns the address of the PTE, or 0. *)
Definition walkpgdir (pgdir va alloc : Z) : K Z :=
  let pde := pgdir + 4 * PDX va in
  e <- kld32 pde;;
  if ctrue (Z.land e PTE_P) then ret (P2V (PTE_ADDR e) + 4 * PTX va)
  else if negb (ctrue alloc) then ret 0
  else
    pgtab <- kalloc;;
    if negb (ctrue pgtab) then ret 0
    else
      kmemset pgtab 0 PGSIZE;;;
      kst32 pde (Z.lor (Z.lor (Z.lor (V2P pgtab) PTE_P) PTE_W) PTE_U);;;
      ret (pgtab + 4 * PTX va).

(** One turn of the loop of [mappages] per page, up to and including [last]. *)
Definition mappages (pgdir va size pa perm : Z) : K Z :=
  let a := PGROUNDDOWN va in
  let last := PGROUNDDOWN (u32 (va + size - 1)) in
  loop (Z.to_nat (u32 (last - a) / PGSIZE) + 1)
    (fun '(a, pa) =>
       pte <- walkpgdir pgdir a 1;;
       if negb (ctrue pte) then ret (inr (-1))
       else
         e <- kld32 pte;;
         if ctrue (Z.land e PTE_P) then panic "remap"
         else
           kst32 pte (Z.lor (Z.lor pa perm) PTE_P);;;
           if a =? last then ret (inr 0)
           else ret (inl (u32 (a + PGSIZE), u32 (pa + PGSIZE)))) (a, pa).

(** The kernel mappings: virtual start, physical start and end, permissions. *)
Definition kmap : list (Z * Z * Z * Z) :=
  [ (KERNBASE, 0, EXTMEM, PTE_W);
    (KERNLINK, V2P KERNLINK, V2P kdata, 0);
    (kdata, V2P kdata, PHYSTOP, PTE_W);
    (DEVSPACE, DEVSPACE, 0, PTE_W) ].

(** The loop stops at the first [a >= oldsz]; the directory entries without a
    page table are skipped as a whole. *)
Definition deallocuvm (pgdir oldsz newsz : Z) : K Z :=
  if oldsz <=? newsz then ret oldsz
  else
    loop (Z.to_nat (oldsz / PGSIZE) + 2)
      (fun a =>
         if a <? oldsz then
           pte <- walkpgdir pgdir a 0;;
           if negb (ctrue pte) then
             ret (inl (u32 (u32 (PGADDR (PDX a + 1) 0 0 - PGSIZE) + PGSIZE)))
           else
             e <- kld32 pte;;
             whenM (ctrue (Z.land e PTE_P))
               (let pa := PTE_ADDR e in
                if pa =? 0 then panic "kfree"
                else kfree (P2V pa);;; kst32 pte 0);;;
             ret (inl (u32 (a + PGSIZE)))
         else ret (inr newsz)) (PGROUNDUP newsz).

Definition freevm (pgdir : Z) : K unit :=
  if negb (ctrue pgdir) then panic "freevm: no pgdir"
  else
    deallocuvm pgdir KERNBASE 0;;;
    forM (seq 0 NPDENTRIES) (fun i =>
      e <- kld32 (pgdir + 4 * Z.of_nat i);;
      whenM (ctrue (Z.land e PTE_P)) (kfree (P2V (PTE_ADDR e))));;;
    kfree pgdir.

Definition setupkvm : K Z :=
  pgdir <- kalloc;;
  if negb (ctrue pgdir) then ret 0
  else
    kmemset pgdir 0 PGSIZE;;;
    if DEVSPACE <? P2V PHYSTOP then panic "PHYSTOP too high"
    else
      r <- scan kmap (fun '(virt, phys_start, phys_end, perm) =>
        e <- mappages pgdir virt (u32 (phys_end - phys_start)) phys_start perm;;
        if e <? 0 then freevm pgdir;;; ret (Return 0) else ret Continue);;
      ret (default pgdir r).

Definition switchkvm : K unit :=
  modify (fun s => s <| k_cr3 := V2P (k_kpgdir s) |>).

Definition kvmalloc : K unit :=
  pgdir <- setupkvm;;
  modify (fun s => s <| k_kpgdir := pgdir |>);;;
  switchkvm.

(** The task-state segment of the CPU is kept as the kernel stack top [esp0]
    it holds; the other fields are constants. *)
Definition switchuvm (i : option nat) : K unit :=
  match i with
  | None => panic "switchuvm: no process"
  | Some i =>
      p <- get_proc i;;
      if negb (ctrue (p_kstack p)) then panic "switchuvm: no kstack"
      else if negb (ctrue (p_pgdir p)) then panic "switchuvm: no pgdir"
      else
        modify (fun s => s <| k_esp0 := u32 (p_kstack p + KSTACKSIZE) |>
                           <| k_cr3 := V2P (p_pgdir p) |>)
  end.

(** [init] is the image of initcode, [sz] its size.  The results of [kalloc]
    and [mappages] are not checked. *)
Definition inituvm (pgdir : Z) (init : list Z) (sz : Z) : K unit :=
  if PGSIZE <=? sz then panic "inituvm: more than a page"
  else
    mem <- kalloc;;
    kmemset mem 0 PGSIZE;;;
    mappages pgdir 0 PGSIZE (V2P mem) (Z.lor PTE_W PTE_U);;;
    kstore_bytes mem (take (Z.to_nat sz) init).

Definition allocuvm (pgdir oldsz newsz : Z) : K Z :=
  if KERNBASE <=? newsz then ret 0
  else if newsz <? oldsz then ret oldsz
  else
    loop (Z.to_nat ((newsz - oldsz) / PGSIZE) + 2)
      (fun a =>
         if a <? newsz then
           mem <- kalloc;;
           if negb (ctrue mem) then
             cprintf ("allocuvm out of memory" +:+ nl) [];;;
             deallocuvm pgdir newsz oldsz;;;
             ret (inr 0)
           else
             kmemset mem 0 PGSIZE;;;
             r <- mappages pgdir a PGSIZE (V2P mem) (Z.lor PTE_W PTE_U);;
             if r <? 0 then
               cprintf ("allocuvm out of memory (2)" +:+ nl) [];;;
               deallocuvm pgdir newsz oldsz;;;
               kfree mem;;;
               ret (inr 0)
             else ret (inl (u32 (a + PGSIZE)))
         else ret (inr newsz)) (PGROUNDUP oldsz).

Definition clearpteu (pgdir uva : Z) : K unit :=
  pte <- walkpgdir pgdir uva 0;;
  if negb (ctrue pte) then panic "clearpteu"
  else e <- kld32 pte;; kst32 pte (Z.land e (u32 (Z.lnot PTE_U))).

Definition copyuvm (pgdir sz : Z) : K Z :=
  d <- setupkvm;;
  if negb (ctrue d) then ret 0
  else
    let bad := freevm d;;; ret 0 in
    loop (Z.to_nat (sz / PGSIZE) + 2)
      (fun i =>
         if i <? sz then
           pte <- walkpgdir pgdir i 0;;
           if negb (ctrue pte) then panic "copyuvm: pte should exist"
           else
             e <- kld32 pte;;
             if negb (ctrue (Z.land e PTE_P)) then panic "copyuvm: page not present"
             else
               let pa := PTE_ADDR e in
               let flags := PTE_FLAGS e in
               mem <- kalloc;;
               if negb (ctrue mem) then r <- bad;; ret (inr r)
               else
                 kmemmove mem (P2V pa) PGSIZE;;;
                 r <- mappages d i PGSIZE (V2P mem) flags;;
                 if r <? 0 then kfree mem;;; r <- bad;; ret (inr r)
                 else ret (inl (u32 (i + PGSIZE)))
         else ret (inr d)) 0.

(** [*pte] is read without a null check: a null [pte] faults. *)
Definition uva2ka (pgdir uva : Z) : K Z :=
  pte <- walkpgdir pgdir uva 0;;
  if negb (ctrue pte) then fault
  else
    e <- kld32 pte;;
    if negb (ctrue (Z.land e PTE_P)) then ret 0
    else if negb (ctrue (Z.land e PTE_U)) then ret 0
    else ret (P2V (PTE_ADDR e)).

(** [buf] is the kernel array copied from; [len] is its length. *)
Definition copyout (pgdir va : Z) (buf : list Z) : K Z :=
  loop (length buf + 1)
    (fun '(va, buf) =>
       let len := Z.of_nat (length buf) in
       if 0 <? len then
         let va0 := PGROUNDDOWN va in
         pa0 <- uva2ka pgdir va0;;
         if negb (ctrue pa0) then ret (inr (-1))
         else
           let n0 := PGSIZE - (va - va0) in
           let n := if len <? n0 then len else n0 in
           kstore_bytes (pa0 + (va - va0)) (take (Z.to_nat n) buf);;;
           ret (inl (u32 (va0 + PGSIZE), drop (Z.to_nat n) buf))
       else ret (inr 0)) (va, buf).

(** * Accesses of the kernel to user memory *)

(** A load or store of the kernel at a user address [va] goes through the
    page directory in [cr3]; the kernel ignores [PTE_U], and a page that is
    not present is a page fault in the kernel. *)
Definition user_addr (va : Z) : K Z :=
  cr3 <- gets k_cr3;;
  e <- kld32 (P2V cr3 + 4 * PDX va);;
  if negb (ctrue (Z.land e PTE_P)) then fault
  else
    e <- kld32 (P2V (PTE_ADDR e) + 4 * PTX va);;
    if negb (ctrue (Z.land e PTE_P)) then fault
    else ret (P2V (PTE_ADDR e) + va mod PGSIZE).

Definition user_ld8 (va : Z) : K Z :=
  a <- user_addr va;; gets (fun s => ld8 (k_mem s) a).
Definition user_st8 (va v : Z) : K unit :=
  a <- user_addr va;; modify (fun s => s <| k_mem ::= fun m => st8 m a v |>).
Definition user_ld32 (va : Z) : K Z :=
  b0 <- user_ld8 va;; b1 <- user_ld8 (va + 1);;
  b2 <- user_ld8 (va + 2);; b3 <- user_ld8 (va + 3);;
  ret (b0 + b1 * 2 ^ 8 + b2 * 2 ^ 16 + b3 * 2 ^ 24).
Definition user_st32 (va v : Z) : K unit :=
  user_st8 va v;;; user_st8 (va + 1) (Z.shiftr v 8);;;
  user_st8 (va + 2) (Z.shiftr v 16);;; user_st8 (va + 3) (Z.shiftr v 24).

Definition user_store (va : Z) (l : list Z) : K unit :=
  forM (zip (seq 0 (length l)) l) (fun '(i, b) => user_st8 (va + Z.of_nat i) b).
Definition user_load (va : Z) (n : nat) : K (list Z) :=
  loop (S n)
    (fun '(i, acc) =>
       if (i =? n)%nat then ret (inr (rev acc))
       else b <- user_ld8 (va + Z.of_nat i);; ret (inl (S i, b :: acc)))
    (0%nat, []).

(** * Frame *)

#[export] Instance walkpgdir_keeps a b c : SysKeeps (walkpgdir a b c).
Proof. unfold walkpgdir. solve_keeps. Qed.
#[export] Instance mappages_keeps a b c d e : SysKeeps (mappages a b c d e).
Proof. unfold mappages. solve_keeps. Qed.
#[export] Instance deallocuvm_keeps a b c : SysKeeps (deallocuvm a b c).
Proof. unfold deallocuvm. solve_keeps. Qed.
#[export] Instance freevm_keeps a : SysKeeps (freevm a).
Proof. unfold freevm. solve_keeps. Qed.
#[export] Instance setupkvm_keeps : SysKeeps setupkvm.
Proof. unfold setupkvm. solve_keeps. Qed.
#[export] Instance allocuvm_keeps a b c : SysKeeps (allocuvm a b c).
Proof. unfold allocuvm. solve_keeps. Qed.
#[export] Instance clearpteu_keeps a b : SysKeeps (clearpteu a b).
Proof. unfold clearpteu. solve_keeps. Qed.
#[export] Instance inituvm_keeps a b c : SysKeeps (inituvm a b c).
Proof. unfold inituvm. solve_keeps. Qed.
#[export] Instance copyuvm_keeps a b : SysKeeps (copyuvm a b).
Proof. unfold copyuvm. solve_keeps. Qed.
#[export] Instance uva2ka_keeps a b : SysKeeps (uva2ka a b).
Proof. unfold uva2ka. solve_keeps. Qed.
#[export] Instance copyout_keeps a b c : SysKeeps (copyout a b c).
Proof. unfold copyout. solve_keeps. Qed.
#[export] Instance user_addr_keeps a : SysKeeps (user_addr a).
Proof. unfold user_addr. solve_keeps. Qed.
#[export] Instance user_ld8_keeps a : SysKeeps (user_ld8 a).
Proof. unfold user_ld8. solve_keeps. Qed.
#[export] Instance user_st8_keeps a b : SysKeeps (user_st8 a b).
Proof. unfold user_st8. solve_keeps. Qed.
#[export] Instance user_ld32_keeps a : SysKeeps (user_ld32 a).
Proof. unfold user_ld32. solve_keeps. Qed.
#[export] Instance user_st32_keeps a b : SysKeeps (user_st32 a b).
Proof. unfold user_st32. solve_keeps. Qed.
#[export] Instance user_store_keeps a l : SysKeeps (user_store a l).
Proof. unfold user_store. solve_keeps. Qed.
#[export] Instance user_load_keeps a n : SysKeeps (user_load a n).
Proof. unfold user_load. solve_keeps. Qed.

End Vm.
