(* ===== verification/PageTable.v ===== *)
(** Page directories in memory, abstractly: which page tables a directory
    has, and which entries they hold.  The lemmas say what a look-up finds,
    what a new table or a changed entry does to that view, and that writes to
    other pages do not disturb it. *)
From S2P Require Import Prelude Kstate Demo Sched Mem MemSpec Kalloc KallocSpec Vm.

(** * Addresses and entries *)

Lemma land_ones a k : 0 <= k -> Z.land a (2 ^ k - 1) = a mod 2 ^ k.
Proof. intros H. rewrite <- Z.land_ones by done. f_equal. rewrite Z.ones_equiv. lia. Qed.

Lemma PDX_eq va : 0 <= va < 2 ^ 32 -> PDX va = va / PGSIZE / 1024.
Proof.
  intros H. unfold PDX. change 0x3FF with (2 ^ 10 - 1). rewrite land_ones by done.
  rewrite Z.shiftr_div_pow2 by done. change (2 ^ PDXSHIFT) with 4194304. change (2 ^ 10) with 1024.
  change PGSIZE with 4096. width_lia.
Qed.
Lemma PTX_eq va : 0 <= va < 2 ^ 32 -> PTX va = (va / PGSIZE) mod 1024.
Proof.
  intros H. unfold PTX. change 0x3FF with (2 ^ 10 - 1). rewrite land_ones by done.
  by rewrite Z.shiftr_div_pow2.
Qed.

(** Clearing the low twelve bits. *)
Lemma clear_low a : 0 <= a < 2 ^ 32 -> Z.land a (u32 (Z.lnot 0xFFF)) = a - a mod 4096.
Proof.
  intros H. change (u32 (Z.lnot 0xFFF)) with (Z.shiftl (Z.ones 20) 12).
  replace (Z.land a (Z.shiftl (Z.ones 20) 12)) with (Z.shiftl (Z.shiftr a 12) 12).
  - rewrite Z.shiftl_mul_pow2, Z.shiftr_div_pow2 by done. change (2 ^ 12) with 4096. width_lia.
  - apply Z.bits_inj'. intros n Hn. rewrite Z.land_spec, !Z.shiftl_spec by done.
    destruct (Z.lt_ge_cases n 12).
    + rewrite !(Z.testbit_neg_r _ (n - 12)) by lia. by rewrite andb_false_r.
    + rewrite Z.shiftr_spec by lia. replace (n - 12 + 12) with n by lia.
      destruct (Z.lt_ge_cases n 32).
      * rewrite Z.ones_spec_low, andb_true_r by lia. done.
      * rewrite (Z.bits_above_log2 a n), andb_false_l; [done|lia|].
        destruct (Z.eq_dec a 0) as [->|]; [cbn; lia|].
        assert (Z.log2 a < 32) by (apply Z.log2_lt_pow2; lia). lia.
Qed.

Lemma PTE_ADDR_eq e : 0 <= e < 2 ^ 32 -> PTE_ADDR e = e - e mod 4096.
Proof. apply clear_low. Qed.
Lemma PGROUNDDOWN_eq a : 0 <= a < 2 ^ 32 -> PGROUNDDOWN a = a / PGSIZE * PGSIZE.
Proof. intros H. unfold PGROUNDDOWN. change (PGSIZE - 1) with 0xFFF. rewrite clear_low by done.
  change PGSIZE with 4096. width_lia. Qed.
Lemma PGROUNDUP_eq a : 0 <= a <= 2 ^ 32 - PGSIZE -> PGROUNDUP a = (a + PGSIZE - 1) / PGSIZE * PGSIZE.
Proof.
  intros H. unfold PGROUNDUP. change PGSIZE with 4096 in *. change (4096 - 1) with 0xFFF.
  rewrite clear_low by width_lia. width_lia.
Qed.
Lemma PTE_FLAGS_eq e : PTE_FLAGS e = e mod 4096.
Proof. unfold PTE_FLAGS. change 0xFFF with (2 ^ 12 - 1). by rewrite land_ones. Qed.

Lemma land_page a f : a mod 4096 = 0 -> 0 <= f < 4096 -> Z.land a f = 0.
Proof.
  intros Ha Hf. apply Z.bits_inj'. intros n Hn.
  rewrite Z.land_spec, Z.bits_0. destruct (Z.lt_ge_cases n 12).
  - assert (E : a = a / 4096 * 2 ^ 12) by (change (2 ^ 12) with 4096; width_lia).
    by rewrite E, Z.mul_pow2_bits_low by lia.
  - rewrite (Z.bits_above_log2 f n), andb_false_r; [done|lia|].
    destruct (Z.eq_dec f 0) as [->|]; [cbn; lia|].
    assert (Z.log2 f < 12) by (apply Z.log2_lt_pow2; lia). lia.
Qed.
Lemma lor_page a f : a mod 4096 = 0 -> 0 <= f < 4096 -> Z.lor a f = a + f.
Proof. intros Ha Hf. symmetry. by apply Z.add_nocarry_lor, land_page. Qed.

(** The present bit of an entry, and the page it points to. *)
Definition present (e : Z) : bool := ctrue (Z.land e PTE_P).
Definition frame (e : Z) : Z := P2V (PTE_ADDR e).

Lemma present_odd e : present e = Z.odd e.
Proof.
  unfold present, PTE_P. change 1 with (2 ^ 1 - 1). rewrite land_ones by done. change (2 ^ 1) with 2.
  rewrite Zmod_odd. by destruct (Z.odd e).
Qed.

(** The page tables of a directory by their index, and the present entries
    by virtual page number. *)
Abbreviation tables := (gmap Z Z).
Abbreviation entries := (gmap Z Z).

Section Pages.
Context `{KL : KernelLayout}.

Lemma page_ok_range v : page_ok v -> v mod 4096 = 0 /\ KERNBASE < v < 2 ^ 32 /\ V2P v = v - KERNBASE.
Proof.
  intros Hv. pose proof (page_ok_facts _ Hv) as [Ha Hr]. destruct Hv as [Hv _].
  unfold kfree_invalid in Hv. rewrite !orb_false_iff in Hv. destruct Hv as [[_ Hk%Z.ltb_ge] _].
  pose proof kend_after. pose proof kdata_linked. split; [done|].
  change KERNLINK with 0x80100000 in *. unfold V2P. change KERNBASE with 0x80000000.
  split; [lia|]. width_lia.
Qed.

(** An entry made from a page address and flags. *)
Lemma entry_made v f :
  page_ok v -> 0 <= f < 4096 -> Z.lor (V2P v) f = V2P v + f /\ 0 <= V2P v + f < 2 ^ 32 /\
  frame (V2P v + f) = v /\ PTE_FLAGS (V2P v + f) = f.
Proof.
  intros (Ha & Hr & Hp)%page_ok_range Hf. change KERNBASE with 0x80000000 in *.
  assert (Hm : V2P v mod 4096 = 0) by (rewrite Hp; width_lia).
  split; [by apply lor_page|]. split; [lia|]. split.
  - unfold frame. rewrite PTE_ADDR_eq by lia. unfold P2V. change KERNBASE with 0x80000000. width_lia.
  - rewrite PTE_FLAGS_eq. width_lia.
Qed.

(** * Directories *)

Definition live (e : Z) : option Z := if present e then Some e else None.
Definition tabs (T : tables) : list Z := (map_to_list T).*2.

Record pgdir_ok (m : mem) (d : Z) (T : tables) (E : entries) : Prop := mkPd {
  pd_dir : page_ok d;
  pd_entry : forall i, 0 <= i < 1024 -> T !! i = frame <$> live (ld32 m (d + 4 * i));
  pd_tab : forall i t, T !! i = Some t -> 0 <= i < 1024 /\ page_ok t;
  pd_nodup : NoDup (d :: tabs T);
  pd_pte : forall n, 0 <= n < 2 ^ 20 ->
    E !! n = (t ← T !! (n / 1024); live (ld32 m (t + 4 * (n mod 1024))));
  pd_dom : forall n e, E !! n = Some e -> 0 <= n < 2 ^ 20;
}.

(** Only bytes of the pages [L] differ. *)
Definition untouched (L : list Z) (m m' : mem) : Prop :=
  forall x, (forall p, p ∈ L -> x < p \/ p + PGSIZE <= x) -> ld8 m' x = ld8 m x.

Lemma untouched_refl L m : untouched L m m.
Proof. done. Qed.
Lemma untouched_trans L m1 m2 m3 : untouched L m1 m2 -> untouched L m2 m3 -> untouched L m1 m3.
Proof. intros H1 H2 x Hx. by rewrite H2, H1. Qed.
Lemma untouched_mono L L' m m' : L ⊆ L' -> untouched L m m' -> untouched L' m m'.
Proof. intros HL H x Hx. apply H. auto. Qed.

Lemma untouched_page L m m' p x :
  untouched L m m' -> Forall page_ok L -> page_ok p -> p ∉ L -> p <= x < p + PGSIZE ->
  ld8 m' x = ld8 m x.
Proof.
  intros Hu HL Hp Hn Hx. apply Hu. intros q Hq.
  assert (page_ok q) by (by eapply Forall_forall).
  destruct (page_disjoint p q) as [?|?]; [done|done|by intros ->| |]; lia.
Qed.
Lemma untouched_word L m m' p o :
  untouched L m m' -> Forall page_ok L -> page_ok p -> p ∉ L -> 0 <= o < 1024 ->
  ld32 m' (p + 4 * o) = ld32 m (p + 4 * o).
Proof.
  intros Hu HL Hp Hn Ho. change PGSIZE with 4096 in *. unfold ld32.
  by rewrite !(untouched_page L m m' p) by (done || change PGSIZE with 4096; lia).
Qed.

Lemma elem_of_tabs T p : p ∈ tabs T <-> exists i, T !! i = Some p.
Proof.
  unfold tabs. rewrite list_elem_of_fmap. split.
  - intros ([i q] & -> & Hi%elem_of_map_to_list). by exists i.
  - intros [i Hi]. exists (i, p). split; [done|]. by apply elem_of_map_to_list.
Qed.
Lemma tabs_insert T i p : T !! i = None -> tabs (<[i := p]> T) ≡ₚ p :: tabs T.
Proof. intros H. unfold tabs. by rewrite map_to_list_insert. Qed.
Lemma tabs_inj T i j p : NoDup (tabs T) -> T !! i = Some p -> T !! j = Some p -> i = j.
Proof.
  intros Hnd Hi Hj. destruct (decide (i = j)) as [|Hne]; [done|exfalso].
  assert (Hp : p :: tabs (delete i T) ≡ₚ tabs T).
  { unfold tabs. rewrite <- (map_to_list_delete T i p Hi). done. }
  rewrite <- Hp in Hnd. apply NoDup_cons in Hnd as [Hnd _]. apply Hnd, elem_of_tabs. exists j.
  by rewrite lookup_delete_ne.
Qed.

Lemma pgdir_ok_tabs m d T E : pgdir_ok m d T E -> Forall page_ok (d :: tabs T).
Proof.
  intros H. constructor; [apply H|]. apply Forall_forall. intros p [i Hi]%elem_of_tabs.
  by apply (pd_tab _ _ _ _ H i).
Qed.

(** Writes to pages of other owners do not change the directory. *)
Lemma pgdir_ok_frame L m m' d T E :
  pgdir_ok m d T E -> untouched L m m' -> Forall page_ok L ->
  (forall p, p ∈ d :: tabs T -> p ∉ L) -> pgdir_ok m' d T E.
Proof.
  intros [Hd He Ht Hnd Hp Hdom] Hu HL Hown. split; try done.
  - intros i Hi. rewrite (untouched_word L m m' d) by (done || apply Hown; left). by apply He.
  - intros n Hn. rewrite Hp by done. destruct (T !! (n / 1024)) as [t|] eqn:Et; [|done]. cbn.
    rewrite (untouched_word L m m' t); [done|done|done|by eapply Ht| |width_lia].
    apply Hown. right. apply elem_of_tabs. eauto.
Qed.

(** Storing one entry of a table. *)
Lemma st32_untouched m p o v :
  0 <= o < 1024 -> untouched [p] m (st32 m (p + 4 * o) v).
Proof.
  intros Ho x Hx. apply ld8_st32_ne. specialize (Hx p ltac:(left)). change PGSIZE with 4096 in *. lia.
Qed.
Lemma ld32_st32_slot m p o o' v :
  ld32 (st32 m (p + 4 * o) v) (p + 4 * o') = if o' =? o then u32 v else ld32 m (p + 4 * o').
Proof.
  destruct (Z.eqb_spec o' o) as [->|Hne]; [apply ld32_st32|]. apply ld32_st32_ne. lia.
Qed.

Lemma set_pte m d T E n t v :
  pgdir_ok m d T E -> 0 <= n < 2 ^ 20 -> T !! (n / 1024) = Some t -> 0 <= v < 2 ^ 32 ->
  pgdir_ok (st32 m (t + 4 * (n mod 1024)) v) d T (partial_alter (fun _ => live v) n E).
Proof.
  intros H Hn Ht Hv. pose proof (pd_nodup _ _ _ _ H) as [Hdt Hnd]%NoDup_cons.
  destruct (pd_tab _ _ _ _ H _ _ Ht) as [_ Htp].
  assert (Hu := st32_untouched m t (n mod 1024) v ltac:(width_lia)).
  split; try apply H.
  - intros i Hi. rewrite (untouched_word [t] m _ d); [by apply H|done|by apply Forall_singleton|apply H| |done].
    rewrite list_elem_of_singleton. intros ->. apply Hdt, elem_of_tabs. eauto.
  - intros k Hk. destruct (decide (k = n)) as [->|Hne].
    + rewrite lookup_partial_alter_eq, Ht. cbn. by rewrite ld32_st32, u32_id.
    + rewrite lookup_partial_alter_ne, (pd_pte _ _ _ _ H) by done.
      destruct (T !! (k / 1024)) as [t'|] eqn:Ek; [|done]. cbn. f_equal.
      destruct (decide (t' = t)) as [->|Htt].
      * rewrite ld32_st32_slot. assert (k / 1024 = n / 1024) by (by eapply tabs_inj).
        rewrite (proj2 (Z.eqb_neq _ _)) by width_lia. done.
      * symmetry. rewrite (untouched_word [t] m _ t'); [done|done|by apply Forall_singleton| | |width_lia].
        -- by destruct (pd_tab _ _ _ _ H _ _ Ek).
        -- by rewrite list_elem_of_singleton.
  - intros k e. destruct (decide (k = n)) as [->|Hne]; [done|].
    rewrite lookup_partial_alter_ne by done. apply H.
Qed.

Lemma memset_untouched m p c : untouched [p] m (memset m p c PGSIZE).
Proof.
  intros x Hx. specialize (Hx p ltac:(left)). rewrite memset_bytes by done. by_range.
Qed.
Lemma ld32_zeroed m p o : 0 <= o < 1024 -> ld32 (memset m p 0 PGSIZE) (p + 4 * o) = 0.
Proof.
  intros Ho. change PGSIZE with 4096. unfold ld32. rewrite !memset_bytes by done. by_range.
Qed.

(** A directory entry for a fresh, zeroed table. *)
Definition table_entry (p : Z) : Z := Z.lor (Z.lor (Z.lor (V2P p) PTE_P) PTE_W) PTE_U.

Lemma table_entry_eq p : page_ok p -> live (u32 (table_entry p)) = Some (V2P p + 7) /\ frame (V2P p + 7) = p.
Proof.
  intros Hp. destruct (entry_made p 7 Hp ltac:(lia)) as (E1 & Hr & Hf & _).
  unfold table_entry. rewrite <- !Z.lor_assoc. change (Z.lor PTE_P (Z.lor PTE_W PTE_U)) with 7.
  rewrite E1, u32_id by done. split; [|done]. unfold live. rewrite present_odd.
  destruct (page_ok_range p Hp) as (Hm & _ & E2). rewrite E2. rewrite Z.add_comm, Z.odd_add.
  replace (Z.odd (p - KERNBASE)) with false; [done|]. change KERNBASE with 0x80000000 in *.
  symmetry. rewrite <- Z.negb_even, negb_false_iff. apply Z.even_spec. exists ((p - 0x80000000) / 2).
  width_lia.
Qed.

Lemma new_table m d T E i p :
  pgdir_ok m d T E -> 0 <= i < 1024 -> T !! i = None -> page_ok p -> p ∉ d :: tabs T ->
  pgdir_ok (st32 (memset m p 0 PGSIZE) (d + 4 * i) (table_entry p)) d (<[i := p]> T) E.
Proof.
  intros H Hi HT Hp Hn. destruct (table_entry_eq p Hp) as [El Ef].
  apply not_elem_of_cons in Hn as Hn'. destruct Hn' as [Hpd Hpt].
  assert (H0 : pgdir_ok (memset m p 0 PGSIZE) d T E).
  { eapply (pgdir_ok_frame [p]); [done|apply memset_untouched|by apply Forall_singleton|].
    intros q Hq. rewrite list_elem_of_singleton. by intros ->. }
  assert (Hu := st32_untouched (memset m p 0 PGSIZE) d i (table_entry p) Hi).
  assert (HF : Forall page_ok [d]) by (apply Forall_singleton, H).
  split.
  - apply H.
  - intros j Hj. rewrite ld32_st32_slot. destruct (Z.eqb_spec j i) as [->|Hne].
    + rewrite lookup_insert_eq, El. cbn. by rewrite Ef.
    + rewrite lookup_insert_ne by done. by apply H0.
  - intros j t. destruct (decide (j = i)) as [->|Hne].
    + rewrite lookup_insert_eq. by intros [= <-].
    + rewrite lookup_insert_ne by done. apply H0.
  - rewrite (tabs_insert T i p HT). destruct (proj1 (NoDup_cons _ _) (pd_nodup _ _ _ _ H)).
    apply NoDup_cons. split; [by rewrite not_elem_of_cons|]. by apply NoDup_cons.
  - intros n Hn20. rewrite (pd_pte _ _ _ _ H0) by done.
    destruct (decide (n / 1024 = i)) as [Ei|Hne].
    + rewrite Ei, lookup_insert_eq, HT. cbn. symmetry.
      rewrite (untouched_word [d] _ _ p _ Hu HF Hp); [|by rewrite list_elem_of_singleton|width_lia].
      by rewrite ld32_zeroed by width_lia.
    + rewrite lookup_insert_ne by done. destruct (T !! (n / 1024)) as [t|] eqn:Et; [|done]. cbn.
      symmetry. rewrite (untouched_word [d] _ _ t _ Hu HF); [done| | |width_lia].
      * by destruct (pd_tab _ _ _ _ H _ _ Et).
      * rewrite list_elem_of_singleton. intros ->.
        apply (proj1 (NoDup_cons _ _) (pd_nodup _ _ _ _ H)), elem_of_tabs. eauto.
  - apply H0.
Qed.

(** * Directories in the kernel's memory *)

(** Nothing but memory, the allocator and the console output changed. *)
Definition mem_only (s s' : kstate) : Prop :=
  s' = s <| k_mem := k_mem s' |> <| k_kmem := k_kmem s' |> <| k_out := k_out s' |>.

Lemma mem_only_refl s : mem_only s s.
Proof. apply kstate_ext; reflexivity. Qed.
Lemma mem_only_trans s1 s2 s3 : mem_only s1 s2 -> mem_only s2 s3 -> mem_only s1 s3.
Proof.
  intros H1 H2. apply kstate_ext; try reflexivity;
    match goal with |- ?f _ = _ => exact (eq_trans (f_equal f H2) (f_equal f H1)) end.
Qed.

(** A directory in memory beside the free pages [F] and the pages [P] of
    others: no page has two owners. *)
Record space (s : kstate) (F : list Z) (d : Z) (T : tables) (E : entries) (P : list Z) : Prop := mkSp {
  sp_alloc : alloc_inv s F;
  sp_dir : pgdir_ok (k_mem s) d T E;
  sp_own : NoDup (F ++ d :: tabs T ++ P);
  sp_pages : Forall page_ok P;
}.

Lemma alloc_inv_write s s' F L :
  alloc_inv s F -> k_kmem s' = k_kmem s -> k_held s' = k_held s ->
  untouched L (k_mem s) (k_mem s') -> bytes (k_mem s') -> Forall page_ok L ->
  (forall p, p ∈ F -> p ∉ L) -> alloc_inv s' F.
Proof.
  intros [Hl Hnd Hp Hk Hb] Ek Eh Hu Hb' HL Hn. split; rewrite ?Ek, ?Eh; try done.
  eapply free_list_ext, Hl. intros p Hin. assert (Hpp : page_ok p) by exact (proj1 (Forall_forall _ _) Hp p Hin).
  pose proof (untouched_word L _ _ p 0 Hu HL Hpp (Hn p Hin)) as H.
  rewrite Z.mul_0_r, Z.add_0_r in H. apply H. lia.
Qed.

Lemma space_pages s F d T E P : space s F d T E P -> Forall page_ok (F ++ d :: tabs T ++ P).
Proof.
  intros H. apply Forall_app. split; [apply H|]. apply (Forall_app _ (d :: tabs T)).
  split; [by eapply pgdir_ok_tabs, H|apply H].
Qed.

(** Owners do not overlap. *)
Lemma space_disjoint s F d T E P p :
  space s F d T E P ->
  (p ∈ F -> (p ∉ d :: tabs T) /\ (p ∉ P)) /\ (p ∈ d :: tabs T -> p ∉ P).
Proof.
  intros H. pose proof (sp_own _ _ _ _ _ _ H) as (_ & H1 & H0)%NoDup_app.
  apply (NoDup_app (d :: tabs T)) in H0 as (_ & H2 & _). split; [|apply H2]. intros Hp. specialize (H1 p Hp). change (d :: tabs T ++ P) with ((d :: tabs T) ++ P) in H1.
  rewrite elem_of_app in H1. tauto.
Qed.

Lemma space_frame s s' F d T E P L :
  space s F d T E P -> k_kmem s' = k_kmem s -> k_held s' = k_held s ->
  untouched L (k_mem s) (k_mem s') -> bytes (k_mem s') -> L ⊆ P -> space s' F d T E P.
Proof.
  intros H Ek Eh Hu Hb HL.
  assert (HLp : Forall page_ok L).
  { apply Forall_forall. intros p Hp%HL. exact (proj1 (Forall_forall _ _) (sp_pages _ _ _ _ _ _ H) p Hp). }
  split; try apply H.
  - eapply (alloc_inv_write s _ _ L); try done; [apply H|]. intros p Hp Hin%HL.
    by apply (proj1 (space_disjoint _ _ _ _ _ _ p H)) in Hp as [_ ?].
  - eapply (pgdir_ok_frame L); try done; [apply H|]. intros p Hp Hin%HL.
    by apply (space_disjoint _ _ _ _ _ _ p H) in Hp.
Qed.

Lemma space_bytes s F d T E P : space s F d T E P -> bytes (k_mem s).
Proof. intros H. by destruct (sp_alloc _ _ _ _ _ _ H). Qed.

(** Storing an entry of a table of the directory. *)
Definition store (a v : Z) (s : kstate) : kstate := s <| k_mem ::= fun m => st32 m a v |>.

Lemma store_run a v s : kst32 a v s = Ret tt (store a v s).
Proof. reflexivity. Qed.
Lemma mem_only_store a v s : mem_only s (store a v s).
Proof. apply kstate_ext; reflexivity. Qed.

Lemma space_store s F d T E P n t v :
  space s F d T E P -> 0 <= n < 2 ^ 20 -> T !! (n / 1024) = Some t -> 0 <= v < 2 ^ 32 ->
  space (store (t + 4 * (n mod 1024)) v s) F d T (partial_alter (fun _ => live v) n E) P /\
  untouched (tabs T) (k_mem s) (k_mem (store (t + 4 * (n mod 1024)) v s)).
Proof.
  intros H Hn Ht Hv. assert (Htt : t ∈ tabs T) by (apply elem_of_tabs; eauto).
  assert (Hu := st32_untouched (k_mem s) t (n mod 1024) v ltac:(width_lia)).
  split; [|eapply untouched_mono, Hu; by intros ? ->%list_elem_of_singleton].
  split; try apply H.
  - apply (alloc_inv_write s _ F [t]); try done; [apply H|by apply bytes_st32; eapply space_bytes| |].
    + apply Forall_singleton. by destruct (pd_tab _ _ _ _ (sp_dir _ _ _ _ _ _ H) _ _ Ht).
    + intros p Hp ->%list_elem_of_singleton.
      apply (space_disjoint _ _ _ _ _ _ t H) in Hp as [[]%not_elem_of_cons _]. done.
  - apply set_pte; try done. apply H.
Qed.

(** * Taking and giving back pages *)

Lemma space_perm s F d T E P P' : P ≡ₚ P' -> space s F d T E P -> space s F d T E P'.
Proof. intros HP [H1 H2 H3 H4]. split; try done; by rewrite <- HP. Qed.

Lemma mem_only_taken p s : mem_only s (taken p s).
Proof. apply kstate_ext; reflexivity. Qed.
Lemma mem_only_freed p s : mem_only s (freed p s).
Proof. apply kstate_ext; reflexivity. Qed.

(** [kalloc] moves a page from the free list to the caller. *)
Lemma space_kalloc s F d T E P :
  space s F d T E P ->
  match F with
  | [] => kalloc s = Ret 0 s
  | p :: F' => kalloc s = Ret p (taken p s) /\ p <> 0 /\ page_ok p /\ space (taken p s) F' d T E (p :: P)
  end.
Proof.
  intros H. pose proof (sp_alloc _ _ _ _ _ _ H) as Ha. rewrite kalloc_run by apply Ha.
  pose proof (al_list _ _ Ha) as Hl. destruct F as [|p F']; cbn in Hl; cbv zeta; [by rewrite Hl|].
  destruct Hl as [-> _]. pose proof (al_pages _ _ Ha) as [Hp _]%Forall_cons.
  pose proof (page_ok_facts _ Hp) as [_ Hpos]. rewrite (proj2 (Z.eqb_neq p 0)) by lia.
  split; [done|]. split; [lia|]. split; [done|]. split.
  - by apply taken_inv.
  - apply H.
  - pose proof (sp_own _ _ _ _ _ _ H) as Hn.
    enough (F' ++ d :: tabs T ++ p :: P ≡ₚ (p :: F') ++ d :: tabs T ++ P) as -> by done. solve_Permutation.
  - constructor; [done|apply H].
Qed.

(** [kfree] moves a page of the caller to the free list. *)
Lemma space_kfree s F d T E P p :
  space s F d T E (p :: P) ->
  kfree p s = Ret tt (freed p s) /\ space (freed p s) (p :: F) d T E P /\
  untouched [p] (k_mem s) (k_mem (freed p s)).
Proof.
  intros H. pose proof (sp_pages _ _ _ _ _ _ H) as [Hp HP]%Forall_cons.
  pose proof (sp_alloc _ _ _ _ _ _ H) as Ha.
  assert (Hu : untouched [p] (k_mem s) (k_mem (freed p s))).
  { intros x Hx. apply freed_page_bytes; [done|apply Ha|]. apply Hx. left. }
  assert (Hin : p ∈ p :: P) by left.
  split; [apply kfree_run; [done|apply Ha]|]. split; [|done]. split.
  - apply freed_inv; try done. intros HF. by apply (space_disjoint _ _ _ _ _ _ p H) in HF as [_ ?].
  - apply (pgdir_ok_frame [p] (k_mem s)); [apply H|done|by apply Forall_singleton|].
    intros q Hq ->%list_elem_of_singleton. by apply (space_disjoint _ _ _ _ _ _ p H) in Hq.
  - pose proof (sp_own _ _ _ _ _ _ H) as Hn.
    enough ((p :: F) ++ d :: tabs T ++ P ≡ₚ F ++ d :: tabs T ++ p :: P) as -> by done. solve_Permutation.
  - done.
Qed.

(** Zeroing a page of the caller. *)
Definition zeroed (p : Z) (s : kstate) : kstate := s <| k_mem ::= fun m => memset m p 0 PGSIZE |>.
Lemma mem_only_zeroed p s : mem_only s (zeroed p s).
Proof. apply kstate_ext; reflexivity. Qed.

Lemma space_zeroed s F d T E P p :
  space s F d T E P -> p ∈ P -> space (zeroed p s) F d T E P /\ untouched [p] (k_mem s) (k_mem (zeroed p s)).
Proof.
  intros H Hp. assert (Hu := memset_untouched (k_mem s) p 0). split; [|done].
  apply (space_frame s _ F d T E P [p]); try done.
  - apply bytes_memset; [done|]. by eapply space_bytes.
  - by intros ? ->%list_elem_of_singleton.
Qed.

(** * walkpgdir *)

Definition pte_of (t va : Z) : Z := t + 4 * ((va / PGSIZE) mod 1024).

Lemma walk_found s d T E va al t :
  pgdir_ok (k_mem s) d T E -> 0 <= va < 2 ^ 32 -> T !! (va / PGSIZE / 1024) = Some t ->
  walkpgdir d va al s = Ret (pte_of t va) s.
Proof.
  intros H Hva Ht. unfold walkpgdir, kld32. mrun. rewrite PDX_eq, PTX_eq by done.
  rewrite (pd_entry _ _ _ _ H) in Ht by (change PGSIZE with 4096; width_lia).
  unfold live, present in Ht. destruct (ctrue _); [|done]. by injection Ht as <-.
Qed.
Lemma walk_missing s d T E va :
  pgdir_ok (k_mem s) d T E -> 0 <= va < 2 ^ 32 -> T !! (va / PGSIZE / 1024) = None ->
  walkpgdir d va 0 s = Ret 0 s.
Proof.
  intros H Hva Ht. unfold walkpgdir, kld32. mrun. rewrite PDX_eq by done.
  rewrite (pd_entry _ _ _ _ H) in Ht by (change PGSIZE with 4096; width_lia).
  unfold live, present in Ht. by destruct (ctrue _).
Qed.

(** [walkpgdir] with [alloc] set takes a page for a missing table. *)
Definition new_tab (d i p : Z) (s : kstate) : kstate :=
  store (d + 4 * i) (table_entry p) (zeroed p (taken p s)).

Lemma space_new_table s F d T E P i p :
  space s (p :: F) d T E P -> 0 <= i < 1024 -> T !! i = None ->
  space (new_tab d i p s) F d (<[i := p]> T) E P /\ untouched [d; p] (k_mem s) (k_mem (new_tab d i p s)) /\
  mem_only s (new_tab d i p s).
Proof.
  intros H Hi Ht. destruct (space_kalloc s (p :: F) d T E P H) as (_ & Hp0 & Hp & H1).
  assert (Hin : p ∈ p :: P) by left.
  destruct (space_zeroed _ _ _ _ _ _ p H1 Hin) as [H2 Hu2].
  assert (Hu3 := st32_untouched (k_mem (zeroed p (taken p s))) d i (table_entry p) Hi).
  assert (Hd : page_ok d) by apply (sp_dir _ _ _ _ _ _ H).
  split; [|split].
  - split.
    + apply (alloc_inv_write (zeroed p (taken p s)) _ F [d]); try done; [apply H2| | |].
      * apply bytes_st32. by eapply space_bytes.
      * by apply Forall_singleton.
      * intros q Hq ->%list_elem_of_singleton.
        apply (space_disjoint _ _ _ _ _ _ d H2) in Hq as [[]%not_elem_of_cons _]. done.
    + apply new_table; try done; [apply H|]. intros Hpd. by apply (space_disjoint _ _ _ _ _ _ p H2) in Hpd.
    + pose proof (sp_own _ _ _ _ _ _ H) as Hn.
      enough (F ++ d :: tabs (<[i := p]> T) ++ P ≡ₚ (p :: F) ++ d :: tabs T ++ P) as -> by done.
      rewrite (tabs_insert T i p Ht). solve_Permutation.
    + apply H.
  - eapply untouched_trans; (eapply untouched_mono; [|done]); intros ? ->%list_elem_of_singleton; set_solver.
  - eapply mem_only_trans; [|apply mem_only_store]. eapply mem_only_trans; [|apply mem_only_zeroed].
    apply mem_only_taken.
Qed.

Lemma walk_new s F d T E P va :
  space s F d T E P -> 0 <= va < 2 ^ 32 -> T !! (va / PGSIZE / 1024) = None ->
  walkpgdir d va 1 s =
    match F with
    | [] => Ret 0 s
    | p :: _ => Ret (pte_of p va) (new_tab d (va / PGSIZE / 1024) p s)
    end.
Proof.
  intros H Hva Ht. pose proof (space_kalloc s F d T E P H) as Hk.
  unfold walkpgdir, kld32. mrun. rewrite PDX_eq, PTX_eq by done.
  rewrite (pd_entry _ _ _ _ (sp_dir _ _ _ _ _ _ H)) in Ht by (change PGSIZE with 4096; width_lia).
  unfold live, present in Ht. destruct (ctrue _); [done|]. cbn [ctrue negb Z.eqb].
  destruct F as [|p F']; [by rewrite (bind_eq _ _ _ _ _ Hk)|]. destruct Hk as (Hk & Hp0 & _).
  rewrite (bind_eq _ _ _ _ _ Hk). unfold ctrue. rewrite (proj2 (Z.eqb_neq p 0)) by done. reflexivity.
Qed.
End Pages.
