(* ===== verification/VmSpec.v ===== *)
(** What the operations on address spaces do to the view of [PageTable]:
    mapping, growing, shrinking, copying and freeing address spaces, with an
    exact account of the pages they take from and give back to the free
    list. *)
From S2P Require Import Prelude Kstate Demo Sched Mem MemSpec Cprintf Kalloc KallocSpec Vm PageTable.

Section Vm.
Context `{KL : KernelLayout}.

(** * mappages *)

(** The directory [d] grew from tables [T] to [T'] with pages from the free
    list; only pages of the directory were written. *)
Record grows (d : Z) (s : kstate) (F : list Z) (T : tables) (s' : kstate) (F' : list Z) (T' : tables) : Prop := mkGrows {
  gr_state : mem_only s s';
  gr_tabs : T ⊆ T';
  gr_pages : F ++ tabs T ≡ₚ F' ++ tabs T';
  gr_mem : untouched (d :: tabs T') (k_mem s) (k_mem s');
}.

Lemma tabs_mono T T' : T ⊆ T' -> tabs T ⊆ tabs T'.
Proof.
  intros H p [i Hi]%elem_of_tabs. apply elem_of_tabs. exists i. by eapply lookup_weaken.
Qed.
Lemma grows_refl d s F T : grows d s F T s F T.
Proof. split; [apply mem_only_refl|done|done|done]. Qed.
Lemma grows_trans d s1 F1 T1 s2 F2 T2 s3 F3 T3 :
  grows d s1 F1 T1 s2 F2 T2 -> grows d s2 F2 T2 s3 F3 T3 -> grows d s1 F1 T1 s3 F3 T3.
Proof.
  intros [H1 H2 H3 H4] [H5 H6 H7 H8]. split.
  - by eapply mem_only_trans.
  - by trans T2.
  - by rewrite H3.
  - eapply untouched_trans; [|done]. eapply untouched_mono; [|done].
    pose proof (tabs_mono _ _ H6). set_solver.
Qed.

Lemma walk_alloc s F d T E P va :
  space s F d T E P -> 0 <= va < 2 ^ 32 ->
  (F = [] /\ walkpgdir d va 1 s = Ret 0 s) \/
  exists t s' F' T', walkpgdir d va 1 s = Ret (pte_of t va) s' /\ space s' F' d T' E P /\
    T' !! (va / PGSIZE / 1024) = Some t /\ grows d s F T s' F' T'.
Proof.
  intros H Hva. destruct (T !! (va / PGSIZE / 1024)) as [t|] eqn:Et.
  - right. exists t, s, F, T. split; [by eapply walk_found; [apply H|..]|]. split; [done|]. split; [done|apply grows_refl].
  - pose proof (walk_new s F d T E P va H Hva Et) as Ew. destruct F as [|p F]; [by left|right].
    assert (Hi : 0 <= va / PGSIZE / 1024 < 1024) by (change PGSIZE with 4096; width_lia).
    destruct (space_new_table s F d T E P _ p H Hi Et) as (Hs & Hu & Hm).
    exists p, (new_tab d (va / PGSIZE / 1024) p s), F, (<[va / PGSIZE / 1024 := p]> T).
    split; [done|]. split; [done|]. split; [by rewrite lookup_insert_eq|].
    assert (Hp := tabs_insert T _ p Et). split; [done|by apply insert_subseteq| |].
    + rewrite Hp. solve_Permutation.
    + eapply untouched_mono; [|done]. intros q Hq. rewrite Hp. set_solver.
Qed.

Lemma pte_of_pos t va : page_ok t -> ctrue (pte_of t va) = true.
Proof.
  intros [_ H]%page_ok_facts. unfold ctrue, pte_of. rewrite negb_true_iff, Z.eqb_neq.
  change PGSIZE with 4096. width_lia.
Qed.

(** The entry [mappages] stores, and the entries of [k] pages. *)
Definition entry (pa perm : Z) : Z := Z.lor (Z.lor pa perm) PTE_P.
Fixpoint map_range (E : entries) (n pa perm : Z) (k : nat) : entries :=
  match k with
  | O => E
  | S k => map_range (<[n := entry pa perm]> E) (n + 1) (u32 (pa + PGSIZE)) perm k
  end.

Lemma entry_eq pa perm :
  0 <= pa < 2 ^ 32 -> pa mod 4096 = 0 -> 0 <= perm < 4096 ->
  entry pa perm = pa + Z.lor perm PTE_P /\ 0 <= Z.lor perm PTE_P < 4096 /\
  0 <= entry pa perm < 2 ^ 32 /\ live (entry pa perm) = Some (entry pa perm).
Proof.
  intros Hpa Ha Hf.
  assert (Hl : 0 <= Z.lor perm PTE_P < 4096).
  { split; [apply Z.lor_nonneg; split; [lia|done]|]. change 4096 with (2 ^ 12).
    destruct (Z.eq_dec perm 0) as [->|]; [done|].
    apply Z.log2_lt_cancel. rewrite Z.log2_lor by (done || lia). change (Z.log2 (2 ^ 12)) with 12.
    apply Z.max_lub_lt; [|done]. apply Z.log2_lt_pow2; lia. }
  assert (E1 : entry pa perm = pa + Z.lor perm PTE_P).
  { unfold entry. rewrite <- Z.lor_assoc. by apply lor_page. }
  split; [done|]. split; [done|]. split; [rewrite E1; width_lia|].
  unfold live, present. replace (Z.land (entry pa perm) PTE_P) with 1; [done|].
  unfold entry. change PTE_P with 1. symmetry. rewrite Z.land_comm. apply Z.bits_inj'. intros i Hi.
  rewrite Z.land_spec, Z.lor_spec. by destruct (Z.testbit 1 i); rewrite ?orb_true_r.
Qed.

Lemma map_range_lookup E n pa perm k x :
  0 <= pa < 2 ^ 32 ->
  map_range E n pa perm k !! x =
    if within n (Z.of_nat k) x then Some (entry (u32 (pa + PGSIZE * (x - n))) perm) else E !! x.
Proof.
  revert E n pa. induction k as [|k IH]; intros E n pa Hpa; cbn [map_range].
  - by_range.
  - change PGSIZE with 4096 in *. rewrite IH by width_lia.
    destruct (within_spec n (Z.of_nat (S k)) x), (within_spec (n + 1) (Z.of_nat k) x); try lia.
    + do 2 f_equal. width_lia.
    + assert (x = n) as -> by lia. rewrite lookup_insert_eq. do 2 f_equal. width_lia.
    + rewrite lookup_insert_ne by lia. done.
Qed.

(** One turn of the loop of [mappages]. *)
Definition map_turn (d last perm : Z) : Z * Z -> K (Z * Z + Z) := fun '(a, pa) =>
  pte <- walkpgdir d a 1;;
  if negb (ctrue pte) then ret (inr (-1))
  else
    e <- kld32 pte;;
    if ctrue (Z.land e PTE_P) then panic "remap"
    else
      kst32 pte (Z.lor (Z.lor pa perm) PTE_P);;;
      if a =? last then ret (inr 0)
      else ret (inl (u32 (a + PGSIZE), u32 (pa + PGSIZE))).

Lemma map_turn_run s F d T E P n last pa perm :
  space s F d T E P -> 0 <= n < 2 ^ 20 -> E !! n = None ->
  0 <= pa < 2 ^ 32 -> pa mod 4096 = 0 -> 0 <= perm < 4096 ->
  (F = [] /\ map_turn d last perm (n * PGSIZE, pa) s = Ret (inr (-1)) s) \/
  exists s' F' T', space s' F' d T' (<[n := entry pa perm]> E) P /\ grows d s F T s' F' T' /\
    map_turn d last perm (n * PGSIZE, pa) s =
      Ret (if n * PGSIZE =? last then inr 0 else inl (u32 (n * PGSIZE + PGSIZE), u32 (pa + PGSIZE))) s'.
Proof.
  intros H Hn HE Hpa Ha Hf. assert (Hva : 0 <= n * PGSIZE < 2 ^ 32) by (change PGSIZE with 4096; lia).
  assert (Hvpn : n * PGSIZE / PGSIZE = n) by (change PGSIZE with 4096; width_lia).
  destruct (entry_eq pa perm Hpa Ha Hf) as (_ & _ & Hr & El). unfold map_turn.
  destruct (walk_alloc s F d T E P (n * PGSIZE) H Hva) as [[-> Ew]|(t & s1 & F1 & T1 & Ew & H1 & Ht & Hg)].
  - left. split; [done|]. by rewrite (bind_eq _ _ _ _ _ Ew).
  - right. rewrite Hvpn in Ht.
    destruct (space_store s1 F1 d T1 E P n t (entry pa perm) H1 Hn Ht Hr) as [H2 Hu]. rewrite El in H2.
    set (s2 := store (t + 4 * (n mod 1024)) (entry pa perm) s1) in *. exists s2, F1, T1.
    split; [done|]. split.
    { eapply grows_trans; [done|]. split; [apply mem_only_store|done|done|].
      eapply untouched_mono; [|done]. set_solver. }
    rewrite (bind_eq _ _ _ _ _ Ew). rewrite pte_of_pos.
    2: { by destruct (pd_tab _ _ _ _ (sp_dir _ _ _ _ _ _ H1) _ _ Ht). }
    cbn [negb]. unfold kld32. mrun. unfold pte_of. rewrite Hvpn.
    pose proof (pd_pte _ _ _ _ (sp_dir _ _ _ _ _ _ H1) n Hn) as Hp. rewrite HE, Ht in Hp. cbn in Hp.
    unfold live, present in Hp. destruct (ctrue _); [done|].
    rewrite (bind_eq _ _ _ _ _ (store_run _ _ _)). change (Z.lor (Z.lor pa perm) PTE_P) with (entry pa perm).
    fold s2. by destruct (_ =? _).
Qed.

Lemma mappages_loop k s F d T E P n pa perm last fuel :
  (k < fuel)%nat -> space s F d T E P -> 0 <= n -> n + Z.of_nat k < 2 ^ 20 ->
  (forall x, n <= x <= n + Z.of_nat k -> E !! x = None) ->
  0 <= pa < 2 ^ 32 -> pa mod 4096 = 0 -> 0 <= perm < 4096 -> last = (n + Z.of_nat k) * PGSIZE ->
  exists r j s' F' T',
    loop fuel (map_turn d last perm) (n * PGSIZE, pa) s = Ret r s' /\
    space s' F' d T' (map_range E n pa perm j) P /\ grows d s F T s' F' T' /\
    (r = 0 /\ j = S k \/ r = -1 /\ (j <= k)%nat /\ F' = []).
Proof.
  revert s F T E n pa fuel. induction k as [|k IH]; intros s F T E n pa fuel Hfu H Hn Hk HE Hpa Ha Hf Hlast;
    (destruct fuel as [|fuel]; [lia|]); cbn [loop];
    (destruct (map_turn_run s F d T E P n last pa perm) as [[-> Er]|(s1 & F1 & T1 & H1 & Hg & Er)];
      [done|lia|apply HE; lia|done|done|done| |]); rewrite (bind_eq _ _ _ _ _ Er).
  - exists (-1), 0%nat, s, [], T. split; [done|]. split; [done|]. split; [apply grows_refl|]. right. split_and!; done || lia.
  - rewrite (proj2 (Z.eqb_eq _ _)) by lia. exists 0, 1%nat, s1, F1, T1. eauto 10.
  - exists (-1), 0%nat, s, [], T. split; [done|]. split; [done|]. split; [apply grows_refl|]. right. split_and!; done || lia.
  - change PGSIZE with 4096 in *. rewrite (proj2 (Z.eqb_neq _ _)) by lia.
    replace (u32 (n * 4096 + 4096)) with ((n + 1) * 4096) by width_lia.
    destruct (IH s1 F1 T1 (<[n := entry pa perm]> E) (n + 1) (u32 (pa + 4096)) fuel)
      as (r & j & s2 & F2 & T2 & El & H2 & Hg2 & Hr); try done; try lia; try width_lia.
    { intros x Hx. rewrite lookup_insert_ne by lia. apply HE. lia. }
    exists r, (S j), s2, F2, T2. split; [done|]. split; [done|]. split; [by eapply grows_trans|].
    destruct Hr as [[-> ->]|(-> & Hj & ->)]; [left|right]; split_and!; done || lia.
Qed.

(** [mappages] maps the [k] pages that [va], [size] cover, or fails when it
    needs a page table and there is no free page. *)
Lemma mappages_run k s F d T E P n va size pa perm :
  space s F d T E P -> 0 <= va < 2 ^ 32 -> va / PGSIZE = n -> 0 < size ->
  va + size <= 2 ^ 32 -> (va + size - 1) / PGSIZE = n + Z.of_nat k ->
  (forall x, n <= x <= n + Z.of_nat k -> E !! x = None) ->
  0 <= pa < 2 ^ 32 -> pa mod 4096 = 0 -> 0 <= perm < 4096 ->
  exists r j s' F' T',
    mappages d va size pa perm s = Ret r s' /\
    space s' F' d T' (map_range E n pa perm j) P /\ grows d s F T s' F' T' /\
    (r = 0 /\ j = S k \/ r = -1 /\ (j <= k)%nat /\ F' = []).
Proof.
  intros H Hva Hn Hsz Htop Hk HE Hpa Ha Hf. unfold mappages.
  replace (u32 (va + size - 1)) with (va + size - 1) by width_lia.
  rewrite !PGROUNDDOWN_eq, Hn, Hk by lia. change (loop ?f _) with (loop f (map_turn d ((n + Z.of_nat k) * PGSIZE) perm)).
  apply mappages_loop; try done; change PGSIZE with 4096 in *; width_lia.
Qed.

(** * User pages *)

(** The pages mapped below [KERNBASE]. *)
Definition UTOP : Z := 2 ^ 19.
Definition upages (E : entries) : list Z :=
  (frame ∘ snd) <$> map_to_list (filter (fun x => x.1 < UTOP) E).

Lemma upages_insert E n e :
  E !! n = None -> n < UTOP -> upages (<[n := e]> E) ≡ₚ frame e :: upages E.
Proof.
  intros HE Hn. unfold upages. rewrite map_filter_insert_True by done.
  rewrite map_to_list_insert; [done|]. by apply map_lookup_filter_None_2; left.
Qed.
Lemma upages_insert_kernel E n e : UTOP <= n -> upages (<[n := e]> E) = upages E.
Proof.
  intros Hn. unfold upages. do 2 f_equal. apply map_eq. intros x. apply option_eq. intros y.
  rewrite !map_lookup_filter_Some. cbn. destruct (decide (x = n)) as [->|Hx]; [lia|].
  by rewrite lookup_insert_ne.
Qed.
Lemma upages_delete E n e :
  E !! n = Some e -> n < UTOP -> frame e :: upages (delete n E) ≡ₚ upages E.
Proof.
  intros HE Hn. unfold upages. rewrite map_filter_delete.
  rewrite <- (map_to_list_delete (filter _ E) n e); [done|]. by apply map_lookup_filter_Some.
Qed.
Lemma elem_of_upages E p :
  p ∈ upages E <-> exists n e, E !! n = Some e /\ n < UTOP /\ p = frame e.
Proof.
  unfold upages. rewrite list_elem_of_fmap. split.
  - intros ([n e] & -> & [? ?]%elem_of_map_to_list%map_lookup_filter_Some). by exists n, e.
  - intros (n & e & ? & ? & ->). exists (n, e). split; [done|].
    by apply elem_of_map_to_list, map_lookup_filter_Some.
Qed.

(** Without the entries of the pages from [a] up to [b]. *)
Definition unmap (E : entries) (a b : Z) : entries := filter (fun x => ~ (a <= x.1 < b)) E.

Lemma unmap_lookup E a b x :
  unmap E a b !! x = if bool_decide (a <= x < b) then None else E !! x.
Proof.
  unfold unmap. apply option_eq. intros e. rewrite map_lookup_filter_Some. cbn.
  case_bool_decide; naive_solver.
Qed.
Lemma unmap_skip E a a' b :
  a <= a' -> (forall x, a <= x < a' -> E !! x = None) -> unmap E a' b = unmap E a b.
Proof.
  intros Ha HE. apply map_eq. intros x. rewrite !unmap_lookup.
  repeat case_bool_decide; try done; try lia. apply HE. lia.
Qed.
Lemma unmap_delete E a b : a < b -> unmap (delete a E) (a + 1) b = unmap E a b.
Proof.
  intros Ha. apply map_eq. intros x. rewrite !unmap_lookup.
  destruct (decide (x = a)) as [->|Hx].
  - rewrite lookup_delete_eq. repeat case_bool_decide; done || lia.
  - rewrite lookup_delete_ne by done. repeat case_bool_decide; done || lia.
Qed.
Lemma unmap_nil E a b : b <= a -> unmap E a b = E.
Proof. intros H. apply map_eq. intros x. rewrite unmap_lookup. case_bool_decide; [lia|done]. Qed.

End Vm.

(** An address space with its user pages: those mapped below [KERNBASE]. *)
Abbreviation uspace s F d T E Q := (space s F d T E (upages E ++ Q)).

Section Dealloc.
Context `{KL : KernelLayout}.

(** * deallocuvm *)

(** One turn of the loop of [deallocuvm]. *)
Definition dealloc_turn (d oldsz newsz : Z) : Z -> K (Z + Z) := fun a =>
  if a <? oldsz then
    pte <- walkpgdir d a 0;;
    if negb (ctrue pte) then
      ret (inl (u32 (u32 (PGADDR (PDX a + 1) 0 0 - PGSIZE) + PGSIZE)))
    else
      e <- kld32 pte;;
      whenM (ctrue (Z.land e PTE_P))
        (let pa := PTE_ADDR e in
         if pa =? 0 then panic "kfree"
         else kfree (P2V pa);;; kst32 pte 0);;;
      ret (inl (u32 (a + PGSIZE)))
  else ret (inr newsz).


Lemma uspace_frame s F d T E Q n e :
  uspace s F d T E Q -> E !! n = Some e -> n < UTOP ->
  page_ok (frame e) /\ space s F d T E (frame e :: upages (delete n E) ++ Q).
Proof.
  intros H HE Hn. assert (HP := upages_delete E n e HE Hn).
  assert (H' : space s F d T E (frame e :: upages (delete n E) ++ Q)).
  { eapply space_perm; [|exact H]. by rewrite <- HP. }
  split; [|done]. by pose proof (sp_pages _ _ _ _ _ _ H') as [? _]%Forall_cons.
Qed.

Lemma frame_nonzero e : page_ok (frame e) -> (PTE_ADDR e =? 0) = false.
Proof.
  intros H. apply Z.eqb_neq. intros E0. pose proof (page_ok_range _ H) as (_ & Hr & _).
  unfold frame in Hr. rewrite E0 in Hr. change (P2V 0) with KERNBASE in Hr. lia.
Qed.

Section Turn.
Context (s : kstate) (F : list Z) (d : Z) (T : tables) (E : entries) (Q : list Z) (n oldsz newsz : Z).
Context (H : uspace s F d T E Q) (Hn : 0 <= n < UTOP) (Hlt : n * PGSIZE < oldsz).

Lemma vpn_range : 0 <= n * PGSIZE < 2 ^ 32 /\ n * PGSIZE / PGSIZE = n.
Proof. change UTOP with 524288 in Hn. change PGSIZE with 4096. width_lia. Qed.
Lemma vpn_next : u32 (n * PGSIZE + PGSIZE) = (n + 1) * PGSIZE.
Proof. change UTOP with 524288 in Hn. change PGSIZE with 4096. width_lia. Qed.

Lemma dealloc_skip :
  T !! (n / 1024) = None ->
  dealloc_turn d oldsz newsz (n * PGSIZE) s = Ret (inl ((n / 1024 + 1) * 1024 * PGSIZE)) s.
Proof.
  intros Ht. destruct vpn_range as [Hva Hvpn]. unfold dealloc_turn. rewrite (proj2 (Z.ltb_lt _ _) Hlt).
  rewrite (bind_eq _ _ _ _ _ (walk_missing s d T E (n * PGSIZE) (sp_dir _ _ _ _ _ _ H) Hva ltac:(by rewrite Hvpn))).
  cbn [ctrue negb Z.eqb]. rewrite PDX_eq, Hvpn by done. unfold PGADDR.
  rewrite Z.shiftl_0_l, !Z.lor_0_r, Z.shiftl_mul_pow2 by done. change (2 ^ PDXSHIFT) with 4194304.
  change PGSIZE with 4096. change UTOP with 524288 in Hn. unfold ret. do 2 f_equal. width_lia.
Qed.

Context (t : Z) (Ht : T !! (n / 1024) = Some t).

Lemma dealloc_walk {B} (k : Z -> K B) :
  bind (walkpgdir d (n * PGSIZE) 0) k s = k (t + 4 * (n mod 1024)) s /\
  ctrue (t + 4 * (n mod 1024)) = true /\ E !! n = live (ld32 (k_mem s) (t + 4 * (n mod 1024))).
Proof.
  destruct vpn_range as [Hva Hvpn]. split; [|split].
  - rewrite (bind_eq _ _ _ _ _ (walk_found s d T E (n * PGSIZE) 0 t (sp_dir _ _ _ _ _ _ H) Hva ltac:(by rewrite Hvpn))).
    unfold pte_of. by rewrite Hvpn.
  - rewrite <- (pte_of_pos t (n * PGSIZE)); [unfold pte_of; by rewrite Hvpn|].
    by destruct (pd_tab _ _ _ _ (sp_dir _ _ _ _ _ _ H) _ _ Ht).
  - rewrite (pd_pte _ _ _ _ (sp_dir _ _ _ _ _ _ H) n) by (change UTOP with 524288 in Hn; lia).
    by rewrite Ht.
Qed.

Lemma dealloc_absent :
  E !! n = None -> dealloc_turn d oldsz newsz (n * PGSIZE) s = Ret (inl ((n + 1) * PGSIZE)) s.
Proof.
  intros HE. unfold dealloc_turn. rewrite (proj2 (Z.ltb_lt _ _) Hlt), vpn_next.
  edestruct @dealloc_walk as (-> & -> & Hl). cbn [negb]. unfold kld32. mrun.
  rewrite HE in Hl. unfold live, present in Hl. by destruct (ctrue _).
Qed.

Lemma dealloc_page e :
  E !! n = Some e ->
  exists s', dealloc_turn d oldsz newsz (n * PGSIZE) s = Ret (inl ((n + 1) * PGSIZE)) s' /\
    uspace s' (frame e :: F) d T (delete n E) Q /\
    untouched (frame e :: tabs T) (k_mem s) (k_mem s') /\ mem_only s s'.
Proof.
  intros HE. destruct (uspace_frame _ _ _ _ _ _ n e H HE ltac:(lia)) as [Hp H1].
  destruct (space_kfree _ _ _ _ _ _ _ H1) as (Ek & H2 & Hu2).
  assert (Hn20 : 0 <= n < 2 ^ 20) by (change UTOP with 524288 in Hn; lia).
  destruct (space_store _ _ _ _ _ _ n t 0 H2 Hn20 Ht ltac:(lia)) as [H3 Hu3].
  exists (store (t + 4 * (n mod 1024)) 0 (freed (frame e) s)). split; [|split; [|split]].
  - unfold dealloc_turn. rewrite (proj2 (Z.ltb_lt _ _) Hlt), vpn_next.
    edestruct @dealloc_walk as (-> & -> & Hl). cbn [negb]. unfold kld32. mrun.
    rewrite HE in Hl. unfold live in Hl. destruct (present _) eqn:Epr; [|done]. injection Hl as Hl. rewrite <- Hl in *.
    unfold present in Epr. rewrite Epr. cbn [whenM]. cbv zeta. rewrite frame_nonzero by done. fold (frame e).
    rewrite (bind_eq _ _ s tt (store (t + 4 * (n mod 1024)) 0 (freed (frame e) s)));
      [done|]. by rewrite (bind_eq _ _ _ _ _ Ek).
  - exact H3.
  - eapply untouched_trans; (eapply untouched_mono; [|done]); set_solver.
  - eapply mem_only_trans; [apply mem_only_freed|apply mem_only_store].
Qed.
End Turn.

Lemma dealloc_loop fuel s F d T E Q n b oldsz newsz :
  uspace s F d T E Q -> 0 <= n -> b <= UTOP -> (Z.to_nat (b - n) < fuel)%nat ->
  b = (oldsz + PGSIZE - 1) / PGSIZE ->
  exists s' L, loop fuel (dealloc_turn d oldsz newsz) (n * PGSIZE) s = Ret newsz s' /\
    uspace s' (L ++ F) d T (unmap E n b) Q /\ L ++ upages (unmap E n b) ≡ₚ upages E /\
    untouched (tabs T ++ L) (k_mem s) (k_mem s') /\ mem_only s s'.
Proof.
  revert s F E n. induction fuel as [|fuel IH]; intros s F E n H Hn Hb Hfu Eb; [lia|]. cbn [loop].
  destruct (Z.lt_ge_cases n b) as [Hlt|Hge].
  2: { exists s, []. unfold dealloc_turn. rewrite (proj2 (Z.ltb_ge _ _)) by (change PGSIZE with 4096 in *; width_lia).
       mrun. rewrite unmap_nil by done. split; [done|]. split; [done|]. split; [done|].
       split; [done|apply mem_only_refl]. }
  assert (Hsz : n * PGSIZE < oldsz) by (change PGSIZE with 4096 in *; width_lia).
  assert (Hnu : 0 <= n < UTOP) by lia.
  destruct (T !! (n / 1024)) as [t|] eqn:Et.
  - destruct (E !! n) as [e|] eqn:Ee.
    + destruct (dealloc_page s F d T E Q n oldsz newsz H Hnu Hsz t Et e Ee) as (s1 & Er & H1 & Hu1 & Hm1).
      rewrite (bind_eq _ _ _ _ _ Er).
      destruct (IH s1 (frame e :: F) (delete n E) (n + 1)) as (s2 & L & El & H2 & HF & Hu2 & Hm2);
        [done|lia|done|lia|done|]. rewrite unmap_delete in * by done.
      assert (HP := upages_delete E n e Ee ltac:(lia)). exists s2, (L ++ [frame e]).
      rewrite <- app_assoc. split; [done|]. split; [done|].
      split; [rewrite <- HP, <- HF, <- app_assoc; symmetry; apply Permutation_middle|].
      split; [|by eapply mem_only_trans].
      eapply untouched_trans; (eapply untouched_mono; [|done]); clear; set_solver.
    + rewrite (bind_eq _ _ _ _ _ (dealloc_absent s F d T E Q n oldsz newsz H Hnu Hsz t Et Ee)).
      destruct (IH s F E (n + 1)) as (s2 & L & Hrest); [done|lia|done|lia|done|].
      rewrite (unmap_skip E n (n + 1) b) in Hrest; [by exists s2, L|lia|].
      intros x Hx. by replace x with n by lia.
  - rewrite (bind_eq _ _ _ _ _ (dealloc_skip s F d T E Q n oldsz newsz H Hnu Hsz Et)).
    destruct (IH s F E ((n / 1024 + 1) * 1024)) as (s2 & L & Hrest); [done|width_lia|done|width_lia|done|].
    rewrite (unmap_skip E n _ b) in Hrest; [by exists s2, L|width_lia|].
    intros x Hx. rewrite (pd_pte _ _ _ _ (sp_dir _ _ _ _ _ _ H)) by (change UTOP with 524288 in *; width_lia).
    replace (x / 1024) with (n / 1024) by width_lia. by rewrite Et.
Qed.

(** The pages [L] from the rounded up new size to the rounded up old size go
    back to the free list; their entries are gone and everything else stays. *)
Lemma deallocuvm_run s F d T E Q oldsz newsz :
  uspace s F d T E Q -> 0 <= newsz < oldsz -> oldsz <= KERNBASE ->
  let a := (newsz + PGSIZE - 1) / PGSIZE in
  let b := (oldsz + PGSIZE - 1) / PGSIZE in
  exists s' L, deallocuvm d oldsz newsz s = Ret newsz s' /\
    uspace s' (L ++ F) d T (unmap E a b) Q /\ L ++ upages (unmap E a b) ≡ₚ upages E /\
    untouched (tabs T ++ L) (k_mem s) (k_mem s') /\ mem_only s s'.
Proof.
  intros H Hsz Hk a b. unfold deallocuvm. change KERNBASE with 2147483648 in *.
  rewrite (proj2 (Z.leb_gt _ _)) by lia. change (loop ?f _) with (loop f (dealloc_turn d oldsz newsz)).
  rewrite PGROUNDUP_eq by (change PGSIZE with 4096; lia).
  apply dealloc_loop; try done; unfold a, b; change UTOP with 524288; change PGSIZE with 4096; width_lia.
Qed.

(** * Mapping one user page *)

(** A page [p] that the caller holds becomes page [n] of the address space,
    or stays with the caller when there is no page for the table. *)
Lemma map_page s F d T E Q n p perm :
  space s F d T E (p :: upages E ++ Q) -> 0 <= n < UTOP -> E !! n = None -> 0 <= perm < 4096 ->
  frame (entry (V2P p) perm) = p /\
  exists s' F' T', grows d s F T s' F' T' /\
    (mappages d (n * PGSIZE) PGSIZE (V2P p) perm s = Ret 0 s' /\
     uspace s' F' d T' (<[n := entry (V2P p) perm]> E) Q \/
     mappages d (n * PGSIZE) PGSIZE (V2P p) perm s = Ret (-1) s' /\ F' = [] /\
     space s' F' d T' E (p :: upages E ++ Q)).
Proof.
  intros H Hn HE Hf. pose proof (sp_pages _ _ _ _ _ _ H) as [Hp _]%Forall_cons.
  destruct (page_ok_range p Hp) as (Ha & Hr & Ep). change UTOP with 524288 in *. change KERNBASE with 2147483648 in *.
  assert (Hpa : 0 <= V2P p < 2 ^ 32) by (rewrite Ep; lia).
  assert (Hpm : V2P p mod 4096 = 0) by (rewrite Ep; width_lia).
  destruct (entry_eq (V2P p) perm Hpa Hpm Hf) as (E1 & Hl & _ & _).
  assert (Hfr : frame (entry (V2P p) perm) = p) by (rewrite E1; by apply entry_made). split; [done|].
  destruct (mappages_run 0 s F d T E (p :: upages E ++ Q) n (n * PGSIZE) PGSIZE (V2P p) perm)
    as (r & j & s' & F' & T' & Em & H' & Hg & Hr'); try done; try (change PGSIZE with 4096; width_lia).
  { intros x Hx. by replace x with n by lia. }
  exists s', F', T'. split; [done|]. destruct Hr' as [[-> ->]|(-> & Hj & ->)].
  - left. split; [done|]. cbn [map_range] in H'. eapply space_perm; [|exact H'].
    rewrite upages_insert by (done || change UTOP with 524288; lia). by rewrite Hfr.
  - right. replace j with 0%nat in H' by lia. auto.
Qed.
End Dealloc.
