(* ===== verification/VmOps.v ===== *)
(** Whole address spaces: [freevm] gives every page back, [setupkvm] builds
    the kernel's part, [allocuvm] grows and [copyuvm] copies the user's part,
    each either completely or, when memory runs out, not at all. *)
From S2P Require Import Prelude Kstate Demo Sched Mem MemSpec Cprintf Kalloc KallocSpec Vm PageTable VmSpec.

Section Vm.
Context `{KL : KernelLayout}.

(** * freevm *)

(** The tables from directory index [i] on. *)
Definition later (i : Z) (T : tables) : tables := filter (fun x => i <= x.1) T.

Lemma later_lookup i T j : later i T !! j = if bool_decide (i <= j) then T !! j else None.
Proof.
  unfold later. apply option_eq. intros t. rewrite map_lookup_filter_Some. cbn.
  case_bool_decide; naive_solver.
Qed.
Lemma later_next i T :
  tabs (later i T) ≡ₚ match T !! i with Some t => [t] | None => [] end ++ tabs (later (i + 1) T).
Proof.
  destruct (T !! i) as [t|] eqn:Et.
  - assert (later i T = <[i := t]> (later (i + 1) T)) as ->.
    { apply map_eq. intros j. rewrite later_lookup. destruct (decide (j = i)) as [->|Hj].
      - by rewrite bool_decide_true, lookup_insert_eq.
      - rewrite lookup_insert_ne, later_lookup by done. repeat case_bool_decide; done || lia. }
    apply tabs_insert. rewrite later_lookup, bool_decide_false by lia. done.
  - assert (later i T = later (i + 1) T) as ->; [|done].
    apply map_eq. intros j. rewrite !later_lookup. destruct (decide (j = i)) as [->|Hj].
    + by repeat case_bool_decide.
    + repeat case_bool_decide; done || lia.
Qed.

Definition free_turn (d : Z) : nat -> K unit := fun i =>
  e <- kld32 (d + 4 * Z.of_nat i);;
  whenM (ctrue (Z.land e PTE_P)) (kfree (P2V (PTE_ADDR e))).

Lemma free_tables k i s F d T :
  alloc_inv s F -> page_ok d ->
  (forall j, Z.of_nat i <= j < 1024 -> T !! j = frame <$> live (ld32 (k_mem s) (d + 4 * j))) ->
  (forall j t, T !! j = Some t -> 0 <= j < 1024 /\ page_ok t) ->
  NoDup (F ++ d :: tabs (later (Z.of_nat i) T)) -> (i + k = 1024)%nat ->
  exists s' F', forM (seq i k) (free_turn d) s = Ret tt s' /\ alloc_inv s' F' /\
    F' ≡ₚ F ++ tabs (later (Z.of_nat i) T) /\
    untouched (tabs (later (Z.of_nat i) T)) (k_mem s) (k_mem s') /\ mem_only s s'.
Proof.
  intros H Hd HT Hok. revert i s F H HT. induction k as [|k IH]; intros i s F H HT Hnd Hik; cbn [seq forM].
  - exists s, F. split; [done|]. split; [done|]. split; [|split; [done|apply mem_only_refl]].
    replace (later (Z.of_nat i) T) with (∅ : tables); [by rewrite app_nil_r|].
    apply map_eq. intros j. rewrite later_lookup, lookup_empty. case_bool_decide; [|done].
    destruct (T !! j) eqn:Ej; [|done]. apply Hok in Ej. lia.
  - assert (Hi := HT (Z.of_nat i) ltac:(lia)). pose proof (later_next (Z.of_nat i) T) as Hl.
    replace (Z.of_nat i + 1) with (Z.of_nat (S i)) in Hl by lia.
    unfold free_turn at 1. unfold kld32. mrun. unfold live, present in Hi.
    destruct (ctrue (Z.land _ PTE_P)); cbn in Hi; rewrite Hi in Hl; cbn [whenM].
    + set (t := frame _) in *. destruct (Hok _ _ Hi) as [_ Ht]. rewrite Hl in Hnd.
      assert (Hnf : t ∉ F) by (intros Hin; apply NoDup_app in Hnd as (_ & Hx & _); by apply (Hx t Hin); set_solver).
      assert (Htd : t <> d) by (intros ->; apply NoDup_app in Hnd as (_ & _ & [Hx _]%NoDup_cons); set_solver).
      rewrite (bind_eq _ _ s tt (freed t s)) by (apply kfree_run; [done|apply H]).
      assert (Hu : untouched [t] (k_mem s) (k_mem (freed t s))).
      { intros x Hx. apply freed_page_bytes; [done|apply H|]. apply Hx. left. }
      destruct (IH (S i) (freed t s) (t :: F)) as (s' & F' & Er & H' & HF & Hu' & Hm).
      * by apply freed_inv.
      * intros j Hj. rewrite HT by lia. do 2 f_equal. symmetry.
        apply (untouched_word [t] _ _ d j Hu); [by apply Forall_singleton|done| |lia].
        by rewrite list_elem_of_singleton.
      * eapply NoDup_Permutation_proper; [|exact Hnd]. cbn. solve_Permutation.
      * lia.
      * exists s', F'. split; [done|]. split; [done|]. split; [rewrite HF, Hl; solve_Permutation|].
        split; [|eapply mem_only_trans; [apply mem_only_freed|done]].
        eapply untouched_trans; (eapply untouched_mono; [|done]); intros q; rewrite Hl; set_solver.
    + destruct (IH (S i) s F) as (s' & F' & Er & H' & HF & Hu' & Hm).
      * done.
      * intros j Hj. apply HT. lia.
      * by rewrite Hl in Hnd.
      * lia.
      * exists s', F'. split; [done|]. split; [done|]. split; [by rewrite HF, Hl|]. split; [|done].
        eapply untouched_mono; [|done]. intros q. by rewrite Hl.
Qed.

Lemma upages_none E : (forall n, n < UTOP -> E !! n = None) -> upages E = [].
Proof.
  intros H. apply elem_of_nil_inv. intros p (n & e & He & Hn & _)%elem_of_upages.
  by rewrite (H n Hn) in He.
Qed.
Lemma later_0 m d T E : pgdir_ok m d T E -> later 0 T = T.
Proof.
  intros H. apply map_eq. intros j. rewrite later_lookup. case_bool_decide; [done|].
  destruct (T !! j) eqn:Ej; [|done]. apply (pd_tab _ _ _ _ H) in Ej. lia.
Qed.
Lemma unmap_user m d T E : pgdir_ok m d T E -> upages (unmap E 0 UTOP) = [].
Proof.
  intros H. apply upages_none. intros n Hn. rewrite unmap_lookup. case_bool_decide; [done|].
  destruct (E !! n) eqn:En; [|done]. apply (pd_dom _ _ _ _ H) in En. lia.
Qed.

(** The address space is gone: all its pages are free, and no other page was
    written. *)
Definition given_back (s : kstate) (L : list Z) (s' : kstate) (F' : list Z) : Prop :=
  alloc_inv s' F' /\ F' ≡ₚ L /\ untouched L (k_mem s) (k_mem s') /\ mem_only s s'.

Lemma freevm_run s F d T E Q :
  uspace s F d T E Q ->
  exists s' F', freevm d s = Ret tt s' /\ given_back s (F ++ d :: tabs T ++ upages E) s' F'.
Proof.
  intros H. destruct (page_ok_facts d (pd_dir _ _ _ _ (sp_dir _ _ _ _ _ _ H))) as [_ Hpos].
  unfold freevm, ctrue. rewrite (proj2 (Z.eqb_neq d 0)) by lia. cbn [negb].
  destruct (deallocuvm_run s F d T E Q KERNBASE 0) as (s1 & L1 & Er & H1 & HF1 & Hu1 & Hm1); [done|by vm_compute..|].
  change ((KERNBASE + PGSIZE - 1) / PGSIZE) with UTOP in *. change ((0 + PGSIZE - 1) / PGSIZE) with 0 in *.
  rewrite (bind_eq _ _ _ _ _ Er). rewrite (unmap_user _ _ _ _ (sp_dir _ _ _ _ _ _ H)) in H1, HF1.
  pose proof (sp_dir _ _ _ _ _ _ H1) as Hd1.
  destruct (free_tables 1024 0 s1 (L1 ++ F) d T) as (s2 & F2 & Er2 & H2 & HF2 & Hu2 & Hm2).
  - apply H1.
  - apply Hd1.
  - intros j Hj. by apply Hd1.
  - apply Hd1.
  - change (Z.of_nat 0) with 0. rewrite (later_0 _ _ _ _ Hd1). pose proof (sp_own _ _ _ _ _ _ H1) as Hn.
    rewrite app_nil_l in Hn. change (d :: tabs T ++ Q) with ((d :: tabs T) ++ Q) in Hn.
    rewrite app_assoc in Hn. by apply NoDup_app in Hn as [? _].
  - done.
  - change (Z.of_nat 0) with 0 in *. rewrite (later_0 _ _ _ _ Hd1) in *.
    change (forM (seq 0 NPDENTRIES) _) with (forM (seq 0 1024) (free_turn d)).
    rewrite (bind_eq _ _ _ _ _ Er2).
    assert (Hd : page_ok d) by apply Hd1.
    assert (HdF : d ∉ F2).
    { rewrite HF2, elem_of_app. pose proof (sp_own _ _ _ _ _ _ H1) as (_ & Hx & [Hy _]%NoDup_cons)%NoDup_app.
      intros [Hin|Hin]; [by apply (Hx d Hin); left|]. apply Hy, elem_of_app. by left. }
    assert (Hu3 : untouched [d] (k_mem s2) (k_mem (freed d s2))).
    { intros x Hx. apply freed_page_bytes; [done|apply H2|]. apply Hx. left. }
    exists (freed d s2), (d :: F2). split; [apply kfree_run; [done|apply H2]|].
    split; [by apply freed_inv|]. rewrite app_nil_r in HF1. split; [rewrite HF2, <- HF1; solve_Permutation|].
    split; [|eapply mem_only_trans; [done|]; eapply mem_only_trans; [done|apply mem_only_freed]].
    eapply untouched_trans; [|eapply untouched_trans]; (eapply untouched_mono; [|done]);
      intros q; rewrite <- HF1; clear; set_solver.
Qed.

(** * setupkvm *)

Lemma given_back_trans d s F T s1 F1 T1 L s' F' :
  grows d s F T s1 F1 T1 -> F1 ++ d :: tabs T1 ≡ₚ L -> given_back s1 L s' F' ->
  given_back s (F ++ d :: tabs T) s' F'.
Proof.
  intros [Hm1 HT HP Hu1] HL (H1 & HF & Hu & Hm).
  assert (HL' : L ≡ₚ F ++ d :: tabs T).
  { rewrite <- HL. rewrite <- !Permutation_middle. by rewrite HP. }
  split; [done|]. split; [by rewrite HF|]. split; [|by eapply mem_only_trans].
  eapply untouched_trans; (eapply untouched_mono; [|done]); intros q; rewrite <- HL'; [|done].
  rewrite <- HL. clear. set_solver.
Qed.

(** A zeroed page is a directory without tables. *)
Lemma space_new_dir s F p Q :
  alloc_inv s (p :: F) -> NoDup ((p :: F) ++ Q) -> Forall page_ok Q ->
  kalloc s = Ret p (taken p s) /\ p <> 0 /\ space (zeroed p (taken p s)) F p ∅ ∅ Q /\
  untouched [p] (k_mem s) (k_mem (zeroed p (taken p s))) /\ mem_only s (zeroed p (taken p s)).
Proof.
  intros H Hnd HQ. pose proof (al_pages _ _ H) as [Hp _]%Forall_cons.
  pose proof (page_ok_facts _ Hp) as [_ Hpos]. destruct (al_list _ _ H) as [Hh _].
  assert (Hu := memset_untouched (k_mem s) p 0).
  split; [|split; [lia|split; [|split; [done|]]]].
  - rewrite kalloc_run by apply H. cbv zeta. rewrite Hh, (proj2 (Z.eqb_neq p 0)) by lia. done.
  - split; [| | |done].
    + apply (alloc_inv_write (taken p s) _ F [p]); try done; [by apply taken_inv| | |].
      * apply bytes_memset; [done|apply H].
      * by apply Forall_singleton.
      * intros q Hq ->%list_elem_of_singleton. by pose proof (al_nodup _ _ H) as [? _]%NoDup_cons.
    + split; try done.
      * intros i Hi. cbn. by rewrite lookup_empty, ld32_zeroed.
      * constructor; [apply not_elem_of_nil|constructor].
    + eapply NoDup_Permutation_proper; [|exact Hnd]. cbn. symmetry. apply Permutation_middle.
  - eapply mem_only_trans; [apply mem_only_taken|apply mem_only_zeroed].
Qed.

(** A row of [kmap] and the entries it makes. *)
Definition region (E : entries) : Z * Z * Z * Z -> entries := fun '(virt, ps, pe, perm) =>
  map_range E (virt / PGSIZE) ps perm (Z.to_nat (u32 (pe - ps) / PGSIZE)).
Definition region_ok (E : entries) : Z * Z * Z * Z -> Prop := fun '(virt, ps, pe, perm) =>
  let size := u32 (pe - ps) in
  KERNBASE <= virt < 2 ^ 32 /\ virt mod 4096 = 0 /\ 0 < size /\ size mod 4096 = 0 /\
  virt + size <= 2 ^ 32 /\ 0 <= ps < 2 ^ 32 /\ ps mod 4096 = 0 /\ 0 <= perm < 4096 /\
  forall x, virt / PGSIZE <= x < (virt + size) / PGSIZE -> E !! x = None.
Fixpoint regions_ok (E : entries) (l : list (Z * Z * Z * Z)) : Prop :=
  match l with
  | [] => True
  | r :: l => region_ok E r /\ regions_ok (region E r) l
  end.

Definition map_row (d : Z) : Z * Z * Z * Z -> K (ctl Z) := fun '(virt, phys_start, phys_end, perm) =>
  e <- mappages d virt (u32 (phys_end - phys_start)) phys_start perm;;
  if e <? 0 then freevm d;;; ret (Return 0) else ret Continue.

Definition kernel_only (E : entries) : Prop := forall n, n < UTOP -> E !! n = None.

Lemma map_range_kernel_only E n pa perm k :
  kernel_only E -> UTOP <= n -> 0 <= pa < 2 ^ 32 -> kernel_only (map_range E n pa perm k).
Proof. intros HE Hn Hpa x Hx. rewrite map_range_lookup by done. by_range. by apply HE. Qed.

Lemma map_row_run s F d T E Q r :
  space s F d T E Q -> kernel_only E -> region_ok E r ->
  (exists s' F' T', map_row d r s = Ret Continue s' /\ space s' F' d T' (region E r) Q /\
     grows d s F T s' F' T' /\ kernel_only (region E r)) \/
  (exists s' F', map_row d r s = Ret (Return 0) s' /\ given_back s (F ++ d :: tabs T) s' F').
Proof.
  destruct r as [[[virt ps] pe] perm]. intros H HE (Hv & Hva & Hsz & Hsa & Htop & Hps & Hpa & Hperm & Hfree).
  set (size := u32 (pe - ps)) in *. cbv zeta in Hfree. change KERNBASE with 2147483648 in *.
  change PGSIZE with 4096 in *.
  destruct (mappages_run (Z.to_nat (size / 4096 - 1)) s F d T E Q (virt / 4096) virt size ps perm)
    as (r & j & s1 & F1 & T1 & Er & H1 & Hg & Hr); try done; try (change PGSIZE with 4096; width_lia); try lia.
  { intros x Hx. apply Hfree. width_lia. }
  assert (HE1 : kernel_only (map_range E (virt / 4096) ps perm j))
    by (apply map_range_kernel_only; [done|change UTOP with 524288; width_lia|done]).
  unfold map_row. fold size. rewrite (bind_eq _ _ _ _ _ Er).
  destruct Hr as [[-> ->]|(-> & _ & ->)].
  - left. exists s1, F1, T1. cbn [Z.ltb Z.compare]. split; [done|]. unfold region. fold size.
    change PGSIZE with 4096. replace (Z.to_nat (size / 4096)) with (S (Z.to_nat (size / 4096 - 1))) by width_lia.
    auto.
  - right. cbn [Z.ltb Z.compare].
    assert (Hup := upages_none _ HE1).
    destruct (freevm_run s1 [] d T1 _ Q ltac:(by rewrite Hup)) as (s2 & F2 & Ef & Hgb).
    rewrite Hup, app_nil_r in Hgb. exists s2, F2. rewrite (bind_eq _ _ _ _ _ Ef). split; [done|].
    by eapply given_back_trans.
Qed.

Lemma map_rows l s F d T E Q :
  space s F d T E Q -> kernel_only E -> regions_ok E l ->
  (exists s' F' T', scan l (map_row d) s = Ret None s' /\ space s' F' d T' (foldl region E l) Q /\
     grows d s F T s' F' T' /\ kernel_only (foldl region E l)) \/
  (exists s' F', scan l (map_row d) s = Ret (Some 0) s' /\ given_back s (F ++ d :: tabs T) s' F').
Proof.
  revert s F T E. induction l as [|r l IH]; intros s F T E H HE Hl; cbn [scan foldl].
  - left. exists s, F, T. split; [done|]. split; [done|]. split; [apply grows_refl|done].
  - destruct Hl as [Hr Hl].
    destruct (map_row_run s F d T E Q r H HE Hr) as [(s1 & F1 & T1 & Er & H1 & Hg & HE1)|(s1 & F1 & Er & Hgb)];
      rewrite (bind_eq _ _ _ _ _ Er); [|right; by exists s1, F1].
    destruct (IH s1 F1 T1 (region E r) H1 HE1 Hl) as [(s2 & F2 & T2 & Er2 & H2 & Hg2 & HE2)|(s2 & F2 & Er2 & Hgb)].
    + left. exists s2, F2, T2. split; [done|]. split; [done|]. split; [by eapply grows_trans|done].
    + right. exists s2, F2. split; [done|]. by eapply given_back_trans.
Qed.

(** The entry every address space has for kernel page [n]: memory below
    [PHYSTOP] from [KERNBASE] on, read-only for the kernel's text, and the
    devices where they are. *)
Definition kernel_pte (n : Z) : option Z :=
  if (KERNLINK / PGSIZE <=? n) && (n <? kdata / PGSIZE) then Some (entry ((n - UTOP) * PGSIZE) 0)
  else if (UTOP <=? n) && (n <? UTOP + PHYSTOP / PGSIZE) then Some (entry ((n - UTOP) * PGSIZE) PTE_W)
  else if (DEVSPACE / PGSIZE <=? n) && (n <? 2 ^ 20) then Some (entry (n * PGSIZE) PTE_W)
  else None.

Definition kentries : entries := foldl region ∅ kmap.

Lemma kdata_bounds : kdata mod 4096 = 0 /\ 0x80100000 < kdata < 0x80400000 /\ V2P kdata = kdata - KERNBASE.
Proof.
  pose proof kdata_aligned as Ha. pose proof kdata_linked as Hl. pose proof kend_after. pose proof kend_mapped as Hm.
  change (P2V (4 * 1024 * 1024)) with 0x80400000 in Hm. change KERNLINK with 0x80100000 in Hl.
  change PGSIZE with 4096 in Ha. split; [done|]. split; [lia|]. unfold V2P. change KERNBASE with 0x80000000. width_lia.
Qed.

(** The rows of [kmap] as page numbers. *)
Lemma kmap_rows :
  kmap = [ (0x80000000, 0, 0x100000, 2); (0x80100000, 0x100000, kdata - 0x80000000, 0);
           (kdata, kdata - 0x80000000, 0xE000000, 2); (0xFE000000, 0xFE000000, 0, 2) ].
Proof. destruct kdata_bounds as (_ & _ & E). unfold kmap. by rewrite E. Qed.

Ltac region_lookup :=
  unfold region; rewrite map_range_lookup by width_lia; change PGSIZE with 4096;
  match goal with |- context [within ?a ?k ?x] => destruct (within_spec a k x) as [|]; [exfalso; width_lia|] end.

Lemma kmap_ok : regions_ok ∅ kmap.
Proof.
  destruct kdata_bounds as (Ha & Hb & _). rewrite kmap_rows. cbn [regions_ok].
  assert (H20 : 0x100000 mod 4096 = 0) by done.
  repeat split; change KERNBASE with 0x80000000; try width_lia;
    change PGSIZE with 4096; intros x Hx; cbv zeta in Hx; repeat region_lookup; apply lookup_empty.
Qed.

Lemma kentries_lookup n : kentries !! n = kernel_pte n.
Proof.
  destruct kdata_bounds as (Ha & Hb & _). unfold kentries. rewrite kmap_rows. cbn [foldl].
  unfold kernel_pte, region. rewrite !map_range_lookup by width_lia. rewrite lookup_empty.
  change PGSIZE with 4096. set (k := kdata / 4096).
  assert (Ek : kdata = k * 4096) by (unfold k; width_lia). clearbody k. rewrite Ek in *.
  replace (Z.of_nat (Z.to_nat (u32 (k * 4096 - 2147483648 - 1048576) / 4096))) with (k - 0x80100) by width_lia.
  replace (Z.of_nat (Z.to_nat (u32 (234881024 - (k * 4096 - 2147483648)) / 4096))) with (0x8E000 - k) by width_lia.
  change (Z.of_nat (Z.to_nat (u32 (0 - 4261412864) / 4096))) with 0x2000.
  change (Z.of_nat (Z.to_nat (u32 (1048576 - 0) / 4096))) with 0x100.
  change (4261412864 / 4096) with 0xFE000. change (2148532224 / 4096) with 0x80100.
  change (2147483648 / 4096) with 0x80000. change (KERNLINK / 4096) with 0x80100. change UTOP with 0x80000.
  change (PHYSTOP / 4096) with 0xE000. change (DEVSPACE / 4096) with 0xFE000. change (2 ^ 20) with 0x100000.
  change PTE_W with 2. clear Ha Ek.
  repeat match goal with |- context [within ?a ?m ?x] => destruct (within_spec a m x) end;
    repeat match goal with
    | |- context [?a <=? ?b] => first [rewrite (proj2 (Z.leb_le a b)) by lia|rewrite (proj2 (Z.leb_gt a b)) by lia
        |destruct (Z.leb_spec a b)]
    | |- context [?a <? ?b] => first [rewrite (proj2 (Z.ltb_lt a b)) by lia|rewrite (proj2 (Z.ltb_ge a b)) by lia
        |destruct (Z.ltb_spec a b)]
    end; cbn [andb]; try lia; try done; do 2 f_equal; width_lia.
Qed.

Lemma kernel_pte_only E : (forall n, E !! n = kernel_pte n) -> kernel_only E.
Proof.
  intros H n Hn. rewrite H. destruct kdata_bounds as (Ha & Hb & _). unfold kernel_pte.
  change UTOP with 0x80000 in *. change (KERNLINK / PGSIZE) with 0x80100. change (DEVSPACE / PGSIZE) with 0xFE000.
  by repeat match goal with
  | |- context [?a <=? n] => rewrite (proj2 (Z.leb_gt a n)) by lia
  end.
Qed.

(** What the entries allow. *)
Lemma entry_flag pa perm b :
  0 <= pa < 2 ^ 32 -> pa mod 4096 = 0 -> 0 <= perm < 4096 -> 0 <= b < 4096 ->
  Z.land (entry pa perm) b = Z.land (Z.lor perm PTE_P) b /\ PTE_ADDR (entry pa perm) = pa.
Proof.
  intros Hpa Ha Hf Hb. split.
  - unfold entry. rewrite <- Z.lor_assoc, Z.land_lor_distr_l, land_page by done. apply Z.lor_0_l.
  - destruct (entry_eq pa perm Hpa Ha Hf) as (E1 & Hl & Hr & _). rewrite PTE_ADDR_eq by done.
    rewrite E1. width_lia.
Qed.

Lemma kernel_pte_perm n e :
  kernel_pte n = Some e ->
  Z.land e PTE_U = 0 /\ (KERNLINK / PGSIZE <= n < kdata / PGSIZE -> Z.land e PTE_W = 0) /\
  (n < DEVSPACE / PGSIZE -> frame e = n * PGSIZE).
Proof.
  destruct kdata_bounds as (Ha & Hb & _). unfold kernel_pte. change PGSIZE with 4096.
  change (KERNLINK / 4096) with 0x80100. change UTOP with 0x80000. change (PHYSTOP / 4096) with 0xE000.
  change (DEVSPACE / 4096) with 0xFE000. change (2 ^ 20) with 0x100000. set (k := kdata / 4096) in *.
  assert (Hk : 0x80100 <= k <= 0x80400) by (unfold k; width_lia). clearbody k.
  assert (Hfr : forall pa perm, 0 <= pa < 0xE000000 -> pa mod 4096 = 0 -> 0 <= perm < 4096 ->
    frame (entry pa perm) = pa + 0x80000000).
  { intros pa perm H1 H2 H3. unfold frame. rewrite (proj2 (entry_flag pa perm 0 ltac:(lia) H2 H3 ltac:(lia))).
    unfold P2V. change KERNBASE with 0x80000000. width_lia. }
  assert (Hfl : forall pa perm b, 0 <= pa < 2 ^ 32 -> pa mod 4096 = 0 -> 0 <= perm < 4096 -> 0 <= b < 4096 ->
    Z.land (entry pa perm) b = Z.land (Z.lor perm PTE_P) b) by (intros; by apply entry_flag).
  destruct (_ && _) eqn:E1; [|destruct ((0x80000 <=? n) && _) eqn:E2; [|destruct (_ && (n <? 0x100000)) eqn:E3; [|done]]];
    intros [= <-]; rewrite !Hfl by (done || lia || width_lia).
  all: split; [done|]; split; [lia || done|]; try lia; intros _.
  all: rewrite Hfr by (done || lia || width_lia); lia.
Qed.

(** All of [F] is free again, or a new directory was made of pages of [F]. *)
Lemma setupkvm_run s F Q :
  alloc_inv s F -> NoDup (F ++ Q) -> Forall page_ok Q ->
  (exists s' F', setupkvm s = Ret 0 s' /\ given_back s F s' F') \/
  (exists d s' F' T, setupkvm s = Ret d s' /\ d <> 0 /\ space s' F' d T kentries Q /\
     F ≡ₚ F' ++ d :: tabs T /\ untouched (d :: tabs T) (k_mem s) (k_mem s') /\ mem_only s s').
Proof.
  intros H Hnd HQ. unfold setupkvm. destruct F as [|p F].
  { left. exists s, []. rewrite (bind_eq _ _ s 0 s).
    - split; [done|]. split; [done|]. split; [done|]. split; [done|apply mem_only_refl].
    - rewrite kalloc_run by apply H. cbv zeta. by rewrite (al_list _ _ H). }
  destruct (space_new_dir s F p Q H Hnd HQ) as (Ek & Hp0 & H1 & Hu1 & Hm1).
  rewrite (bind_eq _ _ _ _ _ Ek). unfold ctrue. rewrite (proj2 (Z.eqb_neq p 0)) by done. cbn [negb].
  rewrite (bind_eq _ _ _ tt (zeroed p (taken p s))) by done.
  change (DEVSPACE <? P2V PHYSTOP) with false. cbv iota.
  change (scan kmap _) with (scan kmap (map_row p)).
  destruct (map_rows kmap _ F p ∅ ∅ Q H1 (fun _ _ => lookup_empty _) kmap_ok)
    as [(s2 & F2 & T2 & Er & H2 & [Hm2 _ HP Hu2] & _)|(s2 & F2 & Er & H2 & HP & Hu2 & Hm2)];
    rewrite (bind_eq _ _ _ _ _ Er).
  - right. exists p, s2, F2, T2. split; [done|]. split; [done|]. split; [done|].
    change (F ++ tabs ∅) with (F ++ []) in HP. rewrite app_nil_r in HP.
    split; [rewrite HP; apply Permutation_middle|]. split; [|by eapply mem_only_trans].
    eapply untouched_trans; (eapply untouched_mono; [|done]); clear; set_solver.
  - left. exists s2, F2. split; [done|]. split; [done|].
    change (F ++ p :: tabs ∅) with (F ++ [p]) in *. rewrite <- Permutation_cons_append in HP.
    split; [done|]. split; [|by eapply mem_only_trans].
    eapply untouched_trans; (eapply untouched_mono; [|done]); clear; set_solver.
Qed.

(** C31: [setupkvm] either fails with every page it took given back, or makes
    a directory, out of free pages only, that maps exactly the kernel: page
    [n] as [kernel_pte] says.  So no kernel page is accessible to user code,
    the kernel's text is not writable, and every address below [PHYSTOP] is
    at its place above [KERNBASE].  It writes no page that was in use. *)
Theorem setupkvm_spec s F Q :
  alloc_inv s F -> NoDup (F ++ Q) -> Forall page_ok Q ->
  exists r s' F', setupkvm s = Ret r s' /\ mem_only s s' /\ untouched F (k_mem s) (k_mem s') /\
    (r = 0 /\ alloc_inv s' F' /\ F' ≡ₚ F \/
     exists T E, space s' F' r T E Q /\ F ≡ₚ F' ++ r :: tabs T /\
       (forall n, E !! n = kernel_pte n) /\
       (forall n e, E !! n = Some e -> Z.land e PTE_U = 0 /\
          (KERNLINK / PGSIZE <= n < kdata / PGSIZE -> Z.land e PTE_W = 0) /\
          (n < DEVSPACE / PGSIZE -> frame e = n * PGSIZE))).
Proof.
  intros H Hnd HQ.
  destruct (setupkvm_run s F Q H Hnd HQ) as [(s' & F' & Er & Hi & HF & Hu & Hm)
    |(d & s' & F' & T & Er & Hd & Hs & HF & Hu & Hm)].
  - exists 0, s', F'. split; [done|]. split; [done|]. split; [done|]. by left.
  - exists d, s', F'. split; [done|]. split; [done|]. split.
    { eapply untouched_mono; [|done]. intros q. rewrite HF. clear. set_solver. }
    right. exists T, kentries. split; [done|]. split; [done|]. split; [apply kentries_lookup|].
    intros n e. rewrite kentries_lookup. apply kernel_pte_perm.
Qed.
End Vm.
