(* ===== verification/AddrSpace.v ===== *)
(** Growing and copying user address spaces: [allocuvm] and [copyuvm] either
    do all of their work with fresh pages, or leave the address space as it
    was with every page given back. *)
From S2P Require Import Prelude Kstate Demo Sched Mem MemSpec Cprintf Kalloc KallocSpec Vm PageTable VmSpec VmOps.

Section Spaces.
Context `{KL : KernelLayout}.

(** * Output *)

Definition printed (out : list Z) (s : kstate) : kstate := s <| k_out ::= fun o => o ++ out |>.

Lemma cprintf_run fmt args out s :
  format (str_bytes fmt) args = Some out -> L_cons ∉ k_held s ->
  cprintf fmt args s = Ret tt (printed out s).
Proof.
  intros Hf Hl. unfold cprintf. rewrite (bind_eq _ _ _ _ _ (acquire_ok _ _ Hl)). rewrite Hf.
  cbn [deref]. unfold emit. mrun. erewrite release_ok; [|reflexivity|exact Hl].
  done.
Qed.
Lemma mem_only_printed out s : mem_only s (printed out s).
Proof. apply kstate_ext; reflexivity. Qed.
Lemma space_printed out s F d T E P : space s F d T E P -> space (printed out s) F d T E P.
Proof.
  intros H. apply (space_frame s _ F d T E P []); try done; [exact (space_bytes _ _ _ _ _ _ H)|].
  apply list_subseteq_nil.
Qed.
Lemma mem_only_held s s' : mem_only s s' -> k_held s' = k_held s.
Proof. intros H. exact (f_equal k_held H). Qed.

(** * allocuvm *)

Definition zero_page (m : mem) (p : Z) : Prop := forall o, 0 <= o < PGSIZE -> ld8 m (p + o) = 0.

(** From [n0] up to [n] the address space has new, zeroed pages [N] taken
    from the free list; nothing that was in use has changed, but for the
    directory and its tables. *)
Record grown (s0 : kstate) (F0 : list Z) (d : Z) (T0 : tables) (E0 : entries) (Q : list Z) (n0 n : Z)
  (s : kstate) (F : list Z) (T : tables) (E : entries) (N : list Z) : Prop := mkGrown {
  gn_space : uspace s F d T E Q;
  gn_old : forall x, ~ (n0 <= x < n) -> E !! x = E0 !! x;
  gn_new : forall x, n0 <= x < n -> exists p, p ∈ N /\ E !! x = Some (entry (V2P p) (Z.lor PTE_W PTE_U)) /\
    frame (entry (V2P p) (Z.lor PTE_W PTE_U)) = p /\ zero_page (k_mem s) p;
  gn_pages : F0 ++ tabs T0 ≡ₚ F ++ tabs T ++ N;
  gn_user : upages E ≡ₚ N ++ upages E0;
  gn_tabs : T0 ⊆ T;
  gn_mem : untouched (F0 ++ d :: tabs T0) (k_mem s0) (k_mem s);
  gn_state : mem_only s0 s;
}.

Lemma grown_refl s F d T E Q n : uspace s F d T E Q -> grown s F d T E Q n n s F T E [].
Proof.
  intros H. split; try done; [lia|by rewrite app_nil_r|apply mem_only_refl].
Qed.

(** Pages of the address space or of others do not change when only pages of
    the directory and page [p] of the caller do. *)
Lemma kept_page s F d T E P p L m m' q :
  space s F d T E (p :: P) -> untouched L m m' -> L ⊆ p :: d :: tabs T -> q ∈ P ->
  forall o, 0 <= o < PGSIZE -> ld8 m' (q + o) = ld8 m (q + o).
Proof.
  intros H Hu HL Hq o Ho. pose proof (sp_pages _ _ _ _ _ _ H) as [Hp HP]%Forall_cons.
  assert (Hin : q ∈ p :: P) by by right.
  assert (Hok : Forall page_ok (p :: d :: tabs T)) by (constructor; [done|by eapply pgdir_ok_tabs, H]).
  apply (untouched_page (p :: d :: tabs T) _ _ q); [by eapply untouched_mono|done| | |lia].
  - exact (proj1 (Forall_forall _ _) HP q Hq).
  - pose proof (sp_own _ _ _ _ _ _ H) as (_ & _ & Hnd)%NoDup_app.
    apply (NoDup_app (d :: tabs T)) in Hnd as (_ & Hdis & [Hqp _]%NoDup_cons).
    rewrite not_elem_of_cons. split; [by intros ->|]. intros Hd. by apply (Hdis q Hd).
Qed.

Definition alloc_turn (d oldsz newsz : Z) : Z -> K (Z + Z) := fun a =>
  if a <? newsz then
    mem <- kalloc;;
    if negb (ctrue mem) then
      cprintf ("allocuvm out of memory" +:+ nl) [];;;
      deallocuvm d newsz oldsz;;;
      ret (inr 0)
    else
      kmemset mem 0 PGSIZE;;;
      r <- mappages d a PGSIZE (V2P mem) (Z.lor PTE_W PTE_U);;
      if r <? 0 then
        cprintf ("allocuvm out of memory (2)" +:+ nl) [];;;
        deallocuvm d newsz oldsz;;;
        kfree mem;;;
        ret (inr 0)
      else ret (inl (u32 (a + PGSIZE)))
  else ret (inr newsz).

Section Alloc.
Context (s0 : kstate) (F0 : list Z) (d : Z) (T0 : tables) (E0 : entries) (Q : list Z) (oldsz newsz : Z).
Context (Hsz : 0 <= oldsz < newsz) (Hk : newsz < KERNBASE) (Hcons : L_cons ∉ k_held s0).
Context (n0 b : Z) (En0 : n0 = (oldsz + PGSIZE - 1) / PGSIZE) (Eb : b = (newsz + PGSIZE - 1) / PGSIZE).
Context (HE0 : forall x, n0 <= x < b -> E0 !! x = None).
Abbreviation grown0 := (grown s0 F0 d T0 E0 Q n0).

Lemma alloc_bounds : 0 <= n0 <= b /\ b <= UTOP.
Proof. change KERNBASE with 2147483648 in *. change UTOP with 524288. change PGSIZE with 4096 in *. width_lia. Qed.

(** Undoing a partial allocation. *)
Lemma alloc_undo s F T E Q' N n :
  uspace s F d T E Q' -> (forall x, ~ (n0 <= x < n) -> E !! x = E0 !! x) -> n <= b ->
  upages E ≡ₚ N ++ upages E0 ->
  exists s' L, deallocuvm d newsz oldsz s = Ret oldsz s' /\ uspace s' (L ++ F) d T E0 Q' /\ L ≡ₚ N /\
    untouched (tabs T ++ N) (k_mem s) (k_mem s') /\ mem_only s s'.
Proof.
  intros H HE Hn HN.
  destruct (deallocuvm_run s F d T E Q' newsz oldsz) as (s' & L & Er & H' & HL & Hu & Hm);
    [done|lia|lia|]. rewrite <- En0, <- Eb in *.
  assert (EE : unmap E n0 b = E0).
  { apply map_eq. intros x. rewrite unmap_lookup. case_bool_decide; [by rewrite HE0|]. apply HE. lia. }
  rewrite EE in *. assert (HLN : L ≡ₚ N) by (eapply Permutation_app_inv_r; by rewrite HL, HN).
  exists s', L. split; [done|]. split; [done|]. split; [done|]. split; [|done].
  eapply untouched_mono; [|done]. intros q. rewrite HLN. done.
Qed.

(** Pages that came from the free list. *)
Lemma from_free L (X : list Z) m m' :
  untouched L m m' -> (forall q, q ∈ L -> q = d \/ q ∈ X) -> X ⊆ F0 ++ tabs T0 ->
  untouched (F0 ++ d :: tabs T0) m m'.
Proof.
  intros Hu HL HX. eapply untouched_mono; [|done]. intros q Hq. rewrite elem_of_app, elem_of_cons.
  destruct (HL q Hq) as [|Hx%HX]; [tauto|]. rewrite elem_of_app in Hx. tauto.
Qed.

Section Mapped.
Context (n : Z) (s : kstate) (p : Z) (F : list Z) (T : tables) (E : entries) (N : list Z).
Context (G : grown0 n s (p :: F) T E N) (Hn : n0 <= n < b).
Context (s3 : kstate) (F3 : list Z) (T3 : tables) (Hg : grows d (zeroed p (taken p s)) F T s3 F3 T3).
Let e := entry (V2P p) (Z.lor PTE_W PTE_U).

Lemma alloc_pages : F0 ++ tabs T0 ≡ₚ p :: F3 ++ tabs T3 ++ N.
Proof.
  rewrite (gn_pages _ _ _ _ _ _ _ _ _ _ _ _ _ G), app_assoc, (app_assoc F3).
  by rewrite <- (gr_pages _ _ _ _ _ _ _ Hg).
Qed.
Lemma alloc_touched : untouched (F0 ++ d :: tabs T0) (k_mem s0) (k_mem s3) /\ mem_only s0 s3.
Proof.
  pose proof alloc_pages as HF. destruct G as [_ _ _ _ _ _ Hm0 Hs0]. destruct Hg as [Hm3 _ _ Hu3]. split.
  - eapply untouched_trans; [done|]. eapply untouched_trans.
    + eapply (from_free [p] [p]); [apply memset_untouched|auto|]. intros q. rewrite HF. clear. set_solver.
    + eapply (from_free _ (tabs T3)); [exact Hu3|intros q; by rewrite elem_of_cons|].
      intros q. rewrite HF. clear. set_solver.
  - eapply mem_only_trans; [done|]. eapply mem_only_trans; [apply mem_only_taken|].
    eapply mem_only_trans; [apply mem_only_zeroed|done].
Qed.

Lemma alloc_mapped :
  frame e = p -> E !! n = None -> uspace s3 F3 d T3 (<[n := e]> E) Q ->
  grown0 (n + 1) s3 F3 T3 (<[n := e]> E) (p :: N).
Proof.
  intros Hfr HEn H3. pose proof alloc_pages as HF. destruct alloc_touched as [Hu03 Hm03].
  destruct alloc_bounds as [Hn0 Hb]. destruct G as [_ HE HN _ HU HT _ _]. destruct Hg as [_ HT3 _ Hu3].
  assert (HU3 := upages_insert E n e HEn ltac:(lia)). rewrite Hfr in HU3.
  assert (H3' : space s3 F3 d T3 (<[n := e]> E) (p :: upages E ++ Q))
    by (eapply space_perm, H3; by rewrite HU3).
  split; try done.
  - intros x Hx. rewrite lookup_insert_ne by lia. apply HE. lia.
  - intros x Hx. destruct (decide (x = n)) as [->|Hxn].
    + exists p. rewrite lookup_insert_eq. split; [left|]. split; [done|]. split; [done|].
      pose proof (sp_pages _ _ _ _ _ _ H3') as [Hp _]%Forall_cons.
      intros o Ho. rewrite (untouched_page _ _ _ p _ Hu3); [| |done| |lia].
      * cbn. rewrite memset_bytes by done. by_range.
      * by eapply pgdir_ok_tabs, H3.
      * intros Hin. apply (space_disjoint _ _ _ _ _ _ p H3') in Hin. apply Hin. left.
    + destruct (HN x ltac:(lia)) as (q & Hq & Ex & Hf & Hz). exists q. rewrite lookup_insert_ne by done.
      split; [by right|]. split; [done|]. split; [done|]. intros o Ho.
      assert (Hqu : q ∈ upages E ++ Q) by (rewrite HU, !elem_of_app; auto).
      rewrite (kept_page _ _ _ _ _ _ _ _ _ _ q H3' Hu3) by (done || clear; set_solver).
      rewrite (kept_page _ _ _ _ _ _ _ _ (k_mem s) _ q H3' (memset_untouched _ p 0))
        by (done || clear; set_solver). by apply Hz.
  - rewrite HF. solve_Permutation.
  - by rewrite HU3, HU.
  - by trans T.
Qed.

(** The page of a failed [mappages] goes back after the others. *)
Lemma alloc_unmapped out :
  F3 = [] -> space s3 F3 d T3 E (p :: upages E ++ Q) ->
  exists s' F', (deallocuvm d newsz oldsz;;; kfree p) (printed out s3) = Ret tt s' /\
    grown0 n0 s' F' T3 E0 [].
Proof.
  intros EF H3. pose proof alloc_pages as HF. destruct alloc_touched as [Hu03 Hm03].
  destruct alloc_bounds as [Hn0 Hb]. destruct G as [_ HE _ _ HU HT _ _]. destruct Hg as [_ HT3 _ _].
  rewrite EF in *.
  destruct (alloc_undo (printed out s3) [] T3 E (p :: Q) N n) as (s4 & L & Er & H4 & HL & Hu4 & Hm4);
    [apply space_printed; eapply space_perm, H3; by rewrite Permutation_middle|done|lia|done|].
  assert (H4' : space s4 (L ++ []) d T3 E0 (p :: upages E0 ++ Q))
    by (eapply space_perm, H4; by rewrite Permutation_middle).
  destruct (space_kfree _ _ _ _ _ _ _ H4') as (Ef & H5 & Hu5). rewrite (bind_eq _ _ _ _ _ Er).
  exists (freed p s4), (p :: L ++ []). split; [done|]. split; try done; [lia| |by trans T| |].
  - rewrite HF, HL, app_nil_r, app_nil_r. solve_Permutation.
  - eapply untouched_trans; [done|]. eapply untouched_trans.
    + eapply (from_free _ (tabs T3 ++ N)); [done|auto|]. intros q. rewrite HF. clear. set_solver.
    + eapply (from_free _ [p]); [done|auto|]. intros q. rewrite HF. clear. set_solver.
  - eapply mem_only_trans; [done|]. eapply mem_only_trans; [apply mem_only_printed|].
    eapply mem_only_trans; [done|apply mem_only_freed].
Qed.
End Mapped.

(** Without a free page the allocation is undone. *)
Lemma alloc_no_page n s T E N out :
  grown0 n s [] T E N -> n0 <= n < b ->
  exists s' F', deallocuvm d newsz oldsz (printed out s) = Ret oldsz s' /\ grown0 n0 s' F' T E0 [].
Proof.
  intros [H HE HN HP HU HT Hm0 Hs0] Hn.
  destruct (alloc_undo (printed out s) [] T E Q N n) as (s2 & L & Er & H2 & HL & Hu & Hm);
    [by apply space_printed|done|lia|done|].
  exists s2, (L ++ []). split; [done|]. split; try done; [lia| | |].
  - rewrite HP, HL. solve_Permutation.
  - eapply untouched_trans; [done|]. eapply (from_free _ (tabs T ++ N)); [done|auto|].
    intros q. rewrite HP. clear. set_solver.
  - eapply mem_only_trans; [done|]. eapply mem_only_trans; [|done]. apply mem_only_printed.
Qed.

Lemma alloc_turn_run n s F T E N :
  grown0 n s F T E N -> n0 <= n < b ->
  (exists s' F' T' E' N', alloc_turn d oldsz newsz (n * PGSIZE) s = Ret (inl ((n + 1) * PGSIZE)) s' /\
     grown0 (n + 1) s' F' T' E' N') \/
  (exists s' F' T', alloc_turn d oldsz newsz (n * PGSIZE) s = Ret (inr 0) s' /\ grown0 n0 s' F' T' E0 []).
Proof.
  intros G Hn. destruct alloc_bounds as [Hn0 Hb].
  assert (Hlt : (n * PGSIZE <? newsz) = true) by (apply Z.ltb_lt; change PGSIZE with 4096 in *; width_lia).
  unfold alloc_turn. rewrite Hlt. pose proof (space_kalloc _ _ _ _ _ _ (gn_space _ _ _ _ _ _ _ _ _ _ _ _ _ G)) as Hka.
  assert (Hh : k_held s = k_held s0) by apply mem_only_held, G.
  destruct F as [|p F].
  { right. rewrite (bind_eq _ _ _ _ _ Hka). cbn [ctrue negb Z.eqb].
    erewrite bind_eq; [|apply cprintf_run; [vm_compute; reflexivity|by rewrite Hh]].
    match goal with |- context [printed ?o s] => destruct (alloc_no_page n s T E N o G Hn) as (s2 & F2 & Er & G2) end.
    rewrite (bind_eq _ _ _ _ _ Er). by exists s2, F2, T. }
  destruct Hka as (Ek & Hp0 & Hp & H1). rewrite (bind_eq _ _ _ _ _ Ek).
  unfold ctrue. rewrite (proj2 (Z.eqb_neq p 0)) by done. cbn [negb].
  destruct (space_zeroed _ _ _ _ _ _ p H1 ltac:(left)) as [H2 Hu2].
  rewrite (bind_eq _ _ _ tt (zeroed p (taken p s))) by done.
  assert (HEn : E !! n = None) by (rewrite (gn_old _ _ _ _ _ _ _ _ _ _ _ _ _ G) by lia; apply HE0; lia).
  destruct (map_page _ _ _ _ _ Q n p (Z.lor PTE_W PTE_U) H2 ltac:(lia) HEn ltac:(done))
    as (Hfr & s3 & F3 & T3 & Hg & [[Em H3]|(Em & E3 & H3)]);
    rewrite (bind_eq _ _ _ _ _ Em); cbn [Z.ltb Z.compare].
  - left. rewrite vpn_next by lia. eexists s3, F3, T3, _, _. split; [done|]. by eapply alloc_mapped.
  - right. destruct (alloc_touched n s p F T E N G s3 F3 T3 Hg) as [_ Hm03].
    erewrite bind_eq; [|apply cprintf_run; [vm_compute; reflexivity|by rewrite (mem_only_held _ _ Hm03)]].
    match goal with |- context [printed ?o s3] =>
      destruct (alloc_unmapped n s p F T E N G Hn s3 F3 T3 Hg o E3 H3) as (s4 & F4 & Er & G4) end.
    exists s4, F4, T3. split; [|done]. revert Er. unfold bind. by destruct (deallocuvm _ _ _ _) as [? ?| | | |];
      [intros ->|..].
Qed.

Lemma alloc_loop fuel n s F T E N :
  grown0 n s F T E N -> n0 <= n -> n <= b -> (Z.to_nat (b - n) < fuel)%nat ->
  (exists s' F' T' E' N', loop fuel (alloc_turn d oldsz newsz) (n * PGSIZE) s = Ret newsz s' /\
     grown0 b s' F' T' E' N') \/
  (exists s' F' T', loop fuel (alloc_turn d oldsz newsz) (n * PGSIZE) s = Ret 0 s' /\ grown0 n0 s' F' T' E0 []).
Proof.
  revert n s F T E N. induction fuel as [|fuel IH]; intros n s F T E N G Hn Hb Hf; [lia|]. cbn [loop].
  destruct (Z.eq_dec n b) as [->|Hne].
  - left. exists s, F, T, E, N. unfold alloc_turn.
    rewrite (proj2 (Z.ltb_ge _ _)) by (change PGSIZE with 4096 in *; width_lia). done.
  - destruct (alloc_turn_run n s F T E N G ltac:(lia)) as [(s1 & F1 & T1 & E1 & N1 & Er & G1)|(s1 & F1 & T1 & Er & G1)];
      rewrite (bind_eq _ _ _ _ _ Er).
    + apply (IH (n + 1) s1 F1 T1 E1 N1); done || lia.
    + right. by exists s1, F1, T1.
Qed.
End Alloc.

(** C30: [allocuvm] grows an address space from [oldsz] to [newsz] or leaves
    it as it was.  On success every page between the rounded up sizes is a
    fresh page of the free list, zeroed, mapped writable for the user, and no
    two are the same; on failure the entries are those before the call.  In
    both cases every page is accounted for, and no page in use, other than the
    directory's own, is written. *)
Theorem allocuvm_spec s F d T E Q oldsz newsz :
  uspace s F d T E Q -> 0 <= oldsz < newsz -> newsz < KERNBASE -> L_cons ∉ k_held s ->
  let a := (oldsz + PGSIZE - 1) / PGSIZE in
  let b := (newsz + PGSIZE - 1) / PGSIZE in
  (forall x, a <= x < b -> E !! x = None) ->
  exists r s' F' T' E' N, allocuvm d oldsz newsz s = Ret r s' /\
    (r = newsz /\ grown s F d T E Q a b s' F' T' E' N \/
     r = 0 /\ E' = E /\ N = [] /\ grown s F d T E Q a a s' F' T' E' N).
Proof.
  intros H Hsz Hk Hc a b HE. unfold allocuvm. change KERNBASE with 2147483648 in *.
  rewrite (proj2 (Z.leb_gt _ _)) by lia. rewrite (proj2 (Z.ltb_ge _ _)) by lia.
  change (loop ?f _) with (loop f (alloc_turn d oldsz newsz)).
  rewrite PGROUNDUP_eq by (change PGSIZE with 4096; lia). fold a.
  assert (Hab : 0 <= a <= b) by (unfold a, b; change PGSIZE with 4096; width_lia).
  destruct (alloc_loop s F d T E Q oldsz newsz Hsz Hk Hc a b eq_refl eq_refl HE
    (Z.to_nat ((newsz - oldsz) / PGSIZE) + 2) a s F T E [])
    as [(s' & F' & T' & E' & N & Er & G)|(s' & F' & T' & Er & G)].
  - by apply grown_refl.
  - lia.
  - lia.
  - unfold a, b. change PGSIZE with 4096. width_lia.
  - exists newsz, s', F', T', E', N. auto.
  - exists 0, s', F', T', E, []. auto 10.
Qed.

(** * copyuvm *)

(** Copying a page into a page [p] of the caller. *)
Definition moved (p q : Z) (s : kstate) : kstate := s <| k_mem ::= fun m => memmove m p q PGSIZE |>.

Lemma mem_only_moved p q s : mem_only s (moved p q s).
Proof. apply kstate_ext; reflexivity. Qed.
Lemma moved_untouched p q s : bytes (k_mem s) -> untouched [p] (k_mem s) (k_mem (moved p q s)).
Proof.
  intros Hb x Hx. specialize (Hx p ltac:(left)). cbn. rewrite memmove_bytes by done. by_range.
Qed.
Lemma space_moved s F d T E P p q :
  space s F d T E P -> p ∈ P -> space (moved p q s) F d T E P.
Proof.
  intros H Hp. assert (Hb := space_bytes _ _ _ _ _ _ H).
  apply (space_frame s _ F d T E P [p]); try done.
  - by apply moved_untouched.
  - by apply bytes_memmove.
  - by intros ? ->%list_elem_of_singleton.
Qed.
Lemma moved_page p q s o :
  bytes (k_mem s) -> 0 <= o < PGSIZE -> ld8 (k_mem (moved p q s)) (p + o) = ld8 (k_mem s) (q + o).
Proof. intros Hb Ho. cbn. rewrite memmove_bytes by done. by_range. f_equal. lia. Qed.

(** The flags of an entry survive in its copy. *)
Lemma flags_present e : present e = true -> Z.lor (PTE_FLAGS e) PTE_P = PTE_FLAGS e.
Proof.
  rewrite present_odd. intros Ho. rewrite PTE_FLAGS_eq. apply Z.bits_inj'. intros i Hi. rewrite Z.lor_spec.
  destruct (Z.eq_dec i 0) as [->|Hi0].
  - rewrite Z.bit0_odd, Z.bit0_odd. cbn [Z.odd PTE_P]. rewrite orb_true_r. symmetry.
    rewrite (Z.div_mod e 4096) in Ho by done. rewrite Z.odd_add, Z.odd_mul in Ho. cbn in Ho.
    by destruct (Z.odd (e mod 4096)).
  - change PTE_P with (2 ^ 0). rewrite Z.pow2_bits_false by done. apply orb_false_r.
Qed.
Lemma entry_flags p e :
  page_ok p -> present e = true -> PTE_FLAGS (entry (V2P p) (PTE_FLAGS e)) = PTE_FLAGS e.
Proof.
  intros Hp He. destruct (page_ok_range p Hp) as (Ha & Hr & Ep). change KERNBASE with 2147483648 in *.
  assert (Hf : 0 <= PTE_FLAGS e < 4096) by (rewrite PTE_FLAGS_eq; width_lia).
  destruct (entry_eq (V2P p) (PTE_FLAGS e)) as (-> & _); [rewrite Ep; lia|rewrite Ep; width_lia|done|].
  rewrite flags_present by done. by apply entry_made.
Qed.

(** Page [e'] of the copy has the flags and the content of page [e]. *)
Definition copied (m : mem) (e : Z) (m' : mem) (e' : Z) : Prop :=
  PTE_FLAGS e' = PTE_FLAGS e /\
  forall o, 0 <= o < PGSIZE -> ld8 m' (frame e' + o) = ld8 m (frame e + o).

(** The state of [copyuvm] when [n] pages are copied. *)
Record copying (s0 : kstate) (F0 : list Z) (E0 : entries) (P0 : list Z) (n : Z)
  (s : kstate) (F : list Z) (d : Z) (T : tables) (E : entries) : Prop := mkCopying {
  cp_space : uspace s F d T E P0;
  cp_pages : F0 ≡ₚ F ++ d :: tabs T ++ upages E;
  cp_mem : untouched F0 (k_mem s0) (k_mem s);
  cp_state : mem_only s0 s;
  cp_done : forall x, 0 <= x < n -> exists e e', E0 !! x = Some e /\ E !! x = Some e' /\
    copied (k_mem s0) e (k_mem s) e';
  cp_rest : forall x, ~ (0 <= x < n) -> E !! x = kernel_pte x;
}.

Definition copy_turn (pgdir d sz : Z) : Z -> K (Z + Z) := fun i =>
  if i <? sz then
    pte <- walkpgdir pgdir i 0;;
    if negb (ctrue pte) then panic "copyuvm: pte should exist"
    else
      e <- kld32 pte;;
      if negb (ctrue (Z.land e PTE_P)) then panic "copyuvm: page not present"
      else
        let pa := PTE_ADDR e in
        let flags := PTE_FLAGS e in
        mem <- kalloc;;
        if negb (ctrue mem) then r <- (freevm d;;; ret 0);; ret (inr r)
        else
          kmemmove mem (P2V pa) PGSIZE;;;
          r <- mappages d i PGSIZE (V2P mem) flags;;
          if r <? 0 then kfree mem;;; r <- (freevm d;;; ret 0);; ret (inr r)
          else ret (inl (u32 (i + PGSIZE)))
  else ret (inr d).

Section Copy.
Context (s0 : kstate) (F0 : list Z) (d0 : Z) (T0 : tables) (E0 : entries) (Q0 : list Z) (sz b : Z).
Context (H0 : uspace s0 F0 d0 T0 E0 Q0).
Let P0 := d0 :: tabs T0 ++ upages E0 ++ Q0.
Context (Hsz : 0 <= sz <= KERNBASE) (Eb : b = (sz + PGSIZE - 1) / PGSIZE).
Context (HE0 : forall x, 0 <= x < b -> is_Some (E0 !! x)).
Abbreviation copying0 := (copying s0 F0 E0 P0).

Lemma copy_bounds : 0 <= b <= UTOP.
Proof. change KERNBASE with 2147483648 in *. change UTOP with 524288. change PGSIZE with 4096 in *. width_lia. Qed.

(** The parent is as it was. *)
Lemma parent_kept s : untouched F0 (k_mem s0) (k_mem s) -> pgdir_ok (k_mem s) d0 T0 E0.
Proof.
  intros Hu. apply (pgdir_ok_frame F0 (k_mem s0)); [apply H0|done|apply H0|].
  intros p Hp Hin. apply (space_disjoint _ _ _ _ _ _ p H0) in Hin as [? _]. done.
Qed.
Lemma parent_page s n e o :
  untouched F0 (k_mem s0) (k_mem s) -> E0 !! n = Some e -> 0 <= n < UTOP -> 0 <= o < PGSIZE ->
  ld8 (k_mem s) (frame e + o) = ld8 (k_mem s0) (frame e + o).
Proof.
  intros Hu He Hn Ho. destruct (uspace_frame _ _ _ _ _ _ n e H0 He ltac:(lia)) as [Hp _].
  apply (untouched_page F0 _ _ (frame e)); [done|apply H0|done| |lia]. intros Hin.
  apply (space_disjoint _ _ _ _ _ _ _ H0) in Hin as [_ Hin]. apply Hin, elem_of_app. left.
  apply elem_of_upages. exists n, e. split_and!; done || lia.
Qed.

(** What the look-up of page [n] in the parent finds. *)
Lemma parent_walk {B} (k : Z -> K B) s n e :
  untouched F0 (k_mem s0) (k_mem s) -> E0 !! n = Some e -> 0 <= n < UTOP ->
  present e = true /\
  exists pte, bind (walkpgdir d0 (n * PGSIZE) 0) k s = k pte s /\ ctrue pte = true /\
    ld32 (k_mem s) pte = e.
Proof.
  intros Hu He Hn. destruct (vpn_range n Hn) as [Hva Hvpn]. pose proof (parent_kept s Hu) as Hd.
  pose proof (pd_pte _ _ _ _ Hd n) as Hp. rewrite He in Hp. change UTOP with 524288 in Hn.
  destruct (T0 !! (n / 1024)) as [t|] eqn:Et; [|by specialize (Hp ltac:(lia))]. cbn in Hp.
  specialize (Hp ltac:(lia)). unfold live in Hp. destruct (present _) eqn:Epr; [|done].
  injection Hp as Hp. rewrite <- Hp in Epr. split; [done|]. exists (t + 4 * (n mod 1024)). split_and!.
  - rewrite (bind_eq _ _ _ _ _ (walk_found s d0 T0 E0 (n * PGSIZE) 0 t Hd Hva ltac:(by rewrite Hvpn))).
    unfold pte_of. by rewrite Hvpn.
  - rewrite <- (pte_of_pos t (n * PGSIZE)); [unfold pte_of; by rewrite Hvpn|]. by destruct (pd_tab _ _ _ _ Hd _ _ Et).
  - done.
Qed.

(** Giving up: the child's pages go back. *)
Lemma copy_fail s F d T E :
  uspace s F d T E P0 -> F0 ≡ₚ F ++ d :: tabs T ++ upages E -> untouched F0 (k_mem s0) (k_mem s) ->
  mem_only s0 s -> exists s' F', freevm d s = Ret tt s' /\ given_back s0 F0 s' F'.
Proof.
  intros H HP Hu Hm. destruct (freevm_run _ _ _ _ _ _ H) as (s' & F' & Er & Hi & HF & Hu' & Hm').
  exists s', F'. split; [done|]. rewrite <- HP in HF. split; [done|]. split; [done|].
  split; [|by eapply mem_only_trans]. eapply untouched_trans; [done|]. eapply untouched_mono; [|done].
  intros q. by rewrite <- HP.
Qed.

Section Turn.
Context (n : Z) (s : kstate) (p : Z) (F : list Z) (d : Z) (T : tables) (E : entries).
Context (C : copying0 n s (p :: F) d T E) (Hn : 0 <= n < b) (e : Z) (He : E0 !! n = Some e).
Let s2 := moved p (frame e) (taken p s).

Lemma copy_taken : page_ok p /\ space s2 F d T E (p :: upages E ++ P0).
Proof.
  destruct (space_kalloc _ _ _ _ _ _ (cp_space _ _ _ _ _ _ _ _ _ _ C)) as (_ & _ & Hp & H1).
  split; [done|]. apply space_moved; [done|left].
Qed.

Context (s3 : kstate) (F3 : list Z) (T3 : tables) (Hg : grows d s2 F T s3 F3 T3).

Lemma copy_pages : F0 ≡ₚ p :: F3 ++ d :: tabs T3 ++ upages E.
Proof.
  rewrite (cp_pages _ _ _ _ _ _ _ _ _ _ C). cbn. constructor. rewrite <- !Permutation_middle.
  constructor. rewrite !app_assoc. by rewrite (gr_pages _ _ _ _ _ _ _ Hg).
Qed.
Lemma copy_touched : untouched F0 (k_mem s0) (k_mem s3) /\ mem_only s0 s3.
Proof.
  pose proof copy_pages as HF. assert (Hb := space_bytes _ _ _ _ _ _ (cp_space _ _ _ _ _ _ _ _ _ _ C)).
  assert (Hu2 : untouched [p] (k_mem s) (k_mem s2)) by (by apply (moved_untouched p _ (taken p s))).
  destruct C as [_ _ Hu Hm _ _]. destruct Hg as [Hm3 _ _ Hu3]. split.
  - eapply untouched_trans; [done|]. eapply untouched_trans; (eapply untouched_mono; [|done]);
      intros q; rewrite HF; clear; set_solver.
  - eapply mem_only_trans; [done|]. eapply mem_only_trans; [apply mem_only_taken|].
    eapply mem_only_trans; [apply mem_only_moved|done].
Qed.

Lemma copy_mapped :
  let e' := entry (V2P p) (PTE_FLAGS e) in
  present e = true -> frame e' = p -> E !! n = None -> uspace s3 F3 d T3 (<[n := e']> E) P0 ->
  copying0 (n + 1) s3 F3 d T3 (<[n := e']> E).
Proof.
  intros e' Hpr Hfr HEn H3. pose proof copy_pages as HF. destruct copy_touched as [Hu03 Hm03].
  pose proof copy_bounds as Hb. destruct copy_taken as [Hp H2].
  assert (Hby := space_bytes _ _ _ _ _ _ (cp_space _ _ _ _ _ _ _ _ _ _ C)).
  assert (Hu2 : untouched [p] (k_mem s) (k_mem s2)) by (by apply (moved_untouched p _ (taken p s))).
  destruct C as [H _ Hu _ HD HR]. destruct Hg as [_ _ _ Hu3].
  assert (HU3 := upages_insert E n e' HEn ltac:(lia)). rewrite Hfr in HU3.
  assert (H3' : space s3 F3 d T3 (<[n := e']> E) (p :: upages E ++ P0))
    by (eapply space_perm, H3; by rewrite HU3).
  split; try done.
  - rewrite HF, HU3. solve_Permutation.
  - intros x Hx. destruct (decide (x = n)) as [->|Hxn].
    + exists e, e'. rewrite lookup_insert_eq. split; [done|]. split; [done|]. split; [by apply entry_flags|].
      intros o Ho. rewrite Hfr. rewrite (untouched_page _ _ _ p _ Hu3); [| |done| |lia].
      * unfold s2. rewrite moved_page by done. cbn. apply (parent_page s n e o Hu He); done || lia.
      * by eapply pgdir_ok_tabs, H3.
      * intros Hin. apply (space_disjoint _ _ _ _ _ _ p H3') in Hin. apply Hin. left.
    + destruct (HD x ltac:(lia)) as (a & a' & Ea & Ea' & Hfl & Hcp). exists a, a'. rewrite lookup_insert_ne by done.
      split; [done|]. split; [done|]. split; [done|]. intros o Ho.
      assert (Hq : frame a' ∈ upages E ++ P0).
      { apply elem_of_app. left. apply elem_of_upages. exists x, a'. split_and!; done || lia. }
      rewrite (kept_page _ _ _ _ _ _ _ _ _ _ _ H3' Hu3 ltac:(clear; set_solver) Hq) by done.
      rewrite (kept_page _ _ _ _ _ _ _ _ _ _ _ H3' Hu2 ltac:(clear; set_solver) Hq) by done. by apply Hcp.
  - intros x Hx. rewrite lookup_insert_ne by lia. apply HR. lia.
Qed.

Lemma copy_unmapped :
  space s3 F3 d T3 E (p :: upages E ++ P0) ->
  exists s' F', (kfree p;;; freevm d) s3 = Ret tt s' /\ given_back s0 F0 s' F'.
Proof.
  intros H3. destruct (space_kfree _ _ _ _ _ _ _ H3) as (Ef & H4 & Hu4). destruct copy_touched as [Hu Hm].
  pose proof copy_pages as HF. rewrite (bind_eq _ _ _ _ _ Ef). apply (copy_fail _ (p :: F3) d T3 E).
  - done.
  - by rewrite HF.
  - eapply untouched_trans; [done|]. eapply untouched_mono; [|done]. intros q. rewrite HF. clear. set_solver.
  - eapply mem_only_trans; [done|]. apply mem_only_freed.
Qed.
End Turn.

Lemma copy_turn_run n s F d T E :
  copying0 n s F d T E -> 0 <= n < b ->
  (exists s' F' T' E', copy_turn d0 d sz (n * PGSIZE) s = Ret (inl ((n + 1) * PGSIZE)) s' /\
     copying0 (n + 1) s' F' d T' E') \/
  (exists s' F', copy_turn d0 d sz (n * PGSIZE) s = Ret (inr 0) s' /\ given_back s0 F0 s' F').
Proof.
  intros C Hn. pose proof copy_bounds as Hb.
  assert (Hlt : (n * PGSIZE <? sz) = true) by (apply Z.ltb_lt; change PGSIZE with 4096 in *; width_lia).
  destruct (HE0 n Hn) as [e He]. pose proof (cp_mem _ _ _ _ _ _ _ _ _ _ C) as Hu.
  unfold copy_turn. rewrite Hlt.
  edestruct @parent_walk as (Hpr & pte & -> & -> & Hld); [exact Hu|exact He|lia|]. cbn [negb].
  unfold kld32. mrun. rewrite Hld. unfold present in Hpr. rewrite Hpr. cbn [negb]. cbv zeta. fold (frame e).
  pose proof (space_kalloc _ _ _ _ _ _ (cp_space _ _ _ _ _ _ _ _ _ _ C)) as Hka. destruct F as [|p F].
  { right. rewrite (bind_eq _ _ _ _ _ Hka). cbn [ctrue negb Z.eqb]. destruct C as [H1 H2 H3 H4 _ _].
    destruct (copy_fail _ _ _ _ _ H1 H2 H3 H4) as (s' & F' & Er & Hgb). exists s', F'. split; [|done].
    rewrite bind_assoc, (bind_eq _ _ _ _ _ Er). done. }
  destruct Hka as (Ek & Hp0 & Hp & H1). rewrite (bind_eq _ _ _ _ _ Ek).
  unfold ctrue. rewrite (proj2 (Z.eqb_neq p 0)) by done. cbn [negb].
  rewrite (bind_eq _ _ _ tt (moved p (frame e) (taken p s))) by done.
  destruct (copy_taken n s p F d T E C e) as [_ H2].
  assert (HEn : E !! n = None).
  { rewrite (cp_rest _ _ _ _ _ _ _ _ _ _ C) by lia. rewrite <- kentries_lookup.
    apply (kernel_pte_only kentries); [apply kentries_lookup|lia]. }
  assert (Hf : 0 <= PTE_FLAGS e < 4096) by (rewrite PTE_FLAGS_eq; width_lia).
  destruct (map_page _ _ _ _ _ P0 n p (PTE_FLAGS e) H2 ltac:(lia) HEn Hf)
    as (Hfr & s3 & F3 & T3 & Hg & [[Em H3]|(Em & E3 & H3)]);
    rewrite (bind_eq _ _ _ _ _ Em); cbn [Z.ltb Z.compare].
  - left. rewrite vpn_next by lia. eexists s3, F3, T3, _. split; [done|]. by eapply copy_mapped.
  - right. destruct (copy_unmapped n s p F d T E C e s3 F3 T3 Hg H3) as (s' & F' & Er & Hgb).
    exists s', F'. split; [|done]. revert Er. unfold bind at 1 2. destruct (kfree p s3); try done.
    intros Er. rewrite bind_assoc, (bind_eq _ _ _ _ _ Er). done.
Qed.

Lemma copy_loop fuel n s F d T E :
  copying0 n s F d T E -> 0 <= n <= b -> (Z.to_nat (b - n) < fuel)%nat ->
  (exists s' F' T' E', loop fuel (copy_turn d0 d sz) (n * PGSIZE) s = Ret d s' /\ copying0 b s' F' d T' E') \/
  (exists s' F', loop fuel (copy_turn d0 d sz) (n * PGSIZE) s = Ret 0 s' /\ given_back s0 F0 s' F').
Proof.
  revert n s F T E. induction fuel as [|fuel IH]; intros n s F T E C Hn Hf; [lia|]. cbn [loop].
  destruct (Z.eq_dec n b) as [->|Hne].
  - left. exists s, F, T, E. unfold copy_turn.
    rewrite (proj2 (Z.ltb_ge _ _)) by (change PGSIZE with 4096 in *; width_lia). done.
  - destruct (copy_turn_run n s F d T E C ltac:(lia)) as [(s1 & F1 & T1 & E1 & Er & C1)|(s1 & F1 & Er & Hgb)];
      rewrite (bind_eq _ _ _ _ _ Er).
    + apply (IH (n + 1) s1 F1 T1 E1); done || lia.
    + right. by exists s1, F1.
Qed.
End Copy.

(** What [copyuvm] returns: nothing and every page back, or the directory of
    a copy of the first [b] pages. *)
Definition copy_result (s : kstate) (F : list Z) (d : Z) (T : tables) (E : entries) (Q : list Z) (b : Z)
    (r : Z) (s' : kstate) (F' : list Z) : Prop :=
  r = 0 /\ alloc_inv s' F' /\ F' ≡ₚ F \/
  exists T' E', uspace s' F' r T' E' (d :: tabs T ++ upages E ++ Q) /\
    F ≡ₚ F' ++ r :: tabs T' ++ upages E' /\
    (forall x, 0 <= x < b -> exists e e', E !! x = Some e /\ E' !! x = Some e' /\
       copied (k_mem s) e (k_mem s') e') /\
    (forall x, ~ (0 <= x < b) -> E' !! x = kernel_pte x).

Lemma copyuvm_run s F d T E Q sz :
  uspace s F d T E Q -> 0 <= sz <= KERNBASE ->
  let b := (sz + PGSIZE - 1) / PGSIZE in
  (forall x, 0 <= x < b -> is_Some (E !! x)) ->
  exists r s' F', copyuvm d sz s = Ret r s' /\ mem_only s s' /\ untouched F (k_mem s) (k_mem s') /\
    copy_result s F d T E Q b r s' F'.
Proof.
  intros H Hsz b HE. unfold copyuvm.
  destruct (setupkvm_run s F (d :: tabs T ++ upages E ++ Q)) as [(s1 & F1 & Er & Hi & HF & Hu & Hm)
    |(d1 & s1 & F1 & T1 & Er & Hd & Hs & HF & Hu & Hm)].
  - apply H.
  - apply H.
  - eapply (Forall_app _ F), space_pages, H.
  - rewrite (bind_eq _ _ _ _ _ Er). exists 0, s1, F1. split; [done|]. split; [done|]. split; [done|]. by left.
  - rewrite (bind_eq _ _ _ _ _ Er). unfold ctrue. rewrite (proj2 (Z.eqb_neq d1 0)) by done. cbn [negb].
    change (loop ?f _) with (loop f (copy_turn d d1 sz)). change 0 with (0 * PGSIZE).
    pose proof kentries_lookup as Hkl. revert Hs Hkl. generalize kentries as E1. intros E1 Hs Hkl.
    assert (Hko := kernel_pte_only E1 Hkl).
    assert (C : copying s F E (d :: tabs T ++ upages E ++ Q) 0 s1 F1 d1 T1 E1).
    { split; try done.
      - by rewrite (upages_none _ Hko).
      - by rewrite (upages_none _ Hko), app_nil_r.
      - eapply untouched_mono; [|done]. intros q. rewrite HF. clear. set_solver.
      - lia. }
    assert (Hb0 : 0 <= b) by (unfold b; change PGSIZE with 4096; width_lia).
    edestruct (copy_loop s F d T E Q sz b H Hsz eq_refl HE) as [(s2 & F2 & T2 & E2 & El & C2)|(s2 & F2 & El & Hi2 & HF2 & Hu2 & Hm2)];
      [exact C|lia| |rewrite El..].
    + unfold b. change PGSIZE with 4096. change KERNBASE with 2147483648 in *. width_lia.
    + exists d1, s2, F2. split; [done|]. destruct C2. split; [done|]. split; [done|]. right. eauto 10.
    + exists 0, s2, F2. split; [done|]. split; [done|]. split; [done|]. by left.
Qed.

(** C12: [copyuvm] makes an independent copy of an address space, or nothing.
    On success the new directory, its tables and its pages are all taken from
    the free list and belong to nobody else; each page up to [sz] has the
    flags and the content of the parent's page, and the rest is the kernel's
    map.  On failure every page taken is free again.  In both cases no page
    in use before the call is written, so the parent is unchanged. *)
Theorem copyuvm_spec s F d T E Q sz :
  uspace s F d T E Q -> 0 <= sz <= KERNBASE ->
  let b := (sz + PGSIZE - 1) / PGSIZE in
  (forall x, 0 <= x < b -> is_Some (E !! x)) ->
  exists r s' F', copyuvm d sz s = Ret r s' /\ mem_only s s' /\ untouched F (k_mem s) (k_mem s') /\
    (r = 0 /\ alloc_inv s' F' /\ F' ≡ₚ F \/
     exists T' E', uspace s' F' r T' E' (d :: tabs T ++ upages E ++ Q) /\
       F ≡ₚ F' ++ r :: tabs T' ++ upages E' /\
       (forall x, 0 <= x < b -> exists e e', E !! x = Some e /\ E' !! x = Some e' /\
          copied (k_mem s) e (k_mem s') e') /\
       (forall x, ~ (0 <= x < b) -> E' !! x = kernel_pte x)).
Proof. apply copyuvm_run. Qed.
End Spaces.

(** * Examples *)

#[local] Existing Instance demo_layout.

(** A machine with five free pages, and an address space with one user page
    made of three of them. *)
Definition demo_page (i : Z) : Z := page0 + i * PGSIZE.
Definition demo_free : kstate :=
  freed (demo_page 0) (freed (demo_page 1) (freed (demo_page 2) (freed (demo_page 3)
    (freed (demo_page 4) kstate_zero)))).
Definition demo_pages : list Z := demo_page <$> [0; 1; 2; 3; 4].

Lemma demo_free_inv : alloc_inv demo_free demo_pages.
Proof.
  repeat (apply freed_inv; [|by apply page_ok_check; vm_compute|by apply (bool_decide_unpack _); vm_compute]).
  exact empty_alloc_inv.
Qed.

Definition demo_dir : kstate := zeroed (demo_page 0) (taken (demo_page 0) demo_free).
Lemma demo_dir_space : uspace demo_dir (tail demo_pages) (demo_page 0) ∅ ∅ [].
Proof.
  apply space_new_dir; [exact demo_free_inv| |constructor].
  by apply (bool_decide_unpack _); vm_compute.
Qed.

Definition demo_user : kstate :=
  store (demo_page 1) (entry (V2P (demo_page 2)) 6)
    (taken (demo_page 2) (new_tab (demo_page 0) 0 (demo_page 1) demo_dir)).
Lemma demo_user_space :
  uspace demo_user [demo_page 3; demo_page 4] (demo_page 0) {[0 := demo_page 1]}
    {[0 := entry (V2P (demo_page 2)) 6]} [].
Proof.
  destruct (space_new_table _ _ _ _ _ _ 0 (demo_page 1) demo_dir_space) as [H1 _]; [done|done|].
  apply space_kalloc in H1 as (_ & _ & _ & H1).
  apply (space_store _ _ _ _ _ _ 0 (demo_page 1) (entry (V2P (demo_page 2)) 6)) in H1 as [H1 _]; [|done..].
  exact H1.
Qed.

Lemma setupkvm_spec_witness :
  exists r s', setupkvm demo_free = Ret r s' /\ mem_only demo_free s'.
Proof.
  destruct (setupkvm_spec demo_free demo_pages []) as (r & s' & F' & Er & Hm & _).
  - exact demo_free_inv.
  - by apply (bool_decide_unpack _); vm_compute.
  - constructor.
  - exists r, s'. split; [exact Er|exact Hm].
Defined.

Lemma allocuvm_spec_witness :
  exists r s', allocuvm (demo_page 0) 0 8192 demo_dir = Ret r s' /\ mem_only demo_dir s'.
Proof.
  destruct (allocuvm_spec demo_dir (tail demo_pages) (demo_page 0) ∅ ∅ [] 0 8192)
    as (r & s' & F' & T' & E' & N & Er & HG).
  - exact demo_dir_space.
  - lia.
  - by vm_compute.
  - apply not_elem_of_nil.
  - intros x _. apply lookup_empty.
  - exists r, s'. split; [exact Er|]. destruct HG as [[_ G]|(_ & _ & _ & G)]; apply G.
Defined.

Lemma copyuvm_spec_witness :
  exists r s', copyuvm (demo_page 0) 100 demo_user = Ret r s' /\ mem_only demo_user s'.
Proof.
  destruct (copyuvm_spec demo_user [demo_page 3; demo_page 4] (demo_page 0) {[0 := demo_page 1]}
    {[0 := entry (V2P (demo_page 2)) 6]} [] 100) as (r & s' & F' & Er & Hm & _).
  - exact demo_user_space.
  - by vm_compute.
  - intros x Hx. change ((100 + PGSIZE - 1) / PGSIZE) with 1 in Hx. replace x with 0 by lia.
    by eexists.
  - exists r, s'. split; [exact Er|exact Hm].
Defined.

(** C32: [freevm] gives back every page of an address space: the directory,
    its tables and its user pages join the free list, each once, and no page
    of anybody else is written. *)
Theorem freevm_spec `{KernelLayout} s F d T E Q :
  uspace s F d T E Q ->
  exists s' F', freevm d s = Ret tt s' /\ alloc_inv s' F' /\
    F' ≡ₚ F ++ d :: tabs T ++ upages E /\ NoDup (F' ++ Q) /\
    (forall p, p ∈ Q -> forall o, 0 <= o < PGSIZE -> ld8 (k_mem s') (p + o) = ld8 (k_mem s) (p + o)).
Proof.
  intros Hs. destruct (freevm_run s F d T E Q Hs) as (s' & F' & Er & Hi & HF & Hu & Hm).
  pose proof (sp_own _ _ _ _ _ _ Hs) as Hnd.
  rewrite (app_assoc (tabs T)), app_comm_cons, (app_assoc F), <- HF in Hnd.
  exists s', F'. split; [done|]. split; [done|]. split; [done|]. split; [done|].
  intros p Hp o Ho. pose proof (space_pages _ _ _ _ _ _ Hs) as HP.
  rewrite (app_assoc (tabs T)), app_comm_cons, (app_assoc F), <- HF, Forall_app in HP. destruct HP as [HP HQ].
  apply (untouched_page F' _ _ p); [|done|by eapply Forall_forall| |lia].
  - eapply untouched_mono; [|done]. intros q. by rewrite HF.
  - apply NoDup_app in Hnd as (_ & Hx & _). intros Hin. by apply (Hx p Hin).
Qed.
Lemma freevm_spec_witness :
  exists s' F', freevm (demo_page 0) demo_user = Ret tt s' /\ alloc_inv s' F' /\ F' ≡ₚ demo_pages.
Proof.
  destruct (freevm_spec demo_user [demo_page 3; demo_page 4] (demo_page 0) {[0 := demo_page 1]}
    {[0 := entry (V2P (demo_page 2)) 6]} [] demo_user_space) as (s' & F' & Er & Hi & HF & _).
  exists s', F'. split; [exact Er|]. split; [exact Hi|]. rewrite HF.
  by apply (bool_decide_unpack _); vm_compute.
Defined.
