(* ===== verification/Sleeplock.v ===== *)
(** Sleep locks ([sleeplock.c]): long-term locks of buffers and inodes, held
    by a process rather than a CPU. *)
From S2P Require Import Prelude Kstate Sched.

(** The sleep locks of the kernel are fields of a buffer or an inode. *)
Inductive slref : Type := SL_buf (b : nat) | SL_inode (i : nat).

Definition sl_get (r : slref) : K sleeplock :=
  match r with
  | SL_buf b => x <- get_buf b;; ret (b_lock x)
  | SL_inode i => x <- get_inode i;; ret (i_lock x)
  end.
Definition sl_set (r : slref) (l : sleeplock) : K unit :=
  match r with
  | SL_buf b => upd_buf b (fun x => x <| b_lock := l |>)
  | SL_inode i => upd_inode i (fun x => x <| i_lock := l |>)
  end.
Definition sl_lk (r : slref) : lockid :=
  match r with SL_buf b => L_bufsleep b | SL_inode i => L_inodesleep i end.
Definition sl_chan (r : slref) : chan :=
  match r with SL_buf b => C_bufsleep b | SL_inode i => C_inodesleep i end.

Definition initsleeplock (r : slref) : K unit := sl_set r (mkSl 0 0).

(** The body of [acquiresleep] with [lk->lk] held: the test of its [while]
    loop, and what follows it.  A process that finds the lock taken sleeps,
    and tests again in [acquiresleep_return] when it is woken. *)
Definition acquiresleep_locked (r : slref) : K unit :=
  l <- sl_get r;;
  if ctrue (sl_locked l) then sleep (sl_chan r) (sl_lk r)
  else
    i <- myproc;;
    p <- get_proc i;;
    sl_set r (mkSl 1 (p_pid p));;;
    release (sl_lk r).
Definition acquiresleep (r : slref) : K unit :=
  acquire (sl_lk r);;; acquiresleep_locked r.
Definition acquiresleep_return (r : slref) : K unit :=
  sleep_return (sl_lk r);;; acquiresleep_locked r.

Definition releasesleep (r : slref) : K unit :=
  acquire (sl_lk r);;;
  sl_set r (mkSl 0 0);;;
  wakeup (sl_chan r);;;
  release (sl_lk r).

Definition holdingsleep (r : slref) : K bool :=
  acquire (sl_lk r);;;
  l <- sl_get r;;
  i <- myproc;;
  p <- get_proc i;;
  release (sl_lk r);;;
  ret (ctrue (sl_locked l) && (sl_pid l =? p_pid p)).

(** * Frame *)

#[export] Instance sl_get_keeps r : SysKeeps (sl_get r).
Proof. unfold sl_get. solve_keeps. Qed.
#[export] Instance sl_set_keeps r l : SysKeeps (sl_set r l).
Proof. unfold sl_set. solve_keeps. Qed.
#[export] Instance initsleeplock_keeps r : SysKeeps (initsleeplock r).
Proof. unfold initsleeplock. solve_keeps. Qed.
#[export] Instance acquiresleep_locked_keeps r : SysKeeps (acquiresleep_locked r).
Proof. unfold acquiresleep_locked. solve_keeps. Qed.
#[export] Instance acquiresleep_keeps r : SysKeeps (acquiresleep r).
Proof. unfold acquiresleep. solve_keeps. Qed.
#[export] Instance releasesleep_keeps r : SysKeeps (releasesleep r).
Proof. unfold releasesleep. solve_keeps. Qed.
#[export] Instance holdingsleep_keeps r : SysKeeps (holdingsleep r).
Proof. unfold holdingsleep. solve_keeps. Qed.
