(* ===== verification/Bio.v ===== *)
(** The disk and the buffer cache ([memide.c], [bio.c]).  [iderw] is the
    driver of the in-memory disk, the one of the [kernelmemfs] build; its
    requests complete before it returns. *)
From S2P Require Import Prelude Kstate Mem Sched Sleeplock.

(** * memide.c *)

Definition iderw (b : nat) : K unit :=
  h <- holdingsleep (SL_buf b);;
  if negb h then panic "iderw: buf not locked"
  else
    x <- get_buf b;;
    if Z.land (b_flags x) (Z.lor B_VALID B_DIRTY) =? B_VALID
    then panic "iderw: nothing to do"
    else if negb (b_dev x =? 1) then panic "iderw: request not for disk 1"
    else
      d <- gets k_disk;;
      if Z.of_nat (length d) <=? b_blockno x then panic "iderw: block out of range"
      else
        (if ctrue (Z.land (b_flags x) B_DIRTY) then
           upd_buf b (fun x => x <| b_flags ::= fun f => Z.land f (Z.lnot B_DIRTY) |>);;;
           modify (fun s => s <| k_disk ::= <[Z.to_nat (b_blockno x) := b_data x]> |>
                              <| k_dwrites ::= cons (b_blockno x, b_data x) |>)
         else
           upd_buf b (fun y => y <| b_data := default zero_block (d !! Z.to_nat (b_blockno x)) |>));;;
        upd_buf b (fun x => x <| b_flags ::= fun f => Z.lor f B_VALID |>).

(** * bio.c *)

Definition set_order (o : list nat) : K unit :=
  modify (fun s => s <| k_bcache ::= fun c => c <| bc_order := o |> |>).

(** Each buffer is linked in at [head.next]. *)
Definition binit : K unit :=
  set_order [];;;
  forM (seq 0 NBUF) (fun b =>
    o <- gets (bc_order ∘ k_bcache);;
    set_order (b :: o);;;
    initsleeplock (SL_buf b)).

Definition bget (dev blockno : Z) : K nat :=
  acquire L_bcache;;;
  order <- gets (bc_order ∘ k_bcache);;
  hit <- scan order (fun b =>
    x <- get_buf b;;
    if (b_dev x =? dev) && (b_blockno x =? blockno) then
      upd_buf b (fun x => x <| b_refcnt ::= fun n => u32 (n + 1) |>);;;
      release L_bcache;;;
      acquiresleep (SL_buf b);;;
      ret (Return b)
    else ret Continue);;
  match hit with
  | Some b => ret b
  | None =>
      free <- scan (rev order) (fun b =>
        x <- get_buf b;;
        if (b_refcnt x =? 0) && negb (ctrue (Z.land (b_flags x) B_DIRTY)) then
          upd_buf b (fun x => x <| b_dev := dev |> <| b_blockno := blockno |>
                                <| b_flags := 0 |> <| b_refcnt := 1 |>);;;
          release L_bcache;;;
          acquiresleep (SL_buf b);;;
          ret (Return b)
        else ret Continue);;
      match free with
      | Some b => ret b
      | None => panic "bget: no buffers"
      end
  end.

Definition bread (dev blockno : Z) : K nat :=
  b <- bget dev blockno;;
  x <- get_buf b;;
  whenM (negb (ctrue (Z.land (b_flags x) B_VALID))) (iderw b);;;
  ret b.

Definition bwrite (b : nat) : K unit :=
  h <- holdingsleep (SL_buf b);;
  if negb h then panic "bwrite"
  else
    upd_buf b (fun x => x <| b_flags ::= fun f => Z.lor f B_DIRTY |>);;;
    iderw b.

(** An unreferenced buffer moves to the front of the list. *)
Definition brelse (b : nat) : K unit :=
  h <- holdingsleep (SL_buf b);;
  if negb h then panic "brelse"
  else
    releasesleep (SL_buf b);;;
    acquire L_bcache;;;
    upd_buf b (fun x => x <| b_refcnt ::= fun n => u32 (n - 1) |>);;;
    x <- get_buf b;;
    whenM (b_refcnt x =? 0)
      (o <- gets (bc_order ∘ k_bcache);;
       set_order (b :: filter (.≠ b) o));;;
    release L_bcache.

(** * Frame *)

#[export] Instance iderw_keeps b : SysKeeps (iderw b).
Proof. unfold iderw. solve_keeps. Qed.
#[export] Instance set_order_keeps o : SysKeeps (set_order o).
Proof. unfold set_order. solve_keeps. Qed.
#[export] Instance bget_keeps d b : SysKeeps (bget d b).
Proof. unfold bget. solve_keeps. Qed.
#[export] Instance bread_keeps d b : SysKeeps (bread d b).
Proof. unfold bread. solve_keeps. Qed.
#[export] Instance bwrite_keeps b : SysKeeps (bwrite b).
Proof. unfold bwrite. solve_keeps. Qed.
#[export] Instance brelse_keeps b : SysKeeps (brelse b).
Proof. unfold brelse. solve_keeps. Qed.
