(* ===== verification/Ide.v ===== *)
(** The interrupt-driven disk driver ([ide.c]).  A request is queued behind
    the others and its process sleeps until the interrupt handler has finished
    it.  The drive is reached through the ports of [Ports]; what the driver
    relies on is stated by [AtaDrive]. *)
From S2P Require Import Prelude Kstate Sched Sleeplock.

Definition SECTOR_SIZE : Z := 512.
Definition IDE_BSY : Z := 0x80.
Definition IDE_DRDY : Z := 0x40.
Definition IDE_DF : Z := 0x20.
Definition IDE_ERR : Z := 0x01.

Definition IDE_CMD_READ : Z := 0x20.
Definition IDE_CMD_WRITE : Z := 0x30.
Definition IDE_CMD_RDMUL : Z := 0xc4.
Definition IDE_CMD_WRMUL : Z := 0xc5.

(** The instructions [inb], [outb], [insl] and [outsl] on a device; a transfer
    of [n] words is the list of its [4 * n] bytes.  [patience] bounds how often
    the status has to be read until the device is ready. *)
Class Ports (Dv : Type) : Type := {
  port_inb : Z -> Dv -> Z * Dv;
  port_outb : Z -> Z -> Dv -> Dv;
  port_insl : Z -> Z -> Dv -> list Z * Dv;
  port_outsl : Z -> list Z -> Dv -> Dv;
  patience : nat;
}.

(** The kernel, the variables of [ide.c], the [qnext] fields of the buffers
    and the drive. *)
Record ide (Dv : Type) : Type := mkIde {
  id_k : kstate;
  idequeue : option nat;
  id_qnext : list (option nat);
  havedisk1 : Z;
  id_drive : Dv;
}.
Arguments mkIde {Dv}.
Arguments id_k {Dv}.
Arguments idequeue {Dv}.
Arguments id_qnext {Dv}.
Arguments havedisk1 {Dv}.
Arguments id_drive {Dv}.
#[export] Instance eta_ide Dv : Eta (ide Dv) := fun r =>
  mkIde (id_k r) (idequeue r) (id_qnext r) (havedisk1 r) (id_drive r).

Section Ide.
Context {Dv : Type} `{Ports Dv}.
#[local] Abbreviation I := (M (ide Dv)).

(** Kernel code of other files. *)
Definition kern {A} (m : K A) : I A := fun s =>
  match m (id_k s) with
  | Ret a k => Ret a (s <| id_k := k |>)
  | Switch k => Switch (s <| id_k := k |>)
  | Panic msg => Panic msg
  | Fault => Fault
  | NoFuel => NoFuel
  end.

Definition inb (port : Z) : I Z :=
  d <- gets id_drive;; modify (fun s => s <| id_drive := snd (port_inb port d) |>);;; ret (fst (port_inb port d)).
Definition outb (port v : Z) : I unit := modify (fun s => s <| id_drive ::= port_outb port v |>).
Definition insl (port cnt : Z) : I (list Z) :=
  d <- gets id_drive;; modify (fun s => s <| id_drive := snd (port_insl port cnt d) |>);;; ret (fst (port_insl port cnt d)).
Definition outsl (port : Z) (data : list Z) (cnt : Z) : I unit :=
  modify (fun s => s <| id_drive ::= port_outsl port (take (Z.to_nat (4 * cnt)) data) |>).

Definition idewait (checkerr : bool) : I Z :=
  r <- loop patience (fun _ : unit =>
         r <- inb 0x1f7;;
         ret (if Z.land r (Z.lor IDE_BSY IDE_DRDY) =? IDE_DRDY then inr r else inl tt)) tt;;
  ret (if checkerr && negb (Z.land r (Z.lor IDE_DF IDE_ERR) =? 0) then -1 else 0).

(** [initlock] and the interrupt routing of [ioapicenable] leave no trace in
    this state. *)
Definition ideinit : I unit :=
  idewait false;;;
  outb 0x1f6 (Z.lor 0xe0 (Z.shiftl 1 4));;;
  scan (seq 0 1000) (fun _ =>
    r <- inb 0x1f7;;
    if negb (r =? 0) then modify (fun s => s <| havedisk1 := 1 |>);;; ret (Return tt) else ret Continue);;;
  outb 0x1f6 (Z.lor 0xe0 (Z.shiftl 0 4)).

Definition idestart (b : option nat) : I unit :=
  match b with
  | None => panic "idestart"
  | Some b =>
      x <- kern (get_buf b);;
      if FSSIZE <=? b_blockno x then panic "incorrect blockno"
      else
        let sector_per_block := BSIZE / SECTOR_SIZE in
        let sector := s32 (b_blockno x * sector_per_block) in
        let read_cmd := if sector_per_block =? 1 then IDE_CMD_READ else IDE_CMD_RDMUL in
        let write_cmd := if sector_per_block =? 1 then IDE_CMD_WRITE else IDE_CMD_WRMUL in
        if 7 <? sector_per_block then panic "idestart"
        else
          idewait false;;;
          outb 0x3f6 0;;;
          outb 0x1f2 sector_per_block;;;
          outb 0x1f3 (Z.land sector 0xff);;;
          outb 0x1f4 (Z.land (Z.shiftr sector 8) 0xff);;;
          outb 0x1f5 (Z.land (Z.shiftr sector 16) 0xff);;;
          outb 0x1f6 (Z.lor (Z.lor 0xe0 (Z.shiftl (Z.land (b_dev x) 1) 4)) (Z.land (Z.shiftr sector 24) 0x0f));;;
          if ctrue (Z.land (b_flags x) B_DIRTY) then
            outb 0x1f7 write_cmd;;;
            outsl 0x1f0 (b_data x) (BSIZE / 4)
          else outb 0x1f7 read_cmd
  end.

Definition qnext (b : nat) : I (option nat) := q <- gets id_qnext;; deref (q !! b).

Definition ideintr : I unit :=
  kern (acquire L_ide);;;
  q <- gets idequeue;;
  match q with
  | None => kern (release L_ide)
  | Some b =>
      n <- qnext b;;
      modify (fun s => s <| idequeue := n |>);;;
      x <- kern (get_buf b);;
      whenM (negb (ctrue (Z.land (b_flags x) B_DIRTY)))
        (r <- idewait true;;
         whenM (0 <=? r)
           (data <- insl 0x1f0 (BSIZE / 4);;
            kern (upd_buf b (fun x => x <| b_data := data |>))));;;
      kern (upd_buf b (fun x => x <| b_flags ::= fun f => Z.lor f B_VALID |>));;;
      kern (upd_buf b (fun x => x <| b_flags ::= fun f => Z.land f (Z.lnot B_DIRTY) |>));;;
      kern (wakeup (C_buf b));;;
      q <- gets idequeue;;
      whenM (bool_decide (q <> None)) (idestart q);;;
      kern (release L_ide)
  end.

(** The pointer [pp] of [iderw]'s loop: the head of the queue or the [qnext]
    field of a buffer. *)
Definition load_pp (pp : option nat) : I (option nat) :=
  match pp with None => gets idequeue | Some c => qnext c end.
Definition store_pp (pp v : option nat) : I unit :=
  match pp with
  | None => modify (fun s => s <| idequeue := v |>)
  | Some c => modify (fun s => s <| id_qnext ::= <[c := v]> |>)
  end.

(** The loop that waits for the request, with [idelock] held. *)
Definition iderw_wait (b : nat) : I unit :=
  x <- kern (get_buf b);;
  if negb (Z.land (b_flags x) (Z.lor B_VALID B_DIRTY) =? B_VALID) then kern (sleep (C_buf b) L_ide)
  else kern (release L_ide).

Definition iderw (b : nat) : I unit :=
  h <- kern (holdingsleep (SL_buf b));;
  if negb h then panic "iderw: buf not locked"
  else
    x <- kern (get_buf b);;
    if Z.land (b_flags x) (Z.lor B_VALID B_DIRTY) =? B_VALID then panic "iderw: nothing to do"
    else
      hd <- gets havedisk1;;
      if negb (b_dev x =? 0) && (hd =? 0) then panic "iderw: ide disk 1 not present"
      else
        kern (acquire L_ide);;;
        store_pp (Some b) None;;;
        pp <- loop (NBUF + 1) (fun pp =>
                v <- load_pp pp;;
                ret (match v with Some c => inl (Some c) | None => inr pp end)) None;;
        store_pp pp (Some b);;;
        q <- gets idequeue;;
        whenM (bool_decide (q = Some b)) (idestart (Some b));;;
        iderw_wait b.

(** [iderw] after [sleep] returns. *)
Definition iderw_return (b : nat) : I unit :=
  kern (sleep_return L_ide);;; iderw_wait b.
End Ide.

(** * What the driver relies on *)

(** What a drive is doing: nothing, fetching a sector, waiting for the data of
    a sector to store, storing it, having a sector to hand over, or having
    failed. *)
Inductive job : Type :=
| Idle
| Reading (drv lba : Z)
| Collecting (drv lba : Z)
| Writing (drv lba : Z) (data : list Z)
| Fetched (drv lba : Z)
| Failed.

#[export] Instance job_eq_dec : EqDecision job.
Proof. solve_decision. Defined.

(** The address in the registers: the drive, and the sector number. *)
Definition drive_of (reg : Z -> Z) : Z := Z.land (Z.shiftr (reg 0x1f6) 4) 1.
Definition lba_of (reg : Z -> Z) : Z :=
  reg 0x1f3 + 2 ^ 8 * reg 0x1f4 + 2 ^ 16 * reg 0x1f5 + 2 ^ 24 * Z.land (reg 0x1f6) 0xf.

(** A pair of ATA drives on the ports 0x1f0 to 0x1f7, transferring single
    sectors with programmed input and output. *)
Class AtaDrive (Dv : Type) `{Ports Dv} : Type := {
  reg : Dv -> Z -> Z;
  media : Dv -> Z -> Z -> list Z;
  job_of : Dv -> job;
  interrupt : Dv -> Dv -> Prop;

  (** writing the control and the address registers *)
  outb_reg d p v : p ∈ [0x3f6; 0x1f2; 0x1f3; 0x1f4; 0x1f5; 0x1f6] ->
    let d' := port_outb p v d in
    (forall q, reg d' q = if q =? p then v else reg d q) /\ media d' = media d /\ job_of d' = job_of d;
  (** the commands, given to a drive that is not at work *)
  outb_read d : job_of d = Idle \/ job_of d = Failed -> reg d 0x1f2 = 1 ->
    let d' := port_outb 0x1f7 IDE_CMD_READ d in
    media d' = media d /\ job_of d' = Reading (drive_of (reg d)) (lba_of (reg d));
  outb_write d : job_of d = Idle \/ job_of d = Failed -> reg d 0x1f2 = 1 ->
    let d' := port_outb 0x1f7 IDE_CMD_WRITE d in
    media d' = media d /\ job_of d' = Collecting (drive_of (reg d)) (lba_of (reg d));
  (** the transfers *)
  outsl_data d drv lba data : job_of d = Collecting drv lba -> length data = Z.to_nat SECTOR_SIZE ->
    let d' := port_outsl 0x1f0 data d in
    media d' = media d /\ job_of d' = Writing drv lba data;
  insl_data d drv lba : job_of d = Fetched drv lba ->
    let '(data, d') := port_insl 0x1f0 (SECTOR_SIZE / 4) d in
    data = media d drv lba /\ media d' = media d /\ job_of d' = Idle;
  (** reading the status changes nothing, reports a failure, and finds the
      drive ready before the patience is exhausted *)
  inb_status d : let d' := snd (port_inb 0x1f7 d) in
    reg d' = reg d /\ media d' = media d /\ job_of d' = job_of d;
  inb_error d : Z.land (fst (port_inb 0x1f7 d)) (Z.lor IDE_BSY IDE_DRDY) = IDE_DRDY ->
    (Z.land (fst (port_inb 0x1f7 d)) (Z.lor IDE_DF IDE_ERR) <> 0 <-> job_of d = Failed);
  inb_ready d : exists k, (k < patience)%nat /\
    Z.land (fst (port_inb 0x1f7 (Nat.iter k (fun d => snd (port_inb 0x1f7 d)) d))) (Z.lor IDE_BSY IDE_DRDY) = IDE_DRDY;
  (** a drive at work, and only such a one, interrupts when it is done *)
  interrupt_done d d' : interrupt d d' ->
    match job_of d with
    | Reading drv lba => media d' = media d /\ (job_of d' = Fetched drv lba \/ job_of d' = Failed)
    | Writing drv lba data =>
        job_of d' = Idle /\ media d' = (fun v l => if (v =? drv) && (l =? lba) then data else media d v l) \/
        job_of d' = Failed /\ forall v l, (v, l) <> (drv, lba) -> media d' v l = media d v l
    | _ => False
    end;
}.

(** * A drive that keeps the contract *)

Record ata : Type := mkAta {
  at_reg : Z -> Z;
  at_media : Z -> Z -> list Z;
  at_job : job;
}.
#[export] Instance eta_ata : Eta ata := fun r => mkAta (at_reg r) (at_media r) (at_job r).

Definition ata_status (d : ata) : Z := match at_job d with Failed => Z.lor IDE_DRDY IDE_ERR | _ => IDE_DRDY end.
Definition ata_outb (p v : Z) (d : ata) : ata :=
  if p =? 0x1f7 then
    if v =? IDE_CMD_READ then d <| at_job := Reading (drive_of (at_reg d)) (lba_of (at_reg d)) |>
    else if v =? IDE_CMD_WRITE then d <| at_job := Collecting (drive_of (at_reg d)) (lba_of (at_reg d)) |>
    else d
  else d <| at_reg := fun q => if q =? p then v else at_reg d q |>.

#[export] Instance ata_ports : Ports ata := {
  port_inb p d := (if p =? 0x1f7 then ata_status d else at_reg d p, d);
  port_outb := ata_outb;
  port_insl p cnt d := match at_job d with Fetched drv lba => (at_media d drv lba, d <| at_job := Idle |>) | _ => ([], d) end;
  port_outsl p data d := match at_job d with Collecting drv lba => d <| at_job := Writing drv lba data |> | _ => d end;
  patience := 1;
}.

(** The drive finishes its work, well or, if [ok] is false, not. *)
Definition ata_finish (ok : bool) (d : ata) : option ata :=
  match at_job d with
  | Reading drv lba => Some (d <| at_job := if ok then Fetched drv lba else Failed |>)
  | Writing drv lba data =>
      Some (if ok then d <| at_job := Idle |> <| at_media := fun v l => if (v =? drv) && (l =? lba) then data else at_media d v l |>
            else d <| at_job := Failed |>)
  | _ => None
  end.

#[export] Program Instance ata_drive : AtaDrive ata := {
  reg := at_reg;
  media := at_media;
  job_of := at_job;
  interrupt d d' := exists ok, ata_finish ok d = Some d';
}.
Next Obligation.
  intros d p v Hp. cbn. unfold ata_outb. rewrite (proj2 (Z.eqb_neq p 0x1f7)); [done|]. intros ->. by apply (bool_decide_pack _) in Hp.
Qed.
Next Obligation. done. Qed.
Next Obligation. done. Qed.
Next Obligation. intros d drv lba data Hj _. cbn in *. by rewrite Hj. Qed.
Next Obligation. intros d drv lba Hj. cbn in *. by rewrite Hj. Qed.
Next Obligation. done. Qed.
Next Obligation. intros d _. cbn. unfold ata_status. by destruct (at_job d). Qed.
Next Obligation. intros d. exists 0%nat. cbn. unfold ata_status. split; [lia|]. by destruct (at_job d). Qed.
Next Obligation.
  intros d d' [ok E]. unfold ata_finish in E. destruct (at_job d) as [| | |drv lba data| |]; try done; injection E as <-; destruct ok; auto.
Qed.
