(* ===== verification/Log.v ===== *)
(** The write-ahead log of the file system ([log.c]). *)
From S2P Require Import Prelude Kstate Mem Sched Sleeplock Bio.

Definition buf_data (b : nat) : K (list Z) := x <- get_buf b;; ret (b_data x).
Definition set_buf_data (b : nat) (l : list Z) : K unit :=
  upd_buf b (fun x => x <| b_data := l |>).

(** fs.c: the superblock is the start of block 1. *)
Definition decode_sb (l : list Z) : superblock :=
  mkSb (get32 l 0) (get32 l 4) (get32 l 8) (get32 l 12) (get32 l 16)
    (get32 l 20) (get32 l 24).
Definition readsb (dev : Z) : K superblock :=
  b <- bread dev 1;;
  l <- buf_data b;;
  brelse b;;;
  ret (decode_sb l).

(** [log.lh.block[i]]; an index past [LOGSIZE] is outside the array. *)
Definition log_blockno (i : nat) : K Z :=
  lg <- gets k_log;; deref (lg_block lg !! i).
Definition set_log_block (i : nat) (bno : Z) : K unit :=
  log_blockno i;;; upd_log (fun lg => lg <| lg_block ::= <[i := bno]> |>).

Definition install_trans : K unit :=
  n <- gets (lg_n ∘ k_log);;
  forM (seq 0 (Z.to_nat n)) (fun tail =>
    lg <- gets k_log;;
    lbuf <- bread (lg_dev lg) (lg_start lg + Z.of_nat tail + 1);;
    bno <- log_blockno tail;;
    dbuf <- bread (lg_dev lg) bno;;
    l <- buf_data lbuf;;
    set_buf_data dbuf l;;;
    bwrite dbuf;;;
    brelse lbuf;;;
    brelse dbuf).

(** The header block holds [n] and then the block numbers. *)
Definition read_head : K unit :=
  lg <- gets k_log;;
  b <- bread (lg_dev lg) (lg_start lg);;
  l <- buf_data b;;
  upd_log (fun lg => lg <| lg_n := s32 (get32 l 0) |>);;;
  n <- gets (lg_n ∘ k_log);;
  forM (seq 0 (Z.to_nat n)) (fun i =>
    set_log_block i (s32 (get32 l (4 + 4 * Z.of_nat i))));;;
  brelse b.

Definition write_head : K unit :=
  lg <- gets k_log;;
  b <- bread (lg_dev lg) (lg_start lg);;
  l <- buf_data b;;
  set_buf_data b (splice l 0 (le32 (lg_n lg)));;;
  forM (seq 0 (Z.to_nat (lg_n lg))) (fun i =>
    bno <- log_blockno i;;
    l <- buf_data b;;
    set_buf_data b (splice l (4 + 4 * Z.of_nat i) (le32 bno)));;;
  bwrite b;;;
  brelse b.

Definition recover_from_log : K unit :=
  read_head;;;
  install_trans;;;
  upd_log (fun lg => lg <| lg_n := 0 |>);;;
  write_head.

(** [sizeof(struct logheader)] is [4 + 4 * LOGSIZE]. *)
Definition initlog (dev : Z) : K unit :=
  if BSIZE <=? 4 + 4 * LOGSIZE then panic "initlog: too big logheader"
  else
    sb <- readsb dev;;
    upd_log (fun lg => lg <| lg_start := s32 (sb_logstart sb) |>
                          <| lg_size := s32 (sb_nlog sb) |> <| lg_dev := dev |>);;;
    recover_from_log.

(** The body of [begin_op] with [log.lock] held; a process that must wait
    sleeps and tries again in [begin_op_return]. *)
Definition begin_op_locked : K unit :=
  lg <- gets k_log;;
  if ctrue (lg_committing lg) then sleep C_log L_log
  else if LOGSIZE <? lg_n lg + (lg_outstanding lg + 1) * MAXOPBLOCKS
  then sleep C_log L_log
  else
    upd_log (fun lg => lg <| lg_outstanding ::= fun n => n + 1 |>);;;
    release L_log.
Definition begin_op : K unit := acquire L_log;;; begin_op_locked.
Definition begin_op_return : K unit := sleep_return L_log;;; begin_op_locked.

Definition write_log : K unit :=
  n <- gets (lg_n ∘ k_log);;
  forM (seq 0 (Z.to_nat n)) (fun tail =>
    lg <- gets k_log;;
    to <- bread (lg_dev lg) (lg_start lg + Z.of_nat tail + 1);;
    bno <- log_blockno tail;;
    from <- bread (lg_dev lg) bno;;
    l <- buf_data from;;
    set_buf_data to l;;;
    bwrite to;;;
    brelse from;;;
    brelse to).

Definition commit : K unit :=
  n <- gets (lg_n ∘ k_log);;
  whenM (0 <? n)
    (write_log;;;
     write_head;;;
     install_trans;;;
     upd_log (fun lg => lg <| lg_n := 0 |>);;;
     write_head).

Definition end_op : K unit :=
  acquire L_log;;;
  upd_log (fun lg => lg <| lg_outstanding ::= fun n => n - 1 |>);;;
  lg <- gets k_log;;
  if ctrue (lg_committing lg) then panic "log.committing"
  else
    (if lg_outstanding lg =? 0
     then upd_log (fun lg => lg <| lg_committing := 1 |>)
     else wakeup C_log);;;
    release L_log;;;
    whenM (lg_outstanding lg =? 0)
      (commit;;;
       acquire L_log;;;
       upd_log (fun lg => lg <| lg_committing := 0 |>);;;
       wakeup C_log;;;
       release L_log).

(** Index of block [bno] among the first [n] logged blocks, or [n]. *)
Definition log_slot (lg : log) (bno : Z) : nat :=
  default (Z.to_nat (lg_n lg))
    (find_index (fun x => x =? bno) (take (Z.to_nat (lg_n lg)) (lg_block lg))).

Definition log_write (b : nat) : K unit :=
  lg <- gets k_log;;
  if (LOGSIZE <=? lg_n lg) || (lg_size lg - 1 <=? lg_n lg)
  then panic "too big a transaction"
  else if lg_outstanding lg <? 1 then panic "log_write outside of trans"
  else
    acquire L_log;;;
    x <- get_buf b;;
    let i := log_slot lg (b_blockno x) in
    set_log_block i (b_blockno x);;;
    whenM (Z.of_nat i =? lg_n lg) (upd_log (fun lg => lg <| lg_n ::= fun n => n + 1 |>));;;
    upd_buf b (fun x => x <| b_flags ::= fun f => Z.lor f B_DIRTY |>);;;
    release L_log.

(** * Frame *)

#[export] Instance buf_data_keeps b : SysKeeps (buf_data b).
Proof. unfold buf_data. solve_keeps. Qed.
#[export] Instance set_buf_data_keeps b l : SysKeeps (set_buf_data b l).
Proof. unfold set_buf_data. solve_keeps. Qed.
#[export] Instance readsb_keeps d : SysKeeps (readsb d).
Proof. unfold readsb. solve_keeps. Qed.
#[export] Instance log_blockno_keeps i : SysKeeps (log_blockno i).
Proof. unfold log_blockno. solve_keeps. Qed.
#[export] Instance set_log_block_keeps i b : SysKeeps (set_log_block i b).
Proof. unfold set_log_block. solve_keeps. Qed.
#[export] Instance install_trans_keeps : SysKeeps install_trans.
Proof. unfold install_trans. solve_keeps. Qed.
#[export] Instance read_head_keeps : SysKeeps read_head.
Proof. unfold read_head. solve_keeps. Qed.
#[export] Instance write_head_keeps : SysKeeps write_head.
Proof. unfold write_head. solve_keeps. Qed.
#[export] Instance recover_from_log_keeps : SysKeeps recover_from_log.
Proof. unfold recover_from_log. solve_keeps. Qed.
#[export] Instance initlog_keeps d : SysKeeps (initlog d).
Proof. unfold initlog. solve_keeps. Qed.
#[export] Instance begin_op_locked_keeps : SysKeeps begin_op_locked.
Proof. unfold begin_op_locked. solve_keeps. Qed.
#[export] Instance begin_op_keeps : SysKeeps begin_op.
Proof. unfold begin_op. solve_keeps. Qed.
#[export] Instance write_log_keeps : SysKeeps write_log.
Proof. unfold write_log. solve_keeps. Qed.
#[export] Instance commit_keeps : SysKeeps commit.
Proof. unfold commit. solve_keeps. Qed.
#[export] Instance end_op_keeps : SysKeeps end_op.
Proof. unfold end_op. solve_keeps. Qed.
#[export] Instance log_write_keeps b : SysKeeps (log_write b).
Proof. unfold log_write. solve_keeps. Qed.
