(* ===== verification/Inode.v ===== *)
(** Blocks and inodes ([fs.c]: [bzero] to [stati]): the bitmap allocator of
    disk blocks, the on-disk inodes, the inode cache with its reference
    counts, and the map from file blocks to disk blocks. *)
From S2P Require Import Prelude Kstate Mem Cprintf Sched Sleeplock Bio Log.

(** * Blocks *)

Definition BBLOCK (b : Z) (sb : superblock) : Z := u32 (b / BPB + sb_bmapstart sb).
Definition IBLOCK (i : Z) (sb : superblock) : Z := u32 (i / IPB + sb_inodestart sb).

Definition bzero (dev bno : Z) : K unit :=
  b <- bread dev bno;;
  set_buf_data b zero_block;;;
  log_write b;;;
  brelse b.

(** Bit [bi] of a bitmap block: [data[bi/8] & (1 << (bi % 8))]. *)
Definition bit_mask (bi : Z) : Z := Z.shiftl 1 (bi mod 8).
Definition bit_set (l : list Z) (bi : Z) : bool :=
  ctrue (Z.land (byte_at l (bi / 8)) (bit_mask bi)).
Definition mark_bit (l : list Z) (bi : Z) : list Z :=
  <[Z.to_nat (bi / 8) := Z.lor (byte_at l (bi / 8)) (bit_mask bi)]> l.
Definition clear_bit (l : list Z) (bi : Z) : list Z :=
  <[Z.to_nat (bi / 8) := Z.land (byte_at l (bi / 8)) (Z.lnot (bit_mask bi))]> l.

(** The inner loop of [balloc]: the first clear bit of a bitmap block among
    the [n] first ones. *)
Definition free_bit (l : list Z) (n : nat) : option nat :=
  find_index (fun bi => negb (bit_set l (Z.of_nat bi))) (seq 0 n).

Definition balloc (dev : Z) : K Z :=
  sb <- gets k_sb;;
  loop (Z.to_nat (sb_size sb / BPB) + 2)
    (fun b =>
       if b <? sb_size sb then
         bp <- bread dev (BBLOCK b sb);;
         l <- buf_data bp;;
         match free_bit l (Z.to_nat (Z.min BPB (sb_size sb - b))) with
         | Some bi =>
             set_buf_data bp (mark_bit l (Z.of_nat bi));;;
             log_write bp;;;
             brelse bp;;;
             bzero dev (b + Z.of_nat bi);;;
             ret (inr (b + Z.of_nat bi))
         | None => brelse bp;;; ret (inl (b + BPB))
         end
       else panic "balloc: out of blocks") 0.

Definition bfree (dev b : Z) : K unit :=
  sb <- gets k_sb;;
  bp <- bread dev (BBLOCK b sb);;
  let bi := b mod BPB in
  l <- buf_data bp;;
  if negb (bit_set l bi) then panic "freeing free block"
  else
    set_buf_data bp (clear_bit l bi);;;
    log_write bp;;;
    brelse bp.

(** * On-disk inodes *)

(** The [dinode] at byte [o] of a block. *)
Definition decode_dinode (l : list Z) (o : Z) : dinode :=
  mkDinode (s16 (get16 l o)) (s16 (get16 l (o + 2))) (s16 (get16 l (o + 4)))
    (s16 (get16 l (o + 6))) (get32 l (o + 8))
    ((fun k => get32 l (o + 12 + 4 * Z.of_nat k)) <$> seq 0 (Z.to_nat (NDIRECT + 1))).
Definition encode_dinode (d : dinode) : list Z :=
  le16 (d_type d) ++ le16 (d_major d) ++ le16 (d_minor d) ++ le16 (d_nlink d)
  ++ le32 (d_size d) ++ mjoin (le32 <$> d_addrs d).
Definition dinode_off (inum : Z) : Z := (inum mod IPB) * sizeof_dinode.
Definition dinode_zero : dinode := mkDinode 0 0 0 0 0 (replicate (Z.to_nat (NDIRECT + 1)) 0).

(** * The inode cache *)

Definition iinit (dev : Z) : K unit :=
  forM (seq 0 NINODE) (fun i => initsleeplock (SL_inode i));;;
  sb <- readsb dev;;
  modify (fun s => s <| k_sb := sb |>);;;
  cprintf ("sb: size %d nblocks %d ninodes %d nlog %d logstart %d" +:+
           " inodestart %d bmap start %d" +:+ nl)
    (A_int <$> [sb_size sb; sb_nblocks sb; sb_ninodes sb; sb_nlog sb;
                sb_logstart sb; sb_inodestart sb; sb_bmapstart sb]).

Definition inode_cached (dev inum : Z) (ip : inode) : bool :=
  (0 <? i_ref ip) && (i_dev ip =? dev) && (i_inum ip =? inum).

(** One pass finds the entry of the inode, and remembers the first free one. *)
Definition iget (dev inum : Z) : K nat :=
  acquire L_icache;;;
  c <- gets k_icache;;
  match find_index (inode_cached dev inum) c with
  | Some i =>
      upd_inode i (fun ip => ip <| i_ref ::= fun n => n + 1 |>);;;
      release L_icache;;;
      ret i
  | None =>
      match find_index (fun ip => i_ref ip =? 0) c with
      | None => panic "iget: no inodes"
      | Some i =>
          upd_inode i (fun ip => ip <| i_dev := dev |> <| i_inum := inum |>
                                   <| i_ref := 1 |> <| i_valid := 0 |>);;;
          release L_icache;;;
          ret i
      end
  end.

Definition ialloc (dev type : Z) : K nat :=
  sb <- gets k_sb;;
  r <- scan (seq 1 (Z.to_nat (sb_ninodes sb) - 1)) (fun inum =>
    let inum := Z.of_nat inum in
    bp <- bread dev (IBLOCK inum sb);;
    l <- buf_data bp;;
    if d_type (decode_dinode l (dinode_off inum)) =? 0 then
      set_buf_data bp
        (splice l (dinode_off inum) (encode_dinode (dinode_zero <| d_type := type |>)));;;
      log_write bp;;;
      brelse bp;;;
      i <- iget dev inum;;
      ret (Return i)
    else brelse bp;;; ret Continue);;
  match r with
  | Some i => ret i
  | None => panic "ialloc: no inodes"
  end.

Definition dinode_of (ip : inode) : dinode :=
  mkDinode (i_type ip) (i_major ip) (i_minor ip) (i_nlink ip) (i_size ip) (i_addrs ip).

Definition iupdate (i : nat) : K unit :=
  ip <- get_inode i;;
  sb <- gets k_sb;;
  bp <- bread (i_dev ip) (IBLOCK (i_inum ip) sb);;
  l <- buf_data bp;;
  set_buf_data bp (splice l (dinode_off (i_inum ip)) (encode_dinode (dinode_of ip)));;;
  log_write bp;;;
  brelse bp.

Definition idup (i : option nat) : K (option nat) :=
  acquire L_icache;;;
  i <- deref i;;
  get_inode i;;;
  upd_inode i (fun ip => ip <| i_ref ::= fun n => n + 1 |>);;;
  release L_icache;;;
  ret (Some i).

Definition load_inode (d : dinode) (ip : inode) : inode :=
  ip <| i_type := d_type d |> <| i_major := d_major d |> <| i_minor := d_minor d |>
     <| i_nlink := d_nlink d |> <| i_size := d_size d |> <| i_addrs := d_addrs d |>.

Definition ilock (i : option nat) : K unit :=
  match i with
  | None => panic "ilock"
  | Some i =>
      ip <- get_inode i;;
      if i_ref ip <? 1 then panic "ilock"
      else
        acquiresleep (SL_inode i);;;
        ip <- get_inode i;;
        whenM (i_valid ip =? 0)
          (sb <- gets k_sb;;
           bp <- bread (i_dev ip) (IBLOCK (i_inum ip) sb);;
           l <- buf_data bp;;
           upd_inode i (load_inode (decode_dinode l (dinode_off (i_inum ip))));;;
           brelse bp;;;
           upd_inode i (fun ip => ip <| i_valid := 1 |>);;;
           ip <- get_inode i;;
           if i_type ip =? 0 then panic "ilock: no type" else ret tt)
  end.

Definition iunlock (i : option nat) : K unit :=
  match i with
  | None => panic "iunlock"
  | Some i =>
      h <- holdingsleep (SL_inode i);;
      ip <- get_inode i;;
      if negb h || (i_ref ip <? 1) then panic "iunlock"
      else releasesleep (SL_inode i)
  end.

(** * Inode content *)

Definition addr_at (ip : inode) (n : Z) : Z := default 0 (i_addrs ip !! Z.to_nat n).
Definition set_addr (i : nat) (n addr : Z) : K unit :=
  upd_inode i (fun ip => ip <| i_addrs ::= <[Z.to_nat n := addr]> |>).

Definition bmap (i : nat) (bn : Z) : K Z :=
  ip <- get_inode i;;
  if bn <? NDIRECT then
    let addr := addr_at ip bn in
    if addr =? 0 then
      addr <- balloc (i_dev ip);; set_addr i bn addr;;; ret addr
    else ret addr
  else
    let bn := bn - NDIRECT in
    if bn <? NINDIRECT then
      addr <- (let addr := addr_at ip NDIRECT in
               if addr =? 0 then
                 addr <- balloc (i_dev ip);; set_addr i NDIRECT addr;;; ret addr
               else ret addr);;
      bp <- bread (i_dev ip) addr;;
      l <- buf_data bp;;
      let addr := get32 l (4 * bn) in
      addr <- (if addr =? 0 then
                 addr <- balloc (i_dev ip);;
                 l <- buf_data bp;;
                 set_buf_data bp (splice l (4 * bn) (le32 addr));;;
                 log_write bp;;;
                 ret addr
               else ret addr);;
      brelse bp;;;
      ret addr
    else panic "bmap: out of range".

Definition itrunc (i : nat) : K unit :=
  forM (seq 0 (Z.to_nat NDIRECT)) (fun k =>
    ip <- get_inode i;;
    let a := addr_at ip (Z.of_nat k) in
    whenM (ctrue a) (bfree (i_dev ip) a;;; set_addr i (Z.of_nat k) 0));;;
  ip <- get_inode i;;
  let ind := addr_at ip NDIRECT in
  whenM (ctrue ind)
    (bp <- bread (i_dev ip) ind;;
     forM (seq 0 (Z.to_nat NINDIRECT)) (fun j =>
       l <- buf_data bp;;
       let a := get32 l (4 * Z.of_nat j) in
       whenM (ctrue a) (bfree (i_dev ip) a));;;
     brelse bp;;;
     bfree (i_dev ip) ind;;;
     set_addr i NDIRECT 0);;;
  upd_inode i (fun ip => ip <| i_size := 0 |>);;;
  iupdate i.

Definition iput (i : option nat) : K unit :=
  i <- deref i;;
  acquiresleep (SL_inode i);;;
  ip <- get_inode i;;
  whenM (ctrue (i_valid ip) && (i_nlink ip =? 0))
    (acquire L_icache;;;
     ip <- get_inode i;;
     let r := i_ref ip in
     release L_icache;;;
     whenM (r =? 1)
       (itrunc i;;;
        upd_inode i (fun ip => ip <| i_type := 0 |>);;;
        iupdate i;;;
        upd_inode i (fun ip => ip <| i_valid := 0 |>)));;;
  releasesleep (SL_inode i);;;
  acquire L_icache;;;
  upd_inode i (fun ip => ip <| i_ref ::= fun n => n - 1 |>);;;
  release L_icache.

Definition iunlockput (i : option nat) : K unit := iunlock i;;; iput i.

(** stat.h: [struct stat] *)
Record stat : Type := mkStat {
  st_type : Z;
  st_dev : Z;
  st_ino : Z;
  st_nlink : Z;
  st_size : Z;
}.
Definition stati (i : nat) : K stat :=
  ip <- get_inode i;;
  ret (mkStat (i_type ip) (i_dev ip) (i_inum ip) (i_nlink ip) (i_size ip)).

(** * Frame *)

#[export] Instance bzero_keeps d b : SysKeeps (bzero d b).
Proof. unfold bzero. solve_keeps. Qed.
#[export] Instance balloc_keeps d : SysKeeps (balloc d).
Proof. unfold balloc. solve_keeps. Qed.
#[export] Instance bfree_keeps d b : SysKeeps (bfree d b).
Proof. unfold bfree. solve_keeps. Qed.
#[export] Instance iinit_keeps d : SysKeeps (iinit d).
Proof. unfold iinit. solve_keeps. Qed.
#[export] Instance iget_keeps d n : SysKeeps (iget d n).
Proof. unfold iget. solve_keeps. Qed.
#[export] Instance ialloc_keeps d t : SysKeeps (ialloc d t).
Proof. unfold ialloc. solve_keeps. Qed.
#[export] Instance iupdate_keeps i : SysKeeps (iupdate i).
Proof. unfold iupdate. solve_keeps. Qed.
#[export] Instance idup_keeps i : SysKeeps (idup i).
Proof. unfold idup. solve_keeps. Qed.
#[export] Instance ilock_keeps i : SysKeeps (ilock i).
Proof. unfold ilock. solve_keeps. Qed.
#[export] Instance iunlock_keeps i : SysKeeps (iunlock i).
Proof. unfold iunlock. solve_keeps. Qed.
#[export] Instance set_addr_keeps i n a : SysKeeps (set_addr i n a).
Proof. unfold set_addr. solve_keeps. Qed.
#[export] Instance bmap_keeps i b : SysKeeps (bmap i b).
Proof. unfold bmap. solve_keeps. Qed.
#[export] Instance itrunc_keeps i : SysKeeps (itrunc i).
Proof. unfold itrunc. solve_keeps. Qed.
#[export] Instance iput_keeps i : SysKeeps (iput i).
Proof. unfold iput. solve_keeps. Qed.
#[export] Instance iunlockput_keeps i : SysKeeps (iunlockput i).
Proof. unfold iunlockput. solve_keeps. Qed.
#[export] Instance stati_keeps i : SysKeeps (stati i).
Proof. unfold stati. solve_keeps. Qed.
