(* ===== verification/Console.v ===== *)
(** The console ([console.c] from [cgaputc] on): the text screen, the
    line-edited input buffer, and the device routines behind [devsw]. *)
From S2P Require Import Prelude Kstate Mem Cprintf Sched Sleeplock Bio Log Inode.

Definition BACKSPACE : Z := 0x100.

(** * The screen *)

(** 25 rows of 80 cells of CGA memory and the cursor of the controller. *)
Record screen : Type := mkScreen { crt : list Z; pos : Z }.

Definition cgaputc (c : Z) (sc : screen) : option screen :=
  let '(mkScreen crt pos) := sc in
  let '(crt, pos) :=
    if c =? 10 then (crt, pos + (80 - pos mod 80))
    else if c =? BACKSPACE then (crt, if 0 <? pos then pos - 1 else pos)
    else (<[Z.to_nat pos := Z.lor (Z.land c 0xff) 0x0700]> crt, pos + 1) in
  if (pos <? 0) || (25 * 80 <? pos) then None (* pos under/overflow *)
  else
    let '(crt, pos) :=
      if 24 <=? pos / 80 then
        let crt := take (23 * 80) (drop 80 crt) ++ drop (23 * 80) crt in
        let pos := pos - 80 in
        (splice crt pos (replicate (Z.to_nat (24 * 80 - pos)) 0), pos)
      else (crt, pos) in
    Some (mkScreen (<[Z.to_nat pos := Z.lor 32 0x0700]> crt) pos).

(** [consputc] sends the character to the serial port and to the screen. *)
Definition uart_bytes (c : Z) : list Z := if c =? BACKSPACE then [8; 32; 8] else [c].

(** * Input *)

Definition C_key (x : Z) : Z := x - 64. (* C(x): Control-x *)
Definition upd_input (f : input -> input) : K unit :=
  modify (fun s => s <| k_input ::= f |>).
Definition in_at (inp : input) (i : Z) : Z :=
  default 0 (in_buf inp !! Z.to_nat (u32 i mod INPUT_BUF)).

(** Control-U: erase back to the end of the previous line. *)
Definition kill_line : K unit :=
  inp <- gets k_input;;
  loop (Z.to_nat (u32 (in_e inp - in_w inp)) + 1)
    (fun _ =>
       inp <- gets k_input;;
       if negb (in_e inp =? in_w inp) && negb (in_at inp (in_e inp - 1) =? 10) then
         upd_input (fun i => i <| in_e ::= fun e => u32 (e - 1) |>);;;
         emit [BACKSPACE];;;
         ret (inl tt)
       else ret (inr tt)) tt.

(** One turn of the loop of [consoleintr] for the character [c]; the result
    says whether a process listing was asked for. *)
Definition consoleintr_char (c : Z) : K bool :=
  if c =? C_key 80 (* P *) then ret true
  else if c =? C_key 85 (* U *) then kill_line;;; ret false
  else if (c =? C_key 72) (* H *) || (c =? 0x7f) then
    inp <- gets k_input;;
    whenM (negb (in_e inp =? in_w inp))
      (upd_input (fun i => i <| in_e ::= fun e => u32 (e - 1) |>);;;
       emit [BACKSPACE]);;;
    ret false
  else
    inp <- gets k_input;;
    whenM (ctrue c && (u32 (in_e inp - in_r inp) <? INPUT_BUF))
      (let c := if c =? 13 then 10 else c in
       upd_input (fun i => i <| in_buf ::= <[Z.to_nat (in_e i mod INPUT_BUF) := c]> |>
                             <| in_e ::= fun e => u32 (e + 1) |>);;;
       emit [c];;;
       inp <- gets k_input;;
       whenM ((c =? 10) || (c =? C_key 68) (* D *)
              || (in_e inp =? u32 (in_r inp + INPUT_BUF)))
         (upd_input (fun i => i <| in_w := in_e i |>);;; wakeup C_input));;;
    ret false.

(** [cs] are the characters [getc] returns before it returns -1.  The
    process listing itself is left to the caller. *)
Fixpoint consoleintr_loop (cs : list Z) (doprocdump : bool) : K bool :=
  match cs with
  | [] => ret doprocdump
  | c :: cs => d <- consoleintr_char c;; consoleintr_loop cs (doprocdump || d)
  end.
Definition consoleintr (cs : list Z) : K bool :=
  acquire L_cons;;;
  d <- consoleintr_loop cs false;;
  release L_cons;;;
  ret d.

(** * The device routines *)

(** The loop of [consoleread] with [cons.lock] held: [n] characters are still
    wanted and [dst] were read.  When no line is ready the process sleeps,
    and goes on in [consoleread_return] with the same locals. *)
Definition consoleread_locked (ip : option nat) (target n : Z) (dst : list Z)
    : K (Z * list Z) :=
  loop (Z.to_nat n + 1)
    (fun '(n, dst) =>
       let done n dst := release L_cons;;; ilock ip;;; ret (inr (target - n, dst)) in
       if 0 <? n then
         inp <- gets k_input;;
         if in_r inp =? in_w inp then
           i <- myproc;;
           p <- get_proc i;;
           if ctrue (p_killed p) then
             release L_cons;;; ilock ip;;; ret (inr (-1, dst))
           else sleep C_input L_cons
         else
           let c := in_at inp (in_r inp) in
           upd_input (fun i => i <| in_r ::= fun r => u32 (r + 1) |>);;;
           if c =? C_key 68 then
             whenM (n <? target)
               (upd_input (fun i => i <| in_r ::= fun r => u32 (r - 1) |>));;;
             done n dst
           else if c =? 10 then done (n - 1) (dst ++ [c])
           else ret (inl (n - 1, dst ++ [c]))
       else done n dst) (n, dst).
Definition consoleread (ip : option nat) (n : Z) : K (Z * list Z) :=
  iunlock ip;;; acquire L_cons;;; consoleread_locked ip n n [].
Definition consoleread_return (ip : option nat) (target n : Z) (dst : list Z)
    : K (Z * list Z) :=
  sleep_return L_cons;;; consoleread_locked ip target n dst.

Definition consolewrite (ip : option nat) (buf : list Z) : K Z :=
  iunlock ip;;;
  acquire L_cons;;;
  forM buf (fun c => emit [Z.land c 0xff]);;;
  release L_cons;;;
  ilock ip;;;
  ret (Z.of_nat (length buf)).

Definition consoleinit : K unit :=
  modify (fun s => s <| k_devsw ::= <[Z.to_nat CONSOLE := Some Dev_console]> |>).

(** * Frame *)

#[export] Instance upd_input_keeps f : SysKeeps (upd_input f).
Proof. unfold upd_input. solve_keeps. Qed.
#[export] Instance kill_line_keeps : SysKeeps kill_line.
Proof. unfold kill_line. solve_keeps. Qed.
#[export] Instance consoleintr_char_keeps c : SysKeeps (consoleintr_char c).
Proof. unfold consoleintr_char. solve_keeps. Qed.
#[export] Instance consoleintr_loop_keeps cs b : SysKeeps (consoleintr_loop cs b).
Proof. revert b. induction cs; intros b; simpl; solve_keeps. Qed.
#[export] Instance consoleintr_keeps cs : SysKeeps (consoleintr cs).
Proof. unfold consoleintr. solve_keeps. Qed.
#[export] Instance consoleread_locked_keeps i t n d : SysKeeps (consoleread_locked i t n d).
Proof. unfold consoleread_locked. solve_keeps. Qed.
#[export] Instance consoleread_keeps i n : SysKeeps (consoleread i n).
Proof. unfold consoleread. solve_keeps. Qed.
#[export] Instance consolewrite_keeps i b : SysKeeps (consolewrite i b).
Proof. unfold consolewrite. solve_keeps. Qed.
