(* ===== verification/Dir.v ===== *)
(** File contents, directories and path names ([fs.c] from [readi] on).

    A read returns the bytes it copies to its destination, and the caller
    stores them; a write takes the bytes.  A path is the list of its
    characters before the terminating zero. *)
From S2P Require Import Prelude Kstate Mem Cprintf Sched Sleeplock Bio Log Inode Console.

(** * Reading and writing inodes *)

Definition dev_of (ip : inode) : K (option device) :=
  if (i_major ip <? 0) || (NDEV <=? i_major ip) then ret None
  else d <- gets k_devsw;; ret (mjoin (d !! Z.to_nat (i_major ip))).

(** The loops of [readi] and [writei] take at most one turn per block the
    range [off, off + n) touches. *)
Definition io_fuel (n : Z) : nat := Z.to_nat (n / BSIZE) + 3.

Definition readi (i : nat) (off n : Z) : K (Z * list Z) :=
  ip <- get_inode i;;
  if i_type ip =? T_DEV then
    d <- dev_of ip;;
    match d with
    | None => ret (-1, [])
    | Some Dev_console => consoleread (Some i) (s32 n)
    end
  else if (i_size ip <? off) || (u32 (off + n) <? off) then ret (-1, [])
  else
    let n := if i_size ip <? u32 (off + n) then u32 (i_size ip - off) else n in
    loop (io_fuel n)
      (fun '(tot, off, dst) =>
         if tot <? n then
           bno <- bmap i (off / BSIZE);;
           bp <- bread (i_dev ip) bno;;
           let m := Z.min (n - tot) (BSIZE - off mod BSIZE) in
           l <- buf_data bp;;
           brelse bp;;;
           ret (inl (tot + m, off + m, dst ++ slice l (off mod BSIZE) m))
         else ret (inr (s32 n, dst))) (0, off, []).

(** [src] holds the [n] bytes to write. *)
Definition writei (i : nat) (src : list Z) (off : Z) : K Z :=
  let n := Z.of_nat (length src) in
  ip <- get_inode i;;
  if i_type ip =? T_DEV then
    d <- dev_of ip;;
    match d with
    | None => ret (-1)
    | Some Dev_console => consolewrite (Some i) src
    end
  else if (i_size ip <? off) || (u32 (off + n) <? off) then ret (-1)
  else if MAXFILE * BSIZE <? u32 (off + n) then ret (-1)
  else
    off' <- loop (io_fuel n)
      (fun '(tot, off) =>
         if tot <? n then
           bno <- bmap i (off / BSIZE);;
           bp <- bread (i_dev ip) bno;;
           let m := Z.min (n - tot) (BSIZE - off mod BSIZE) in
           l <- buf_data bp;;
           set_buf_data bp (splice l (off mod BSIZE) (slice src tot m));;;
           log_write bp;;;
           brelse bp;;;
           ret (inl (tot + m, off + m))
         else ret (inr off)) (0, off);;
    ip <- get_inode i;;
    whenM ((0 <? n) && (i_size ip <? off'))
      (upd_inode i (fun ip => ip <| i_size := off' |>);;; iupdate i);;;
    ret n.

(** * Directories *)

Definition namecmp (s t : list Z) : K Z := deref (strncmp s t (Z.to_nat DIRSIZ)).

Definition decode_dirent (l : list Z) : dirent := mkDirent (get16 l 0) (slice l 2 DIRSIZ).
Definition encode_dirent (d : dirent) : list Z := le16 (de_inum d) ++ de_name d.

(** Reads the entry at [off]; a short read is a panic with message [msg]. *)
Definition read_dirent (msg : string) (dp : nat) (off : Z) : K dirent :=
  '(r, l) <- readi dp off sizeof_dirent;;
  if negb (r =? sizeof_dirent) then panic msg else ret (decode_dirent l).

Definition dir_fuel (size : Z) : nat := Z.to_nat (size / sizeof_dirent) + 2.

(** The inode of the entry with its byte offset. *)
Definition dirlookup (dp : nat) (name : list Z) : K (option (nat * Z)) :=
  d <- get_inode dp;;
  if negb (i_type d =? T_DIR) then panic "dirlookup not DIR"
  else
    loop (dir_fuel (i_size d))
      (fun off =>
         if off <? i_size d then
           de <- read_dirent "dirlookup read" dp off;;
           if de_inum de =? 0 then ret (inl (off + sizeof_dirent))
           else
             c <- namecmp name (de_name de);;
             if c =? 0 then
               ip <- iget (i_dev d) (de_inum de);; ret (inr (Some (ip, off)))
             else ret (inl (off + sizeof_dirent))
         else ret (inr None)) 0.

Definition dirlink (dp : nat) (name : list Z) (inum : Z) : K Z :=
  r <- dirlookup dp name;;
  match r with
  | Some (ip, _) => iput (Some ip);;; ret (-1)
  | None =>
      d <- get_inode dp;;
      '(off, de) <- loop (dir_fuel (i_size d))
        (fun '(off, de) =>
           if off <? i_size d then
             de <- read_dirent "dirlink read" dp off;;
             if de_inum de =? 0 then ret (inr (off, de))
             else ret (inl (off + sizeof_dirent, de))
           else ret (inr (off, de))) (0, mkDirent 0 (replicate (Z.to_nat DIRSIZ) 0));;
      nm <- deref (strncpy (de_name de) name DIRSIZ);;
      r <- writei dp (encode_dirent (mkDirent (u16 inum) nm)) off;;
      if negb (r =? sizeof_dirent) then panic "dirlink" else ret 0
  end.

(** * Paths *)

Definition slash : Z := 47.

Fixpoint skip_slashes (path : list Z) : list Z :=
  match path with
  | c :: path' => if c =? slash then skip_slashes path' else path
  | [] => []
  end.

(** The characters up to the next slash, and what follows them. *)
Fixpoint span_elem (path : list Z) : list Z * list Z :=
  match path with
  | c :: path' =>
      if c =? slash then ([], path)
      else let '(e, rest) := span_elem path' in (c :: e, rest)
  | [] => ([], [])
  end.

(** [memmove] of the element into the array [name] of [DIRSIZ] bytes: a short
    element is terminated and leaves the bytes after its zero alone. *)
Definition store_elem (e name : list Z) : list Z :=
  let len := Z.of_nat (length e) in
  if DIRSIZ <=? len then take (Z.to_nat DIRSIZ) e
  else e ++ 0 :: drop (S (length e)) name.

Definition skipelem (path name : list Z) : option (list Z * list Z) :=
  match skip_slashes path with
  | [] => None
  | path =>
      let '(e, rest) := span_elem path in
      Some (skip_slashes rest, store_elem e name)
  end.

(** The inode, or [None] for a null result, and the array [name]. *)
Definition namex (path : list Z) (nameiparent : bool) (name : list Z)
    : K (option nat * list Z) :=
  ip <- (match path with
         | c :: _ => if c =? slash then i <- iget ROOTDEV ROOTINO;; ret (Some i)
                     else j <- myproc;; p <- get_proc j;; idup (p_cwd p)
         | [] => j <- myproc;; p <- get_proc j;; idup (p_cwd p)
         end);;
  loop (length path + 1)
    (fun '(ip, path, name) =>
       match skipelem path name with
       | None =>
           if nameiparent then iput ip;;; ret (inr (None, name))
           else ret (inr (ip, name))
       | Some (path, name) =>
           ilock ip;;;
           i <- deref ip;;
           d <- get_inode i;;
           if negb (i_type d =? T_DIR) then
             iunlockput ip;;; ret (inr (None, name))
           else if nameiparent && bool_decide (path = []) then
             iunlock ip;;; ret (inr (ip, name))
           else
             next <- dirlookup i name;;
             match next with
             | None => iunlockput ip;;; ret (inr (None, name))
             | Some (next, _) => iunlockput ip;;; ret (inl (Some next, path, name))
             end
       end) (ip, path, name).

Definition name_init : list Z := replicate (Z.to_nat DIRSIZ) 0.

Definition namei (path : list Z) : K (option nat) :=
  '(ip, _) <- namex path false name_init;; ret ip.
Definition nameiparent (path : list Z) : K (option nat * list Z) :=
  namex path true name_init.

(** * Frame *)

#[export] Instance dev_of_keeps i : SysKeeps (dev_of i).
Proof. unfold dev_of. solve_keeps. Qed.
#[export] Instance readi_keeps i o n : SysKeeps (readi i o n).
Proof. unfold readi. solve_keeps. Qed.
#[export] Instance writei_keeps i s o : SysKeeps (writei i s o).
Proof. unfold writei. solve_keeps. Qed.
#[export] Instance namecmp_keeps s t : SysKeeps (namecmp s t).
Proof. unfold namecmp. solve_keeps. Qed.
#[export] Instance read_dirent_keeps m d o : SysKeeps (read_dirent m d o).
Proof. unfold read_dirent. solve_keeps. Qed.
#[export] Instance dirlookup_keeps d n : SysKeeps (dirlookup d n).
Proof. unfold dirlookup. solve_keeps. Qed.
#[export] Instance dirlink_keeps d n i : SysKeeps (dirlink d n i).
Proof. unfold dirlink. solve_keeps. Qed.
#[export] Instance namex_keeps p b n : SysKeeps (namex p b n).
Proof. unfold namex. solve_keeps. Qed.
#[export] Instance namei_keeps p : SysKeeps (namei p).
Proof. unfold namei. solve_keeps. Qed.
#[export] Instance nameiparent_keeps p : SysKeeps (nameiparent p).
Proof. unfold nameiparent. solve_keeps. Qed.
