(* ===== verification/Pipe.v ===== *)
(** Pipes ([pipe.c]).  The [struct pipe] at the start of a page is the entry
    of that page's address in [k_pipes]. *)
From S2P Require Import Prelude Kstate Mem Kalloc Sched.

(** * The ring buffer *)

(** [p->data[p->nwrite++ % PIPESIZE] = c] and the read at the other end. *)
Definition pipe_put (c : Z) (p : pipe) : pipe :=
  p <| pi_data ::= <[Z.to_nat (pi_nwrite p mod PIPESIZE) := c]> |>
    <| pi_nwrite := u32 (pi_nwrite p + 1) |>.
Definition pipe_get (p : pipe) : Z * pipe :=
  (default 0 (pi_data p !! Z.to_nat (pi_nread p mod PIPESIZE)),
   p <| pi_nread := u32 (pi_nread p + 1) |>).
Definition pipe_full (p : pipe) : bool := pi_nwrite p =? u32 (pi_nread p + PIPESIZE).
Definition pipe_empty (p : pipe) : bool := pi_nread p =? pi_nwrite p.

(** * The operations *)

Definition get_pipe (a : Z) : K pipe := ps <- gets k_pipes;; deref (ps !! a).
Definition upd_pipe (a : Z) (f : pipe -> pipe) : K unit :=
  modify (fun s => s <| k_pipes ::= alter f a |>).

Definition my_killed : K bool :=
  i <- myproc;; p <- get_proc i;; ret (ctrue (p_killed p)).

Section Pipe.
Context `{KL : KernelLayout}.

Definition pipeclose (a writable : Z) : K unit :=
  acquire (L_pipe a);;;
  get_pipe a;;;
  (if ctrue writable then
     upd_pipe a (fun p => p <| pi_writeopen := 0 |>);;; wakeup (C_nread a)
   else
     upd_pipe a (fun p => p <| pi_readopen := 0 |>);;; wakeup (C_nwrite a));;;
  p <- get_pipe a;;
  if (pi_readopen p =? 0) && (pi_writeopen p =? 0) then
    release (L_pipe a);;;
    modify (fun s => s <| k_pipes ::= delete a |>);;;
    kfree a
  else release (L_pipe a).

(** The loop of [pipewrite] with [p->lock] held, the bytes [addr] being still
    to write out of [n].  A writer that finds the pipe full sleeps, and goes
    on in [pipewrite_return] with the bytes that are left. *)
Fixpoint pipewrite_locked (a n : Z) (addr : list Z) : K Z :=
  match addr with
  | [] => wakeup (C_nread a);;; release (L_pipe a);;; ret n
  | c :: rest =>
      p <- get_pipe a;;
      if pipe_full p then
        k <- my_killed;;
        if (pi_readopen p =? 0) || k then release (L_pipe a);;; ret (-1)
        else wakeup (C_nread a);;; sleep (C_nwrite a) (L_pipe a)
      else upd_pipe a (pipe_put c);;; pipewrite_locked a n rest
  end.
Definition pipewrite (a : Z) (addr : list Z) : K Z :=
  acquire (L_pipe a);;; pipewrite_locked a (Z.of_nat (length addr)) addr.
Definition pipewrite_return (a n : Z) (rest : list Z) : K Z :=
  sleep_return (L_pipe a);;; pipewrite_locked a n rest.

(** The copy loop of [piperead]: at most [n] bytes. *)
Fixpoint piperead_copy (a : Z) (n : nat) : K (list Z) :=
  match n with
  | O => ret []
  | S n =>
      p <- get_pipe a;;
      if pipe_empty p then ret []
      else
        let '(c, p') := pipe_get p in
        upd_pipe a (fun _ => p');;;
        l <- piperead_copy a n;;
        ret (c :: l)
  end.

(** The bytes read are returned beside the count. *)
Definition piperead_locked (a n : Z) : K (Z * list Z) :=
  p <- get_pipe a;;
  if pipe_empty p && ctrue (pi_writeopen p) then
    k <- my_killed;;
    if (k : bool) then release (L_pipe a);;; ret (-1, [])
    else sleep (C_nread a) (L_pipe a)
  else
    l <- piperead_copy a (Z.to_nat n);;
    wakeup (C_nwrite a);;;
    release (L_pipe a);;;
    ret (Z.of_nat (length l), l).
Definition piperead (a n : Z) : K (Z * list Z) :=
  acquire (L_pipe a);;; piperead_locked a n.
Definition piperead_return (a n : Z) : K (Z * list Z) :=
  sleep_return (L_pipe a);;; piperead_locked a n.

(** * Frame *)

#[export] Instance get_pipe_keeps a : SysKeeps (get_pipe a).
Proof. unfold get_pipe. solve_keeps. Qed.
#[export] Instance upd_pipe_keeps a f : SysKeeps (upd_pipe a f).
Proof. unfold upd_pipe. solve_keeps. Qed.
#[export] Instance my_killed_keeps : SysKeeps my_killed.
Proof. unfold my_killed. solve_keeps. Qed.
#[export] Instance pipeclose_keeps a w : SysKeeps (pipeclose a w).
Proof. unfold pipeclose. solve_keeps. Qed.
#[export] Instance pipewrite_locked_keeps a n l : SysKeeps (pipewrite_locked a n l).
Proof. induction l; simpl; solve_keeps. Qed.
#[export] Instance pipewrite_keeps a l : SysKeeps (pipewrite a l).
Proof. unfold pipewrite. solve_keeps. Qed.
#[export] Instance piperead_copy_keeps a n : SysKeeps (piperead_copy a n).
Proof. induction n; simpl; solve_keeps. Qed.
#[export] Instance piperead_locked_keeps a n : SysKeeps (piperead_locked a n).
Proof. unfold piperead_locked. solve_keeps. Qed.
#[export] Instance piperead_keeps a n : SysKeeps (piperead a n).
Proof. unfold piperead. solve_keeps. Qed.

End Pipe.
