(* ===== verification/File.v ===== *)
(** Open files ([file.c]) and the creation of pipes ([pipe.c]: [pipealloc]). *)
From S2P Require Import Prelude Kstate Mem Cprintf Kalloc Sched Sleeplock Bio Log Inode.
From S2P Require Import Console Dir Pipe.

Section File.
Context `{KL : KernelLayout}.

Definition filealloc : K (option nat) :=
  acquire L_ftable;;;
  t <- gets k_ftable;;
  match find_index (fun f => f_ref f =? 0) t with
  | Some i =>
      upd_file i (fun f => f <| f_ref := 1 |>);;;
      release L_ftable;;;
      ret (Some i)
  | None => release L_ftable;;; ret None
  end.

Definition filedup (i : nat) : K nat :=
  acquire L_ftable;;;
  f <- get_file i;;
  if f_ref f <? 1 then panic "filedup"
  else
    upd_file i (fun f => f <| f_ref ::= fun n => n + 1 |>);;;
    release L_ftable;;;
    ret i.

Definition fileclose (i : nat) : K unit :=
  acquire L_ftable;;;
  f <- get_file i;;
  if f_ref f <? 1 then panic "fileclose"
  else
    upd_file i (fun f => f <| f_ref ::= fun n => n - 1 |>);;;
    if 0 <? f_ref f - 1 then release L_ftable
    else
      ff <- get_file i;;
      upd_file i (fun f => f <| f_ref := 0 |> <| f_type := FD_NONE |>);;;
      release L_ftable;;;
      match f_type ff with
      | FD_PIPE => pipeclose (f_pipe ff) (f_writable ff)
      | FD_INODE => begin_op;;; iput (f_ip ff);;; end_op
      | FD_NONE => ret tt
      end.

Definition filestat (i : nat) : K (option stat) :=
  f <- get_file i;;
  match f_type f with
  | FD_INODE =>
      ilock (f_ip f);;;
      ip <- deref (f_ip f);;
      st <- stati ip;;
      iunlock (f_ip f);;;
      ret (Some st)
  | _ => ret None
  end.

Definition fileread (i : nat) (n : Z) : K (Z * list Z) :=
  f <- get_file i;;
  if f_readable f =? 0 then ret (-1, [])
  else
    match f_type f with
    | FD_PIPE => piperead (f_pipe f) n
    | FD_INODE =>
        ilock (f_ip f);;;
        ip <- deref (f_ip f);;
        '(r, l) <- readi ip (f_off f) (u32 n);;
        whenM (0 <? r) (upd_file i (fun f => f <| f_off ::= fun o => u32 (o + r) |>));;;
        iunlock (f_ip f);;;
        ret (r, l)
    | FD_NONE => panic "fileread"
    end.

(** The most a single transaction writes. *)
Definition filewrite_max : Z := ((MAXOPBLOCKS - 1 - 1 - 2) / 2) * 512.

Definition filewrite (fd : nat) (addr : list Z) : K Z :=
  let n := Z.of_nat (length addr) in
  f <- get_file fd;;
  if f_writable f =? 0 then ret (-1)
  else
    match f_type f with
    | FD_PIPE => pipewrite (f_pipe f) addr
    | FD_INODE =>
        loop (length addr + 1)
          (fun i =>
             if i <? n then
               let n1 := Z.min (n - i) filewrite_max in
               begin_op;;;
               ilock (f_ip f);;;
               ip <- deref (f_ip f);;
               f <- get_file fd;;
               r <- writei ip (slice addr i n1) (f_off f);;
               whenM (0 <? r)
                 (upd_file fd (fun f => f <| f_off ::= fun o => u32 (o + r) |>));;;
               iunlock (f_ip f);;;
               end_op;;;
               if r <? 0 then ret (inr (if i =? n then n else -1))
               else if negb (r =? n1) then panic "short filewrite"
               else ret (inl (i + r))
             else ret (inr (if i =? n then n else -1))) 0
    | FD_NONE => panic "filewrite"
    end.

(** * pipealloc *)

Definition set_pipe_file (a r w : Z) (i : nat) : K unit :=
  upd_file i (fun x => x <| f_type := FD_PIPE |> <| f_readable := r |>
                         <| f_writable := w |> <| f_pipe := a |>).

(** [pipealloc]: the read and the write file, or [None] for the result -1. *)
Definition pipealloc : K (option (nat * nat)) :=
  let bad (f0 f1 : option nat) : K (option (nat * nat)) :=
    (match f0 with Some f => fileclose f | None => ret tt end);;;
    (match f1 with Some f => fileclose f | None => ret tt end);;;
    ret None in
  f0 <- filealloc;;
  match f0 with
  | None => bad None None
  | Some r =>
      f1 <- filealloc;;
      match f1 with
      | None => bad f0 None
      | Some w =>
          a <- kalloc;;
          if negb (ctrue a) then bad f0 f1
          else
            modify (fun s => s <| k_pipes ::=
              <[a := mkPipe (replicate (Z.to_nat PIPESIZE) 0) 0 0 1 1]> |>);;;
            set_pipe_file a 1 0 r;;;
            set_pipe_file a 0 1 w;;;
            ret (Some (r, w))
      end
  end.

(** * Frame *)

#[export] Instance filealloc_keeps : SysKeeps filealloc.
Proof. unfold filealloc. solve_keeps. Qed.
#[export] Instance filedup_keeps i : SysKeeps (filedup i).
Proof. unfold filedup. solve_keeps. Qed.
#[export] Instance fileclose_keeps i : SysKeeps (fileclose i).
Proof. unfold fileclose. solve_keeps. Qed.
#[export] Instance filestat_keeps i : SysKeeps (filestat i).
Proof. unfold filestat. solve_keeps. Qed.
#[export] Instance fileread_keeps i n : SysKeeps (fileread i n).
Proof. unfold fileread. solve_keeps. Qed.
#[export] Instance filewrite_keeps i l : SysKeeps (filewrite i l).
Proof. unfold filewrite. solve_keeps. Qed.
#[export] Instance set_pipe_file_keeps a r w i : SysKeeps (set_pipe_file a r w i).
Proof. unfold set_pipe_file. solve_keeps. Qed.
#[export] Instance pipealloc_keeps : SysKeeps pipealloc.
Proof. unfold pipealloc. solve_keeps. Qed.

End File.
