(* ===== verification/Proc.v ===== *)
(** Processes and kernel threads ([proc.c]): allocation, [fork], [clone],
    [join], [exit], [wait], [kill], [threadkill], [growproc] and the
    scheduler. *)
From S2P Require Import Prelude Kstate Mem Cprintf Kalloc Sched Vm Sleeplock Bio Log Inode.
From S2P Require Import Console Dir Pipe File.

Section Proc.
Context `{KL : KernelLayout}.

(** * Allocation *)

Definition is_unused (p : proc) : bool := bool_decide (p_state p = UNUSED).

(** The frames at the top of a kernel stack. *)
Definition tf_ptr (kstack : Z) : Z := kstack + KSTACKSIZE - sizeof_trapframe.
Definition context_ptr (kstack : Z) : Z := tf_ptr kstack - 4 - sizeof_context.

(** The trap frame is left for the caller to fill.  Process ids are handed
    out by [nextpid++] on an [int], which must not overflow. *)
Definition allocproc : K (option nat) :=
  acquire L_ptable;;;
  ps <- gets k_procs;;
  match find_index is_unused ps with
  | None => release L_ptable;;; ret None
  | Some i =>
      upd_proc i (fun p => p <| p_isThread := 0 |> <| p_state := EMBRYO |>);;;
      pid <- gets k_nextpid;;
      upd_proc i (fun p => p <| p_pid := pid |>);;;
      (if pid =? 2 ^ 31 - 1 then fault
       else modify (fun s => s <| k_nextpid := pid + 1 |>));;;
      release L_ptable;;;
      ks <- kalloc;;
      upd_proc i (fun p => p <| p_kstack := ks |>);;;
      if negb (ctrue ks) then
        upd_proc i (fun p => p <| p_state := UNUSED |>);;;
        ret None
      else
        kst32 (tf_ptr ks - 4) trapret;;;
        kmemset (context_ptr ks) 0 sizeof_context;;;
        kst32 (context_ptr ks + 16) forkret_addr;;;
        upd_proc i (fun p => p <| p_context := ctx_zero <| cx_eip := forkret_addr |> |>);;;
        ret (Some i)
  end.

(** [safestrcpy] into the 16 bytes of a process name. *)
Definition set_name (i : nat) (nm : list Z) : K unit :=
  p <- get_proc i;;
  n <- deref (safestrcpy (p_name p) nm 16);;
  upd_proc i (fun p => p <| p_name := n |>).

Definition make_runnable (i : nat) : K unit :=
  acquire L_ptable;;;
  upd_proc i (fun p => p <| p_state := RUNNABLE |>);;;
  release L_ptable.

Definition user_tf : trapframe :=
  let ds := Z.lor (Z.shiftl SEG_UDATA 3) DPL_USER in
  tf_zero <| tf_cs := Z.lor (Z.shiftl SEG_UCODE 3) DPL_USER |> <| tf_ds := ds |>
    <| tf_es := ds |> <| tf_ss := ds |> <| tf_eflags := FL_IF |>
    <| tf_esp := PGSIZE |> <| tf_eip := 0 |>.

(** [initcode] is the linked image of initcode.S. *)
Definition userinit (initcode : list Z) : K unit :=
  a <- allocproc;;
  i <- deref a;;
  p <- get_proc i;;
  upd_proc i (fun p => p <| p_tgid := p_pid p |>);;;
  modify (fun s => s <| k_initproc := Some i |>);;;
  pg <- setupkvm;;
  upd_proc i (fun p => p <| p_pgdir := pg |>);;;
  if negb (ctrue pg) then panic "userinit: out of memory?"
  else
    inituvm pg initcode (Z.of_nat (length initcode));;;
    upd_proc i (fun p => p <| p_sz := PGSIZE |> <| p_tf := user_tf |>);;;
    set_name i (str_bytes "initcode" ++ [0]);;;
    cwd <- namei [slash];;
    upd_proc i (fun p => p <| p_cwd := cwd |>);;;
    make_runnable i.

Definition growproc (n : Z) : K Z :=
  i <- myproc;;
  p <- get_proc i;;
  let sz := p_sz p in
  r <- (if 0 <? n then
          sz' <- allocuvm (p_pgdir p) sz (u32 (sz + n));;
          ret (if sz' =? 0 then None else Some sz')
        else if n <? 0 then
          sz' <- deallocuvm (p_pgdir p) sz (u32 (sz + n));;
          ret (if sz' =? 0 then None else Some sz')
        else ret (Some sz));;
  match r with
  | None => ret (-1)
  | Some sz =>
      upd_proc i (fun p => p <| p_sz := sz |>);;;
      switchuvm (Some i);;;
      ret 0
  end.

(** * fork *)

(** [for(i = 0; i < NOFILE; i++) if(from->ofile[i]) to->ofile[i] = filedup(from->ofile[i])] *)
Definition dup_ofiles (from to : nat) : K unit :=
  forM (seq 0 NOFILE) (fun fd =>
    p <- get_proc from;;
    f <- deref (p_ofile p !! fd);;
    match f with
    | None => ret tt
    | Some f =>
        f <- filedup f;;
        upd_proc to (fun p => p <| p_ofile ::= <[fd := Some f]> |>)
    end).

(** The failure path of [fork] and [clone] when the address space cannot be
    copied. *)
Definition release_embryo (np : nat) : K Z :=
  n <- get_proc np;;
  kfree (p_kstack n);;;
  upd_proc np (fun p => p <| p_kstack := 0 |> <| p_state := UNUSED |>);;;
  ret (-1).

Definition fork : K Z :=
  cur <- myproc;;
  a <- allocproc;;
  match a with
  | None => ret (-1)
  | Some np =>
      c <- get_proc cur;;
      pg <- copyuvm (p_pgdir c) (p_sz c);;
      upd_proc np (fun p => p <| p_pgdir := pg |>);;;
      if negb (ctrue pg) then release_embryo np
      else
        c <- get_proc cur;;
        upd_proc np (fun p => p <| p_tgid := p_pid p |> <| p_isThread := 0 |>
                                <| p_sz := p_sz c |> <| p_parent := Some cur |>
                                <| p_tf := p_tf c |>);;;
        upd_proc np (fun p => p <| p_tf ::= fun t => t <| tf_eax := 0 |> |>);;;
        dup_ofiles cur np;;;
        c <- get_proc cur;;
        cwd <- idup (p_cwd c);;
        upd_proc np (fun p => p <| p_cwd := cwd |>);;;
        set_name np (p_name c);;;
        n <- get_proc np;;
        make_runnable np;;;
        ret (p_pid n)
  end.

(** * clone *)

Definition CLONE_flag (flags bit : Z) : Z :=
  if ctrue (Z.land flags (Z.shiftl 1 bit)) then 1 else 0.

(** Every empty slot of a [*_clone] array is filled. *)
Definition fill_slots (p : nat) (l : list (option nat)) : list (option nat) :=
  (fun o => match o with None => Some p | Some q => Some q end) <$> l.

(** [for(i = 0; i < NOFILE; i++) if(from->ofile[i]) to->ofile[i] = from->ofile[i]] *)
Definition share_ofiles (from to : nat) : K unit :=
  forM (seq 0 NOFILE) (fun fd =>
    p <- get_proc from;;
    f <- deref (p_ofile p !! fd);;
    match f with
    | None => ret tt
    | Some f => upd_proc to (fun p => p <| p_ofile ::= <[fd := Some f]> |>)
    end).

(** The parent a clone of [cur] gets: [CLONE_PARENT] moves it one level up,
    and a thread hands on its own parent instead of itself. *)
Definition clone_parent (cur : nat) (c : proc) (clone_parent_flag : Z) : K (option nat) :=
  if p_isThread c =? 0 then
    if ctrue clone_parent_flag then ret (p_parent c) else ret (Some cur)
  else
    if ctrue clone_parent_flag then
      pa <- deref (p_parent c);; q <- get_proc pa;; ret (p_parent q)
    else ret (p_parent c).

Definition clone (f arg stack flags : Z) : K Z :=
  cur <- myproc;;
  a <- allocproc;;
  match a with
  | None => ret (-1)
  | Some np =>
      upd_proc np (fun p => p <| p_CLONE_VM := CLONE_flag flags 0 |>
                              <| p_CLONE_FS := CLONE_flag flags 1 |>
                              <| p_CLONE_FILES := CLONE_flag flags 2 |>
                              <| p_CLONE_PARENT := CLONE_flag flags 3 |>
                              <| p_CLONE_THREAD := CLONE_flag flags 4 |>);;;
      n <- get_proc np;;
      c <- get_proc cur;;
      pg <- (if ctrue (p_CLONE_VM n) then ret (p_pgdir c)
             else copyuvm (p_pgdir c) (p_sz c));;
      upd_proc np (fun p => p <| p_pgdir := pg |>);;;
      if negb (ctrue (p_CLONE_VM n)) && negb (ctrue pg) then release_embryo np
      else
        (* CLONE_FS *)
        (if ctrue (p_CLONE_FS n) then
           upd_proc np (fun p => p <| p_cwd_clone ::= fill_slots cur |>);;;
           upd_proc cur (fun p => p <| p_cwd_clone ::= fill_slots np |>);;;
           upd_proc np (fun p => p <| p_cwd := p_cwd c |>)
         else
           cwd <- idup (p_cwd c);; upd_proc np (fun p => p <| p_cwd := cwd |>));;;
        (* CLONE_FILES *)
        (if ctrue (p_CLONE_FILES n) then
           upd_proc np (fun p => p <| p_ofile_clone ::= fill_slots cur |>);;;
           upd_proc cur (fun p => p <| p_ofile_clone ::= fill_slots np |>);;;
           share_ofiles cur np
         else dup_ofiles cur np);;;
        (* CLONE_PARENT *)
        parent <- clone_parent cur c (p_CLONE_PARENT n);;
        upd_proc np (fun p => p <| p_parent := parent |>);;;
        (* CLONE_THREAD *)
        upd_proc np (fun p => p <| p_tgid :=
          if ctrue (p_CLONE_THREAD n) then p_tgid c else p_pid c |>);;;
        upd_proc np (fun p => p <| p_pthread := Some cur |> <| p_isThread := 1 |>
                                <| p_tstack := stack |> <| p_tf := p_tf c |>
                                <| p_sz := p_sz c |>);;;
        n <- get_proc np;;
        upd_proc np (fun p => p <| p_tf ::= fun t => t <| tf_eax := 0 |> |>);;;
        set_name np (p_name c);;;
        let user_stack := u32 (stack + PGSIZE - 4) in
        user_st32 user_stack arg;;;
        let user_stack := u32 (user_stack - 4) in
        user_st32 user_stack 0xffffffff;;;
        upd_proc np (fun p => p <| p_tf ::= fun t =>
          t <| tf_ebp := user_stack |> <| tf_esp := user_stack |> <| tf_eip := f |> |>);;;
        make_runnable np;;;
        ret (p_pid n)
  end.

(** * join *)

Definition join_reap (i : nat) : K Z :=
  p <- get_proc i;;
  kfree (p_kstack p);;;
  upd_proc i (fun p => p <| p_kstack := 0 |> <| p_pid := 0 |> <| p_tgid := 0 |>
                         <| p_parent := None |> <| p_name ::= <[0%nat := 0]> |>
                         <| p_killed := 0 |> <| p_pthread := None |>
                         <| p_state := UNUSED |>);;;
  release L_ptable;;;
  ret (p_pid p).

(** One pass over the table; [inr] is the result of [join], [inl] says
    whether the thread exists. *)
Fixpoint join_scan (pid : Z) (parent : nat) (l : list nat) (havekids : bool)
    : K (bool + Z) :=
  match l with
  | [] => ret (inl havekids)
  | i :: l =>
      p <- get_proc i;;
      if p_pid p =? pid then
        me <- get_proc parent;;
        if negb (bool_decide (p_parent p = Some parent)) || (p_isThread p =? 0)
           || negb (p_tgid p =? p_tgid me)
        then release L_ptable;;; ret (inr (-1))
        else if bool_decide (p_state p = ZOMBIE) then r <- join_reap i;; ret (inr r)
        else join_scan pid parent l true
      else join_scan pid parent l havekids
  end.

(** One turn of the [for(;;)] of [join] with [ptable.lock] held; a caller that
    must wait sleeps and tries again in [join_return]. *)
Definition join_locked (pid : Z) : K Z :=
  me <- myproc;;
  r <- join_scan pid me (seq 0 NPROC) false;;
  match r with
  | inr r => ret r
  | inl havekids =>
      p <- get_proc me;;
      if negb havekids || ctrue (p_killed p) then release L_ptable;;; ret (-1)
      else sleep (C_proc me) L_ptable
  end.
Definition join (pid : Z) : K Z := acquire L_ptable;;; join_locked pid.
Definition join_return (pid : Z) : K Z := sleep_return L_ptable;;; join_locked pid.

(** * exit *)

(** Clears the first slot that holds [p]. *)
Definition clear_first (p : nat) (l : list (option nat)) : list (option nat) :=
  match find_index (fun o => bool_decide (o = Some p)) l with
  | Some j => <[j := None]> l
  | None => l
  end.

(** Unlinks [cur] from the processes in its own [ofile_clone] array. *)
Definition unlink_ofile_clone (cur : nat) : K unit :=
  forM (seq 0 NPROC) (fun i =>
    c <- get_proc cur;;
    o <- deref (p_ofile_clone c !! i);;
    match o with
    | None => ret tt
    | Some p =>
        upd_proc p (fun q => q <| p_ofile_clone ::= clear_first cur |>);;;
        upd_proc cur (fun q => q <| p_ofile_clone ::= <[i := None]> |>)
    end).
Definition unlink_cwd_clone (cur : nat) : K unit :=
  forM (seq 0 NPROC) (fun i =>
    c <- get_proc cur;;
    o <- deref (p_cwd_clone c !! i);;
    match o with
    | None => ret tt
    | Some p =>
        upd_proc p (fun q => q <| p_cwd_clone ::= clear_first cur |>);;;
        upd_proc cur (fun q => q <| p_cwd_clone ::= <[i := None]> |>)
    end).

(** The files of a process with [CLONE_FILES] are dropped without closing. *)
Definition exit_files (cur : nat) : K unit :=
  c <- get_proc cur;;
  forM (seq 0 NOFILE) (fun fd =>
    p <- get_proc cur;;
    f <- deref (p_ofile p !! fd);;
    match f with
    | None => ret tt
    | Some f =>
        whenM (negb (ctrue (p_CLONE_FILES c))) (fileclose f);;;
        upd_proc cur (fun p => p <| p_ofile ::= <[fd := None]> |>)
    end).

Definition exit_cwd (cur : nat) : K unit :=
  c <- get_proc cur;;
  whenM (negb (ctrue (p_CLONE_FS c))) (begin_op;;; iput (p_cwd c);;; end_op);;;
  upd_proc cur (fun p => p <| p_cwd := None |>).

(** Gives the children of [cur] to init. *)
Definition reparent (cur : nat) : K unit :=
  forM (seq 0 NPROC) (fun i =>
    p <- get_proc i;;
    whenM (bool_decide (p_parent p = Some cur))
      (init <- gets k_initproc;;
       upd_proc i (fun p => p <| p_parent := init |>);;;
       whenM (bool_decide (p_state p = ZOMBIE)) (wakeup1 (C_proc <$> init)))).

(** The part of [exit] under [ptable.lock]. *)
Definition exit_locked (cur : nat) : K unit :=
  c <- get_proc cur;;
  wakeup1 (C_proc <$> (if ctrue (p_isThread c) then p_pthread c else p_parent c));;;
  reparent cur;;;
  upd_proc cur (fun p => p <| p_state := ZOMBIE |>);;;
  sched.

Definition exit : K unit :=
  cur <- myproc;;
  init <- gets k_initproc;;
  if bool_decide (Some cur = init) then panic "init exiting"
  else
    unlink_ofile_clone cur;;;
    unlink_cwd_clone cur;;;
    exit_files cur;;;
    exit_cwd cur;;;
    acquire L_ptable;;;
    exit_locked cur.

(** * wait *)

Definition wait_reap (i : nat) : K Z :=
  p <- get_proc i;;
  kfree (p_kstack p);;;
  upd_proc i (fun p => p <| p_kstack := 0 |>);;;
  freevm (p_pgdir p);;;
  upd_proc i (fun p => p <| p_pid := 0 |> <| p_parent := None |>
                         <| p_name ::= <[0%nat := 0]> |> <| p_tgid := 0 |>
                         <| p_killed := 0 |> <| p_state := UNUSED |>);;;
  release L_ptable;;;
  ret (p_pid p).

(** [p->parent != curproc], [p->isThread], and the test of the thread group
    of [p->parent], which is [curproc] here. *)
Definition wait_skips (cur : nat) (c p : proc) : K bool :=
  if negb (bool_decide (p_parent p = Some cur)) then ret true
  else if ctrue (p_isThread p) then ret true
  else if ctrue (p_isThread c) then
    pa <- deref (p_parent p);; q <- get_proc pa;;
    ret (negb (p_tgid q =? p_tgid c))
  else ret false.

Fixpoint wait_scan (cur : nat) (l : list nat) (havekids : bool) : K (bool + Z) :=
  match l with
  | [] => ret (inl havekids)
  | i :: l =>
      p <- get_proc i;;
      c <- get_proc cur;;
      skip <- wait_skips cur c p;;
      if (skip : bool) then wait_scan cur l havekids
      else if bool_decide (p_state p = ZOMBIE) then r <- wait_reap i;; ret (inr r)
      else wait_scan cur l true
  end.

Definition wait_locked : K Z :=
  me <- myproc;;
  r <- wait_scan me (seq 0 NPROC) false;;
  match r with
  | inr r => ret r
  | inl havekids =>
      p <- get_proc me;;
      if negb havekids || ctrue (p_killed p) then release L_ptable;;; ret (-1)
      else sleep (C_proc me) L_ptable
  end.
Definition wait : K Z := acquire L_ptable;;; wait_locked.
Definition wait_return : K Z := sleep_return L_ptable;;; wait_locked.

(** * Scheduler *)

(** From table position [n] on, with [ptable.lock] held: the next process to
    run is made the CPU's process; [None] when the pass is over, and the lock
    is released. *)
Definition sched_pick (n : nat) : K (option nat) :=
  ps <- gets k_procs;;
  match find_from (fun p => bool_decide (p_state p = RUNNABLE)) n (drop n ps) with
  | Some i =>
      modify (fun s => s <| k_cur := Some i |>);;;
      switchuvm (Some i);;;
      upd_proc i (fun p => p <| p_state := RUNNING |>);;;
      ret (Some i)
  | None => release L_ptable;;; ret None
  end.
(** The scheduler after [swtch] comes back from a process. *)
Definition sched_back : K unit :=
  switchkvm;;; modify (fun s => s <| k_cur := None |>).

Definition forkret : K unit :=
  release L_ptable;;;
  first <- gets k_first;;
  whenM (ctrue first)
    (modify (fun s => s <| k_first := 0 |>);;;
     iinit ROOTDEV;;;
     initlog ROOTDEV).

(** * kill and threadkill *)

Definition mark_killed (p : proc) : proc :=
  let p := p <| p_killed := 1 |> in
  if bool_decide (p_state p = SLEEPING) then p <| p_state := RUNNABLE |> else p.

Definition kill_where (P : proc -> bool) : K Z :=
  acquire L_ptable;;;
  ps <- gets k_procs;;
  match find_index P ps with
  | Some i => upd_proc i mark_killed;;; release L_ptable;;; ret 0
  | None => release L_ptable;;; ret (-1)
  end.

Definition kill (pid : Z) : K Z := kill_where (fun p => p_pid p =? pid).
Definition threadkill (pid : Z) : K Z :=
  kill_where (fun p => (p_pid p =? pid) && (p_isThread p =? 1)).

(** * procdump *)

(** spinlock.c: follows the [%ebp] chain from the frame above [v]. *)
Definition getcallerpcs (m : mem) (v : Z) : list Z :=
  (fix go (n : nat) (ebp : Z) : list Z :=
     match n with
     | O => []
     | S n' =>
         if (ebp =? 0) || (ebp <? KERNBASE) || (ebp =? 0xffffffff)
         then replicate n 0
         else ld32 m (ebp + 4) :: go n' (ld32 m ebp)
     end) 10%nat (u32 (v - 8)).

Definition state_name (st : procstate) : string :=
  match st with
  | UNUSED => "unused" | EMBRYO => "embryo" | SLEEPING => "sleep "
  | RUNNABLE => "runble" | RUNNING => "run   " | ZOMBIE => "zombie"
  end.

Fixpoint until_zero (l : list Z) : list Z :=
  match l with
  | [] => []
  | x :: l => if x =? 0 then [] else x :: until_zero l
  end.

Definition procdump : K unit :=
  forM (seq 0 NPROC) (fun i =>
    p <- get_proc i;;
    whenM (negb (is_unused p))
      (cprintf "%d %s %s" [A_int (p_pid p); A_str (Some (str_bytes (state_name (p_state p))));
                           A_str (Some (until_zero (p_name p)))];;;
       whenM (bool_decide (p_state p = SLEEPING))
         (m <- gets k_mem;;
          forM (until_zero (getcallerpcs m (u32 (cx_ebp (p_context p) + 8))))
            (fun pc => cprintf " %p" [A_int pc]));;;
       cprintf nl [])).

End Proc.
