(* ===== verification/Exec.v ===== *)
(** Loading a program ([vm.c]: [loaduvm]; [exec.c]; [elf.h]). *)
From S2P Require Import Prelude Kstate Mem Cprintf Kalloc Sched Vm Sleeplock Bio Log Inode.
From S2P Require Import Console Dir Pipe File Proc.

(** elf.h *)
Definition ELF_MAGIC : Z := 0x464C457F.
Definition ELF_PROG_LOAD : Z := 1.
Definition sizeof_elfhdr : Z := 52.
Definition sizeof_proghdr : Z := 32.

Record elfhdr : Type := mkElf { e_magic : Z; e_entry : Z; e_phoff : Z; e_phnum : Z }.
Definition decode_elf (l : list Z) : elfhdr :=
  mkElf (get32 l 0) (get32 l 24) (get32 l 28) (get16 l 44).

Record proghdr : Type := mkPh {
  ph_type : Z; ph_off : Z; ph_vaddr : Z; ph_filesz : Z; ph_memsz : Z }.
Definition decode_ph (l : list Z) : proghdr :=
  mkPh (get32 l 0) (get32 l 4) (get32 l 8) (get32 l 16) (get32 l 20).

Section Exec.
Context `{KL : KernelLayout}.

Definition loaduvm (pgdir addr : Z) (ip : nat) (offset sz : Z) : K Z :=
  if negb (addr mod PGSIZE =? 0) then panic "loaduvm: addr must be page aligned"
  else
    loop (Z.to_nat (sz / PGSIZE) + 2)
      (fun i =>
         if i <? sz then
           pte <- walkpgdir pgdir (u32 (addr + i)) 0;;
           if negb (ctrue pte) then panic "loaduvm: address should exist"
           else
             e <- kld32 pte;;
             let pa := PTE_ADDR e in
             let n := if sz - i <? PGSIZE then sz - i else PGSIZE in
             '(r, l) <- readi ip (u32 (offset + i)) n;;
             kstore_bytes (P2V pa) l;;;
             if negb (r =? n) then ret (inr (-1)) else ret (inl (u32 (i + PGSIZE)))
         else ret (inr 0)) 0.

(** [goto bad], with the page directory and the inode still to give up. *)
Definition exec_bad (pgdir : Z) (ip : option nat) : K Z :=
  whenM (ctrue pgdir) (freevm pgdir);;;
  (match ip with Some _ => iunlockput ip;;; end_op | None => ret tt end);;;
  ret (-1).

(** The loop over the program headers: the new size, or [None] for [bad]. *)
Definition exec_load (pgdir : Z) (ip : nat) (elf : elfhdr) : K (option Z) :=
  loop (Z.to_nat (e_phnum elf) + 1)
    (fun '(i, off, sz) =>
       if i <? e_phnum elf then
         '(r, l) <- readi ip off sizeof_proghdr;;
         if negb (r =? sizeof_proghdr) then ret (inr None)
         else
           let ph := decode_ph l in
           let off := u32 (off + sizeof_proghdr) in
           if negb (ph_type ph =? ELF_PROG_LOAD) then ret (inl (i + 1, off, sz))
           else if ph_memsz ph <? ph_filesz ph then ret (inr None)
           else if u32 (ph_vaddr ph + ph_memsz ph) <? ph_vaddr ph then ret (inr None)
           else
             sz <- allocuvm pgdir sz (u32 (ph_vaddr ph + ph_memsz ph));;
             if sz =? 0 then ret (inr None)
             else if negb (ph_vaddr ph mod PGSIZE =? 0) then ret (inr None)
             else
               r <- loaduvm pgdir (ph_vaddr ph) ip (ph_off ph) (ph_filesz ph);;
               if r <? 0 then ret (inr None) else ret (inl (i + 1, off, sz))
       else ret (inr (Some sz))) (0, e_phoff elf, 0).

(** Pushes the argument strings: their user addresses and the new [sp]. *)
Fixpoint push_args (pgdir sp : Z) (argc : nat) (argv : list (list Z)) (ustack : list Z)
    : K (option (Z * list Z)) :=
  match argv with
  | [] => ret (Some (sp, ustack))
  | a :: argv =>
      if (MAXARG <=? argc)%nat then ret None
      else
        let sp := Z.land (u32 (sp - (Z.of_nat (length a) + 1))) (u32 (Z.lnot 3)) in
        r <- copyout pgdir sp (a ++ [0]);;
        if r <? 0 then ret None
        else push_args pgdir sp (S argc) argv (ustack ++ [sp])
  end.

(** The part of a path after its last slash. *)
Fixpoint last_elem (last path : list Z) : list Z :=
  match path with
  | [] => last
  | c :: path => last_elem (if c =? slash then path else last) path
  end.

(** [argv] are the argument strings before their null pointer. *)
Definition exec (path : list Z) (argv : list (list Z)) : K Z :=
  cur <- myproc;;
  begin_op;;;
  ip <- namei path;;
  match ip with
  | None => end_op;;; cprintf ("exec: fail" +:+ nl) [];;; ret (-1)
  | Some i =>
      ilock ip;;;
      '(r, l) <- readi i 0 sizeof_elfhdr;;
      if negb (r =? sizeof_elfhdr) then exec_bad 0 ip
      else
        let elf := decode_elf l in
        if negb (e_magic elf =? ELF_MAGIC) then exec_bad 0 ip
        else
          pgdir <- setupkvm;;
          if negb (ctrue pgdir) then exec_bad 0 ip
          else
            sz <- exec_load pgdir i elf;;
            match sz with
            | None => exec_bad pgdir ip
            | Some sz =>
                iunlockput ip;;;
                end_op;;;
                let sz := PGROUNDUP sz in
                sz <- allocuvm pgdir sz (u32 (sz + 2 * PGSIZE));;
                if sz =? 0 then exec_bad pgdir None
                else
                  clearpteu pgdir (u32 (sz - 2 * PGSIZE));;;
                  a <- push_args pgdir sz 0 argv [];;
                  match a with
                  | None => exec_bad pgdir None
                  | Some (sp, ptrs) =>
                      let argc := Z.of_nat (length ptrs) in
                      let ustack :=
                        [0xffffffff; argc; u32 (sp - (argc + 1) * 4)] ++ ptrs ++ [0] in
                      let sp := u32 (sp - (3 + argc + 1) * 4) in
                      r <- copyout pgdir sp (mjoin (le32 <$> ustack));;
                      if r <? 0 then exec_bad pgdir None
                      else
                        p <- get_proc cur;;
                        nm <- deref (safestrcpy (p_name p) (last_elem path path ++ [0]) 16);;
                        upd_proc cur (fun p => p <| p_name := nm |> <| p_pgdir := pgdir |>
                          <| p_sz := sz |>
                          <| p_tf ::= fun t => t <| tf_eip := e_entry elf |>
                                                 <| tf_esp := sp |> |>);;;
                        switchuvm (Some cur);;;
                        freevm (p_pgdir p);;;
                        ret 0
                  end
            end
  end.

End Exec.
