(* ===== verification/Sysproc.v ===== *)
(** Fetching system call arguments ([syscall.c]) and the process system
    calls ([sysproc.c]). *)
From S2P Require Import Prelude Kstate Mem Cprintf Kalloc Sched Vm Sleeplock Bio Log Inode.
From S2P Require Import Console Dir Pipe File Proc.

(** * Arguments *)

(** [None] is the result -1. *)
Definition fetchint (addr : Z) : K (option Z) :=
  i <- myproc;;
  p <- get_proc i;;
  if (p_sz p <=? addr) || (p_sz p <? u32 (addr + 4)) then ret None
  else v <- user_ld32 addr;; ret (Some (s32 v)).

(** The address of the string and its characters before the zero. *)
Definition fetchstr (addr : Z) : K (option (Z * list Z)) :=
  i <- myproc;;
  p <- get_proc i;;
  if p_sz p <=? addr then ret None
  else
    loop (Z.to_nat (p_sz p - addr) + 1)
      (fun '(s, acc) =>
         if s <? p_sz p then
           c <- user_ld8 s;;
           if c =? 0 then ret (inr (Some (addr, rev acc)))
           else ret (inl (s + 1, c :: acc))
         else ret (inr None)) (addr, []).

Definition argint (n : Z) : K (option Z) :=
  i <- myproc;;
  p <- get_proc i;;
  fetchint (u32 (tf_esp (p_tf p) + 4 + 4 * n)).

Definition argptr (n size : Z) : K (option Z) :=
  i <- myproc;;
  p <- get_proc i;;
  a <- argint n;;
  match a with
  | None => ret None
  | Some a =>
      let a := u32 a in
      if (size <? 0) || (p_sz p <=? a) || (p_sz p <? u32 (a + size)) then ret None
      else ret (Some a)
  end.

Definition argstr (n : Z) : K (option (Z * list Z)) :=
  a <- argint n;;
  match a with
  | None => ret None
  | Some a => fetchstr (u32 a)
  end.

(** [if(arg... < 0) return -1] in front of the rest of a system call. *)
Definition or_fail {A} (m : K (option A)) (k : A -> K Z) : K Z :=
  a <- m;; match a with None => ret (-1) | Some a => k a end.

Section Sysproc.
Context `{KL : KernelLayout}.

(** * sysproc.c *)

Definition sys_fork : K Z := fork.
Definition sys_exit : K Z := exit;;; ret 0.
Definition sys_wait : K Z := wait.
Definition sys_kill : K Z := or_fail (argint 0) kill.
Definition sys_getpid : K Z := i <- myproc;; p <- get_proc i;; ret (p_pid p).

Definition sys_sbrk : K Z :=
  or_fail (argint 0) (fun n =>
    i <- myproc;;
    p <- get_proc i;;
    let addr := s32 (p_sz p) in
    r <- growproc n;;
    if r <? 0 then ret (-1) else ret addr).

(** The loop of [sys_sleep] with [tickslock] held. *)
Definition sys_sleep_locked (n ticks0 : Z) : K Z :=
  t <- gets k_ticks;;
  if u32 (t - ticks0) <? u32 n then
    i <- myproc;;
    p <- get_proc i;;
    if ctrue (p_killed p) then release L_ticks;;; ret (-1)
    else sleep C_ticks L_ticks
  else release L_ticks;;; ret 0.
Definition sys_sleep : K Z :=
  or_fail (argint 0) (fun n =>
    acquire L_ticks;;;
    t <- gets k_ticks;;
    sys_sleep_locked n t).
Definition sys_sleep_return (n ticks0 : Z) : K Z :=
  sleep_return L_ticks;;; sys_sleep_locked n ticks0.

Definition sys_uptime : K Z :=
  acquire L_ticks;;;
  t <- gets k_ticks;;
  release L_ticks;;;
  ret (s32 t).

Definition sys_clone : K Z :=
  or_fail (argptr 0 4) (fun f =>
  or_fail (argptr 1 4) (fun arg =>
  or_fail (argptr 2 4) (fun stack =>
  or_fail (argint 3) (fun flags =>
    clone f arg stack flags)))).

Definition sys_join : K Z := or_fail (argint 0) join.
Definition sys_gettgid : K Z := i <- myproc;; p <- get_proc i;; ret (p_tgid p).
(** [myproc()->parent->pid]: faults when the parent is null. *)
Definition sys_getppid : K Z :=
  i <- myproc;; p <- get_proc i;;
  j <- deref (p_parent p);; q <- get_proc j;; ret (p_pid q).
Definition sys_gettid : K Z := i <- myproc;; p <- get_proc i;; ret (p_pid p).
Definition sys_threadkill : K Z := or_fail (argint 0) threadkill.

End Sysproc.
