(* ===== verification/Sysfile.v ===== *)
(** The file system calls ([sysfile.c]), with the propagation of open files
    and working directories to the threads that share them. *)
From S2P Require Import Prelude Kstate Mem Cprintf Kalloc Sched Vm Sleeplock Bio Log Inode.
From S2P Require Import Console Dir Pipe File Proc Exec Sysproc.

(** * Shared descriptor tables *)

(** The recursion sets one more table entry at every level, so that
    [NPROC + 1] levels are enough. *)
Fixpoint open_ofile_clone (fuel : nat) (cur f fd : nat) : K unit :=
  match fuel with
  | O => nofuel
  | S fuel =>
      scan (seq 0 NPROC) (fun i =>
        c <- get_proc cur;;
        o <- deref (p_ofile_clone c !! i);;
        match o with
        | None => ret Continue
        | Some q =>
            if bool_decide (q = cur) then ret Continue
            else
              qp <- get_proc q;;
              e <- deref (p_ofile qp !! fd);;
              if bool_decide (e = Some f) then ret (Return tt)
              else
                upd_proc q (fun p => p <| p_ofile ::= <[fd := Some f]> |>);;;
                open_ofile_clone fuel q f fd;;;
                ret Continue
        end);;;
      ret tt
  end.

Fixpoint close_ofile_clone (fuel : nat) (cur fd : nat) : K unit :=
  match fuel with
  | O => nofuel
  | S fuel =>
      scan (seq 0 NPROC) (fun i =>
        c <- get_proc cur;;
        o <- deref (p_ofile_clone c !! i);;
        match o with
        | None => ret Continue
        | Some q =>
            if bool_decide (q = cur) then ret Continue
            else
              qp <- get_proc q;;
              e <- deref (p_ofile qp !! fd);;
              if bool_decide (e = None) then ret (Return tt)
              else
                upd_proc q (fun p => p <| p_ofile ::= <[fd := None]> |>);;;
                close_ofile_clone fuel q fd;;;
                ret Continue
        end);;;
      ret tt
  end.

Fixpoint pwd_clone (fuel : nat) (cur : nat) (ip : option nat) : K unit :=
  match fuel with
  | O => nofuel
  | S fuel =>
      scan (seq 0 NPROC) (fun i =>
        c <- get_proc cur;;
        o <- deref (p_cwd_clone c !! i);;
        match o with
        | None => ret Continue
        | Some q =>
            if bool_decide (q = cur) then ret Continue
            else
              qp <- get_proc q;;
              if bool_decide (p_cwd qp = ip) then ret (Return tt)
              else
                upd_proc q (fun p => p <| p_cwd := ip |>);;;
                pwd_clone fuel q ip;;;
                ret Continue
        end);;;
      ret tt
  end.

Definition clone_fuel : nat := NPROC + 1.

Section Sysfile.
Context `{KL : KernelLayout}.

(** * Descriptors *)

Definition argfd (n : Z) : K (option (nat * nat)) :=
  a <- argint n;;
  match a with
  | None => ret None
  | Some fd =>
      if (fd <? 0) || (Z.of_nat NOFILE <=? fd) then ret None
      else
        i <- myproc;;
        p <- get_proc i;;
        f <- deref (p_ofile p !! Z.to_nat fd);;
        ret ((fun f => (Z.to_nat fd, f)) <$> f)
  end.

Definition fdalloc (f : nat) : K (option nat) :=
  i <- myproc;;
  p <- get_proc i;;
  match find_index (fun o => bool_decide (o = None)) (take NOFILE (p_ofile p)) with
  | Some fd =>
      upd_proc i (fun p => p <| p_ofile ::= <[fd := Some f]> |>);;;
      open_ofile_clone clone_fuel i f fd;;;
      ret (Some fd)
  | None => ret None
  end.

Definition sys_dup : K Z :=
  or_fail (argfd 0) (fun '(_, f) =>
  or_fail (fdalloc f) (fun fd =>
    filedup f;;; ret (Z.of_nat fd))).

Definition sys_read : K Z :=
  or_fail (argfd 0) (fun '(_, f) =>
  or_fail (argint 2) (fun n =>
  or_fail (argptr 1 n) (fun p =>
    '(r, l) <- fileread f n;;
    user_store p l;;;
    ret r))).

Definition sys_write : K Z :=
  or_fail (argfd 0) (fun '(_, f) =>
  or_fail (argint 2) (fun n =>
  or_fail (argptr 1 n) (fun p =>
    l <- user_load p (Z.to_nat n);;
    filewrite f l))).

Definition sys_close : K Z :=
  or_fail (argfd 0) (fun '(fd, f) =>
    i <- myproc;;
    upd_proc i (fun p => p <| p_ofile ::= <[fd := None]> |>);;;
    fileclose f;;;
    close_ofile_clone clone_fuel i fd;;;
    ret 0).

(** [struct stat] as it is laid out in user memory: [type] at 0, [dev] at 4,
    [ino] at 8, [nlink] at 12 and [size] at 16. *)
Definition sizeof_stat : Z := 20.
Definition store_stat (a : Z) (st : stat) : K unit :=
  user_store a (le16 (st_type st));;;
  user_store (a + 4) (le32 (st_dev st));;;
  user_store (a + 8) (le32 (st_ino st));;;
  user_store (a + 12) (le16 (st_nlink st));;;
  user_store (a + 16) (le32 (st_size st)).

Definition sys_fstat : K Z :=
  or_fail (argfd 0) (fun '(_, f) =>
  or_fail (argptr 1 sizeof_stat) (fun a =>
  or_fail (filestat f) (fun st =>
    store_stat a st;;; ret 0))).

(** * Links *)

Definition upd_nlink (i : nat) (d : Z) : K unit :=
  upd_inode i (fun ip => ip <| i_nlink ::= fun n => s16 (n + d) |>).

Definition sys_link : K Z :=
  or_fail (argstr 0) (fun '(_, old) =>
  or_fail (argstr 1) (fun '(_, new) =>
    begin_op;;;
    ip <- namei old;;
    match ip with
    | None => end_op;;; ret (-1)
    | Some i =>
        ilock ip;;;
        x <- get_inode i;;
        if i_type x =? T_DIR then iunlockput ip;;; end_op;;; ret (-1)
        else
          upd_nlink i 1;;;
          iupdate i;;;
          iunlock ip;;;
          let bad :=
            ilock ip;;; upd_nlink i (-1);;; iupdate i;;; iunlockput ip;;;
            end_op;;; ret (-1) in
          '(dp, name) <- nameiparent new;;
          match dp with
          | None => bad
          | Some d =>
              ilock dp;;;
              dx <- get_inode d;;
              x <- get_inode i;;
              r <- (if negb (i_dev dx =? i_dev x) then ret (-1)
                    else dirlink d name (i_inum x));;
              if r <? 0 then iunlockput dp;;; bad
              else iunlockput dp;;; iput ip;;; end_op;;; ret 0
          end
    end)).

Definition isdirempty (dp : nat) : K bool :=
  d <- get_inode dp;;
  loop (dir_fuel (i_size d))
    (fun off =>
       if off <? i_size d then
         de <- read_dirent "isdirempty: readi" dp off;;
         if negb (de_inum de =? 0) then ret (inr false)
         else ret (inl (off + sizeof_dirent))
       else ret (inr true)) (2 * sizeof_dirent).

Definition sys_unlink : K Z :=
  or_fail (argstr 0) (fun '(_, path) =>
    begin_op;;;
    '(dp, name) <- nameiparent path;;
    match dp with
    | None => end_op;;; ret (-1)
    | Some d =>
        ilock dp;;;
        let bad := iunlockput dp;;; end_op;;; ret (-1) in
        c1 <- namecmp name (str_bytes "." ++ [0]);;
        c2 <- (if c1 =? 0 then ret 0 else namecmp name (str_bytes ".." ++ [0]));;
        if (c1 =? 0) || (c2 =? 0) then bad
        else
          r <- dirlookup d name;;
          match r with
          | None => bad
          | Some (i, off) =>
              ilock (Some i);;;
              x <- get_inode i;;
              if i_nlink x <? 1 then panic "unlink: nlink < 1"
              else
                e <- (if i_type x =? T_DIR then isdirempty i else ret true);;
                if negb e then iunlockput (Some i);;; bad
                else
                  w <- writei d (replicate (Z.to_nat sizeof_dirent) 0) off;;
                  if negb (w =? sizeof_dirent) then panic "unlink: writei"
                  else
                    whenM (i_type x =? T_DIR) (upd_nlink d (-1);;; iupdate d);;;
                    iunlockput dp;;;
                    upd_nlink i (-1);;;
                    iupdate i;;;
                    iunlockput (Some i);;;
                    end_op;;;
                    ret 0
          end
    end).

(** * Creating files *)

(** The new or existing inode, locked, or [None] for a null result. *)
Definition create (path : list Z) (type major minor : Z) : K (option nat) :=
  '(dp, name) <- nameiparent path;;
  match dp with
  | None => ret None
  | Some d =>
      ilock dp;;;
      r <- dirlookup d name;;
      match r with
      | Some (i, _) =>
          iunlockput dp;;;
          ilock (Some i);;;
          x <- get_inode i;;
          if (type =? T_FILE) && (i_type x =? T_FILE) then ret (Some i)
          else iunlockput (Some i);;; ret None
      | None =>
          dx <- get_inode d;;
          i <- ialloc (i_dev dx) type;;
          ilock (Some i);;;
          upd_inode i (fun ip => ip <| i_major := major |> <| i_minor := minor |>
                                   <| i_nlink := 1 |>);;;
          iupdate i;;;
          x <- get_inode i;;
          whenM (type =? T_DIR)
            (upd_nlink d 1;;;
             iupdate d;;;
             r1 <- dirlink i (str_bytes "." ++ [0]) (i_inum x);;
             r2 <- (if r1 <? 0 then ret (-1)
                    else dirlink i (str_bytes ".." ++ [0]) (i_inum dx));;
             if (r1 <? 0) || (r2 <? 0) then panic "create dots" else ret tt);;;
          r <- dirlink d name (i_inum x);;
          if r <? 0 then panic "create: dirlink"
          else iunlockput dp;;; ret (Some i)
      end
  end.

Definition sys_open : K Z :=
  or_fail (argstr 0) (fun '(_, path) =>
  or_fail (argint 1) (fun omode =>
    begin_op;;;
    ip <- (if ctrue (Z.land omode O_CREATE) then create path T_FILE 0 0
           else
             ip <- namei path;;
             match ip with
             | None => ret None
             | Some i =>
                 ilock ip;;;
                 x <- get_inode i;;
                 if (i_type x =? T_DIR) && negb (omode =? O_RDONLY)
                 then iunlockput ip;;; ret None
                 else ret ip
             end);;
    match ip with
    | None => end_op;;; ret (-1)
    | Some _ =>
        f <- filealloc;;
        fd <- (match f with None => ret None | Some f => fdalloc f end);;
        match f, fd with
        | Some f, Some fd =>
            iunlock ip;;;
            end_op;;;
            upd_file f (fun x => x <| f_type := FD_INODE |> <| f_ip := ip |> <| f_off := 0 |>
              <| f_readable := of_bool (negb (ctrue (Z.land omode O_WRONLY))) |>
              <| f_writable := of_bool (ctrue (Z.land omode O_WRONLY)
                                        || ctrue (Z.land omode O_RDWR)) |>);;;
            ret (Z.of_nat fd)
        | _, _ =>
            (match f with Some f => fileclose f | None => ret tt end);;;
            iunlockput ip;;;
            end_op;;;
            ret (-1)
        end
    end)).

Definition sys_mkdir : K Z :=
  begin_op;;;
  a <- argstr 0;;
  ip <- (match a with None => ret None | Some (_, path) => create path T_DIR 0 0 end);;
  match ip with
  | None => end_op;;; ret (-1)
  | Some _ => iunlockput ip;;; end_op;;; ret 0
  end.

Definition sys_mknod : K Z :=
  begin_op;;;
  a <- argstr 0;;
  ip <- (match a with
         | None => ret None
         | Some (_, path) =>
             ma <- argint 1;;
             match ma with
             | None => ret None
             | Some major =>
                 mi <- argint 2;;
                 match mi with
                 | None => ret None
                 | Some minor => create path T_DEV (s16 major) (s16 minor)
                 end
             end
         end);;
  match ip with
  | None => end_op;;; ret (-1)
  | Some _ => iunlockput ip;;; end_op;;; ret 0
  end.

Definition sys_chdir : K Z :=
  cur <- myproc;;
  begin_op;;;
  a <- argstr 0;;
  ip <- (match a with None => ret None | Some (_, path) => namei path end);;
  match ip with
  | None => end_op;;; ret (-1)
  | Some i =>
      ilock ip;;;
      x <- get_inode i;;
      if negb (i_type x =? T_DIR) then iunlockput ip;;; end_op;;; ret (-1)
      else
        iunlock ip;;;
        p <- get_proc cur;;
        iput (p_cwd p);;;
        end_op;;;
        p <- get_proc cur;;
        whenM (negb (bool_decide (p_cwd p = ip))) (pwd_clone clone_fuel cur ip);;;
        upd_proc cur (fun p => p <| p_cwd := ip |>);;;
        ret 0
  end.

(** The loop that collects the argument vector: [None] is the result -1. *)
Definition exec_args (uargv : Z) : K (option (list (list Z))) :=
  loop (MAXARG + 1)
    (fun '(i, acc) =>
       if (MAXARG <=? i)%nat then ret (inr None)
       else
         a <- fetchint (u32 (uargv + 4 * Z.of_nat i));;
         match a with
         | None => ret (inr None)
         | Some uarg =>
             if uarg =? 0 then ret (inr (Some (rev acc)))
             else
               s <- fetchstr (u32 uarg);;
               match s with
               | None => ret (inr None)
               | Some (_, l) => ret (inl (S i, l :: acc))
               end
         end) (0%nat, []).

Definition sys_exec : K Z :=
  or_fail (argstr 0) (fun '(_, path) =>
  or_fail (argint 1) (fun uargv =>
  or_fail (exec_args (u32 uargv)) (fun argv =>
    exec path argv))).

Definition sys_pipe : K Z :=
  or_fail (argptr 0 8) (fun fd =>
  or_fail pipealloc (fun '(rf, wf) =>
    i <- myproc;;
    fd0 <- fdalloc rf;;
    fd1 <- (match fd0 with None => ret None | Some _ => fdalloc wf end);;
    match fd0, fd1 with
    | Some fd0, Some fd1 =>
        user_st32 fd (Z.of_nat fd0);;;
        user_st32 (fd + 4) (Z.of_nat fd1);;;
        ret 0
    | _, _ =>
        (match fd0 with
         | Some fd0 => upd_proc i (fun p => p <| p_ofile ::= <[fd0 := None]> |>)
         | None => ret tt
         end);;;
        fileclose rf;;;
        fileclose wf;;;
        ret (-1)
    end)).

End Sysfile.
