(* ===== verification/Trap.v ===== *)
(** System call dispatch ([syscall.c]: [syscalls], [syscall]) and the trap
    handler ([trap.c]). *)
From S2P Require Import Prelude Kstate Mem Cprintf Kalloc Sched Vm Sleeplock Bio Log Inode.
From S2P Require Import Console Dir Pipe File Proc Exec Sysproc Sysfile.

(** traps.h *)
Definition T_SYSCALL : Z := 64.
Definition T_IRQ0 : Z := 32.
Definition IRQ_TIMER : Z := 0.
Definition IRQ_KBD : Z := 1.
Definition IRQ_COM1 : Z := 4.
Definition IRQ_IDE : Z := 14.
Definition IRQ_SPURIOUS : Z := 31.

Section Trap.
Context `{KL : KernelLayout}.

(** syscall.h: the system call of each number; entry 0 is null. *)
Definition syscalls : list (option (K Z)) :=
  [ None; Some sys_fork; Some sys_exit; Some sys_wait; Some sys_pipe; Some sys_read;
    Some sys_kill; Some sys_exec; Some sys_fstat; Some sys_chdir; Some sys_dup;
    Some sys_getpid; Some sys_sbrk; Some sys_sleep; Some sys_uptime; Some sys_open;
    Some sys_write; Some sys_mknod; Some sys_unlink; Some sys_link; Some sys_mkdir;
    Some sys_close; Some sys_clone; Some sys_join; Some sys_gettgid; Some sys_getppid;
    Some sys_gettid; Some sys_threadkill ].

Definition set_eax (i : nat) (v : Z) : K unit :=
  upd_proc i (fun p => p <| p_tf ::= fun t => t <| tf_eax := u32 v |> |>).

Definition syscall : K unit :=
  i <- myproc;;
  p <- get_proc i;;
  let num := s32 (tf_eax (p_tf p)) in
  match (if (0 <? num) && (num <? Z.of_nat (length syscalls))
         then mjoin (syscalls !! Z.to_nat num) else None) with
  | Some f => r <- f;; set_eax i r
  | None =>
      cprintf ("%d %s: unknown sys call %d" +:+ nl)
        [A_int (p_pid p); A_str (Some (until_zero (p_name p))); A_int num];;;
      set_eax i (-1)
  end.

(** Is the current process killed, and was the CPU in user mode? *)
Definition must_exit (tf : trapframe) : K bool :=
  c <- gets k_cur;;
  match c with
  | None => ret false
  | Some i =>
      p <- get_proc i;;
      ret (ctrue (p_killed p) && (Z.land (tf_cs tf) 3 =? DPL_USER))
  end.

(** The end of [trap], after [yield] when there is one. *)
Definition trap_end (tf : trapframe) : K unit :=
  k <- must_exit tf;; whenM k exit.

(** [trap] of a process that comes back from [yield]. *)
Definition trap_yield_return (tf : trapframe) : K unit :=
  yield_return;;; trap_end tf.

(** The [switch] of [trap].  [cs] are the characters the keyboard or serial
    driver has ready, [cr2] the faulting address. *)
Definition trap_dispatch (tf : trapframe) (cs : list Z) (cr2 : Z) : K unit :=
  cpu <- gets k_cpu;;
  let no := tf_trapno tf in
  let intr := d <- consoleintr cs;; whenM d procdump in
  if no =? T_IRQ0 + IRQ_TIMER then
    whenM (cpu =? 0)
      (acquire L_ticks;;;
       modify (fun s => s <| k_ticks ::= fun t => u32 (t + 1) |>);;;
       wakeup C_ticks;;;
       release L_ticks)
  else if no =? T_IRQ0 + IRQ_IDE then ret tt (* memide.c: ideintr does nothing *)
  else if no =? T_IRQ0 + IRQ_IDE + 1 then ret tt
  else if no =? T_IRQ0 + IRQ_KBD then intr
  else if no =? T_IRQ0 + IRQ_COM1 then intr
  else if (no =? T_IRQ0 + 7) || (no =? T_IRQ0 + IRQ_SPURIOUS) then
    cprintf ("cpu%d: spurious interrupt at %x:%x" +:+ nl)
      [A_int cpu; A_int (tf_cs tf); A_int (tf_eip tf)]
  else
    c <- gets k_cur;;
    match c with
    | Some i =>
        if Z.land (tf_cs tf) 3 =? 0 then
          cprintf ("unexpected trap %d from cpu %d eip %x (cr2=0x%x)" +:+ nl)
            (A_int <$> [no; cpu; tf_eip tf; cr2]);;;
          panic "trap"
        else
          p <- get_proc i;;
          cprintf ("pid %d %s: trap %d err %d on cpu %d " +:+
                   "eip 0x%x addr 0x%x--kill proc" +:+ nl)
            [A_int (p_pid p); A_str (Some (until_zero (p_name p))); A_int no;
             A_int (tf_err tf); A_int cpu; A_int (tf_eip tf); A_int cr2];;;
          upd_proc i (fun p => p <| p_killed := 1 |>)
    | None =>
        cprintf ("unexpected trap %d from cpu %d eip %x (cr2=0x%x)" +:+ nl)
          (A_int <$> [no; cpu; tf_eip tf; cr2]);;;
        panic "trap"
    end.

Definition trap (tf : trapframe) (cs : list Z) (cr2 : Z) : K unit :=
  if tf_trapno tf =? T_SYSCALL then
    i <- myproc;;
    p <- get_proc i;;
    whenM (ctrue (p_killed p)) exit;;;
    upd_proc i (fun p => p <| p_tf := tf |>);;;
    syscall;;;
    p <- get_proc i;;
    whenM (ctrue (p_killed p)) exit
  else
    trap_dispatch tf cs cr2;;;
    k <- must_exit tf;;
    whenM k exit;;;
    c <- gets k_cur;;
    match c with
    | Some i =>
        p <- get_proc i;;
        whenM (bool_decide (p_state p = RUNNING)
               && (tf_trapno tf =? T_IRQ0 + IRQ_TIMER)) yield
    | None => ret tt
    end;;;
    trap_end tf.

End Trap.
