(* ===== verification/Ptable.v ===== *)
(** The process table invariant [kinv] and the proof rules for it.

    [kinv] says that live processes have positive ids below [nextpid], that no
    two slots hold the same id (a slot may keep the id of a process whose
    creation failed), that init has not exited, and that a parent pointer always leads to a process
    that has started and has not exited.  [triple P m Q] is the rule format:
    code that only wakes processes keeps every [Stable] assertion, and the
    updates that start or end the life of a process have a lemma each. *)
From S2P Require Import Prelude Kstate Sched.

(** * The invariant *)

Definition live (p : proc) : Prop := p_state p <> UNUSED.
Definition alive (p : proc) : Prop :=
  match p_state p with UNUSED | EMBRYO | ZOMBIE => False | _ => True end.

(** The process at [i] satisfies [P]. *)
Definition proc_at (P : proc -> Prop) (i : nat) (s : kstate) : Prop :=
  exists p, k_procs s !! i = Some p /\ P p.

(** What the invariant may record besides: a process that waits for the CPU,
    and the process the CPU runs.  By default it records neither. *)
Class Watch : Type := mkWatch { waiter : option nat; runner : option (option nat) }.
Definition no_watch : Watch := mkWatch None None.

Record kinv `{W : Watch} (s : kstate) : Prop := mkInv {
  kv_len : length (k_procs s) = NPROC;
  kv_next : 0 < k_nextpid s;
  kv_pid : forall i p, k_procs s !! i = Some p ->
    0 <= p_pid p < k_nextpid s /\ (live p -> p_pid p <> 0);
  kv_uniq : forall i j p q, k_procs s !! i = Some p -> k_procs s !! j = Some q ->
    p_pid p = p_pid q -> p_pid p <> 0 -> i = j;
  kv_init : forall i, k_initproc s = Some i ->
    exists p, k_procs s !! i = Some p /\ alive p;
  kv_parent : forall i p j, k_procs s !! i = Some p -> p_parent p = Some j ->
    live p /\ exists q, k_procs s !! j = Some q /\ alive q;
  kv_wait : forall i, waiter = Some i -> proc_at (fun p => p_state p = RUNNABLE) i s;
  kv_run : forall o, runner = Some o -> k_cur s = o;
}.
#[export] Existing Instance no_watch | 10.

Section Ptable.
Context `{W : Watch}.

(** The CPU's process, if there is one, is in state [RUNNING]. *)
Definition cur_ok (s : kstate) : Prop :=
  forall i, k_cur s = Some i -> proc_at (fun p => p_state p = RUNNING) i s.

(** What holds whenever a process, or the scheduler, runs kernel code. *)
Definition good (s : kstate) : Prop := kinv s /\ cur_ok s.

(** ** Steps that leave ids, parents and life alone *)

Definition same_life (p p' : proc) : Prop :=
  p_pid p' = p_pid p /\ p_parent p' = p_parent p /\
  (live p' <-> live p) /\ (alive p' <-> alive p) /\
  (p_state p = RUNNABLE -> p_state p' = RUNNABLE).
Definition mild (p p' : proc) : Prop :=
  same_life p p' /\ (p_state p <> SLEEPING -> p_state p' = p_state p).

Definition tab_frame (s s' : kstate) : Prop :=
  k_nextpid s' = k_nextpid s /\ k_initproc s' = k_initproc s /\ k_cur s' = k_cur s /\
  Forall2 mild (k_procs s) (k_procs s').

Lemma mild_refl p : mild p p.
Proof. done. Qed.

Lemma woken_mild p p' : woken p p' -> mild p p'.
Proof.
  intros [->|[E ->]]; [done|]. unfold mild, same_life, live, alive; cbn. rewrite E. repeat split; congruence || done.
Qed.

Lemma sys_tab_frame s s' : sys_frame s s' -> tab_frame s s'.
Proof.
  intros [Hc Hp]. injection Hc as ? ? ? ? ? ? ? ?. repeat split; try done.
  eapply Forall2_impl; [done|]. apply woken_mild.
Qed.

Lemma tab_frame_forth s s' i p :
  tab_frame s s' -> k_procs s !! i = Some p ->
  exists p', k_procs s' !! i = Some p' /\ mild p p'.
Proof. intros (_ & _ & _ & Hp) H. by eapply Forall2_lookup_l. Qed.

(** A predicate on processes that mild changes keep. *)
Definition steady (P : proc -> Prop) : Prop := forall p p', mild p p' -> P p -> P p'.

Lemma proc_at_frame P i s s' :
  steady P -> tab_frame s s' -> proc_at P i s -> proc_at P i s'.
Proof.
  intros HP Hf (p & H & Hp). destruct (tab_frame_forth _ _ _ _ Hf H) as (p' & H' & Hm).
  exists p'. split; [done|]. by eapply HP.
Qed.

Lemma steady_alive : steady alive.
Proof. intros p p' [(_ & _ & _ & H & _) _]. tauto. Qed.
Lemma steady_state st : st <> SLEEPING -> steady (fun p => p_state p = st).
Proof. intros Hne p p' [_ H] <-. auto. Qed.

Lemma kinv_same s s' :
  k_nextpid s' = k_nextpid s -> k_initproc s' = k_initproc s ->
  (runner <> None -> k_cur s' = k_cur s) ->
  Forall2 same_life (k_procs s) (k_procs s') -> kinv s -> kinv s'.
Proof.
  intros Hn Hi Hr Hp [Hlen Hnext Hpid Huniq Hinit Hpar Hwait Hrun].
  assert (Hback : forall i p', k_procs s' !! i = Some p' ->
            exists p, k_procs s !! i = Some p /\ same_life p p')
    by (intros i p' H; by eapply Forall2_lookup_r).
  assert (Hal : forall i, proc_at alive i s -> proc_at alive i s').
  { intros i (p & H & A). destruct (Forall2_lookup_l _ _ _ _ _ Hp H) as (p' & H' & _ & _ & _ & Ha & _).
    exists p'. tauto. }
  split.
  - rewrite <- Hlen. symmetry. by eapply Forall2_length.
  - congruence.
  - intros i p' H'. destruct (Hback _ _ H') as (p & H & Hs & _ & Hl & _).
    rewrite Hs, Hn. destruct (Hpid _ _ H). split; [done|]. intros L. by apply Hl in L; auto.
  - intros i j p' q' Hp' Hq' E Hne.
    destruct (Hback _ _ Hp') as (p & H & Hs & _).
    destruct (Hback _ _ Hq') as (q & Hq & Hsq & _).
    eapply (Huniq i j p q); eauto; congruence.
  - intros i. rewrite Hi. intros H%Hinit. by apply Hal.
  - intros i p' j H' E. destruct (Hback _ _ H') as (p & H & _ & Hs & Hl & _).
    rewrite Hs in E. destruct (Hpar _ _ _ H E) as (L & Hq). split; [by apply Hl|].
    by apply Hal.
  - intros i Hi'. destruct (Hwait i Hi') as (p & H & Hst).
    destruct (Forall2_lookup_l _ _ _ _ _ Hp H) as (p' & H' & _ & _ & _ & _ & Hs). exists p'. auto.
  - intros i Hi'. rewrite Hr; [by apply Hrun|congruence].
Qed.

Lemma kinv_frame s s' : tab_frame s s' -> kinv s -> kinv s'.
Proof.
  intros (Hn & Hi & Hc & Hp). apply kinv_same; [done..|].
  eapply Forall2_impl; [done|]. by intros ? ? [].
Qed.

Lemma cur_ok_frame s s' : tab_frame s s' -> cur_ok s -> cur_ok s'.
Proof.
  intros Hf Hc i Hi. apply (proc_at_frame _ i s s'); [by apply steady_state|done|].
  apply Hc. destruct Hf as (_ & _ & Hcur & _). congruence.
Qed.

Lemma Forall2_alter {A} (P : A -> A -> Prop) (f : A -> A) i (l : list A) :
  (forall x, P x x) -> (forall x, l !! i = Some x -> P x (f x)) ->
  Forall2 P l (alter f i l).
Proof.
  intros Hr Hf. apply Forall2_same_length_lookup. split; [by rewrite length_alter|].
  intros j x y Hx Hy. destruct (decide (i = j)) as [->|Hne].
  - rewrite list_lookup_alter_eq, Hx in Hy. injection Hy as <-. auto.
  - rewrite list_lookup_alter_ne in Hy by done. rewrite Hx in Hy. by injection Hy as <-.
Qed.

Lemma tab_frame_alter i f s :
  (forall p, k_procs s !! i = Some p -> mild p (f p)) ->
  tab_frame s (s <| k_procs ::= alter f i |>).
Proof. intros Hf. repeat split; try done. cbn. by apply Forall2_alter. Qed.

(** Going to sleep. *)
Lemma kinv_sleep s s' : good s -> sys_slept s s' -> kinv s'.
Proof.
  intros [Hk Hc] (i & ch & s1 & Hi & Hf & Hcore & _ & Hp).
  apply sys_tab_frame in Hf. injection Hcore as ? ? ? ? ? ? ? ?.
  pose proof Hf as (Hn1 & Hi1 & Hc1 & _).
  assert (Hr : proc_at (fun p => p_state p = RUNNING) i s1).
  { apply (cur_ok_frame s s1); [done..|congruence]. }
  destruct Hr as (p & Hr & Hrun).
  apply (kinv_same s1); [congruence..| |by eapply kinv_frame].
  rewrite Hp. apply Forall2_alter; [done|].
  intros q Hq. assert (q = p) as -> by congruence.
  unfold same_life, live, alive; cbn. rewrite Hrun. repeat split; congruence || done.
Qed.

(** * Triples *)

(** From a state satisfying [P], [m] returns in [Q], and the state it leaves
    to the scheduler satisfies the invariant. *)
Definition triple {A} (P : kstate -> Prop) (m : K A) (Q : A -> kstate -> Prop) : Prop :=
  forall s, P s -> match m s with
                   | Ret a s' => Q a s'
                   | Switch s' => kinv s'
                   | _ => True
                   end.

Lemma triple_bind {A B} P (m : K A) Q (f : A -> K B) R :
  triple P m Q -> (forall a, triple (Q a) (f a) R) -> triple P (bind m f) R.
Proof.
  intros Hm Hf s Hs. specialize (Hm s Hs). unfold bind.
  destruct (m s) as [a s1| | | |]; try done. by apply Hf.
Qed.

Lemma triple_weaken {A} (P P' : kstate -> Prop) (m : K A) (Q Q' : A -> kstate -> Prop) :
  (forall s, P' s -> P s) -> (forall a s, Q a s -> Q' a s) ->
  triple P m Q -> triple P' m Q'.
Proof.
  intros HP HQ Hm s Hs. specialize (Hm s (HP s Hs)). destruct (m s); auto.
Qed.

Lemma triple_ret {A} (P : kstate -> Prop) (a : A) (Q : A -> kstate -> Prop) :
  (forall s, P s -> Q a s) -> triple P (ret a) Q.
Proof. intros H s Hs. by apply H. Qed.

(** Predicates that code which only wakes processes and changes their other
    fields keeps. *)
Class Stable (P : kstate -> Prop) : Prop := {
  st_frame : forall s s', tab_frame s s' -> P s -> P s';
  st_sleep : forall s s', P s -> sys_slept s s' -> kinv s';
}.

Definition pres (P : kstate -> Prop) (s s' : kstate) : Prop := P s -> P s'.
Definition leaves (P : kstate -> Prop) (s s' : kstate) : Prop := P s -> kinv s'.

#[export] Instance pres_Frame P : Frame (pres P) (leaves P).
Proof. split; unfold pres, leaves; auto. Qed.


Lemma triple_keeps {A} P (m : K A) :
  Keeps (pres P) (leaves P) m -> triple P m (fun _ => P).
Proof. intros Hm s Hs. specialize (Hm s). destruct (m s); auto. Qed.
Lemma keeps_triple {A} P (m : K A) :
  triple P m (fun _ => P) -> Keeps (pres P) (leaves P) m.
Proof. intros Hm s. specialize (Hm s). destruct (m s); auto. Qed.

Lemma keeps_sys {A} P (m : K A) `{!Stable P} :
  SysKeeps m -> Keeps (pres P) (leaves P) m.
Proof.
  apply keeps_weaken.
  - intros s s' H Hs. eapply st_frame, Hs. by apply sys_tab_frame.
  - intros s s' H Hs. by eapply st_sleep.
Qed.

Lemma keeps_upd P i f `{!Stable P} :
  (forall p, mild p (f p)) -> Keeps (pres P) (leaves P) (upd_proc i f).
Proof. intros Hf s Hs. eapply st_frame, Hs. by apply tab_frame_alter. Qed.

Lemma keeps_hw P f `{!Stable P} :
  (forall s, tab_frame s (f s)) -> Keeps (pres P) (leaves P) (modify f).
Proof. intros Hf s Hs. by eapply st_frame, Hs. Qed.
Lemma tab_frame_same s s' :
  k_nextpid s' = k_nextpid s -> k_initproc s' = k_initproc s -> k_cur s' = k_cur s ->
  k_procs s' = k_procs s -> tab_frame s s'.
Proof.
  intros ? ? ? E. repeat split; try done. rewrite E. apply Forall2_same_length_lookup.
  split; [done|]. intros i x y Hx Hy. rewrite Hx in Hy. by injection Hy as <-.
Qed.

#[export] Instance good_Stable : Stable good.
Proof.
  split.
  - intros s s' Hf [H1 H2]. split; [by eapply kinv_frame|by eapply cur_ok_frame].
  - apply kinv_sleep.
Qed.

End Ptable.

#[export] Typeclasses Opaque pres leaves good.
#[export] Hint Extern 5 (Keeps (pres _) (leaves _) _) =>
  apply keeps_sys; [apply _|apply _] : typeclass_instances.
#[export] Hint Extern 1 (Keeps (pres _) (leaves _) (upd_proc _ _)) =>
  apply keeps_upd; [apply _|intros ?; split_and!; reflexivity || done] : typeclass_instances.
#[export] Hint Extern 1 (Keeps (pres _) (leaves _) (modify _)) =>
  apply keeps_hw; [apply _|intros ?; apply tab_frame_same; reflexivity] : typeclass_instances.

(** Back from the run of a computation on a state to its triple. *)
Tactic Notation "as_triple" uconstr(Q) :=
  match goal with |- forall s, ?P s -> match ?m s with _ => _ end =>
    change (triple P m Q) end.
(** Passes the first operation of a computation, which keeps the assertion. *)
Tactic Notation "hstep" simple_intropattern(x) :=
  eapply triple_bind; [apply triple_keeps; solve_keeps|intros x].
(** The whole rest keeps the assertion. *)
Ltac hkeeps := apply triple_keeps; solve_keeps.

(** ** Predicates on the current process and on named processes *)

Section Current.
Context `{W : Watch}.

Definition with_cur (o : option nat) (s : kstate) : Prop := good s /\ k_cur s = o.

(** [P], and the process [o] points to satisfies [Q]. *)
Definition having (P : kstate -> Prop) (o : option nat) (Q : proc -> Prop)
    (s : kstate) : Prop :=
  P s /\ forall i, o = Some i -> proc_at Q i s.

Definition embryo (p : proc) : Prop := p_state p = EMBRYO.
Definition fresh (p : proc) : Prop := p_state p = EMBRYO /\ p_parent p = None.
Definition zombie (p : proc) : Prop := p_state p = ZOMBIE.

End Current.
#[export] Typeclasses Opaque with_cur having.
Existing Class steady.
#[export] Existing Instance steady_alive.
#[export] Instance steady_embryo : steady embryo.
Proof. by apply steady_state. Qed.
#[export] Instance steady_zombie : steady zombie.
Proof. by apply steady_state. Qed.
#[export] Instance steady_fresh : steady fresh.
Proof. intros p p' [(_ & H & _) Hs] [E1 E2]. split; [rewrite Hs; congruence|congruence]. Qed.


Section Updates.
Context `{W : Watch}.

#[export] Instance with_cur_Stable o : Stable (with_cur o).
Proof.
  split.
  - intros s s' Hf [H1 H2]. split; [by eapply st_frame, H1|].
    destruct Hf as (_ & _ & Hc & _). congruence.
  - intros s s' [H _]. by apply kinv_sleep.
Qed.
#[export] Instance having_Stable P o Q `{!Stable P, !steady Q} : Stable (having P o Q).
Proof.
  split.
  - intros s s' Hf [H1 H2]. split; [by eapply st_frame, H1|].
    intros i Hi. eapply proc_at_frame; eauto.
  - intros s s' [H _]. by apply st_sleep.
Qed.

(** ** Updates of one process that change its life *)

Section Replace.
Context (s s' : kstate) (i : nat) (p p' : proc).
Context (Hk : kinv s) (Hp : k_procs s !! i = Some p).
Context (Hprocs : k_procs s' = <[i := p']> (k_procs s)).

Lemma replace_lookup j q :
  k_procs s' !! j = Some q <-> (j = i /\ q = p') \/ (j <> i /\ k_procs s !! j = Some q).
Proof.
  rewrite Hprocs. destruct (decide (i = j)) as [->|Hne].
  - rewrite list_lookup_insert_eq by (by eapply lookup_lt_Some).
    split; [intros [= <-]; auto|by intros [[_ ->]|[]]].
  - rewrite list_lookup_insert_ne by done. split; [auto|by intros [[]|[]]].
Qed.

Lemma replace_proc_at P j :
  proc_at P j s -> (j = i -> P p') -> proc_at P j s'.
Proof.
  intros (q & Hq & HP) H. destruct (decide (j = i)) as [->|Hne].
  - exists p'. split; [|by apply H]. apply replace_lookup. auto.
  - exists q. split; [|done]. apply replace_lookup. auto.
Qed.

Lemma cur_ok_replace :
  k_cur s' = k_cur s -> (k_cur s = Some i -> p_state p' = RUNNING) -> cur_ok s -> cur_ok s'.
Proof.
  intros Hc Hr Hok j. rewrite Hc. intros Hj. apply replace_proc_at; [by apply Hok|].
  intros ->. auto.
Qed.

(** The new process keeps its id, drops it, or takes the next one; one that
    dies is neither init nor anybody's parent; its parent has not exited. *)
Lemma kinv_replace :
  k_initproc s' = k_initproc s -> k_nextpid s <= k_nextpid s' -> (runner <> None -> k_cur s' = k_cur s) ->
  (waiter = Some i -> p_state p = RUNNABLE -> p_state p' = RUNNABLE) ->
  ((p_pid p' = p_pid p /\ (live p' -> live p)) \/ (p_pid p' = 0 /\ ~ live p') \/
   (p_pid p' = k_nextpid s /\ k_nextpid s < k_nextpid s')) ->
  (alive p -> alive p' \/ (k_initproc s <> Some i /\
     forall j q, k_procs s !! j = Some q -> p_parent q <> Some i)) ->
  (forall j, p_parent p' = Some j -> live p' /\ proc_at alive j s /\ (j = i -> alive p')) ->
  kinv s'.
Proof.
  intros Hi Hn Hcur Hrun Hid Halive Hpar. pose proof Hk as [Klen Knext Kpid Kuniq Kinit Kpar Kwait Krun].
  assert (Hnew : p_pid p' = 0 \/ p_pid p' = p_pid p \/ p_pid p' = k_nextpid s) by intuition.
  split.
  - by rewrite Hprocs, length_insert.
  - lia.
  - intros j q [[-> ->]|[_ H]]%replace_lookup.
    2:{ destruct (Kpid _ _ H). split; [lia|done]. }
    destruct (Kpid _ _ Hp) as [Hb Hl].
    destruct Hid as [[-> HL]|[[-> HL]|[-> HL]]]; (split; [lia|]); auto. lia.
  - intros j k q r [[-> ->]|[Hj Hq]]%replace_lookup [[-> ->]|[Hk' Hr]]%replace_lookup E Hne;
      [done| | |by eapply Kuniq].
    + destruct (Kpid _ _ Hr) as [Hb _]. destruct Hnew as [|[E'|E']]; [lia| |lia].
      eapply Kuniq; eauto; congruence.
    + destruct (Kpid _ _ Hq) as [Hb _]. destruct Hnew as [|[E'|E']]; [lia| |lia].
      eapply Kuniq; eauto; congruence.
  - intros j. rewrite Hi. intros Hj. destruct (Kinit j Hj) as (q & Hq & A).
    apply replace_proc_at; [by exists q|]. intros ->.
    assert (q = p) as -> by congruence. destruct (Halive A) as [|[]]; done.
  - intros j q k [[-> ->]|[Hj Hq]]%replace_lookup E.
    + destruct (Hpar _ E) as (L & A & Hself). split; [done|]. by apply replace_proc_at.
    + destruct (Kpar _ _ _ Hq E) as (L & r & Hr & A). split; [done|].
      apply replace_proc_at; [by exists r|]. intros ->.
      assert (r = p) as -> by congruence. destruct (Halive A) as [|[_ No]]; [done|].
      by destruct (No _ _ Hq).
  - intros j Hj. destruct (Kwait j Hj) as (q & Hq & E). apply replace_proc_at; [by exists q|].
    intros ->. apply Hrun; congruence.
  - intros j Hj. rewrite Hcur; [by apply Krun|congruence].
Qed.
End Replace.

(** A process that is not alive, and is not the current one, becomes [f p]. *)
Lemma triple_revive o i f (Q : proc -> Prop) :
  (forall p, Q p -> ~ alive p) ->
  (forall p, Q p -> (p_pid (f p) = p_pid p /\ (live (f p) -> live p)) \/
                    (p_pid (f p) = 0 /\ ~ live (f p))) ->
  (forall s p j, with_cur o s -> k_procs s !! i = Some p -> Q p ->
     p_parent (f p) = Some j -> live (f p) /\ proc_at alive j s) ->
  triple (having (with_cur o) (Some i) Q) (upd_proc i f) (fun _ => with_cur o).
Proof.
  intros Hdead Hlive Hpar s [[[Hk Hc] Ho] Hi]. destruct (Hi i eq_refl) as (p & Hp & HQ).
  unfold upd_proc, modify. pose proof (list_alter_at f i p _ Hp) as Halt.
  split; [split|done].
  - eapply (kinv_replace s _ i p (f p)); cbn; try done.
    + intros _ E. destruct (Hdead _ HQ). unfold alive. by rewrite E.
    + destruct (Hlive _ HQ); auto.
    + intros A. by destruct (Hdead _ HQ).
    + intros j Hj. destruct (Hpar s p j) as [L A]; try done. split_and!; try done.
      intros ->. destruct A as (q & Hq & A). assert (q = p) as -> by congruence.
      by destruct (Hdead _ HQ).
  - eapply (cur_ok_replace s _ i p (f p)); cbn; try done.
    intros Hcur. destruct (Hc _ Hcur) as (q & Hq & E). assert (q = p) as -> by congruence.
    destruct (Hdead _ HQ). unfold alive. by rewrite E.
Qed.

End Updates.

(** Recording more, or something else. *)
Lemma kinv_watch (W W' : Watch) s :
  kinv (W := W) s ->
  (forall i, waiter (Watch := W') = Some i -> proc_at (fun p => p_state p = RUNNABLE) i s) ->
  (forall o, runner (Watch := W') = Some o -> k_cur s = o) ->
  kinv (W := W') s.
Proof. intros []. by split. Qed.

(** * The invariant as a program *)

Definition is_live (p : proc) : bool := negb (bool_decide (p_state p = UNUSED)).
Definition is_alive (p : proc) : bool :=
  match p_state p with UNUSED | EMBRYO | ZOMBIE => false | _ => true end.
Definition alive_at (s : kstate) (i : nat) : bool :=
  match k_procs s !! i with Some p => is_alive p | None => false end.

Definition kinv_check (s : kstate) : bool :=
  (length (k_procs s) =? NPROC)%nat && (0 <? k_nextpid s) &&
  forallb (fun p => (0 <=? p_pid p) && (p_pid p <? k_nextpid s) &&
                    (negb (is_live p) || negb (p_pid p =? 0))) (k_procs s) &&
  bool_decide (NoDup (p_pid <$> filter (fun p => p_pid p <> 0) (k_procs s))) &&
  match k_initproc s with None => true | Some i => alive_at s i end &&
  forallb (fun p => match p_parent p with
                    | None => true
                    | Some j => is_live p && alive_at s j
                    end) (k_procs s).

Lemma is_live_spec p : is_live p = true <-> live p.
Proof. unfold is_live, live. case_bool_decide; cbn; split; congruence. Qed.
Lemma is_alive_spec p : is_alive p = true <-> alive p.
Proof. unfold is_alive, alive. destruct (p_state p); split; done. Qed.
Lemma alive_at_spec s i : alive_at s i = true <-> proc_at alive i s.
Proof.
  unfold alive_at, proc_at. destruct (k_procs s !! i) as [p|].
  - rewrite is_alive_spec. split; [eauto|by intros (q & [= <-] & H)].
  - split; [done|by intros (q & ? & _)].
Qed.

Lemma NoDup_filter_inj {A B} (f : A -> B) P `{!forall x, Decision (P x)} (l : list A) i j x y :
  NoDup (f <$> filter P l) -> l !! i = Some x -> l !! j = Some y -> P x -> P y ->
  f x = f y -> i = j.
Proof.
  revert i j. induction l as [|a l IH]; intros i j Hnd Hi Hj Px Py E; [done|].
  assert (Hin : forall k z, l !! k = Some z -> P z -> f z ∈ f <$> filter P l).
  { intros k z Hk Pz. apply list_elem_of_fmap. exists z. split; [done|].
    apply list_elem_of_filter. split; [done|]. by eapply list_elem_of_lookup_2. }
  destruct (decide (P a)) as [Pa|Pa].
  2:{ rewrite filter_cons_False in Hnd by done.
      destruct i, j; simpl in *; simplify_eq; try done. f_equal. by eapply IH. }
  rewrite filter_cons_True in Hnd by done. apply NoDup_cons in Hnd as [Hna Hnd].
  destruct i, j; simpl in *; simplify_eq; try done.
  - destruct Hna. rewrite E. by eapply Hin.
  - destruct Hna. rewrite <- E. by eapply Hin.
  - f_equal. by eapply IH.
Qed.

Lemma kinv_check_sound s : kinv_check s = true -> kinv s.
Proof.
  unfold kinv_check. rewrite !andb_true_iff, !forallb_forall, Nat.eqb_eq, Z.ltb_lt.
  intros (((((Hlen & Hn) & Hpid) & Hnd%bool_decide_eq_true) & Hinit) & Hpar).
  assert (Hin : forall i p, k_procs s !! i = Some p -> In p (k_procs s)).
  { intros i p H. apply list_elem_of_In. by eapply list_elem_of_lookup_2. }
  split; try done.
  - intros i p H. specialize (Hpid p (Hin _ _ H)).
    rewrite !andb_true_iff, orb_true_iff in Hpid. split; [lia|].
    intros L%is_live_spec. rewrite L in Hpid. simpl in Hpid. lia.
  - intros i j p q Hi Hj E Hne.
    apply (NoDup_filter_inj _ _ _ _ _ _ _ Hnd Hi Hj); congruence.
  - intros i Hi. rewrite Hi in Hinit. by apply alive_at_spec.
  - intros i p j H E. specialize (Hpar p (Hin _ _ H)). rewrite E in Hpar.
    apply andb_true_iff in Hpar as [L%is_live_spec A%alive_at_spec]. done.
Qed.
