(* ===== verification/Kinv.v ===== *)
(** Every entry into the kernel keeps the process table invariant [kinv]:
    [trap] (so every system call, fault and interrupt), the resumption of the
    calls that sleep, and the scheduler; and so every state reachable by these
    steps from the one [userinit] builds satisfies it. *)
From S2P Require Import Prelude Kstate Mem Cprintf Kalloc Sched Vm Sleeplock Bio Log Inode.
From S2P Require Import Console Dir Pipe File Proc Exec Sysproc Sysfile Trap Ptable.

(** Instances are found by the name of the operation. *)
#[export] Typeclasses Opaque
  allocproc set_name make_runnable userinit growproc dup_ofiles release_embryo fork
  share_ofiles clone_parent clone join_reap join_scan join_locked join join_return
  unlink_ofile_clone unlink_cwd_clone exit_files exit_cwd reparent exit_locked exit
  wait_reap wait_skips wait_scan wait_locked wait wait_return sched_pick sched_back
  forkret kill_where kill threadkill procdump loaduvm exec_bad exec_load push_args
  exec fetchint fetchstr argint argptr argstr or_fail sys_fork sys_exit sys_wait
  sys_kill sys_getpid sys_sbrk sys_sleep_locked sys_sleep sys_sleep_return sys_uptime
  sys_clone sys_join sys_gettgid sys_getppid sys_gettid sys_threadkill
  open_ofile_clone close_ofile_clone pwd_clone argfd fdalloc sys_dup sys_read
  sys_write sys_close store_stat sys_fstat upd_nlink sys_link isdirempty sys_unlink
  create sys_open sys_mkdir sys_mknod sys_chdir exec_args sys_exec sys_pipe set_eax
  syscall must_exit trap_end trap_yield_return trap_dispatch trap.

Section Kinv.
Context `{KL : KernelLayout} `{W : Watch}.

(** * Allocation *)

(** The slot [allocproc] takes, up to the release of the lock. *)
Lemma alloc_slot_good o i p s (s' : kstate) :
  with_cur o s -> k_procs s !! i = Some p -> p_state p = UNUSED ->
  k_procs s' = alter (fun p => p <| p_pid := k_nextpid s |>) i
                 (alter (fun p => p <| p_isThread := 0 |> <| p_state := EMBRYO |>) i
                    (k_procs s)) ->
  k_nextpid s' = k_nextpid s + 1 -> k_initproc s' = k_initproc s -> k_cur s' = k_cur s ->
  having (with_cur o) (Some i) fresh s'.
Proof.
  intros [[Hk Hc] Ho] Hp Hu Hprocs Hn Hi Hcur.
  set (p' := p <| p_isThread := 0 |> <| p_state := EMBRYO |> <| p_pid := k_nextpid s |>).
  assert (Hpar : p_parent p = None).
  { destruct (p_parent p) as [j|] eqn:E; [|done].
    by destruct (proj1 (kv_parent _ Hk _ _ _ Hp E)). }
  assert (Hp' : k_procs s' = <[i := p']> (k_procs s)).
  { rewrite Hprocs, list_alter_alter_eq. by rewrite (list_alter_at _ i p). }
  assert (Hat : k_procs s' !! i = Some p').
  { rewrite Hp'. apply list_lookup_insert_eq. by eapply lookup_lt_Some. }
  split; [split; [split|congruence]|].
  - eapply (kinv_replace s _ i p p'); eauto; try lia.
    + congruence.
    + right. right. split; [done|lia].
    + unfold alive. by rewrite Hu.
    + cbn. by rewrite Hpar.
  - eapply (cur_ok_replace s _ i p p'); eauto. intros E.
    destruct (Hc _ E) as (q & Hq & Hr). congruence.
  - intros ? [= <-]. exists p'. by rewrite Hat.
Qed.

Definition alloc_post (o : option nat) (a : option nat) : kstate -> Prop :=
  match a with
  | None => with_cur o
  | Some np => having (with_cur o) (Some np) fresh
  end.

Lemma allocproc_triple o : triple (with_cur o) allocproc (alloc_post o).
Proof.
  unfold allocproc. hstep []. intros s Hs. mrun.
  destruct (find_index is_unused (k_procs s)) as [i|] eqn:Hf.
  2:{ clear Hf. revert s Hs. as_triple (alloc_post o). hstep []. by apply triple_ret. }
  apply find_index_Some in Hf as (p & Hp & Hu%bool_decide_eq_true & _).
  mrun. destruct (_ =? _) eqn:Hov; [done|]. mrun.
  match goal with |- context [bind _ _ ?st] => set (s1 := st) end.
  assert (H1 : having (with_cur o) (Some i) fresh s1) by (by eapply alloc_slot_good).
  clearbody s1. clear s Hs Hp Hov Hu. revert s1 H1.
  as_triple (alloc_post o).
  hstep []. hstep ks. hstep []. destruct (negb _).
  - apply triple_bind with (fun _ => with_cur o); [|intros []; by apply triple_ret].
    apply triple_revive.
    + intros q [E _] A. unfold alive in A. by rewrite E in A.
    + intros q _. left. split; [done|]. intros L. by destruct (L eq_refl).
    + cbn. intros s q j _ _ [_ E]. by rewrite E.
  - do 4 hstep []. by apply triple_ret.
Qed.

(** * fork and clone *)

#[export] Instance set_name_pres P `{!Stable P} i nm :
  Keeps (pres P) (leaves P) (set_name i nm).
Proof. unfold set_name. solve_keeps. Qed.
#[export] Instance dup_ofiles_pres P `{!Stable P} from to :
  Keeps (pres P) (leaves P) (dup_ofiles from to).
Proof. unfold dup_ofiles. solve_keeps. Qed.
#[export] Instance share_ofiles_pres P `{!Stable P} from to :
  Keeps (pres P) (leaves P) (share_ofiles from to).
Proof. unfold share_ofiles. solve_keeps. Qed.

Lemma not_alive_embryo p : p_state p = EMBRYO -> ~ alive p.
Proof. unfold alive. intros -> []. Qed.
Lemma not_alive_zombie p : p_state p = ZOMBIE -> ~ alive p.
Proof. unfold alive. intros -> []. Qed.

(** A process without parent that is not alive goes back to [UNUSED]. *)
Lemma free_triple o i f (Q : proc -> Prop) :
  (forall p, Q p -> ~ alive p) -> (forall p, p_state (f p) = UNUSED) ->
  (forall p, p_pid (f p) = p_pid p \/ p_pid (f p) = 0) ->
  (forall p, Q p -> p_parent (f p) = None) ->
  triple (having (with_cur o) (Some i) Q) (upd_proc i f) (fun _ => with_cur o).
Proof.
  intros Hd Hu Hid Hn. apply triple_revive; [done| |].
  - intros p _. assert (~ live (f p)) by (unfold live; rewrite Hu; auto).
    destruct (Hid p); [left; split; [done|intros ?; done]|auto].
  - intros s p j _ _ HQ. by rewrite Hn.
Qed.

Lemma release_embryo_triple o np :
  triple (having (with_cur o) (Some np) fresh) (release_embryo np) (fun _ => with_cur o).
Proof.
  unfold release_embryo. hstep n. hstep [].
  apply triple_bind with (fun _ => with_cur o); [|intros []; by apply triple_ret].
  apply free_triple; [|done|by left|].
  - intros p [E _]. by apply not_alive_embryo.
  - by intros p [_ E].
Qed.

Lemma make_runnable_triple o np :
  triple (having (with_cur o) (Some np) embryo) (make_runnable np) (fun _ => with_cur o).
Proof.
  unfold make_runnable. hstep [].
  apply triple_bind with (fun _ => with_cur o); [|intros []; hkeeps].
  apply triple_revive.
  - apply not_alive_embryo.
  - intros p E. left. split; [done|]. intros _. unfold live. by rewrite E.
  - cbn. intros s p j [[Hk _] _] Hp _ Hpar. split; [done|].
    by destruct (kv_parent _ Hk _ _ _ Hp Hpar).
Qed.

(** The new process gets a parent that has not exited. *)
Lemma set_parent_triple o np par f :
  (forall p, p_state (f p) = p_state p /\ p_pid (f p) = p_pid p /\ p_parent (f p) = par) ->
  triple (having (having (with_cur o) (Some np) fresh) par alive) (upd_proc np f)
    (fun _ => having (with_cur o) (Some np) embryo).
Proof.
  intros Hf s [[[[Hk Hc] Ho] Hnp] Hpar]. destruct (Hnp np eq_refl) as (p & Hp & Hfr & _).
  unfold upd_proc, modify. destruct (Hf p) as (Hst & Hpid & Hp').
  pose proof (list_alter_at f np p _ Hp) as Halt. split; [split; [split|done]|].
  - eapply (kinv_replace s _ np p (f p)); cbn; try done.
    + intros _ E. by rewrite Hst.
    + left. split; [done|]. intros _. unfold live. by rewrite Hfr.
    + intros A. by destruct (not_alive_embryo _ Hfr).
    + intros j. rewrite Hp'. intros ->. split; [unfold live; by rewrite Hst, Hfr|].
      split; [by apply Hpar|]. intros ->. destruct (Hpar np eq_refl) as (q & Hq & A).
      assert (q = p) as -> by congruence. by destruct (not_alive_embryo _ Hfr).
  - eapply (cur_ok_replace s _ np p (f p)); cbn; try done.
    intros Hcur. destruct (Hc _ Hcur) as (q & Hq & E). congruence.
  - intros ? [= <-]. exists (f p). cbn. rewrite Halt, list_lookup_insert_eq.
    + unfold embryo. by rewrite Hst.
    + by eapply lookup_lt_Some.
Qed.

(** Code that starts with [myproc]. *)
Lemma triple_myproc {B} o (f : nat -> K B) Q :
  (forall i, o = Some i -> triple (with_cur o) (f i) Q) ->
  triple (with_cur o) (bind myproc f) Q.
Proof.
  intros Hf s Hs. unfold myproc. mrun. pose proof Hs as [_ Hc]. rewrite Hc.
  destruct o as [i|]; mrun; [|done]. by apply Hf.
Qed.

Lemma triple_pre {A} (P P' : kstate -> Prop) (m : K A) Q :
  (forall s, P' s -> P s) -> triple P m Q -> triple P' m Q.
Proof. intros. by eapply triple_weaken. Qed.

Lemma triple_post {A} P (m : K A) (Q Q' : A -> kstate -> Prop) :
  (forall a s, Q a s -> Q' a s) -> triple P m Q -> triple P m Q'.
Proof. intros. by eapply triple_weaken. Qed.

(** [allocproc], then the rest of [fork] or [clone] on the new process. *)
Lemma triple_allocproc {B} o (f : option nat -> K B) Q :
  (forall np, triple (having (with_cur o) (Some np) fresh) (f (Some np)) Q) ->
  triple (with_cur o) (f None) Q ->
  triple (with_cur o) (bind allocproc f) Q.
Proof. intros H1 H2. eapply triple_bind; [apply allocproc_triple|]. intros [np|]; [apply H1|apply H2]. Qed.

Lemma make_runnable_ret {A} o np (a : A) :
  triple (having (with_cur o) (Some np) embryo) (make_runnable np;;; ret a) (fun _ => with_cur o).
Proof.
  eapply triple_bind; [apply make_runnable_triple|]. intros []. by apply triple_ret.
Qed.

(** The current process has not exited. *)
Lemma with_cur_alive cur P :
  (forall s, P s -> with_cur (Some cur) s) -> forall s, P s -> having P (Some cur) alive s.
Proof.
  intros HP s Hs. split; [done|]. intros ? [= <-]. destruct (HP s Hs) as [[_ Hc] Ho].
  destruct (Hc _ Ho) as (p & Hp & E). exists p. split; [done|]. unfold alive. by rewrite E.
Qed.

#[export] Instance fork_pres o : Keeps (pres (with_cur o)) (leaves (with_cur o)) fork.
Proof.
  apply keeps_triple. unfold fork. apply triple_myproc. intros cur ->.
  apply triple_allocproc; [intros np|by apply triple_ret].
  hstep c. hstep pg. hstep []. destruct (negb _); [apply release_embryo_triple|].
  hstep c'. eapply triple_bind.
  - eapply triple_pre; [apply with_cur_alive|by apply set_parent_triple].
    by intros s [].
  - intros []. do 2 hstep []. hstep c''. hstep cwd. do 2 hstep []. hstep n.
    apply make_runnable_ret.
Qed.

(** Reading a process also says that its parent has not exited. *)
Lemma triple_get_parent {B} P i (f : proc -> K B) Q :
  (forall s, P s -> kinv s) ->
  (forall p, triple (having P (p_parent p) alive) (f p) Q) ->
  triple P (bind (get_proc i) f) Q.
Proof.
  intros HP Hf s Hs. unfold get_proc. mrun.
  destruct (k_procs s !! i) as [p|] eqn:Hp; mrun; [|done].
  apply (Hf p s). split; [done|]. intros j Hj.
  by destruct (kv_parent _ (HP s Hs) _ _ _ Hp Hj).
Qed.

Lemma having_kinv o np Q s : having (with_cur o) np Q s -> kinv s.
Proof. by intros [[[]]]. Qed.

Lemma clone_parent_triple cur np c flag :
  triple (having (having (with_cur (Some cur)) (Some np) fresh) (p_parent c) alive)
    (clone_parent cur c flag)
    (fun parent => having (having (with_cur (Some cur)) (Some np) fresh) parent alive).
Proof.
  unfold clone_parent. destruct (_ =? 0).
  - destruct (ctrue flag); apply triple_ret; [done|].
    intros s [H _]. apply with_cur_alive; [by intros ? []|done].
  - destruct (ctrue flag); [|by apply triple_ret].
    destruct (p_parent c) as [pa|]; [|by intros s ?].
    unfold deref. intros s [H _]. mrun. revert s H.
    apply triple_get_parent; [apply having_kinv|]. intros q. by apply triple_ret.
Qed.

#[export] Instance clone_pres o f arg stack flags :
  Keeps (pres (with_cur o)) (leaves (with_cur o)) (clone f arg stack flags).
Proof.
  apply keeps_triple. unfold clone. apply triple_myproc. intros cur ->.
  apply triple_allocproc; [intros np|by apply triple_ret].
  hstep []. hstep n. apply triple_get_parent; [apply having_kinv|intros c].
  hstep pg. hstep []. destruct (_ && _).
  { eapply triple_pre; [|apply release_embryo_triple]. by intros s []. }
  hstep []. hstep []. eapply triple_bind; [apply clone_parent_triple|intros parent].
  eapply triple_bind; [by apply set_parent_triple|intros []].
  do 2 hstep []. hstep n'. do 5 hstep []. apply make_runnable_ret.
Qed.

(** * join and wait *)

Lemma reap_triple o i f :
  (forall p, p_state (f p) = UNUSED) -> (forall p, p_pid (f p) = 0) ->
  (forall p, p_parent (f p) = None) ->
  triple (having (with_cur o) (Some i) zombie) (upd_proc i f) (fun _ => with_cur o).
Proof. intros Hu Hid Hn. apply free_triple; [apply not_alive_zombie|done|auto..]. Qed.

Lemma join_reap_triple o i :
  triple (having (with_cur o) (Some i) zombie) (join_reap i) (fun _ => with_cur o).
Proof.
  unfold join_reap. hstep p. hstep []. eapply triple_bind; [by apply reap_triple|].
  intros []. hkeeps.
Qed.
Lemma wait_reap_triple o i :
  triple (having (with_cur o) (Some i) zombie) (wait_reap i) (fun _ => with_cur o).
Proof.
  unfold wait_reap. hstep p. do 3 hstep []. eapply triple_bind; [by apply reap_triple|].
  intros []. hkeeps.
Qed.

(** Reading a process with the state it is in. *)
Lemma triple_get_proc {B} P i (f : proc -> K B) Q :
  (forall p, triple (fun s => P s /\ k_procs s !! i = Some p) (f p) Q) ->
  triple P (bind (get_proc i) f) Q.
Proof.
  intros Hf s Hs. unfold get_proc. mrun.
  destruct (k_procs s !! i) as [p|] eqn:Hp; mrun; [|done]. by apply (Hf p s).
Qed.

Lemma at_zombie P i p s :
  p_state p = ZOMBIE -> P s /\ k_procs s !! i = Some p -> having P (Some i) zombie s.
Proof. intros Hz [HP Hp]. split; [done|]. intros ? [= <-]. by exists p. Qed.

Lemma join_scan_triple o pid me l hk :
  triple (with_cur o) (join_scan pid me l hk) (fun _ => with_cur o).
Proof.
  revert hk. induction l as [|i l IH]; intros hk; [by apply triple_ret|]. simpl.
  apply triple_get_proc. intros p. destruct (_ =? pid); [|eapply triple_pre, IH; by intros ? []].
  unfold get_proc. intros s Hs. mrun. destruct (k_procs s !! me) as [m|]; mrun; [|done].
  destruct (_ || _).
  { destruct Hs as [Hs _]. revert s Hs. hkeeps. }
  case_bool_decide as Hz; [|destruct Hs as [Hs _]; by apply IH].
  apply (at_zombie _ _ _ _ Hz) in Hs. revert s Hs.
  eapply triple_bind; [apply join_reap_triple|]. intros r. by apply triple_ret.
Qed.

#[export] Instance wait_skips_sys cur c p : SysKeeps (wait_skips cur c p).
Proof. unfold wait_skips. solve_keeps. Qed.

Lemma wait_skips_state cur c p s b s' : wait_skips cur c p s = Ret b s' -> s' = s.
Proof.
  unfold wait_skips, get_proc. munfold. intros H.
  repeat (case_match; try done); congruence.
Qed.

Lemma wait_skips_switch cur c p s s' : wait_skips cur c p s <> Switch s'.
Proof.
  unfold wait_skips, get_proc. munfold. intros H. repeat (case_match; try done).
Qed.

Lemma wait_scan_triple o cur l hk :
  triple (with_cur o) (wait_scan cur l hk) (fun _ => with_cur o).
Proof.
  revert hk. induction l as [|i l IH]; intros hk; [by apply triple_ret|]. simpl.
  apply triple_get_proc. intros p.
  unfold get_proc. intros s Hs. mrun. destruct (k_procs s !! cur) as [c|]; mrun; [|done].
  unfold bind at 1. destruct (wait_skips cur c p s) as [b s1|s1| | |] eqn:Hw; try done.
  2:{ by apply wait_skips_switch in Hw. }
  apply wait_skips_state in Hw as ->.
  destruct b; [destruct Hs as [Hs _]; by apply IH|].
  case_bool_decide as Hz; [|destruct Hs as [Hs _]; by apply IH].
  apply (at_zombie _ _ _ _ Hz) in Hs. revert s Hs.
  eapply triple_bind; [apply wait_reap_triple|]. intros r. by apply triple_ret.
Qed.

#[export] Instance join_locked_pres o pid : Keeps (pres (with_cur o)) (leaves (with_cur o)) (join_locked pid).
Proof.
  apply keeps_triple. unfold join_locked. apply triple_myproc. intros me ->.
  eapply triple_bind; [apply join_scan_triple|]. intros r.
  hkeeps.
Qed.
#[export] Instance wait_locked_pres o : Keeps (pres (with_cur o)) (leaves (with_cur o)) wait_locked.
Proof.
  apply keeps_triple. unfold wait_locked. apply triple_myproc. intros me ->.
  eapply triple_bind; [apply wait_scan_triple|]. intros r.
  hkeeps.
Qed.
#[export] Instance sleep_return_pres P `{!Stable P} lk :
  Keeps (pres P) (leaves P) (sleep_return lk).
Proof. unfold sleep_return. solve_keeps. Qed.
#[export] Instance join_pres o pid : Keeps (pres (with_cur o)) (leaves (with_cur o)) (join pid).
Proof. unfold join. solve_keeps. Qed.
#[export] Instance wait_pres o : Keeps (pres (with_cur o)) (leaves (with_cur o)) wait.
Proof. unfold wait. solve_keeps. Qed.
#[export] Instance join_return_pres o pid : Keeps (pres (with_cur o)) (leaves (with_cur o)) (join_return pid).
Proof. unfold join_return. solve_keeps. Qed.
#[export] Instance wait_return_pres o : Keeps (pres (with_cur o)) (leaves (with_cur o)) wait_return.
Proof. unfold wait_return. solve_keeps. Qed.

(** * exit *)

#[export] Instance unlink_ofile_clone_pres P `{!Stable P} cur :
  Keeps (pres P) (leaves P) (unlink_ofile_clone cur).
Proof. unfold unlink_ofile_clone. solve_keeps. Qed.
#[export] Instance unlink_cwd_clone_pres P `{!Stable P} cur :
  Keeps (pres P) (leaves P) (unlink_cwd_clone cur).
Proof. unfold unlink_cwd_clone. solve_keeps. Qed.
#[export] Instance exit_files_pres P `{!Stable P} cur :
  Keeps (pres P) (leaves P) (exit_files cur).
Proof. unfold exit_files. solve_keeps. Qed.
#[export] Instance exit_cwd_pres P `{!Stable P} cur :
  Keeps (pres P) (leaves P) (exit_cwd cur).
Proof. unfold exit_cwd. solve_keeps. Qed.

(** The loop that gives the children of [cur] to init has passed the first
    [n] processes. *)
Definition adopted (cur n : nat) (s : kstate) : Prop :=
  with_cur (Some cur) s /\ k_initproc s <> Some cur /\
  forall j p, (j < n)%nat -> k_procs s !! j = Some p -> p_parent p <> Some cur.

#[export] Typeclasses Opaque adopted.
#[export] Instance adopted_Stable cur n : Stable (adopted cur n).
Proof.
  split.
  - intros s s' Hf (H1 & H2 & H3). split; [by eapply st_frame, H1|].
    destruct Hf as (_ & Hi & _ & Hp). split; [congruence|]. intros j p' Hj Hp'.
    destruct (Forall2_lookup_r _ _ _ _ _ Hp Hp') as (p & Hl & (_ & -> & _) & _). eauto.
  - intros s s' [[H _] _]. by apply kinv_sleep.
Qed.

Lemma triple_forM_seq (R : nat -> kstate -> Prop) (body : nat -> K unit) k n :
  (forall i, triple (R i) (body i) (fun _ => R (S i))) ->
  triple (R k) (forM (seq k n) body) (fun _ => R (k + n)%nat).
Proof.
  intros Hb. revert k. induction n as [|n IH]; intros k; simpl.
  - apply triple_ret. by rewrite Nat.add_0_r.
  - eapply triple_bind; [apply Hb|]. intros []. specialize (IH (S k)).
    by rewrite Nat.add_succ_r.
Qed.

Lemma adopted_next cur i p s s' :
  adopted cur i s -> k_procs s !! i = Some p -> p_parent p = Some cur ->
  s' = s <| k_procs ::= alter (fun p => p <| p_parent := k_initproc s |>) i |> ->
  adopted cur (S i) s'.
Proof.
  intros ([[Hk Hc] Ho] & Hinit & Hno) Hp Hpar ->.
  set (p' := p <| p_parent := k_initproc s |>).
  pose proof (list_alter_at (fun p => p <| p_parent := k_initproc s |>) i p _ Hp) as Halt.
  destruct (kv_parent _ Hk _ _ _ Hp Hpar) as (L & _).
  split; [split; [split|done]|split; [done|]].
  - eapply (kinv_replace s _ i p p'); cbn; try done; [by left|by left|].
    intros j Hj. destruct (kv_init _ Hk _ Hj) as (q & Hq & A). split; [done|].
    split; [by exists q|]. intros ->. by assert (q = p) as -> by congruence.
  - eapply (cur_ok_replace s _ i p p'); cbn; try done.
    intros Hcur. destruct (Hc _ Hcur) as (q & Hq & E). congruence.
  - intros j q Hj Hq. eapply (replace_lookup s _ i p p' Hp) in Hq; [|exact Halt].
    destruct Hq as [[-> ->]|[Hne Hq]]; [done|]. apply (Hno j); [lia|done].
Qed.

Lemma adopted_skip cur i p s :
  adopted cur i s -> k_procs s !! i = Some p -> p_parent p <> Some cur ->
  adopted cur (S i) s.
Proof.
  intros (H1 & H2 & H3) Hp Hne. split; [done|]. split; [done|]. intros j q Hj Hq.
  destruct (decide (j = i)) as [->|]; [congruence|]. apply (H3 j); [lia|done].
Qed.

Lemma reparent_triple cur :
  triple (adopted cur 0) (reparent cur) (fun _ => adopted cur NPROC).
Proof.
  unfold reparent. apply (triple_forM_seq (adopted cur)). intros i.
  apply triple_get_proc. intros p s [Hs Hp]. unfold whenM at 1.
  case_bool_decide as Hpar; [|by eapply adopted_skip]. mrun.
  match goal with |- context [whenM _ _ ?st] => set (s1 := st) end.
  assert (H1 : adopted cur (S i) s1) by (by eapply adopted_next).
  clearbody s1. clear Hs. revert s1 H1.
  generalize (k_initproc s) as init. intros init. hkeeps.
Qed.

(** Becoming a zombie. *)
Lemma zombie_kinv cur s :
  adopted cur NPROC s ->
  kinv (s <| k_procs ::= alter (fun p => p <| p_state := ZOMBIE |>) cur |>).
Proof.
  intros ([[Hk Hc] Ho] & Hinit & Hno). destruct (Hc _ Ho) as (p & Hp & E).
  pose proof (list_alter_at (fun p => p <| p_state := ZOMBIE |>) cur p _ Hp) as Halt.
  assert (Hcurlen := lookup_lt_Some _ _ _ Hp). rewrite (kv_len _ Hk) in Hcurlen.
  eapply (kinv_replace s _ cur p (p <| p_state := ZOMBIE |>)); cbn; try done.
  - congruence.
  - left. split; [done|]. intros _. unfold live. by rewrite E.
  - intros _. right. split; [done|]. intros j q Hq. apply (Hno j); [|done].
    rewrite <- (kv_len _ Hk). by eapply lookup_lt_Some.
  - intros j Hj. destruct (kv_parent _ Hk _ _ _ Hp Hj) as (_ & A). split; [done|].
    split; [done|]. intros ->. by destruct (Hno cur p Hcurlen Hp).
Qed.

#[export] Instance exit_pres o : Keeps (pres (with_cur o)) (leaves (with_cur o)) exit.
Proof.
  apply keeps_triple. unfold exit. apply triple_myproc. intros cur -> s Hs. mrun.
  case_bool_decide as Hi; [done|].
  assert (H1 : adopted cur 0 s). { split; [done|]. split; [done|]. lia. }
  clear Hs Hi. revert s H1. as_triple (fun _ => with_cur (Some cur)). do 4 hstep []. hstep [].
  unfold exit_locked. hstep c. hstep [].
  eapply triple_bind; [apply reparent_triple|]. intros [] s Hs. mrun.
  destruct (sched _) as [a s2|s2| | |] eqn:Hsw; try done.
  { by apply sched_Ret in Hsw. }
  apply sched_Switch in Hsw as [-> _]. by apply zombie_kinv.
Qed.

(** * The other operations *)

Lemma mark_killed_mild p : mild p (mark_killed p).
Proof.
  unfold mark_killed, mild, same_life, live, alive. cbn. case_bool_decide as E; [|done].
  cbn. rewrite E. repeat split; congruence || done.
Qed.

#[export] Instance kill_where_pres P `{!Stable P} f : Keeps (pres P) (leaves P) (kill_where f).
Proof.
  unfold kill_where. solve_keeps. apply keeps_upd; [done|]. apply mark_killed_mild.
Qed.
#[export] Instance kill_pres P `{!Stable P} pid : Keeps (pres P) (leaves P) (kill pid).
Proof. unfold kill. apply _. Qed.
#[export] Instance threadkill_pres P `{!Stable P} pid :
  Keeps (pres P) (leaves P) (threadkill pid).
Proof. unfold threadkill. apply _. Qed.

#[export] Instance switchuvm_pres P `{!Stable P} o : Keeps (pres P) (leaves P) (switchuvm o).
Proof. unfold switchuvm. solve_keeps. Qed.
#[export] Instance switchkvm_pres P `{!Stable P} : Keeps (pres P) (leaves P) switchkvm.
Proof. unfold switchkvm. solve_keeps. Qed.
#[export] Instance growproc_pres P `{!Stable P} n : Keeps (pres P) (leaves P) (growproc n).
Proof. unfold growproc. solve_keeps. Qed.
#[export] Instance procdump_sys : SysKeeps procdump.
Proof. unfold procdump. solve_keeps. Qed.

Lemma keeps_or_fail {A} R Q (m : K (option A)) (k : A -> K Z) `{!Frame R Q} :
  Keeps R Q m -> (forall a, Keeps R Q (k a)) -> Keeps R Q (or_fail m k).
Proof. intros Hm Hk. unfold or_fail. solve_keeps. Qed.

Ltac keeps_call :=
  repeat first
    [ match goal with |- Keeps _ _ (or_fail _ _) => apply keeps_or_fail; [apply _| |] end
    | progress cbv beta | keeps_step ].

#[export] Instance push_args_sys pgdir sp argc argv ustack :
  SysKeeps (push_args pgdir sp argc argv ustack).
Proof.
  revert sp argc ustack. induction argv; intros; simpl push_args; solve_keeps.
Qed.
#[export] Instance loaduvm_pres o pgdir addr ip offset sz : Keeps (pres (with_cur o)) (leaves (with_cur o)) (loaduvm pgdir addr ip offset sz).
Proof. unfold loaduvm. keeps_call. Qed.
#[export] Instance exec_bad_pres o pgdir ip : Keeps (pres (with_cur o)) (leaves (with_cur o)) (exec_bad pgdir ip).
Proof. unfold exec_bad. keeps_call. Qed.
#[export] Instance exec_load_pres o pgdir ip elf : Keeps (pres (with_cur o)) (leaves (with_cur o)) (exec_load pgdir ip elf).
Proof. unfold exec_load. keeps_call. Qed.
#[export] Instance exec_pres o path argv : Keeps (pres (with_cur o)) (leaves (with_cur o)) (exec path argv).
Proof. unfold exec. keeps_call. Qed.
#[export] Instance fetchint_pres o addr : Keeps (pres (with_cur o)) (leaves (with_cur o)) (fetchint addr).
Proof. unfold fetchint. keeps_call. Qed.
#[export] Instance fetchstr_pres o addr : Keeps (pres (with_cur o)) (leaves (with_cur o)) (fetchstr addr).
Proof. unfold fetchstr. keeps_call. Qed.
#[export] Instance argint_pres o n : Keeps (pres (with_cur o)) (leaves (with_cur o)) (argint n).
Proof. unfold argint. keeps_call. Qed.
#[export] Instance argptr_pres o n size : Keeps (pres (with_cur o)) (leaves (with_cur o)) (argptr n size).
Proof. unfold argptr. keeps_call. Qed.
#[export] Instance argstr_pres o n : Keeps (pres (with_cur o)) (leaves (with_cur o)) (argstr n).
Proof. unfold argstr. keeps_call. Qed.
#[export] Instance sys_fork_pres o : Keeps (pres (with_cur o)) (leaves (with_cur o)) sys_fork.
Proof. unfold sys_fork. keeps_call. Qed.
#[export] Instance sys_exit_pres o : Keeps (pres (with_cur o)) (leaves (with_cur o)) sys_exit.
Proof. unfold sys_exit. keeps_call. Qed.
#[export] Instance sys_wait_pres o : Keeps (pres (with_cur o)) (leaves (with_cur o)) sys_wait.
Proof. unfold sys_wait. keeps_call. Qed.
#[export] Instance sys_kill_pres o : Keeps (pres (with_cur o)) (leaves (with_cur o)) sys_kill.
Proof. unfold sys_kill. keeps_call. Qed.
#[export] Instance sys_getpid_pres o : Keeps (pres (with_cur o)) (leaves (with_cur o)) sys_getpid.
Proof. unfold sys_getpid. keeps_call. Qed.
#[export] Instance sys_sbrk_pres o : Keeps (pres (with_cur o)) (leaves (with_cur o)) sys_sbrk.
Proof. unfold sys_sbrk. keeps_call. Qed.
#[export] Instance sys_sleep_locked_pres o n ticks0 : Keeps (pres (with_cur o)) (leaves (with_cur o)) (sys_sleep_locked n ticks0).
Proof. unfold sys_sleep_locked. keeps_call. Qed.
#[export] Instance sys_sleep_pres o : Keeps (pres (with_cur o)) (leaves (with_cur o)) sys_sleep.
Proof. unfold sys_sleep. keeps_call. Qed.
#[export] Instance sys_sleep_return_pres o n ticks0 : Keeps (pres (with_cur o)) (leaves (with_cur o)) (sys_sleep_return n ticks0).
Proof. unfold sys_sleep_return. keeps_call. Qed.
#[export] Instance sys_uptime_pres o : Keeps (pres (with_cur o)) (leaves (with_cur o)) sys_uptime.
Proof. unfold sys_uptime. keeps_call. Qed.
#[export] Instance sys_clone_pres o : Keeps (pres (with_cur o)) (leaves (with_cur o)) sys_clone.
Proof. unfold sys_clone. keeps_call. Qed.
#[export] Instance sys_join_pres o : Keeps (pres (with_cur o)) (leaves (with_cur o)) sys_join.
Proof. unfold sys_join. keeps_call. Qed.
#[export] Instance sys_gettgid_pres o : Keeps (pres (with_cur o)) (leaves (with_cur o)) sys_gettgid.
Proof. unfold sys_gettgid. keeps_call. Qed.
#[export] Instance sys_getppid_pres o : Keeps (pres (with_cur o)) (leaves (with_cur o)) sys_getppid.
Proof. unfold sys_getppid. keeps_call. Qed.
#[export] Instance sys_gettid_pres o : Keeps (pres (with_cur o)) (leaves (with_cur o)) sys_gettid.
Proof. unfold sys_gettid. keeps_call. Qed.
#[export] Instance sys_threadkill_pres o : Keeps (pres (with_cur o)) (leaves (with_cur o)) sys_threadkill.
Proof. unfold sys_threadkill. keeps_call. Qed.

#[export] Instance open_ofile_clone_pres o fuel cur f fd :
  Keeps (pres (with_cur o)) (leaves (with_cur o)) (open_ofile_clone fuel cur f fd).
Proof. revert cur. induction fuel; intros cur; simpl open_ofile_clone; solve_keeps. Qed.
#[export] Instance close_ofile_clone_pres o fuel cur fd :
  Keeps (pres (with_cur o)) (leaves (with_cur o)) (close_ofile_clone fuel cur fd).
Proof. revert cur. induction fuel; intros cur; simpl close_ofile_clone; solve_keeps. Qed.
#[export] Instance pwd_clone_pres o fuel cur ip :
  Keeps (pres (with_cur o)) (leaves (with_cur o)) (pwd_clone fuel cur ip).
Proof. revert cur. induction fuel; intros cur; simpl pwd_clone; solve_keeps. Qed.

#[export] Instance argfd_pres o n : Keeps (pres (with_cur o)) (leaves (with_cur o)) (argfd n).
Proof. unfold argfd. keeps_call. Qed.
#[export] Instance fdalloc_pres o f : Keeps (pres (with_cur o)) (leaves (with_cur o)) (fdalloc f).
Proof. unfold fdalloc. keeps_call. Qed.
#[export] Instance sys_dup_pres o : Keeps (pres (with_cur o)) (leaves (with_cur o)) sys_dup.
Proof. unfold sys_dup. keeps_call. Qed.
#[export] Instance sys_read_pres o : Keeps (pres (with_cur o)) (leaves (with_cur o)) sys_read.
Proof. unfold sys_read. keeps_call. Qed.
#[export] Instance sys_write_pres o : Keeps (pres (with_cur o)) (leaves (with_cur o)) sys_write.
Proof. unfold sys_write. keeps_call. Qed.
#[export] Instance sys_close_pres o : Keeps (pres (with_cur o)) (leaves (with_cur o)) sys_close.
Proof. unfold sys_close. keeps_call. Qed.
#[export] Instance store_stat_pres o a st : Keeps (pres (with_cur o)) (leaves (with_cur o)) (store_stat a st).
Proof. unfold store_stat. keeps_call. Qed.
#[export] Instance sys_fstat_pres o : Keeps (pres (with_cur o)) (leaves (with_cur o)) sys_fstat.
Proof. unfold sys_fstat. keeps_call. Qed.
#[export] Instance upd_nlink_pres o i d : Keeps (pres (with_cur o)) (leaves (with_cur o)) (upd_nlink i d).
Proof. unfold upd_nlink. keeps_call. Qed.
#[export] Instance sys_link_pres o : Keeps (pres (with_cur o)) (leaves (with_cur o)) sys_link.
Proof. unfold sys_link. keeps_call. Qed.
#[export] Instance isdirempty_pres o dp : Keeps (pres (with_cur o)) (leaves (with_cur o)) (isdirempty dp).
Proof. unfold isdirempty. keeps_call. Qed.
#[export] Instance sys_unlink_pres o : Keeps (pres (with_cur o)) (leaves (with_cur o)) sys_unlink.
Proof. unfold sys_unlink. keeps_call. Qed.
#[export] Instance create_pres o path type major minor : Keeps (pres (with_cur o)) (leaves (with_cur o)) (create path type major minor).
Proof. unfold create. keeps_call. Qed.
#[export] Instance sys_open_pres o : Keeps (pres (with_cur o)) (leaves (with_cur o)) sys_open.
Proof. unfold sys_open. keeps_call. Qed.
#[export] Instance sys_mkdir_pres o : Keeps (pres (with_cur o)) (leaves (with_cur o)) sys_mkdir.
Proof. unfold sys_mkdir. keeps_call. Qed.
#[export] Instance sys_mknod_pres o : Keeps (pres (with_cur o)) (leaves (with_cur o)) sys_mknod.
Proof. unfold sys_mknod. keeps_call. Qed.
#[export] Instance sys_chdir_pres o : Keeps (pres (with_cur o)) (leaves (with_cur o)) sys_chdir.
Proof. unfold sys_chdir. keeps_call. Qed.
#[export] Instance exec_args_pres o uargv : Keeps (pres (with_cur o)) (leaves (with_cur o)) (exec_args uargv).
Proof. unfold exec_args. keeps_call. Qed.
#[export] Instance sys_exec_pres o : Keeps (pres (with_cur o)) (leaves (with_cur o)) sys_exec.
Proof. unfold sys_exec. keeps_call. Qed.
#[export] Instance sys_pipe_pres o : Keeps (pres (with_cur o)) (leaves (with_cur o)) sys_pipe.
Proof. unfold sys_pipe. keeps_call. Qed.

(** * Traps *)

#[export] Instance yield_pres o : Keeps (pres (with_cur o)) (leaves (with_cur o)) yield.
Proof.
  apply keeps_triple. unfold yield. hstep []. apply triple_myproc. intros cur -> s Hs. mrun.
  destruct (sched _) as [a s2|s2| | |] eqn:Hsw; try done.
  { by apply sched_Ret in Hsw. }
  apply sched_Switch in Hsw as [-> _]. destruct Hs as [[Hk Hc] Ho].
  destruct (Hc _ Ho) as (p & Hp & E). eapply kinv_same, Hk; try done. cbn.
  apply Forall2_alter; [done|]. intros q Hq. assert (q = p) as -> by congruence.
  unfold same_life, live, alive; cbn. rewrite E. repeat split; done.
Qed.
#[export] Instance set_eax_pres o i v : Keeps (pres (with_cur o)) (leaves (with_cur o)) (set_eax i v).
Proof. unfold set_eax. solve_keeps. Qed.

Lemma syscalls_pres o f n :
  syscalls !! n = Some (Some f) -> Keeps (pres (with_cur o)) (leaves (with_cur o)) f.
Proof.
  unfold syscalls. intros H.
  repeat (destruct n as [|n]; [by inversion H; apply _|simpl in H]). done.
Qed.
#[export] Instance syscall_pres o : Keeps (pres (with_cur o)) (leaves (with_cur o)) syscall.
Proof.
  unfold syscall. apply keeps_bind; [apply _..|]. intros i. apply keeps_bind; [apply _..|].
  intros p. cbv zeta.
  match goal with |- Keeps _ _ (match ?x with _ => _ end) => destruct x as [f|] eqn:Hf end;
    [|solve_keeps].
  apply keeps_bind; [apply _| |solve_keeps]. destruct (_ && _); [|done].
  destruct (syscalls !! _) as [[g|]|] eqn:Hg; cbn in Hf; [|done..].
  injection Hf as <-. by eapply syscalls_pres.
Qed.
#[export] Instance must_exit_pres o tf : Keeps (pres (with_cur o)) (leaves (with_cur o)) (must_exit tf).
Proof. unfold must_exit. solve_keeps. Qed.
#[export] Instance trap_end_pres o tf : Keeps (pres (with_cur o)) (leaves (with_cur o)) (trap_end tf).
Proof. unfold trap_end. solve_keeps. Qed.
#[export] Instance trap_dispatch_pres P `{!Stable P} tf cs cr2 :
  Keeps (pres P) (leaves P) (trap_dispatch tf cs cr2).
Proof. unfold trap_dispatch. solve_keeps. Qed.
#[export] Instance trap_pres o tf cs cr2 : Keeps (pres (with_cur o)) (leaves (with_cur o)) (trap tf cs cr2).
Proof. unfold trap. solve_keeps. Qed.
#[export] Instance trap_yield_return_pres o tf :
  Keeps (pres (with_cur o)) (leaves (with_cur o)) (trap_yield_return tf).
Proof. unfold trap_yield_return, yield_return. solve_keeps. Qed.
#[export] Instance forkret_pres o : Keeps (pres (with_cur o)) (leaves (with_cur o)) forkret.
Proof. unfold forkret. solve_keeps. Qed.

#[export] Instance pipewrite_return_pres P `{!Stable P} a n rest :
  Keeps (pres P) (leaves P) (pipewrite_return a n rest).
Proof. unfold pipewrite_return. solve_keeps. Qed.
#[export] Instance piperead_return_pres P `{!Stable P} a n :
  Keeps (pres P) (leaves P) (piperead_return a n).
Proof. unfold piperead_return. solve_keeps. Qed.

(** An interrupt taken while no process runs. *)
Lemma trap_idle_triple tf cs cr2 :
  triple (with_cur None) (trap tf cs cr2) (fun _ => with_cur None).
Proof.
  unfold trap. destruct (_ =? T_SYSCALL).
  - intros s [_ Hc]. unfold myproc. mrun. by rewrite Hc.
  - hstep []. unfold trap_end, must_exit. intros s Hs. pose proof Hs as [_ Hc]. mrun.
    rewrite Hc. mrun. simpl whenM. mrun. rewrite Hc. mrun. by rewrite Hc.
Qed.

(** * The scheduler *)

Lemma sched_back_kinv s s' :
  runner = None -> kinv s -> sched_back s = Ret tt s' -> kinv s' /\ k_cur s' = None.
Proof.
  intros Hrn Hk. unfold sched_back, switchkvm. munfold. intros [= <-]. split; [|done].
  eapply kinv_same, Hk; try done. cbn. apply Forall2_same_length_lookup. split; [done|].
  intros i x y Hx Hy. rewrite Hx in Hy. by injection Hy as <-.
Qed.

(** The process the scheduler resumes is now [RUNNING]. *)
Lemma sched_pick_kinv n s o s' :
  runner = None -> (waiter <> None -> o <> waiter) ->
  kinv s -> k_cur s = None -> sched_pick n s = Ret o s' -> good s' /\ k_cur s' = o.
Proof.
  intros Hrn Hw Hk Hc. unfold sched_pick. mrun. destruct (find_from _ _ _) as [i|] eqn:Hf.
  2:{ assert (Ht : triple (with_cur None) (release L_ptable;;; ret (A:=option nat) None)
                     (fun o => with_cur o)).
      { eapply triple_bind; [hkeeps|]. intros []. by apply triple_ret. }
      intros H. specialize (Ht s). rewrite H in Ht. apply Ht.
      split; [|done]. split; [done|]. intros j. by rewrite Hc. }
  apply find_from_Some in Hf as (p & Hn & Hp & Hr & _). rewrite lookup_drop in Hp.
  replace (n + (i - n))%nat with i in Hp by lia. apply bool_decide_eq_true in Hr.
  unfold switchuvm. mrun. rewrite (bind_eq (get_proc i) _ _ p (s <| k_cur := Some i |>)).
  2:{ by apply get_proc_eq. }
  destruct (negb _); [done|]. destruct (negb _); [done|]. mrun. intros [= <- <-].
  split; [split|done].
  - pose proof (list_alter_at (fun p => p <| p_state := RUNNING |>) i p _ Hp) as Halt.
    eapply (kinv_replace s _ i p (p <| p_state := RUNNING |>)); cbn; try done.
    + intros E. by destruct Hw; rewrite E.
    + left. split; [done|]. intros _. unfold live. by rewrite Hr.
    + by left.
    + intros j Hj. destruct (kv_parent _ Hk _ _ _ Hp Hj) as (_ & A). by split_and!.
  - intros j [= <-]. exists (p <| p_state := RUNNING |>). split; [|done]. cbn.
    rewrite list_lookup_alter_eq, Hp. done.
Qed.

(** * The first process *)

(** Process [i] is being built by [userinit] and is already called init. *)
Definition born (i : nat) (s : kstate) : Prop :=
  kinv (s <| k_initproc := None |>) /\ k_cur s = None /\ k_initproc s = Some i /\
  proc_at fresh i s.

#[export] Typeclasses Opaque born.
#[export] Instance born_Stable i : Stable (born i).
Proof.
  split.
  - intros s s' Hf (H1 & H2 & H3 & H4). pose proof Hf as (Hn & Hi & Hc & Hp). split_and!.
    + eapply kinv_frame, H1. repeat split; try done.
    + congruence.
    + congruence.
    + by eapply proc_at_frame; [apply steady_fresh| |].
  - intros s s' (_ & Hc & _) (j & ch & s1 & Hj & _). congruence.
Qed.

Lemma kinv_no_init s : kinv s -> kinv (s <| k_initproc := None |>).
Proof. intros []. by split. Qed.

Lemma born_runnable i :
  triple (born i) (make_runnable i) (fun _ => with_cur None).
Proof.
  unfold make_runnable. hstep []. intros s (Hk & Hc & Hi & p & Hp & Hfr & Hpar). mrun.
  set (s1 := s <| k_procs ::= _ |>).
  assert (H1 : with_cur None s1).
  { pose proof (list_alter_at (fun p => p <| p_state := RUNNABLE |>) i p _ Hp) as Halt.
    assert (Hk1 : kinv (s1 <| k_initproc := None |>)).
    { eapply (kinv_replace (s <| k_initproc := None |>) _ i p (p <| p_state := RUNNABLE |>));
        cbn; try done.
      - left. split; [done|]. intros _. unfold live. by rewrite Hfr.
      - intros A. by left.
      - by rewrite Hpar. }
    split; [split|done]; [|intros j Hj; cbn in Hj; congruence].
    destruct Hk1 as [? ? ? ? _ ?]. split; try done. intros j. cbn. rewrite Hi.
    intros [= <-]. eexists. rewrite Halt, list_lookup_insert_eq by (by eapply lookup_lt_Some).
    done. }
  clearbody s1. clear - H1. revert s1 H1. as_triple (fun _ => with_cur None). hkeeps.
Qed.

Lemma userinit_triple initcode :
  triple (with_cur None) (userinit initcode) (fun _ => with_cur None).
Proof.
  unfold userinit. apply triple_allocproc; [intros i|by intros s ?].
  unfold deref. intros s Hs. mrun. revert s Hs. as_triple (fun _ => with_cur None).
  hstep p. hstep [].
  apply triple_bind with (fun _ => born i).
  { intros s [[[Hk Hc] Ho] Hf]. unfold modify. split_and!; try done; [|by apply Hf].
    by apply kinv_no_init in Hk. }
  intros []. hstep pg. hstep []. destruct (negb _); [done|].
  do 3 hstep []. hstep cwd. hstep []. apply born_runnable.
Qed.

(** Code run for a process, and the process it runs for. *)
Lemma run_Ret {A} (m : K A) s a s' :
  (forall o, Keeps (pres (with_cur o)) (leaves (with_cur o)) m) ->
  good s -> m s = Ret a s' -> good s' /\ k_cur s' = k_cur s.
Proof. intros Hm Hs E. exact (keeps_Ret _ _ m (Keeps0 := Hm (k_cur s)) s a s' E (conj Hs eq_refl)). Qed.
Lemma run_Switch {A} (m : K A) s s' :
  (forall o, Keeps (pres (with_cur o)) (leaves (with_cur o)) m) ->
  good s -> m s = Switch s' -> kinv s'.
Proof. intros Hm Hs E. exact (keeps_Switch _ _ m (Keeps0 := Hm (k_cur s)) s s' E (conj Hs eq_refl)). Qed.

End Kinv.
