(* ===== verification/Machine.v ===== *)
(** One CPU running the kernel as a transition system: user code traps into
    the kernel, a process that leaves the CPU hands it to the scheduler, and
    the scheduler resumes another one.  The process table invariant holds in
    every configuration the machine reaches. *)
From stdpp Require Import relations.
From S2P Require Import Prelude Kstate Mem Cprintf Kalloc Sched Vm Sleeplock Bio Log Inode.
From S2P Require Import Console Dir Pipe File Proc Exec Sysproc Sysfile Trap Ptable Kinv.
From S2P Require Import Demo.

Section Machine.
Context `{KL : KernelLayout}.

(** ** Configurations *)

Inductive phase : Type :=
| User            (* a process runs in user mode *)
| Idle            (* the scheduler between two passes, interrupts enabled *)
| Back            (* a process has switched to the scheduler *)
| Pass (n : nat)  (* the scheduler at table position [n], [ptable.lock] held *)
| Resume.         (* the process picked by the scheduler, back in [swtch] *)

(** The end of [syscall] and [trap] around a system call that slept. *)
Definition syscall_return (m : K Z) : K unit :=
  i <- myproc;;
  r <- m;;
  set_eax i r;;;
  p <- get_proc i;;
  whenM (ctrue (p_killed p)) exit.

(** What a resumed process runs: a new process starts in [forkret], one that
    was preempted ends its trap, and one that slept in [wait], [join],
    [sleep], or on a pipe goes on with the call. *)
Inductive resumes : K unit -> Prop :=
| resumes_new : resumes forkret
| resumes_yield tf : resumes (trap_yield_return tf)
| resumes_wait : resumes (syscall_return wait_return)
| resumes_join pid : resumes (syscall_return (join_return pid))
| resumes_sleep n t0 : resumes (syscall_return (sys_sleep_return n t0))
| resumes_pipewrite a n rest : resumes (syscall_return (pipewrite_return a n rest))
| resumes_piperead a n addr : resumes (syscall_return
    ('(r, l) <- piperead_return a n;; user_store addr l;;; ret r)).

Inductive kstep : phase * kstate -> phase * kstate -> Prop :=
| step_trap tf cs cr2 s s' :
    trap tf cs cr2 s = Ret tt s' -> kstep (User, s) (User, s')
| step_trap_leave tf cs cr2 s s' :
    trap tf cs cr2 s = Switch s' -> kstep (User, s) (Back, s')
| step_interrupt tf cs cr2 s s' :
    trap tf cs cr2 s = Ret tt s' -> kstep (Idle, s) (Idle, s')
| step_back i s s' :
    k_cur s = Some i -> sched_back s = Ret tt s' -> kstep (Back, s) (Pass (S i), s')
| step_pick n i s s' :
    sched_pick n s = Ret (Some i) s' -> kstep (Pass n, s) (Resume, s')
| step_pass n s s' :
    sched_pick n s = Ret None s' -> kstep (Pass n, s) (Idle, s')
| step_round s s' :
    acquire L_ptable s = Ret tt s' -> kstep (Idle, s) (Pass 0, s')
| step_resume m s s' :
    resumes m -> m s = Ret tt s' -> kstep (Resume, s) (User, s')
| step_resume_leave m s s' :
    resumes m -> m s = Switch s' -> kstep (Resume, s) (Back, s').

(** The invariant in each phase. *)
Definition config_ok (c : phase * kstate) : Prop :=
  let '(ph, s) := c in
  match ph with
  | User | Resume => good s
  | Idle | Pass _ => good s /\ k_cur s = None
  | Back => kinv s
  end.

(** ** Preservation *)

#[export] Instance syscall_return_pres `{W : Watch} o m :
  Keeps (pres (with_cur o)) (leaves (with_cur o)) m ->
  Keeps (pres (with_cur o)) (leaves (with_cur o)) (syscall_return m).
Proof. intros. unfold syscall_return. solve_keeps. Qed.

Lemma resumes_pres `{W : Watch} o m : resumes m -> Keeps (pres (with_cur o)) (leaves (with_cur o)) m.
Proof. destruct 1; try apply _; apply syscall_return_pres; [apply _..|]. solve_keeps. Qed.

Lemma kinv_good s : kinv s -> k_cur s = None -> good s.
Proof. intros Hk Hc. split; [done|]. intros i. by rewrite Hc. Qed.

Lemma kstep_ok c c' : config_ok c -> kstep c c' -> config_ok c'.
Proof.
  intros Hc Hstep.
  destruct Hstep as [tf cs cr2 s s' E|tf cs cr2 s s' E|tf cs cr2 s s' E|i s s' _ E|n i s s' E
                    |n s s' E|s s' E|m s s' Hm E|m s s' Hm E]; simpl in *.
  - eapply run_Ret; [| |exact E]; [apply _|done].
  - eapply run_Switch; [| |exact E]; [apply _|done].
  - pose proof (trap_idle_triple tf cs cr2 s Hc) as H. by rewrite E in H.
  - apply sched_back_kinv in E as [Hk Hn]; [|done..]. split; [by apply kinv_good|done].
  - destruct Hc as [[Hk _] Hn]. by eapply sched_pick_kinv in E as [? _].
  - destruct Hc as [[Hk _] Hn]. by eapply sched_pick_kinv in E.
  - assert (Ht : triple (with_cur None) (acquire L_ptable) (fun _ => with_cur None)) by hkeeps.
    specialize (Ht s Hc). by rewrite E in Ht.
  - eapply run_Ret; [| |exact E]; [|done]. intros o. by apply resumes_pres.
  - eapply run_Switch; [| |exact E]; [|done]. intros o. by apply resumes_pres.
Qed.

(** Code that does not run for a process cannot sleep. *)
Definition stays_idle (s s' : kstate) : Prop := k_cur s = None -> k_cur s' = None.
Definition for_process (s s' : kstate) : Prop := k_cur s <> None.

#[local] Instance idle_Frame : Frame stays_idle for_process.
Proof. split; unfold stays_idle, for_process; auto. Qed.
#[local] Typeclasses Opaque stays_idle for_process.

Lemma idle_sys {A} (m : K A) : SysKeeps m -> Keeps stays_idle for_process m.
Proof.
  apply keeps_weaken.
  - intros s s' [Hc _] H. injection Hc as ? ? ? ? ? ? ? ?. congruence.
  - intros s s' (i & _ & _ & H & _). unfold for_process. congruence.
Qed.
#[local] Hint Extern 5 (Keeps stays_idle for_process _) =>
  apply idle_sys; apply _ : typeclass_instances.
#[local] Hint Extern 1 (Keeps stays_idle for_process (modify _)) =>
  (intros ?; exact (fun H => H)) : typeclass_instances.
#[local] Hint Extern 1 (Keeps stays_idle for_process (upd_proc _ _)) =>
  (intros ?; exact (fun H => H)) : typeclass_instances.

Lemma userinit_idle initcode : Keeps stays_idle for_process (userinit initcode).
Proof. unfold userinit, allocproc, set_name, make_runnable. solve_keeps. Qed.

Lemma boot_good s :
  k_procs s = replicate NPROC proc_zero -> k_nextpid s = 1 -> k_initproc s = None ->
  k_cur s = None -> with_cur None s.
Proof.
  intros Hp Hn Hi Hc. split; [|done]. apply kinv_good; [|done].
  assert (Hz : forall i p, k_procs s !! i = Some p -> p = proc_zero).
  { intros i p. rewrite Hp. by intros [-> _]%lookup_replicate. }
  split.
  - by rewrite Hp.
  - lia.
  - intros i p ->%Hz. split; [cbn; lia|]. by intros [].
  - intros i j p q ->%Hz _ _ []. done.
  - by rewrite Hi.
  - by intros i p j ->%Hz.
  - done.
  - done.
Qed.


(** A timer interrupt taken in user mode. *)
Definition timer_tf : trapframe :=
  tf_zero <| tf_trapno := T_IRQ0 + IRQ_TIMER |> <| tf_cs := Z.lor 8 DPL_USER |>.

(** [userinit] brings the machine from the zeroed data segment into such a
    configuration, with no process running, and cannot block. *)
Theorem userinit_config_ok initcode s :
  k_procs s = replicate NPROC proc_zero -> k_nextpid s = 1 -> k_initproc s = None ->
  k_cur s = None ->
  match userinit initcode s with
  | Ret _ s' => config_ok (Idle, s')
  | Switch _ => False
  | _ => True
  end.
Proof.
  intros Hp Hn Hi Hc. pose proof (boot_good s Hp Hn Hi Hc) as Hb.
  pose proof (userinit_triple initcode s Hb) as Ht.
  pose proof (userinit_idle initcode s) as Hs.
  by destruct (userinit initcode s).
Qed.
End Machine.

Definition after {A} (m : K A) (s : kstate) : kstate := end_state kstate_zero (m s).
Definition tick_state : kstate := after (trap (KL:=demo_layout) timer_tf [] 0) demo2.
Definition back_state : kstate := after sched_back tick_state.
Definition pick_state : kstate := after (sched_pick 1) back_state.
Definition child_state : kstate :=
  after (trap_yield_return (KL:=demo_layout) timer_tf) pick_state.

Lemma tick_run : is_Switch (trap (KL:=demo_layout) timer_tf [] 0 demo2) = true.
Proof. vm_compute. reflexivity. Qed.
Lemma back_run : result (sched_back tick_state) = Some tt.
Proof. vm_compute. reflexivity. Qed.
Lemma pick_run : result (sched_pick 1 back_state) = Some (Some 1%nat).
Proof. vm_compute. reflexivity. Qed.
Lemma child_run : result (trap_yield_return (KL:=demo_layout) timer_tf pick_state) = Some tt.
Proof. vm_compute. reflexivity. Qed.

(** init is preempted by the timer and its child resumes. *)
Lemma preemption :
  rtc (kstep (KL:=demo_layout)) (User, demo2) (User, child_state).
Proof.
  apply rtc_l with (Back, tick_state).
  { apply (step_trap_leave timer_tf [] 0). exact (is_Switch_eq kstate_zero _ tick_run). }
  apply rtc_l with (Pass 1, back_state).
  { apply (step_back 0); [vm_compute; reflexivity|].
    exact (result_eq kstate_zero _ _ back_run). }
  apply rtc_l with (Resume, pick_state).
  { apply (step_pick 1 1). exact (result_eq kstate_zero _ _ pick_run). }
  apply rtc_l with (User, child_state); [|apply rtc_refl].
  apply (step_resume (trap_yield_return (KL:=demo_layout) timer_tf)); [apply resumes_yield|].
  exact (result_eq kstate_zero _ _ child_run).
Qed.


Lemma userinit_config_ok_witness :
  match userinit (KL:=demo_layout) [] kstate_zero with
  | Ret _ s' => config_ok (Idle, s')
  | Switch _ => False
  | _ => True
  end.
Proof. apply (userinit_config_ok (KL:=demo_layout)); reflexivity. Defined.
