(* ===== verification/Fair.v ===== *)
(** Fairness of the scheduler: along every execution of the machine a process
    that is ready to run keeps its place until it gets the CPU, and the CPU is
    given to others fewer than [NPROC] times before. *)
From S2P Require Import Prelude Kstate Mem Cprintf Kalloc Sched Vm Sleeplock Bio Log Inode.
From S2P Require Import Console Dir Pipe File Proc Exec Sysproc Sysfile Trap Ptable Kinv.
From S2P Require Import Demo Machine.

Section Fair.
Context `{KL : KernelLayout}.

(** The process a step gives the CPU to. *)
Definition dispatched_by (c c' : phase * kstate) : list nat :=
  match c, c' with
  | (Pass _, _), (Resume, s') => option_list (k_cur s')
  | _, _ => []
  end.

(** An execution and the processes dispatched along it, in order. *)
Inductive execution : phase * kstate -> list nat -> phase * kstate -> Prop :=
| exec_done c : execution c [] c
| exec_step c c' c'' l :
    kstep c c' -> execution c' l c'' -> execution c (dispatched_by c c' ++ l) c''.

Definition waits (w : nat) (s : kstate) : Prop := proc_at (fun p => p_state p = RUNNABLE) w s.

(** The table position from which the scheduler goes on. *)
Definition position (c : phase * kstate) : nat :=
  match c with
  | (Pass n, _) => n
  | (Idle, _) => NPROC
  | (_, s) => match k_cur s with Some j => S j | None => NPROC end
  end.
(** How many others it can still reach before the process [w]. *)
Definition ahead (w : nat) (c : phase * kstate) : nat :=
  let n := position c in if decide (n <= w)%nat then (w - n)%nat else (NPROC - n + w)%nat.

(** ** Ready processes stay ready *)

Definition watch (w : nat) (s : kstate) : Watch := mkWatch (Some w) (Some (k_cur s)).

Lemma kinv_watched w s s' : kinv s -> waits w s -> k_cur s = k_cur s' -> kinv (W := watch w s') s.
Proof.
  intros Hk Hw Hc. apply (kinv_watch no_watch); [done|by intros i [= <-]|]. cbn. congruence.
Qed.
Lemma good_watched w s : good s -> waits w s -> good (W := watch w s) s.
Proof. intros [Hk Hc] Hw. split; [by apply kinv_watched|done]. Qed.
Lemma watched_waits w s0 s : kinv (W := watch w s0) s -> waits w s.
Proof. intros Hk. by apply (kv_wait _ Hk). Qed.
Lemma watched_cur w s0 s : kinv (W := watch w s0) s -> k_cur s = k_cur s0.
Proof. intros Hk. by apply (kv_run _ Hk). Qed.

Lemma run_Ret_waits {A} (m : K A) w s a s' :
  (forall W : Watch, forall o, Keeps (pres (with_cur o)) (leaves (with_cur o)) m) ->
  good s -> waits w s -> m s = Ret a s' -> waits w s' /\ k_cur s' = k_cur s.
Proof.
  intros Hm Hg Hw E. destruct (run_Ret (W := watch w s) m s a s') as [[Hk _] Hc]; try done.
  - by apply good_watched.
  - split; [by eapply watched_waits|done].
Qed.
Lemma run_Switch_waits {A} (m : K A) w s s' :
  (forall W : Watch, forall o, Keeps (pres (with_cur o)) (leaves (with_cur o)) m) ->
  good s -> waits w s -> m s = Switch s' -> waits w s' /\ k_cur s' = k_cur s.
Proof.
  intros Hm Hg Hw E. pose proof (run_Switch (W := watch w s) m s s' (Hm _) (good_watched w s Hg Hw) E) as Hk.
  split; [by eapply watched_waits|by apply (watched_cur w)].
Qed.

(** ** One step *)

(** The steps of the scheduler itself. *)
Lemma pick_waits w n s o s' :
  kinv s -> k_cur s = None -> waits w s -> sched_pick n s = Ret o s' -> o <> Some w ->
  waits w s' /\ k_cur s' = o /\
  match o with
  | Some j => (n <= j < NPROC)%nat /\ (n <= w -> j < w)%nat
  | None => (w < n)%nat
  end.
Proof.
  intros Hk Hc Hw E Hne. pose (W := mkWatch (Some w) None).
  assert (HkW : kinv (W := W) s) by (apply (kinv_watch no_watch); [done|by intros i [= <-]|done]).
  destruct (sched_pick_kinv (W := W) n s o s') as [[Hk' _] Hc']; try done.
  split; [by apply (kv_wait _ Hk')|]. split; [done|]. clear Hk' Hc'.
  destruct Hw as (p & Hp & Hr). unfold sched_pick in E. revert E. mrun.
  destruct (find_from _ _ _) as [j|] eqn:Hf.
  - apply find_from_Some in Hf as (q & Hnj & Hq & _ & Hmin). rewrite lookup_drop in Hq.
    replace (n + (j - n))%nat with j in Hq by lia. intros E.
    assert (o = Some j) as ->.
    { revert E. unfold switchuvm, get_proc. munfold. repeat (case_match; try done). all: congruence. }
    split; [apply lookup_lt_Some in Hq; rewrite (kv_len _ Hk) in Hq; lia|]. intros Hnw.
    destruct (Nat.lt_trichotomy j w) as [|[->|Hlt]]; [done|congruence|].
    specialize (Hmin w p ltac:(lia)). rewrite lookup_drop in Hmin. replace (n + (w - n))%nat with w in Hmin by lia.
    specialize (Hmin Hp). by rewrite bool_decide_true in Hmin.
  - intros E. assert (o = None) as ->.
    { revert E. unfold release. munfold. repeat (case_match; try done). all: congruence. }
    destruct (Nat.lt_ge_cases w n) as [|Hge]; [done|]. rewrite find_from_None in Hf. specialize (Hf (w - n)%nat p).
    rewrite lookup_drop in Hf. replace (n + (w - n))%nat with w in Hf by lia. specialize (Hf Hp).
    by rewrite bool_decide_true in Hf.
Qed.

Lemma ahead_same w c c' : position c' = position c -> ahead w c' = ahead w c.
Proof. unfold ahead. by intros ->. Qed.

Lemma kstep_waits w c c' :
  config_ok c -> waits w c.2 -> (w < NPROC)%nat -> kstep c c' -> w ∉ dispatched_by c c' ->
  waits w c'.2 /\ (length (dispatched_by c c') + ahead w c' <= ahead w c)%nat.
Proof.
  intros Hc Hw Hlt Hstep Hnd.
  destruct Hstep as [tf cs cr2 s s' E|tf cs cr2 s s' E|tf cs cr2 s s' E|i s s' Hi E|n i s s' E
                    |n s s' E|s s' E|m s s' Hm E|m s s' Hm E]; cbn in Hc, Hw, Hnd |- *.
  - destruct (run_Ret_waits (trap tf cs cr2) w s tt s') as [? Hcur]; try done; [apply _|].
    split; [done|]. rewrite (ahead_same w (User, s)); [done|]. cbn. by rewrite Hcur.
  - destruct (run_Switch_waits (trap tf cs cr2) w s s') as [? Hcur]; try done; [apply _|].
    split; [done|]. rewrite (ahead_same w (User, s)); [done|]. cbn. by rewrite Hcur.
  - destruct Hc as [Hc _]. destruct (run_Ret_waits (trap tf cs cr2) w s tt s') as [? Hcur]; try done. apply _.
  - split.
    + pose (W := mkWatch (Some w) None). destruct (sched_back_kinv (W := W) s s') as [Hk _]; try done.
      { apply (kinv_watch no_watch); [done|by intros j [= <-]|done]. }
      by apply (kv_wait _ Hk).
    + rewrite (ahead_same w (Back, s)); [done|]. cbn. by rewrite Hi.
  - destruct Hc as [[Hk _] Hn]. assert (Hne : Some i <> Some w).
    { intros [= ->]. destruct (sched_pick_kinv n s (Some w) s') as [_ Hcw]; try done. apply Hnd. rewrite Hcw. left. }
    destruct (pick_waits w n s (Some i) s') as (Hw' & Hcur & Hj & Hjw); try done. split; [done|].
    rewrite Hcur. cbn. unfold ahead, position. rewrite Hcur. repeat case_decide; lia.
  - destruct Hc as [[Hk _] Hn]. destruct (pick_waits w n s None s') as (Hw' & _ & Hj); try done. split; [done|].
    unfold ahead, position. repeat case_decide; lia.
  - destruct Hc as [Hg Hn]. destruct (run_Ret_waits (acquire L_ptable) w s tt s') as [? Hcur]; try done; [apply _|].
    split; [done|]. unfold ahead, position. repeat case_decide; lia.
  - destruct (run_Ret_waits m w s tt s') as [? Hcur]; try done; [intros W o; by apply resumes_pres|].
    split; [done|]. rewrite (ahead_same w (Resume, s)); [done|]. cbn. by rewrite Hcur.
  - destruct (run_Switch_waits m w s s') as [? Hcur]; try done; [intros W o; by apply resumes_pres|].
    split; [done|]. rewrite (ahead_same w (Resume, s)); [done|]. cbn. by rewrite Hcur.
Qed.

(** C2: along every execution of the machine (traps, system calls, interrupts,
    sleeping and waking, other processes starting and ending) a process that is
    RUNNABLE stays RUNNABLE until the scheduler dispatches it, and that happens
    before the CPU has been given to other processes [NPROC] times. *)
Theorem runnable_dispatched w c l c' :
  config_ok c -> waits w c.2 -> execution c l c' ->
  w ∈ l \/ (waits w c'.2 /\ (length l < NPROC)%nat).
Proof.
  intros Hc Hw Hex.
  assert (Hlt : (w < NPROC)%nat).
  { assert (Hk : kinv c.2) by (destruct c as [[] s]; cbn in *; (apply Hc || apply (proj1 Hc))).
    destruct Hw as (p & Hp & _). apply lookup_lt_Some in Hp. by rewrite (kv_len _ Hk) in Hp. }
  assert (Ha : (ahead w c < NPROC)%nat).
  { unfold ahead. case_decide; lia. }
  cut (w ∈ l \/ (waits w c'.2 /\ (length l + ahead w c' <= ahead w c)%nat)).
  { intros [?|[? ?]]; [by left|right; split; [done|lia]]. }
  clear Ha. induction Hex as [c|c c1 c' l Hst _ IH]; [right; split; [done|cbn; lia]|].
  destruct (decide (w ∈ dispatched_by c c1)) as [Hin|Hnin]; [left; apply elem_of_app; by left|].
  destruct (kstep_waits w c c1) as [Hw1 Ha1]; try done.
  destruct (IH (kstep_ok _ _ Hc Hst) Hw1) as [Hin|[Hw' Ha']]; [left; apply elem_of_app; by right|].
  right. split; [done|]. rewrite length_app. lia.
Qed.
End Fair.

(** init is preempted and its child, which was ready, gets the CPU. *)
Lemma preemption_execution :
  execution (KL := demo_layout) (User, demo2) [1%nat] (User, child_state).
Proof.
  assert (E : [1%nat] = dispatched_by (User, demo2) (Back, tick_state) ++ dispatched_by (Back, tick_state) (Pass 1, back_state) ++
    dispatched_by (Pass 1, back_state) (Resume, pick_state) ++ dispatched_by (Resume, pick_state) (User, child_state) ++ []).
  { vm_compute. reflexivity. }
  rewrite E. apply exec_step; [apply (step_trap_leave timer_tf [] 0); exact (is_Switch_eq kstate_zero _ tick_run)|].
  apply exec_step; [apply (step_back 0); [vm_compute; reflexivity|exact (result_eq kstate_zero _ _ back_run)]|].
  apply exec_step; [apply (step_pick 1 1); exact (result_eq kstate_zero _ _ pick_run)|].
  apply exec_step; [|apply exec_done].
  apply (step_resume (trap_yield_return (KL:=demo_layout) timer_tf)); [apply resumes_yield|].
  exact (result_eq kstate_zero _ _ child_run).
Qed.

Lemma runnable_dispatched_witness :
  waits 1 demo2 /\ (1%nat ∈ [1%nat] \/ (waits 1 (User, child_state).2 /\ (length [1%nat] < NPROC)%nat)).
Proof.
  assert (Hw : waits 1 demo2) by (exists (demo_proc 2 RUNNABLE (Some 0%nat)); split; reflexivity).
  split; [exact Hw|].
  apply (runnable_dispatched (KL := demo_layout) 1 (User, demo2) [1%nat] (User, child_state)).
  - split; [apply kinv_check_sound; vm_compute; reflexivity|].
    intros i Hi. injection Hi as <-. exists (demo_proc 1 RUNNING None). split; reflexivity.
  - exact Hw.
  - exact preemption_execution.
Defined.
