(* ===== verification/ProcSpec.v ===== *)
(** What the process calls do: [kill] and [threadkill], the return from a
    trap, sleeping and waking, and the choice of the scheduler. *)
From S2P Require Import Prelude Kstate Demo Mem Cprintf Kalloc Sched Vm Sleeplock Bio Log.
From S2P Require Import Inode Console Dir Pipe File Proc Exec Sysproc Sysfile Trap Ptable Kinv.

(** * Locks around a computation *)

(** [acquire l;;; m;;; release l] for an [m] that neither takes nor gives a
    lock. *)
Lemma locked_bind {B} l (k : unit -> K B) s :
  l ∉ k_held s -> bind (acquire l) k s = k tt (s <| k_held := l :: k_held s |>).
Proof. intros H. unfold bind. by rewrite acquire_ok. Qed.

Lemma release_head {B} l h (k : unit -> K B) s :
  k_held s = l :: h -> l ∉ h -> bind (release l) k s = k tt (s <| k_held := h |>).
Proof. intros H1 H2. unfold bind. by rewrite (release_ok l h). Qed.

(** * kill *)

(** At most one slot holds a non-zero id. *)
Lemma find_pid s i p :
  kinv s -> k_procs s !! i = Some p -> p_pid p <> 0 ->
  find_index (fun q => p_pid q =? p_pid p) (k_procs s) = Some i.
Proof.
  intros Hk Hp Hne. apply find_index_Some. exists p. rewrite Z.eqb_refl.
  split_and!; try done. intros j q Hj Hq. apply Z.eqb_neq. intros E.
  assert (j = i); [|lia]. eapply (kv_uniq _ Hk); eauto. congruence.
Qed.

Lemma kill_where_ok P s :
  L_ptable ∉ k_held s ->
  kill_where P s =
    match find_index P (k_procs s) with
    | Some i => Ret 0 (s <| k_procs ::= alter mark_killed i |>)
    | None => Ret (-1) s
    end.
Proof.
  intros Hl. unfold kill_where. rewrite locked_bind by done. mrun. simpl.
  destruct (find_index P (k_procs s)) as [i|]; mrun;
    rewrite (release_head _ (k_held s)) by done; unfold ret; f_equal; by destruct s.
Qed.

(** [kill] of an id marks the one process that has it as killed, and makes
    it runnable if it sleeps; no other process, and nothing else, changes.
    [kill] of an id no process has fails and changes nothing. *)
Theorem kill_spec pid s :
  kinv s -> L_ptable ∉ k_held s -> pid <> 0 ->
  (forall i p, k_procs s !! i = Some p -> p_pid p = pid ->
     kill pid s = Ret 0 (s <| k_procs ::= alter mark_killed i |>)) /\
  ((forall i p, k_procs s !! i = Some p -> p_pid p <> pid) -> kill pid s = Ret (-1) s).
Proof.
  intros Hk Hl Hne. unfold kill. rewrite kill_where_ok by done. split.
  - intros i p Hp <-. by rewrite (find_pid s i p).
  - intros Hno. assert (find_index (fun p => p_pid p =? pid) (k_procs s) = None) as ->; [|done].
    apply find_index_None. intros i p Hp. apply Z.eqb_neq. eauto.
Qed.

Lemma kill_spec_witness :
  kill 2 demo2 = Ret 0 (demo2 <| k_procs ::= alter mark_killed 1%nat |>) /\
  kill 7 demo2 = Ret (-1) demo2.
Proof.
  assert (Hk : kinv demo2) by (apply kinv_check_sound; vm_compute; reflexivity).
  split.
  - apply (proj1 (kill_spec 2 demo2 Hk ltac:(set_solver) ltac:(done)) 1%nat
             (demo_proc 2 RUNNABLE (Some 0%nat))); reflexivity.
  - apply (proj2 (kill_spec 7 demo2 Hk ltac:(set_solver) ltac:(done))).
    intros i p Hp. apply list_elem_of_lookup_2 in Hp. revert p Hp.
    apply Forall_forall. unfold demo2, demo. cbn. repeat constructor; done.
Defined.



(** * The return to user mode *)

Section Return.
Context `{KL : KernelLayout}.

Lemma exit_no_Ret s u s' : exit s <> Ret u s'.
Proof.
  unfold exit, exit_locked. intros H.
  repeat match type of H with
  | bind _ _ _ = Ret _ _ => apply bind_Ret in H as (? & ? & _ & H)
  | (if ?b then _ else _) _ = _ => destruct b
  end; [done|]. by apply sched_Ret in H.
Qed.

(** What is left of a computation that ends in [if(b) exit();]. *)
Lemma when_exit_Ret b s u s' : whenM b exit s = Ret u s' -> b = false /\ s' = s.
Proof.
  destruct b; simpl; intros H; [by apply exit_no_Ret in H|]. by injection H.
Qed.

End Return.

Definition disk_tf : trapframe :=
  tf_zero <| tf_trapno := T_IRQ0 + IRQ_IDE |> <| tf_cs := Z.lor 8 DPL_USER |>.


(** * Sleeping and waking *)

Definition asleep (ch : chan) (p : proc) : proc :=
  p <| p_chan := Some ch |> <| p_state := SLEEPING |>.

Lemma sched_ok {A} i p s :
  k_cur s = Some i -> k_held s = [L_ptable] -> k_procs s !! i = Some p ->
  p_state p <> RUNNING -> sched (A:=A) s = Switch s.
Proof.
  intros Hc Hh Hp Hr. unfold sched, myproc. mrun. rewrite Hc. mrun. rewrite Hh.
  rewrite bool_decide_true by set_solver. cbn [negb length Nat.eqb].
  rewrite (bind_eq _ _ _ p s) by (by apply get_proc_eq).
  by rewrite bool_decide_false.
Qed.

Lemma sleep_ok {A} ch lk i p s :
  k_cur s = Some i -> k_procs s !! i = Some p -> k_held s = [lk] ->
  sleep (A:=A) ch lk s =
    Switch (s <| k_held := [L_ptable] |> <| k_procs ::= alter (asleep ch) i |>).
Proof.
  intros Hc Hp Hh. unfold sleep. mrun. rewrite Hc.
  assert (E : whenM (bool_decide (lk <> L_ptable)) (acquire L_ptable;;; release lk) s
              = Ret tt (s <| k_held := [L_ptable] |>)).
  { case_bool_decide as Hl; simpl whenM.
    - rewrite locked_bind by (rewrite Hh, list_elem_of_singleton; auto).
      unfold release. mrun.
      assert (Hk : k_held (s <| k_held := L_ptable :: k_held s |>) = [L_ptable; lk])
        by (cbn; by rewrite Hh).
      rewrite Hk, decide_True by (right; left; done).
      rewrite filter_cons_True, filter_cons_False by auto. by destruct s.
    - assert (lk = L_ptable) as -> by (by destruct (decide (lk = L_ptable))).
      unfold ret. f_equal. destruct s. cbn in *. by subst. }
  rewrite (bind_eq _ _ _ _ _ E). mrun.
  rewrite (sched_ok i (asleep ch p)); try done. cbn. by rewrite list_lookup_alter_eq, Hp.
Qed.

Lemma wakeup_ok ch s :
  L_ptable ∉ k_held s -> wakeup ch s = Ret tt (s <| k_procs ::= fmap (wake (Some ch)) |>).
Proof.
  intros Hl. unfold wakeup. rewrite locked_bind by done. unfold wakeup1. mrun.
  by rewrite (release_ok _ (k_held s)).
Qed.



(** * The choice of the scheduler *)

Definition runnable (p : proc) : bool := bool_decide (p_state p = RUNNABLE).

(** The CPU set up for process [i]. *)
Definition dispatched (i : nat) (p : proc) (s : kstate) : kstate :=
  s <| k_cur := Some i |> <| k_esp0 := u32 (p_kstack p + KSTACKSIZE) |>
    <| k_cr3 := V2P (p_pgdir p) |> <| k_procs ::= alter (fun p => p <| p_state := RUNNING |>) i |>.

(** From table position [n] the scheduler dispatches the first runnable
    process at or after [n], with its page table and kernel stack installed;
    when there is none the pass ends and only [ptable.lock] is given back.  A
    runnable process is never passed over in favour of a later one. *)
Theorem sched_pick_spec n s :
  k_held s = [L_ptable] ->
  (forall p, p ∈ k_procs s -> p_state p = RUNNABLE -> p_kstack p <> 0 /\ p_pgdir p <> 0) ->
  (exists i p, (n <= i)%nat /\ k_procs s !! i = Some p /\ p_state p = RUNNABLE /\
     (forall j q, (n <= j < i)%nat -> k_procs s !! j = Some q -> p_state q <> RUNNABLE) /\
     sched_pick n s = Ret (Some i) (dispatched i p s)) \/
  ((forall j q, (n <= j)%nat -> k_procs s !! j = Some q -> p_state q <> RUNNABLE) /\
   sched_pick n s = Ret None (s <| k_held := [] |>)).
Proof.
  intros Hh Hok. unfold sched_pick. mrun. change (fun p => bool_decide (p_state p = RUNNABLE)) with runnable.
  destruct (find_from runnable n (drop n (k_procs s))) as [i|] eqn:Hf.
  - left. apply find_from_Some in Hf as (p & Hn & Hp & Hr%bool_decide_eq_true & Hmin).
    rewrite lookup_drop in Hp. replace (n + (i - n))%nat with i in Hp by lia.
    exists i, p. split_and!; try done.
    + intros j q Hj Hq Hrq. specialize (Hmin j q ltac:(lia)).
      rewrite lookup_drop in Hmin. replace (n + (j - n))%nat with j in Hmin by lia.
      specialize (Hmin Hq). unfold runnable in Hmin. by rewrite bool_decide_true in Hmin.
    + destruct (Hok p) as [Hks Hpg]; [by eapply list_elem_of_lookup_2|done|].
      unfold switchuvm. mrun.
      rewrite (bind_eq (get_proc i) _ _ p (s <| k_cur := Some i |>)) by (by apply get_proc_eq).
      unfold ctrue. rewrite !(proj2 (Z.eqb_neq _ 0)) by done. simpl. mrun.
      unfold ret, dispatched. f_equal.
  - right. split.
    + intros j q Hj Hq Hr. rewrite find_from_None in Hf. specialize (Hf (j - n)%nat q).
      rewrite lookup_drop in Hf. replace (n + (j - n))%nat with j in Hf by lia.
      specialize (Hf Hq). unfold runnable in Hf. by rewrite bool_decide_true in Hf.
    + by rewrite (release_head L_ptable []) by (done || set_solver).
Qed.

Definition demo2_locked : kstate := demo2 <| k_held := [L_ptable] |>.

Lemma sched_pick_spec_witness :
  exists i p, sched_pick 0 demo2_locked = Ret (Some i) (dispatched i p demo2_locked).
Proof.
  destruct (sched_pick_spec 0 demo2_locked) as [(i & p & _ & _ & _ & _ & E)|[No _]].
  - reflexivity.
  - apply (proj1 (Forall_forall (fun p => p_state p = RUNNABLE ->
             p_kstack p <> 0 /\ p_pgdir p <> 0) _)).
    apply Forall_cons_2; [done|]. apply Forall_cons_2; [done|]. by apply Forall_replicate.
  - exists i, p. exact E.
  - destruct (No 1%nat (demo_proc 2 RUNNABLE (Some 0%nat)));
      [apply Nat.le_0_l|reflexivity|reflexivity].
Defined.
