(* ===== verification/Reap.v ===== *)
(** [join], [wait] and the end of [exit]: which process is reaped, what the
    caller gets, and who is woken. *)
From S2P Require Import Prelude Kstate Demo Mem MemSpec Cprintf Kalloc KallocSpec Sched Vm.
From S2P Require Import Sleeplock Bio Log Inode Console Dir Pipe File Proc Exec Sysproc.
From S2P Require Import Sysfile Trap Ptable Kinv ProcSpec.

Section Reap.
Context `{KL : KernelLayout}.

(** * join *)

(** The slot [join] leaves behind. *)
Definition joined (p : proc) : proc :=
  p <| p_kstack := 0 |> <| p_pid := 0 |> <| p_tgid := 0 |> <| p_parent := None |>
    <| p_name ::= <[0%nat := 0]> |> <| p_killed := 0 |> <| p_pthread := None |>
    <| p_state := UNUSED |>.

(** [p] is a thread of [me]'s group whose parent is [me]. *)
Definition joinable (me : nat) (m p : proc) : bool :=
  bool_decide (p_parent p = Some me) && negb (p_isThread p =? 0) && (p_tgid p =? p_tgid m).

Lemma get_proc_bind {B} i p (k : proc -> K B) s :
  k_procs s !! i = Some p -> bind (get_proc i) k s = k p s.
Proof. intros H. by rewrite (bind_eq _ _ _ _ _ (get_proc_eq _ _ _ H)). Qed.

Lemma join_scan_skip pid me l hk s :
  (forall j, j ∈ l -> exists q, k_procs s !! j = Some q /\ p_pid q <> pid) ->
  join_scan pid me l hk s = Ret (inl hk) s.
Proof.
  induction l as [|j l IH]; intros H; [done|]. simpl.
  destruct (H j) as (q & Hq & Hne); [by left|]. rewrite (get_proc_bind _ q) by done.
  rewrite (proj2 (Z.eqb_neq _ _)) by done. apply IH. intros k Hk. apply H. by right.
Qed.

Lemma join_scan_app pid me l1 l2 hk s :
  (forall j, j ∈ l1 -> exists q, k_procs s !! j = Some q /\ p_pid q <> pid) ->
  join_scan pid me (l1 ++ l2) hk s = join_scan pid me l2 hk s.
Proof.
  induction l1 as [|j l IH]; intros H; [done|]. simpl.
  destruct (H j) as (q & Hq & Hne); [by left|]. rewrite (get_proc_bind _ q) by done.
  rewrite (proj2 (Z.eqb_neq _ _)) by done. apply IH. intros k Hk. apply H. by right.
Qed.

(** The scan of the table reaches the one slot with the id. *)
Lemma join_scan_table pid me i p m s :
  kinv s -> pid <> 0 -> k_procs s !! i = Some p -> p_pid p = pid ->
  k_procs s !! me = Some m ->
  join_scan pid me (seq 0 NPROC) false s =
    if joinable me m p then
      if bool_decide (p_state p = ZOMBIE) then (r <- join_reap i;; ret (inr r)) s
      else Ret (inl true) s
    else (release L_ptable;;; ret (inr (-1))) s.
Proof.
  intros Hk Hne Hp Hpid Hm.
  assert (Hi : (i < NPROC)%nat) by (rewrite <- (kv_len _ Hk); by eapply lookup_lt_Some).
  assert (Hoth : forall j, (j < NPROC)%nat -> j <> i ->
            exists q, k_procs s !! j = Some q /\ p_pid q <> pid).
  { intros j Hj Hji. rewrite <- (kv_len _ Hk) in Hj.
    destruct (lookup_lt_is_Some_2 _ _ Hj) as [q Hq]. exists q. split; [done|].
    intros E. destruct Hji. eapply (kv_uniq _ Hk); eauto; congruence. }
  assert (Hn : seq 0 NPROC = seq 0 i ++ i :: seq (S i) (NPROC - S i)).
  { etrans; [|exact (seq_app i (S (NPROC - S i)) 0)]. f_equal. lia. }
  rewrite Hn, join_scan_app.
  2:{ intros j Hj%elem_of_seq. apply Hoth; lia. }
  cbn [join_scan]. rewrite (get_proc_bind _ p) by done.
  rewrite Hpid, Z.eqb_refl, (get_proc_bind _ m) by done. unfold joinable.
  destruct (bool_decide (p_parent p = Some me)), (p_isThread p =? 0),
    (p_tgid p =? p_tgid m); try done. cbn [andb negb orb].
  case_bool_decide; [done|]. apply join_scan_skip.
  intros j Hj%elem_of_seq. apply Hoth; lia.
Qed.

Lemma kinv_held h s : kinv s -> kinv (s <| k_held := h |>).
Proof. intros []. by split. Qed.

Lemma join_reap_run i p s h :
  k_procs s !! i = Some p -> k_held s = L_ptable :: h -> L_ptable ∉ h ->
  page_ok (p_kstack p) -> (km_use_lock (k_kmem s) <> 0 -> L_kmem ∉ k_held s) ->
  join_reap i s =
    Ret (p_pid p) ((freed (p_kstack p) s) <| k_procs ::= alter joined i |> <| k_held := h |>).
Proof.
  intros Hp Hh Hl Hks Hlk. unfold join_reap. rewrite (get_proc_bind _ p) by done.
  rewrite (bind_eq _ _ _ _ _ (kfree_run _ _ Hks Hlk)). mrun.
  by rewrite (release_head _ h).
Qed.


(** [join] of an id no process has. *)
Lemma join_no_process pid s me m :
  kinv s -> k_held s = [] -> k_cur s = Some me -> k_procs s !! me = Some m ->
  (forall j q, k_procs s !! j = Some q -> p_pid q <> pid) -> join pid s = Ret (-1) s.
Proof.
  intros Hk Hh Hc Hm Hno. unfold join.
  rewrite locked_bind by (rewrite Hh; apply not_elem_of_nil). rewrite Hh.
  assert (Hc1 : k_cur (s <| k_held := [L_ptable] |>) = Some me) by done.
  unfold join_locked, myproc. mrun. rewrite Hc1. mrun.
  rewrite (bind_eq _ _ _ (inl false) (s <| k_held := [L_ptable] |>)).
  2:{ apply join_scan_skip. intros j Hj%elem_of_seq.
      assert (j < length (k_procs s))%nat by (rewrite (kv_len _ Hk); lia).
      destruct (lookup_lt_is_Some_2 (k_procs s) j) as [q Hq]; [done|]. eauto. }
  cbv iota. rewrite (get_proc_bind _ m) by done. cbn [negb orb].
  rewrite (release_head _ []) by (done || apply not_elem_of_nil).
  unfold ret. f_equal. by apply held_back.
Qed.

(** * wait *)

(** The processes [wait] looks at: children that are not threads. *)
Definition waitable (me : nat) (p : proc) : bool :=
  bool_decide (p_parent p = Some me) && negb (ctrue (p_isThread p)).
Definition exited (me : nat) (p : proc) : bool :=
  waitable me p && bool_decide (p_state p = ZOMBIE).

(** The slot [wait] leaves behind. *)
Definition waited (p : proc) : proc :=
  p <| p_pid := 0 |> <| p_parent := None |> <| p_name ::= <[0%nat := 0]> |>
    <| p_tgid := 0 |> <| p_killed := 0 |> <| p_state := UNUSED |>.

(** The thread group test of [wait] never skips a child: it compares the
    caller with the child's parent, which is the caller. *)
Lemma wait_skips_run me m p s :
  k_procs s !! me = Some m -> wait_skips me m p s = Ret (negb (waitable me p)) s.
Proof.
  intros Hm. unfold wait_skips, waitable. case_bool_decide as Hp; [|done]. cbn [negb andb].
  destruct (ctrue (p_isThread p)); [done|]. cbn [negb].
  destruct (ctrue (p_isThread m)); [|done]. rewrite Hp. mrun.
  rewrite (get_proc_bind _ m) by done. by rewrite Z.eqb_refl.
Qed.

Lemma wait_scan_run me m l hk s :
  k_procs s !! me = Some m ->
  (forall j, j ∈ l -> exists q, k_procs s !! j = Some q /\ exited me q = false) ->
  wait_scan me l hk s =
    Ret (inl (hk || existsb (fun j => from_option (waitable me) false (k_procs s !! j)) l)) s.
Proof.
  intros Hm. revert hk. induction l as [|j l IH]; intros hk H; simpl.
  { by rewrite orb_false_r. }
  destruct (H j) as (q & Hq & He); [by left|]. rewrite (get_proc_bind _ q) by done.
  rewrite (get_proc_bind _ m) by done. rewrite (bind_eq _ _ _ _ _ (wait_skips_run me m q s Hm)).
  rewrite Hq. simpl. unfold exited in He.
  destruct (waitable me q); simpl.
  - simpl in He. rewrite He. rewrite IH by (intros k Hk; apply H; by right). by rewrite orb_true_r.
  - rewrite IH by (intros k Hk; apply H; by right). done.
Qed.

Lemma wait_scan_app me m l1 l2 hk s :
  k_procs s !! me = Some m ->
  (forall j, j ∈ l1 -> exists q, k_procs s !! j = Some q /\ exited me q = false) ->
  exists hk', wait_scan me (l1 ++ l2) hk s = wait_scan me l2 hk' s.
Proof.
  intros Hm. revert hk. induction l1 as [|j l IH]; intros hk H; simpl; [by exists hk|].
  destruct (H j) as (q & Hq & He); [by left|]. rewrite (get_proc_bind _ q) by done.
  rewrite (get_proc_bind _ m) by done. rewrite (bind_eq _ _ _ _ _ (wait_skips_run me m q s Hm)).
  unfold exited in He. destruct (waitable me q); simpl; simpl in He; rewrite ?He;
    apply IH; intros k Hk; apply H; by right.
Qed.

Lemma wait_reap_run i p s s1 h :
  k_procs s !! i = Some p -> k_held s = L_ptable :: h -> L_ptable ∉ h ->
  page_ok (p_kstack p) -> (km_use_lock (k_kmem s) <> 0 -> L_kmem ∉ k_held s) ->
  freevm (p_pgdir p) ((freed (p_kstack p) s) <| k_procs ::= alter (fun p => p <| p_kstack := 0 |>) i |>)
    = Ret tt s1 ->
  k_held s1 = L_ptable :: h ->
  wait_reap i s = Ret (p_pid p) (s1 <| k_procs ::= alter waited i |> <| k_held := h |>).
Proof.
  intros Hp Hh Hl Hks Hlk Hvm Hh1. unfold wait_reap. rewrite (get_proc_bind _ p) by done.
  rewrite (bind_eq _ _ _ _ _ (kfree_run _ _ Hks Hlk)). mrun.
  rewrite (bind_eq _ _ _ _ _ Hvm). mrun. by rewrite (release_head _ h).
Qed.

(** Running [wait] up to the outcome of the scan. *)
Lemma wait_start me s (Q : outcome kstate Z -> Prop) :
  k_held s = [] -> k_cur s = Some me ->
  (forall s1, s1 = s <| k_held := [L_ptable] |> -> s1 <| k_held := [] |> = s ->
     Q ((r <- wait_scan me (seq 0 NPROC) false;;
         match r with
         | inr r => ret r
         | inl havekids =>
             p <- get_proc me;;
             if negb havekids || ctrue (p_killed p) then release L_ptable;;; ret (-1)
             else sleep (C_proc me) L_ptable
         end) s1)) ->
  Q (wait s).
Proof.
  intros Hh Hc H. unfold wait. rewrite locked_bind by (rewrite Hh; apply not_elem_of_nil). rewrite Hh.
  specialize (H _ eq_refl (held_back _ _ _ Hh)).
  assert (Hc1 : k_cur (s <| k_held := [L_ptable] |>) = Some me) by done.
  unfold wait_locked, myproc. mrun. rewrite Hc1. by mrun.
Qed.

Lemma table_slots s :
  kinv s -> forall j, j ∈ seq 0 NPROC -> exists q, k_procs s !! j = Some q.
Proof.
  intros Hk j Hj%elem_of_seq. apply lookup_lt_is_Some_2. rewrite (kv_len _ Hk). lia.
Qed.

(** [wait] when no child that is not a thread has exited: it fails at once
    when there is no such child at all or the caller has been killed, and
    sleeps on its own channel otherwise.  Exited threads do not count. *)
Theorem wait_blocks s me m :
  kinv s -> k_held s = [] -> k_cur s = Some me -> k_procs s !! me = Some m ->
  (forall j q, k_procs s !! j = Some q -> exited me q = false) ->
  (((forall j q, k_procs s !! j = Some q -> waitable me q = false) \/ p_killed m <> 0) ->
     wait s = Ret (-1) s) /\
  ((exists j q, k_procs s !! j = Some q /\ waitable me q = true) -> p_killed m = 0 ->
     wait s = Switch (s <| k_held := [L_ptable] |>
                        <| k_procs ::= alter (asleep (C_proc me)) me |>)).
Proof.
  intros Hk Hh Hc Hm Hex.
  assert (Hscan : forall s1, s1 = s <| k_held := [L_ptable] |> ->
    wait_scan me (seq 0 NPROC) false s1 = Ret (inl (existsb (fun j =>
      from_option (waitable me) false (k_procs s !! j)) (seq 0 NPROC))) s1).
  { intros s1 ->. apply (wait_scan_run me m); [done|].
    intros j Hj. destruct (table_slots s Hk j Hj) as [q Hq]. exists q. split; [done|].
    by eapply Hex. }
  split.
  - intros Hcase. apply (wait_start me); try done. intros s1 Hs1 Hback.
    rewrite (bind_eq _ _ _ _ _ (Hscan s1 Hs1)). cbv iota.
    rewrite (get_proc_bind _ m) by (by rewrite Hs1).
    assert (E : negb (existsb (fun j => from_option (waitable me) false (k_procs s !! j))
                        (seq 0 NPROC)) || ctrue (p_killed m) = true).
    { apply orb_true_iff. destruct Hcase as [No|Hkill]; [left|right; unfold ctrue; lia].
      apply negb_true_iff, not_true_iff_false. intros (j & _ & Hj)%existsb_exists.
      destruct (k_procs s !! j) as [q|] eqn:Hq; [|done]. simpl in Hj.
      by rewrite (No j q Hq) in Hj. }
    rewrite E, (release_head _ []) by (by rewrite ?Hs1 || apply not_elem_of_nil).
    unfold ret. by rewrite Hback.
  - intros (j & q & Hq & Hw) Hkill. apply (wait_start me); try done. intros s1 Hs1 Hback.
    rewrite (bind_eq _ _ _ _ _ (Hscan s1 Hs1)). cbv iota.
    rewrite (get_proc_bind _ m) by (by rewrite Hs1).
    assert (E : existsb (fun j => from_option (waitable me) false (k_procs s !! j))
                  (seq 0 NPROC) = true).
    { apply existsb_exists. exists j. rewrite Hq. split; [|done].
      apply list_elem_of_In, elem_of_seq. rewrite <- (kv_len _ Hk).
      pose proof (lookup_lt_Some _ _ _ Hq). lia. }
    rewrite E, Hkill. cbn [negb orb ctrue Z.eqb].
    rewrite (sleep_ok _ _ me m) by (by rewrite Hs1). by rewrite Hs1.
Qed.

(** [wait] reaps the first child in the table that has exited and is not a
    thread: it returns the child's id, frees its kernel stack and its address
    space, and the slot is [UNUSED] with no parent. *)
Theorem wait_reaps s me m i p s1 :
  kinv s -> k_held s = [] -> k_cur s = Some me -> k_procs s !! me = Some m ->
  k_procs s !! i = Some p -> exited me p = true ->
  (forall j q, (j < i)%nat -> k_procs s !! j = Some q -> exited me q = false) ->
  page_ok (p_kstack p) ->
  freevm (p_pgdir p) ((freed (p_kstack p) (s <| k_held := [L_ptable] |>))
      <| k_procs ::= alter (fun p => p <| p_kstack := 0 |>) i |>) = Ret tt s1 ->
  k_held s1 = [L_ptable] ->
  wait s = Ret (p_pid p) (s1 <| k_procs ::= alter waited i |> <| k_held := [] |>).
Proof.
  intros Hk Hh Hc Hm Hp Hex Hfirst Hks Hvm Hh1.
  apply (wait_start me); try done. intros s0 Hs0 _.
  assert (Hi : (i < NPROC)%nat) by (rewrite <- (kv_len _ Hk); by eapply lookup_lt_Some).
  assert (Hn : seq 0 NPROC = seq 0 i ++ i :: seq (S i) (NPROC - S i)).
  { etrans; [|exact (seq_app i (S (NPROC - S i)) 0)]. f_equal. lia. }
  destruct (wait_scan_app me m (seq 0 i) (i :: seq (S i) (NPROC - S i)) false s0)
    as (hk & E).
  { by rewrite Hs0. }
  { intros j Hj%elem_of_seq. destruct (table_slots s Hk j) as [q Hq].
    { apply elem_of_seq. lia. }
    exists q. rewrite Hs0. split; [done|]. apply (Hfirst j); [lia|done]. }
  assert (Hp0 : k_procs s0 !! i = Some p) by (by rewrite Hs0).
  assert (Hm0 : k_procs s0 !! me = Some m) by (by rewrite Hs0).
  assert (Hlk : km_use_lock (k_kmem s0) <> 0 -> L_kmem ∉ k_held s0).
  { intros _. rewrite Hs0. change (L_kmem ∉ [L_ptable]). by rewrite list_elem_of_singleton. }
  unfold bind at 1. rewrite Hn, E. cbn [wait_scan].
  rewrite (get_proc_bind _ p), (get_proc_bind _ m) by done.
  rewrite (bind_eq _ _ _ _ _ (wait_skips_run me m p s0 Hm0)).
  apply andb_true_iff in Hex as [Hw Hz]. rewrite Hw, Hz. cbn [negb].
  rewrite (bind_eq _ _ _ _ _ (wait_reap_run i p s0 s1 [] Hp0 ltac:(by rewrite Hs0)
    ltac:(apply not_elem_of_nil) Hks Hlk
    ltac:(by rewrite Hs0) Hh1)). done.
Qed.

(** * exit *)

(** A child of [cur] given to init. *)
Definition adopt (cur : nat) (init : option nat) (p : proc) : proc :=
  if bool_decide (p_parent p = Some cur) then p <| p_parent := init |> else p.
Definition zombie_child (cur : nat) (p : proc) : bool :=
  bool_decide (p_parent p = Some cur) && bool_decide (p_state p = ZOMBIE).

(** The process table after the loop of [exit] over it: every child goes to
    init, which is woken if one of them is a zombie. *)
Definition reparented (cur : nat) (init : option nat) (ps : list proc) : list proc :=
  (if existsb (zombie_child cur) ps then fmap (wake (C_proc <$> init)) else id)
    (adopt cur init <$> ps).

Lemma adopt_wake cur init ch p : adopt cur init (wake ch p) = wake ch (adopt cur init p).
Proof. unfold adopt, wake. by repeat case_bool_decide. Qed.

Definition reparent_body (cur i : nat) : K unit :=
  p <- get_proc i;;
  whenM (bool_decide (p_parent p = Some cur))
    (init <- gets k_initproc;;
     upd_proc i (fun p => p <| p_parent := init |>);;;
     whenM (bool_decide (p_state p = ZOMBIE)) (wakeup1 (C_proc <$> init))).

Lemma alter_middle {A} (f : A -> A) pre x suf :
  alter f (length pre) (pre ++ x :: suf) = pre ++ f x :: suf.
Proof. induction pre; simpl; [done|]. by f_equal. Qed.

Lemma reparent_loop cur init n suf pre s :
  length suf = n -> k_initproc s = init -> k_procs s = pre ++ suf ->
  forM (seq (length pre) n) (reparent_body cur) s =
    Ret tt (s <| k_procs :=
      (if existsb (zombie_child cur) suf then fmap (wake (C_proc <$> init)) else id)
        (pre ++ (adopt cur init <$> suf)) |>).
Proof.
  revert suf pre s. induction n as [|n IH]; intros [|p suf] pre s Hn Hi Hs; try done; simpl.
  { unfold ret. f_equal. rewrite app_nil_r in *. destruct s; cbn in *. by subst. }
  injection Hn as Hn. unfold reparent_body at 1. mrun.
  rewrite (get_proc_bind _ p) by (rewrite Hs, lookup_app_r, Nat.sub_diag; done).
  unfold whenM at 1, zombie_child at 1, adopt at 1. case_bool_decide as Hp; cbn [andb orb].
  2:{ mrun. specialize (IH suf (pre ++ [p]) s Hn Hi). rewrite length_app, Nat.add_1_r in IH.
      rewrite IH; rewrite <- app_assoc; done. }
  mrun. set (p' := p <| p_parent := init |>). set (s1 := s <| k_procs ::= _ |>).
  assert (Hs1 : k_procs s1 = (pre ++ [p']) ++ suf).
  { subst s1. cbn. rewrite Hs, Hi, alter_middle, <- app_assoc. done. }
  assert (Hlen : S (length pre) = length (pre ++ [p'])) by (rewrite length_app; simpl; lia).
  unfold whenM. case_bool_decide as Hz; cbn [orb].
  - unfold wakeup1. mrun. rewrite Hi. set (w := wake (C_proc <$> init)).
    set (s2 := s1 <| k_procs ::= _ |>).
    assert (Hs2 : k_procs s2 = (w <$> (pre ++ [p'])) ++ (w <$> suf)).
    { change (k_procs s2) with (w <$> k_procs s1). by rewrite Hs1, fmap_app. }
    rewrite Hlen, <- (length_fmap w (pre ++ [p'])).
    assert (Hn2 : length (w <$> suf) = n) by (by rewrite length_fmap).
    rewrite (IH _ _ s2 Hn2 Hi Hs2).
    assert (Ew : forall l : list proc, w <$> (w <$> l) = w <$> l).
    { intros l. rewrite <- list_fmap_compose. apply list_fmap_ext. intros; apply wake_wake. }
    assert (Ea : adopt cur init <$> (w <$> suf) = w <$> (adopt cur init <$> suf)).
    { rewrite <- !list_fmap_compose. apply list_fmap_ext. intros; apply adopt_wake. }
    rewrite Ea, <- fmap_app, <- app_assoc. f_equal.
    destruct (existsb _ _); [rewrite Ew|]; done.
  - mrun. rewrite Hlen, (IH _ _ s1 Hn Hi Hs1), <- app_assoc. done.
Qed.

Lemma reparent_run cur s :
  length (k_procs s) = NPROC ->
  reparent cur s = Ret tt (s <| k_procs ::= reparented cur (k_initproc s) |>).
Proof.
  intros Hlen. exact (reparent_loop cur _ NPROC (k_procs s) [] s Hlen eq_refl eq_refl).
Qed.

(** Whom an exiting process wakes: a thread its creator, another process its
    parent. *)
Definition exit_waiter (p : proc) : option nat :=
  if ctrue (p_isThread p) then p_pthread p else p_parent p.

(** The process table [exit] leaves to the scheduler. *)
Definition exit_table (cur : nat) (c : proc) (init : option nat) (ps : list proc) : list proc :=
  alter (fun p => p <| p_state := ZOMBIE |>) cur
    (reparented cur init (wake (C_proc <$> exit_waiter c) <$> ps)).

Lemma lookup_reparented cur init ps j :
  reparented cur init ps !! j =
    (if existsb (zombie_child cur) ps then wake (C_proc <$> init) else id)
      <$> (adopt cur init <$> ps !! j).
Proof.
  unfold reparented. destruct (existsb _ _); rewrite ?list_lookup_fmap; [done|].
  change (id (adopt cur init <$> ps) !! j) with ((adopt cur init <$> ps) !! j).
  rewrite list_lookup_fmap. by destruct (ps !! j).
Qed.

Lemma exit_locked_run cur c s :
  length (k_procs s) = NPROC -> k_cur s = Some cur -> k_held s = [L_ptable] ->
  k_procs s !! cur = Some c ->
  exit_locked cur s = Switch (s <| k_procs ::= exit_table cur c (k_initproc s) |>).
Proof.
  intros Hlen Hc Hh Hp. unfold exit_locked. rewrite (get_proc_bind _ c) by done.
  unfold wakeup1. mrun. fold (exit_waiter c).
  set (s1 := s <| k_procs ::= _ |>).
  assert (Hlen1 : length (k_procs s1) = NPROC) by (cbn; by rewrite length_fmap).
  rewrite (bind_eq _ _ _ _ _ (reparent_run cur s1 Hlen1)). mrun.
  set (s2 := upd k_procs _ (upd k_procs _ s1)).
  assert (E : s2 = s <| k_procs ::= exit_table cur c (k_initproc s) |>) by reflexivity.
  rewrite E. clearbody s2. subst s2.
  assert (exists q, k_procs (s <| k_procs ::= exit_table cur c (k_initproc s) |>) !! cur = Some q
            /\ p_state q = ZOMBIE) as (q & Hq & Hz).
  { cbn. unfold exit_table. rewrite list_lookup_alter_eq, lookup_reparented, list_lookup_fmap, Hp.
    eexists. split; reflexivity. }
  apply (sched_ok cur q); try done. congruence.
Qed.

Lemma wake_facts ch p :
  p_pid (wake ch p) = p_pid p /\ p_parent (wake ch p) = p_parent p /\
  p_isThread (wake ch p) = p_isThread p /\
  (p_state p <> SLEEPING -> p_state (wake ch p) = p_state p) /\
  (p_state p = RUNNABLE \/ (p_state p = SLEEPING /\ p_chan p = ch) ->
   p_state (wake ch p) = RUNNABLE).
Proof.
  unfold wake. destruct (_ && _) eqn:E; split_and!; try done.
  - intros H. apply andb_true_iff in E as [E%bool_decide_eq_true _]. done.
  - intros [->|[H1 H2]]; [done|]. by rewrite !bool_decide_true in E.
Qed.

Lemma adopt_facts cur init p :
  p_pid (adopt cur init p) = p_pid p /\ p_state (adopt cur init p) = p_state p /\
  p_isThread (adopt cur init p) = p_isThread p /\
  p_parent (adopt cur init p) = if bool_decide (p_parent p = Some cur) then init else p_parent p.
Proof. unfold adopt. by case_bool_decide. Qed.

(** Another process after the exit of [cur]. *)
Lemma exit_table_other cur c init ps j q :
  ps !! j = Some q -> j <> cur ->
  exists q', exit_table cur c init ps !! j = Some q' /\ p_pid q' = p_pid q /\
    p_parent q' = (if bool_decide (p_parent q = Some cur) then init else p_parent q) /\
    (p_state q <> SLEEPING -> p_state q' = p_state q) /\
    (p_state q = SLEEPING -> p_chan q = C_proc <$> exit_waiter c -> p_state q' = RUNNABLE).
Proof.
  intros Hq Hne. unfold exit_table.
  rewrite list_lookup_alter_ne, lookup_reparented, list_lookup_fmap, Hq by done. simpl.
  set (w1 := wake (C_proc <$> exit_waiter c) q).
  destruct (wake_facts (C_proc <$> exit_waiter c) q) as (W1 & W2 & _ & W3 & W4).
  destruct (adopt_facts cur init w1) as (A1 & A2 & _ & A4).
  fold w1 in W1, W2, W3, W4. rewrite W2 in A4.
  destruct (existsb _ _).
  - destruct (wake_facts (C_proc <$> init) (adopt cur init w1)) as (V1 & V2 & _ & V3 & V4).
    eexists. split; [reflexivity|]. split_and!; [congruence|congruence| |].
    + intros H. rewrite V3; rewrite A2, W3; done.
    + intros H1 H2. apply V4. left. rewrite A2. apply W4. auto.
  - eexists. split; [reflexivity|]. unfold id. split_and!; [congruence|congruence| |].
    + intros H. by rewrite A2, W3.
    + intros H1 H2. rewrite A2. apply W4. auto.
Qed.

(** The exiting process itself. *)
Lemma exit_table_self cur c init ps :
  ps !! cur = Some c -> p_parent c <> Some cur ->
  exists c', exit_table cur c init ps !! cur = Some c' /\ p_state c' = ZOMBIE /\
    p_pid c' = p_pid c /\ p_parent c' = p_parent c /\ p_isThread c' = p_isThread c.
Proof.
  intros Hc Hp. unfold exit_table.
  rewrite list_lookup_alter_eq, lookup_reparented, list_lookup_fmap, Hc. simpl.
  set (w1 := wake (C_proc <$> exit_waiter c) c).
  destruct (wake_facts (C_proc <$> exit_waiter c) c) as (W1 & W2 & W3 & _).
  destruct (adopt_facts cur init w1) as (A1 & _ & A3 & A4). fold w1 in W1, W2, W3.
  rewrite W2, bool_decide_false in A4 by done.
  clearbody w1. set (a := adopt cur init w1) in *. clearbody a.
  destruct (existsb _ _).
  - destruct (wake_facts (C_proc <$> init) a) as (V1 & V2 & V3 & _).
    set (x := wake _ a) in *. clearbody x.
    eexists. split; [reflexivity|]. split_and!; cbn; congruence.
  - eexists. split; [reflexivity|]. unfold id. split_and!; cbn; congruence.
Qed.

End Reap.

(** * Examples *)

#[local] Existing Instance demo_layout.

(** The thread of [demo3] has exited. *)
Definition demo_join : kstate :=
  demo [demo_proc 1 RUNNING None; demo_thread 2 ZOMBIE; demo_proc 3 ZOMBIE (Some 0%nat)] 0.


(** A parent whose only exited child is a thread. *)
Definition demo_wait : kstate :=
  demo [demo_proc 1 RUNNING None; demo_thread 2 ZOMBIE; demo_proc 3 RUNNABLE (Some 0%nat)] 0.

Lemma wait_blocks_witness :
  wait demo_wait = Switch (demo_wait <| k_held := [L_ptable] |>
                             <| k_procs ::= alter (asleep (C_proc 0)) 0%nat |>).
Proof.
  apply (wait_blocks demo_wait 0 (demo_proc 1 RUNNING None)); try by_eq.
  - apply kinv_check_sound. vm_compute. reflexivity.
  - intros j q Hq. apply list_elem_of_lookup_2 in Hq. revert q Hq.
    apply Forall_forall. repeat (apply Forall_cons_2; [reflexivity|]).
    apply Forall_nil_2.
  - exists 2%nat, (demo_proc 3 RUNNABLE (Some 0%nat)). split; reflexivity.
Defined.

Definition demo_child : proc := demo_proc 3 ZOMBIE (Some 0%nat).

(** Its address space has no page tables yet. *)
Lemma demo_freevm_run :
  result (freevm (p_pgdir demo_child)
    ((freed (p_kstack demo_child) (demo_join <| k_held := [L_ptable] |>))
       <| k_procs ::= alter (fun p => p <| p_kstack := 0 |>) 2%nat |>)) = Some tt /\
  k_held (end_state kstate_zero (freevm (p_pgdir demo_child)
    ((freed (p_kstack demo_child) (demo_join <| k_held := [L_ptable] |>))
       <| k_procs ::= alter (fun p => p <| p_kstack := 0 |>) 2%nat |>))) = [L_ptable].
Proof. split; vm_compute; reflexivity. Qed.

Lemma wait_reaps_witness :
  exists s1, wait demo_join = Ret 3 (s1 <| k_procs ::= alter waited 2%nat |> <| k_held := [] |>).
Proof.
  destruct demo_freevm_run as [Hr Hh].
  destruct (freevm _ _) as [[] s1| | | |] eqn:E; try discriminate Hr. exists s1.
  apply (wait_reaps demo_join 0 (demo_proc 1 RUNNING None) 2 demo_child s1).
  - apply kinv_check_sound. vm_compute. reflexivity.
  - reflexivity.
  - reflexivity.
  - reflexivity.
  - reflexivity.
  - reflexivity.
  - intros [|[|j]] q Hj Hq; [injection Hq as <-; reflexivity..|lia].
  - apply page_ok_check; vm_compute; reflexivity.
  - exact E.
  - exact Hh.
Defined.

(** A child that exits while its parent sleeps in [wait]. *)
Definition demo_exit : kstate :=
  (demo [(demo_proc 1 SLEEPING None) <| p_chan := Some (C_proc 0) |>;
         demo_proc 2 RUNNING (Some 0%nat); demo_proc 3 RUNNABLE (Some 1%nat)] 1)
    <| k_held := [L_ptable] |>.

