(* ===== verification/CloneSpec.v ===== *)
(** The creation of a thread that shares the caller's address space, files
    and working directory: [clone] with [CLONE_VM], [CLONE_FS] and
    [CLONE_FILES], run to its end. *)
From S2P Require Import Prelude Kstate Demo Mem MemSpec Cprintf Kalloc KallocSpec Sched Vm.
From S2P Require Import Sleeplock Bio Log Inode Console Dir Pipe File Proc Exec Sysproc.
From S2P Require Import Sysfile Trap Ptable Kinv ProcSpec Reap.

Section Clone.
Context `{KL : KernelLayout}.

(** * Stores to user memory *)

(** The kernel address behind [va] in the page directory [cr3]. *)
Definition translate (cr3 : Z) (m : mem) (va : Z) : option Z :=
  let e := ld32 m (P2V cr3 + 4 * PDX va) in
  if negb (ctrue (Z.land e PTE_P)) then None
  else
    let e := ld32 m (P2V (PTE_ADDR e) + 4 * PTX va) in
    if negb (ctrue (Z.land e PTE_P)) then None
    else Some (P2V (PTE_ADDR e) + va mod PGSIZE).

Definition store8 (cr3 : Z) (m : mem) (va v : Z) : option mem :=
  a ← translate cr3 m va; Some (st8 m a v).
Definition store32 (cr3 : Z) (m : mem) (va v : Z) : option mem :=
  m ← store8 cr3 m va v; m ← store8 cr3 m (va + 1) (Z.shiftr v 8);
  m ← store8 cr3 m (va + 2) (Z.shiftr v 16); store8 cr3 m (va + 3) (Z.shiftr v 24).

Lemma user_addr_run va s :
  user_addr va s = match translate (k_cr3 s) (k_mem s) va with
                   | Some a => Ret a s
                   | None => Fault
                   end.
Proof.
  unfold user_addr, translate, kld32. mrun. destruct (negb _); [done|]. mrun.
  by destruct (negb _).
Qed.

Lemma user_st8_run va v s :
  user_st8 va v s = match store8 (k_cr3 s) (k_mem s) va v with
                    | Some m => Ret tt (s <| k_mem := m |>)
                    | None => Fault
                    end.
Proof.
  unfold user_st8, store8, bind. rewrite user_addr_run. by destruct (translate _ _ _).
Qed.

Lemma user_st32_run va v s m :
  store32 (k_cr3 s) (k_mem s) va v = Some m -> user_st32 va v s = Ret tt (s <| k_mem := m |>).
Proof.
  unfold user_st32, store32, bind. rewrite user_st8_run.
  destruct (store8 _ _ va v) as [m1|]; [|done]. simpl. rewrite user_st8_run. simpl.
  destruct (store8 _ _ (va + 1) _) as [m2|]; [|done]. simpl. rewrite user_st8_run. simpl.
  destruct (store8 _ _ (va + 2) _) as [m3|]; [|done]. simpl. rewrite user_st8_run. simpl.
  destruct (store8 _ _ (va + 3) _) as [m4|]; [|done]. by intros [= ->].
Qed.

(** * States during [clone] *)

Section Run.
Context (s : kstate) (np cur : nat).
Context (Hne : np <> cur) (Hnp : (np < length (k_procs s))%nat)
  (Hcur : (cur < length (k_procs s))%nat).

(** [s] with the new process [n], the caller [c], and memory [m]. *)
Definition during (km : kmem) (n c : proc) (m : mem) : kstate :=
  s <| k_procs := <[np := n]> (<[cur := c]> (k_procs s)) |>
    <| k_nextpid := k_nextpid s + 1 |> <| k_kmem := km |> <| k_mem := m |>.

Lemma during_np km n c m : k_procs (during km n c m) !! np = Some n.
Proof. cbn. apply list_lookup_insert_eq. by rewrite length_insert. Qed.
Lemma during_cur km n c m : k_procs (during km n c m) !! cur = Some c.
Proof. cbn. rewrite list_lookup_insert_ne by done. by apply list_lookup_insert_eq. Qed.

Lemma bind_get_np {B} km n c m (k : proc -> K B) :
  bind (get_proc np) k (during km n c m) = k n (during km n c m).
Proof. by rewrite (get_proc_bind _ n) by apply during_np. Qed.
Lemma bind_get_cur {B} km n c m (k : proc -> K B) :
  bind (get_proc cur) k (during km n c m) = k c (during km n c m).
Proof. by rewrite (get_proc_bind _ c) by apply during_cur. Qed.

Lemma during_upd_np km n c m f :
  (during km n c m) <| k_procs ::= alter f np |> = during km (f n) c m.
Proof.
  assert (E : alter f np (<[np := n]> (<[cur := c]> (k_procs s)))
              = <[np := f n]> (<[cur := c]> (k_procs s))).
  { rewrite (list_alter_at f np n), list_insert_insert_eq; [done|].
    apply list_lookup_insert_eq. by rewrite length_insert. }
  unfold during at 2. by rewrite <- E.
Qed.
Lemma during_upd_cur km n c m f :
  (during km n c m) <| k_procs ::= alter f cur |> = during km n (f c) m.
Proof.
  assert (E : alter f cur (<[np := n]> (<[cur := c]> (k_procs s)))
              = <[np := n]> (<[cur := f c]> (k_procs s))).
  { rewrite (list_alter_at f cur c).
    - by rewrite list_insert_insert_ne, list_insert_insert_eq.
    - rewrite list_lookup_insert_ne by done. by apply list_lookup_insert_eq. }
  unfold during at 2. by rewrite <- E.
Qed.

Lemma bind_upd_np {B} km n c m f (k : unit -> K B) :
  bind (upd_proc np f) k (during km n c m) = k tt (during km (f n) c m).
Proof. mrun. by rewrite during_upd_np. Qed.
Lemma bind_upd_cur {B} km n c m f (k : unit -> K B) :
  bind (upd_proc cur f) k (during km n c m) = k tt (during km n (f c) m).
Proof. mrun. by rewrite during_upd_cur. Qed.

Lemma during_mem km n c m m' : (during km n c m) <| k_mem := m' |> = during km n c m'.
Proof. done. Qed.
Lemma make_runnable_run km n c m :
  L_ptable ∉ k_held s ->
  make_runnable np (during km n c m) =
    Ret tt (during km (n <| p_state := RUNNABLE |>) c m).
Proof.
  intros Hl. unfold make_runnable. rewrite locked_bind by done. mrun.
  rewrite <- during_upd_np. rewrite (release_ok _ (k_held s)) by done. by f_equal.
Qed.

(** ** The descriptor table *)

(** [to]'s table after sharing [from]'s: open entries are copied. *)
Definition shared_ofile (from to : list (option nat)) : list (option nat) :=
  zip_with (fun f t => match f with Some _ => f | None => t end) from to.

Lemma share_loop km c n m fsuf tsuf tpre :
  p_ofile n = tpre ++ tsuf -> length fsuf = length tsuf ->
  (exists fpre, p_ofile c = fpre ++ fsuf /\ length fpre = length tpre) ->
  forM (seq (length tpre) (length tsuf)) (fun fd =>
    p <- get_proc cur;;
    f <- deref (p_ofile p !! fd);;
    match f with
    | None => ret tt
    | Some f => upd_proc np (fun p => p <| p_ofile ::= <[fd := Some f]> |>)
    end) (during km n c m) =
  Ret tt (during km (n <| p_ofile := tpre ++ shared_ofile fsuf tsuf |>) c m).
Proof.
  revert n tsuf tpre. induction fsuf as [|f fsuf IH]; intros n [|t tsuf] tpre Hn Hlen
    (fpre & Hc & Hpre); try done.
  - simpl. unfold ret. do 2 f_equal. destruct n. cbn in *. by subst.
  - injection Hlen as Hlen. cbn [length seq forM]. mrun. rewrite bind_get_cur. mrun.
    rewrite Hc, <- Hpre, lookup_app_r, Nat.sub_diag by lia. cbn [lookup list_lookup]. mrun.
    assert (Hc' : exists fpre', p_ofile c = fpre' ++ fsuf /\ length fpre' = S (length tpre)).
    { exists (fpre ++ [f]). rewrite <- app_assoc, length_app. simpl. split; [done|lia]. }
    destruct f as [f|]; cbn [shared_ofile zip_with].
    + rewrite bind_upd_np. specialize (IH (n <| p_ofile ::= <[length tpre := Some f]> |>) tsuf
        (tpre ++ [Some f])).
      rewrite length_app, Nat.add_1_r in IH. rewrite Hpre, IH; cbn; try done.
      * by rewrite <- app_assoc.
      * rewrite Hn, insert_app_r_alt, Nat.sub_diag, <- app_assoc by lia. done.
    + mrun. specialize (IH n tsuf (tpre ++ [t])).
      rewrite length_app, Nat.add_1_r in IH. rewrite Hpre, IH; try done.
      * by rewrite <- app_assoc.
      * by rewrite <- app_assoc.
Qed.

Lemma share_ofiles_run km c n m :
  length (p_ofile c) = NOFILE -> length (p_ofile n) = NOFILE ->
  share_ofiles cur np (during km n c m) =
    Ret tt (during km (n <| p_ofile := shared_ofile (p_ofile c) (p_ofile n) |>) c m).
Proof.
  intros Hc Hn. unfold share_ofiles. rewrite <- Hn at 1.
  apply (share_loop km c n m (p_ofile c) (p_ofile n) []); [done|congruence|by exists []].
Qed.
End Run.

(** * Allocation *)

(** The new process as [allocproc] leaves it, and memory with its initial
    kernel stack. *)
Definition alloced (p : proc) (pid ks : Z) : proc :=
  p <| p_isThread := 0 |> <| p_state := EMBRYO |> <| p_pid := pid |> <| p_kstack := ks |>
    <| p_context := ctx_zero <| cx_eip := forkret_addr |> |>.
Definition stack_mem (ks : Z) (m : mem) : mem :=
  st32 (memset (st32 m (tf_ptr ks - 4) trapret) (context_ptr ks) 0 sizeof_context)
    (context_ptr ks + 16) forkret_addr.

Lemma allocproc_run s l ks np cur p c :
  alloc_inv s (ks :: l) -> L_ptable ∉ k_held s -> k_nextpid s <> 2 ^ 31 - 1 ->
  find_index is_unused (k_procs s) = Some np -> k_procs s !! np = Some p ->
  k_procs s !! cur = Some c -> np <> cur ->
  allocproc s = Ret (Some np)
    (during s np cur (k_kmem (taken ks s)) (alloced p (k_nextpid s) ks) c
       (stack_mem ks (k_mem s))).
Proof.
  intros Hinv Hl Hov Hf Hp Hc Hne. unfold allocproc. rewrite locked_bind by done. mrun.
  change (k_procs (s <| k_held := L_ptable :: k_held s |>)) with (k_procs s). rewrite Hf. mrun.
  rewrite (proj2 (Z.eqb_neq _ _)) by done. mrun.
  rewrite (release_head _ (k_held s)) by done.
  set (s1 := upd k_held _ _).
  assert (Hinv1 : alloc_inv s1 (ks :: l)) by (destruct Hinv; by split).
  assert (Hk : kalloc s1 = Ret ks (taken ks s1)).
  { rewrite kalloc_run by apply Hinv1. cbv zeta.
    destruct (al_list _ _ Hinv1) as [-> _].
    pose proof (al_pages _ _ Hinv1) as [Hpg _]%Forall_cons.
    apply page_ok_facts in Hpg as [_ ?]. by rewrite (proj2 (Z.eqb_neq _ _)) by lia. }
  rewrite (bind_eq _ _ _ _ _ Hk). mrun.
  assert (Hks : ctrue ks = true).
  { pose proof (al_pages _ _ Hinv) as [[_ ?]%page_ok_facts _]%Forall_cons. unfold ctrue. lia. }
  rewrite Hks. cbn [negb]. unfold kst32, kmemset. mrun. unfold ret. f_equal.
  assert (E : forall f g h j : proc -> proc,
    alter f np (alter g np (alter h np (alter j np (k_procs s)))) =
    <[np := f (g (h (j p)))]> (<[cur := c]> (k_procs s))).
  { intros f g h j. rewrite (list_insert_id (k_procs s) cur c) by done.
    rewrite (list_alter_at j np p) by done.
    by rewrite !list_alter_inserted. }
  specialize (E (fun p => p <| p_context := ctx_zero <| cx_eip := forkret_addr |> |>)
    (fun p => p <| p_kstack := ks |>) (fun p => p <| p_pid := k_nextpid s |>)
    (fun p => p <| p_isThread := 0 |> <| p_state := EMBRYO |>)). cbv beta in E.
  unfold during, alloced. by rewrite <- E.

Qed.

(** * Thread creation *)

(** The parent a new thread gets: the creator or its process, or with
    [CLONE_PARENT] the parent of that. [None]: a null pointer is followed. *)
Definition thread_parent (ps : list proc) (cur : nat) (c : proc) (flags : Z)
    : option (option nat) :=
  if p_isThread c =? 0 then Some (if Z.testbit flags 3 then p_parent c else Some cur)
  else if Z.testbit flags 3 then pa ← p_parent c; p_parent <$> ps !! pa
  else Some (p_parent c).

Definition flag_value (flags bit : Z) : Z := Z.b2z (Z.testbit flags bit).

(** The thread's process table entry. [p] is the entry before the call. *)
Definition new_thread (p c : proc) (pid ks : Z) (cur : nat) (parent : option nat)
    (nm : list Z) (f stack flags : Z) : proc :=
  let sp := u32 (u32 (stack + PGSIZE - 4) - 4) in
  (alloced p pid ks) <| p_CLONE_VM := 1 |> <| p_CLONE_FS := 1 |> <| p_CLONE_FILES := 1 |>
    <| p_CLONE_PARENT := flag_value flags 3 |> <| p_CLONE_THREAD := flag_value flags 4 |>
    <| p_pgdir := p_pgdir c |>
    <| p_cwd_clone := fill_slots cur (p_cwd_clone p) |> <| p_cwd := p_cwd c |>
    <| p_ofile_clone := fill_slots cur (p_ofile_clone p) |>
    <| p_ofile := shared_ofile (p_ofile c) (p_ofile p) |>
    <| p_parent := parent |>
    <| p_tgid := if Z.testbit flags 4 then p_tgid c else p_pid c |>
    <| p_pthread := Some cur |> <| p_isThread := 1 |> <| p_tstack := stack |>
    <| p_sz := p_sz c |> <| p_name := nm |>
    <| p_tf := (p_tf c) <| tf_eax := 0 |> <| tf_ebp := sp |> <| tf_esp := sp |> <| tf_eip := f |> |>
    <| p_state := RUNNABLE |>.

(** The creator's entry: the thread is written into its empty slots. *)
Definition creator (c : proc) (np : nat) : proc :=
  c <| p_cwd_clone := fill_slots np (p_cwd_clone c) |>
    <| p_ofile_clone := fill_slots np (p_ofile_clone c) |>.

Lemma CLONE_flag_value flags bit : 0 <= bit -> CLONE_flag flags bit = flag_value flags bit.
Proof.
  intros Hb. unfold CLONE_flag, flag_value, ctrue. rewrite Z.shiftl_1_l.
  destruct (Z.testbit flags bit) eqn:E.
  - destruct (Z.eqb_spec (Z.land flags (2 ^ bit)) 0) as [H|]; [|done].
    assert (Z.testbit (Z.land flags (2 ^ bit)) bit = true) as Hf.
    { by rewrite Z.land_spec, E, Z.pow2_bits_true. }
    by rewrite H, Z.bits_0 in Hf.
  - rewrite (proj2 (Z.eqb_eq _ _)); [done|]. apply Z.bits_inj'. intros i Hi.
    rewrite Z.land_spec, Z.pow2_bits_eqb, Z.bits_0 by done.
    destruct (Z.eqb_spec bit i) as [->|]; [by rewrite E|apply andb_false_r].
Qed.

Lemma flag_on flags bit : Z.testbit flags bit = true -> flag_value flags bit = 1.
Proof. unfold flag_value. by intros ->. Qed.

Lemma flag_true flags bit : ctrue (flag_value flags bit) = Z.testbit flags bit.
Proof. unfold flag_value. by destruct (Z.testbit flags bit). Qed.

Lemma clone_parent_run s np cur km n p c c' m flags parent :
  np <> cur -> k_procs s !! np = Some p -> k_procs s !! cur = Some c ->
  p_parent n = p_parent p -> p_parent c' = p_parent c ->
  thread_parent (k_procs s) cur c flags = Some parent ->
  clone_parent cur c (flag_value flags 3) (during s np cur km n c' m) =
    Ret parent (during s np cur km n c' m).
Proof.
  intros Hne Hp Hc En Ec. unfold thread_parent, clone_parent, flag_value.
  destruct (p_isThread c =? 0); destruct (Z.testbit flags 3); cbn [ctrue Z.b2z];
    try by intros [= <-].
  destruct (p_parent c) as [pa|] eqn:Epa; [|done]. cbn [mbind option_bind].
  intros (q & Hq & ->)%fmap_Some_1.
  change (ctrue 1) with true. cbv iota. mrun.
  rewrite (get_proc_bind _ (if decide (pa = np) then n else if decide (pa = cur) then c' else q)).
  - unfold ret. f_equal. repeat case_decide; simplify_eq; congruence.
  - cbn. destruct (decide (pa = np)) as [->|].
    { apply list_lookup_insert_eq. rewrite length_insert. by eapply lookup_lt_Some. }
    rewrite list_lookup_insert_ne by done. destruct (decide (pa = cur)) as [->|].
    + apply list_lookup_insert_eq. by eapply lookup_lt_Some.
    + by rewrite list_lookup_insert_ne.
Qed.

End Clone.

(** ** An instance *)

#[local] Existing Instance demo_layout.

(** init with one page mapped at 0x2000, and one free page. *)
Definition clone_demo : kstate :=
  freed page0 (demo2 <| k_cr3 := 0x400000 |>
    <| k_mem := st32 (st32 ∅ 0x80400000 0x401007) 0x80401008 0x402007 |>).

(** Both stores to the stack page succeed. *)
Lemma clone_demo_stores : exists m1 m2,
  store32 (k_cr3 clone_demo) (stack_mem page0 (k_mem clone_demo))
    (u32 (0x2000 + PGSIZE - 4)) 7 = Some m1 /\
  store32 (k_cr3 clone_demo) m1 (u32 (u32 (0x2000 + PGSIZE - 4) - 4)) 0xffffffff = Some m2.
Proof.
  assert (H : match (m1 ← store32 (k_cr3 clone_demo) (stack_mem page0 (k_mem clone_demo))
                      (u32 (0x2000 + PGSIZE - 4)) 7;
                    store32 (k_cr3 clone_demo) m1 (u32 (u32 (0x2000 + PGSIZE - 4) - 4))
                      0xffffffff) with Some _ => true | None => false end = true)
    by (vm_compute; reflexivity).
  destruct (store32 _ _ _ 7) as [m1|]; [|discriminate]. cbn [mbind option_bind] in H.
  destruct (store32 _ m1 _ _) as [m2|] eqn:E; [|discriminate]. by exists m1, m2.
Qed.

