(* ===== verification/ForkSpec.v ===== *)
(** The creation of a process: [fork], run to its end, with the copy of the
    caller's address space and the new references to its files. *)
From S2P Require Import Prelude Kstate Demo Mem MemSpec Cprintf Kalloc KallocSpec Sched Vm.
From S2P Require Import PageTable VmSpec VmOps AddrSpace.
From S2P Require Import Sleeplock Bio Log Inode Console Dir Pipe File Proc Exec Sysproc.
From S2P Require Import Sysfile Trap Ptable Kinv ProcSpec Reap CloneSpec.

Section Fork.
Context `{KL : KernelLayout}.

(** * The new kernel stack *)

Lemma stack_mem_untouched ks m : untouched [ks] m (stack_mem ks m).
Proof.
  intros x Hx. specialize (Hx ks ltac:(left)). unfold stack_mem, context_ptr, tf_ptr.
  change PGSIZE with 4096 in *. change KSTACKSIZE with 4096. change sizeof_trapframe with 76.
  change sizeof_context with 20.
  rewrite ld8_st32_ne by lia. rewrite memset_bytes by done. rewrite ld8_st32_ne by lia. by_range.
Qed.
Lemma bytes_stack_mem ks m : bytes m -> bytes (stack_mem ks m).
Proof. intros H. apply bytes_st32, bytes_memset; [done|]. by apply bytes_st32. Qed.

(** The page of the stack leaves the free list. *)
Lemma alloced_space s ks F d T E Q np cur n c :
  uspace s (ks :: F) d T E Q ->
  uspace (during s np cur (k_kmem (taken ks s)) n c (stack_mem ks (k_mem s))) F d T E (ks :: Q).
Proof.
  intros H. pose proof (space_kalloc _ _ _ _ _ _ H) as (_ & _ & _ & H1).
  apply (space_perm _ _ _ _ _ (ks :: upages E ++ Q)); [apply Permutation_middle|].
  apply (space_frame (taken ks s) _ _ _ _ _ _ [ks]); try done.
  - apply stack_mem_untouched.
  - apply bytes_stack_mem. exact (space_bytes _ _ _ _ _ _ H).
  - intros ? ->%list_elem_of_singleton. left.
Qed.

(** * References *)

(** One more reference to a file, and to every open file of a table. *)
Definition dup_ref : file -> file := fun f => f <| f_ref ::= fun n => n + 1 |>.
Definition dup_refs (ft : list file) (l : list (option nat)) : list file :=
  foldl (fun ft o => match o with Some f => alter dup_ref f ft | None => ft end) ft l.

Definition file_live (ft : list file) (f : nat) : Prop := exists x, ft !! f = Some x /\ 1 <= f_ref x.

Lemma file_live_dup ft f g : file_live ft g -> file_live (alter dup_ref f ft) g.
Proof.
  intros (x & Hx & Hr). destruct (decide (g = f)) as [->|Hne].
  - exists (dup_ref x). rewrite list_lookup_alter_eq, Hx. split; [done|]. cbn. lia.
  - exists x. by rewrite list_lookup_alter_ne.
Qed.

Lemma filedup_run f s :
  L_ftable ∉ k_held s -> file_live (k_ftable s) f ->
  filedup f s = Ret f (s <| k_ftable ::= alter dup_ref f |>).
Proof.
  intros Hl (x & Hx & Hr). unfold filedup. rewrite locked_bind by done. unfold get_file. mrun.
  change (k_ftable (s <| k_held := L_ftable :: k_held s |>)) with (k_ftable s). rewrite Hx. mrun.
  rewrite (proj2 (Z.ltb_ge _ _)) by lia. unfold upd_file. mrun.
  rewrite (release_head _ (k_held s)) by done. done.
Qed.

Lemma idup_run i s x :
  L_icache ∉ k_held s -> k_icache s !! i = Some x ->
  idup (Some i) s = Ret (Some i) (s <| k_icache ::= alter (fun ip => ip <| i_ref ::= fun n => n + 1 |>) i |>).
Proof.
  intros Hl Hx. unfold idup. rewrite locked_bind by done. mrun. unfold get_inode. mrun.
  change (k_icache (s <| k_held := L_icache :: k_held s |>)) with (k_icache s). rewrite Hx. mrun.
  unfold upd_inode. mrun. rewrite (release_head _ (k_held s)) by done. done.
Qed.

(** * The descriptor table *)

Section Dup.
Context (s : kstate) (np cur : nat) (km : kmem) (c : proc) (m : mem).
Context (Hne : np <> cur) (Hnp : (np < length (k_procs s))%nat) (Hcur : (cur < length (k_procs s))%nat).
Context (Hl : L_ftable ∉ k_held s).

Definition with_files (ft : list file) (n : proc) : kstate :=
  during (s <| k_ftable := ft |>) np cur km n c m.

Lemma dup_loop n ft fsuf tsuf tpre :
  p_ofile n = tpre ++ tsuf -> length fsuf = length tsuf ->
  (exists fpre, p_ofile c = fpre ++ fsuf /\ length fpre = length tpre) ->
  (forall f, Some f ∈ fsuf -> file_live ft f) ->
  forM (seq (length tpre) (length tsuf)) (fun fd =>
    p <- get_proc cur;;
    f <- deref (p_ofile p !! fd);;
    match f with
    | None => ret tt
    | Some f =>
        f <- filedup f;;
        upd_proc np (fun p => p <| p_ofile ::= <[fd := Some f]> |>)
    end) (with_files ft n) =
  Ret tt (with_files (dup_refs ft fsuf) (n <| p_ofile := tpre ++ shared_ofile fsuf tsuf |>)).
Proof.
  revert n ft tsuf tpre. induction fsuf as [|f fsuf IH]; intros n ft [|t tsuf] tpre Hn Hlen
    (fpre & Hc & Hpre) Hlive; try done.
  - simpl. unfold ret. do 2 f_equal. destruct n. cbn in *. by subst.
  - injection Hlen as Hlen. cbn [length seq forM]. mrun. unfold with_files.
    rewrite bind_get_cur by done. mrun.
    rewrite Hc, <- Hpre, lookup_app_r, Nat.sub_diag by lia. cbn [lookup list_lookup]. mrun.
    assert (Hc' : exists fpre', p_ofile c = fpre' ++ fsuf /\ length fpre' = S (length tpre)).
    { exists (fpre ++ [f]). rewrite <- app_assoc, length_app. simpl. split; [done|lia]. }
    destruct f as [f|]; cbn [shared_ofile zip_with dup_refs foldl].
    + rewrite !bind_assoc. erewrite bind_eq by (apply filedup_run; [done|apply Hlive; left]).
      change (upd k_ftable (alter dup_ref f) (during ?s0 _ _ _ _ _ _)) with
        (with_files (alter dup_ref f ft) n). unfold with_files. rewrite bind_upd_np by done.
      specialize (IH (n <| p_ofile ::= <[length tpre := Some f]> |>) (alter dup_ref f ft) tsuf (tpre ++ [Some f])).
      rewrite length_app, Nat.add_1_r in IH. rewrite Hpre. unfold with_files in IH. rewrite IH; cbn; try done.
      * by rewrite <- app_assoc.
      * rewrite Hn, insert_app_r_alt, Nat.sub_diag, <- app_assoc by lia. done.
      * intros g Hg. apply file_live_dup, Hlive. by right.
    + mrun. specialize (IH n ft tsuf (tpre ++ [t])).
      rewrite length_app, Nat.add_1_r in IH. rewrite Hpre. unfold with_files in IH. rewrite IH; try done.
      * by rewrite <- app_assoc.
      * by rewrite <- app_assoc.
      * intros g Hg. apply Hlive. by right.
Qed.

Lemma dup_ofiles_run n ft :
  length (p_ofile c) = NOFILE -> length (p_ofile n) = NOFILE ->
  (forall f, Some f ∈ p_ofile c -> file_live ft f) ->
  dup_ofiles cur np (with_files ft n) =
    Ret tt (with_files (dup_refs ft (p_ofile c)) (n <| p_ofile := shared_ofile (p_ofile c) (p_ofile n) |>)).
Proof.
  intros Hc Hn Hlive. unfold dup_ofiles. rewrite <- Hn at 1.
  apply (dup_loop n ft (p_ofile c) (p_ofile n) []); [done|congruence|by exists []|done].
Qed.
End Dup.

(** * fork *)

(** The child's process table entry. [p] is the entry before the call. *)
Definition new_child (p c : proc) (pid ks : Z) (cur : nat) (nm : list Z) (pg : Z) : proc :=
  (alloced p pid ks) <| p_pgdir := pg |> <| p_tgid := pid |> <| p_isThread := 0 |>
    <| p_sz := p_sz c |> <| p_parent := Some cur |> <| p_tf := (p_tf c) <| tf_eax := 0 |> |>
    <| p_ofile := shared_ofile (p_ofile c) (p_ofile p) |> <| p_cwd := p_cwd c |>
    <| p_name := nm |> <| p_state := RUNNABLE |>.

(** The entry of a child whose address space could not be copied. *)
Definition failed_child (p : proc) (pid ks : Z) : proc :=
  (alloced p pid ks) <| p_pgdir := 0 |> <| p_kstack := 0 |> <| p_state := UNUSED |>.

Definition ref_inode (i : nat) (l : list inode) : list inode :=
  alter (fun ip => ip <| i_ref ::= fun n => n + 1 |>) i l.

Section Run.
Context (s : kstate) (np cur : nat) (p c : proc) (cwd : nat) (nm : list Z) (ip : inode).
Context (Hne : np <> cur) (Hnp : (np < length (k_procs s))%nat) (Hcur : (cur < length (k_procs s))%nat).
Context (Hlc : length (p_ofile c) = NOFILE) (Hlp : length (p_ofile p) = NOFILE).
Context (Hlive : forall f, Some f ∈ p_ofile c -> file_live (k_ftable s) f).
Context (Hcwd : p_cwd c = Some cwd) (Hip : k_icache s !! cwd = Some ip).
Context (Hnm : safestrcpy (p_name p) (p_name c) 16 = Some nm).
Context (Hl : forall l, l ∈ [L_ptable; L_ftable; L_icache] -> l ∉ k_held s).

(** From the copied address space on. *)
Lemma fork_rest km pid ks pg m :
  pg <> 0 ->
  (upd_proc np (fun p => p <| p_pgdir := pg |>);;;
   if negb (ctrue pg) then release_embryo np
   else
     c <- get_proc cur;;
     upd_proc np (fun p => p <| p_tgid := p_pid p |> <| p_isThread := 0 |>
                             <| p_sz := p_sz c |> <| p_parent := Some cur |>
                             <| p_tf := p_tf c |>);;;
     upd_proc np (fun p => p <| p_tf ::= fun t => t <| tf_eax := 0 |> |>);;;
     dup_ofiles cur np;;;
     c <- get_proc cur;;
     cwd <- idup (p_cwd c);;
     upd_proc np (fun p => p <| p_cwd := cwd |>);;;
     set_name np (p_name c);;;
     n <- get_proc np;;
     make_runnable np;;;
     ret (p_pid n)) (during s np cur km (alloced p pid ks) c m) =
  Ret pid (during (s <| k_ftable := dup_refs (k_ftable s) (p_ofile c) |> <| k_icache ::= ref_inode cwd |>)
    np cur km (new_child p c pid ks cur nm pg) c m).
Proof.
  intros Hpg. rewrite bind_upd_np by done. unfold ctrue. rewrite (proj2 (Z.eqb_neq pg 0)) by done. cbn [negb].
  rewrite bind_get_cur, !bind_upd_np by done.
  match goal with |- context [during s np cur km ?n c m] =>
    change (during s np cur km n c m) with (with_files s np cur km c m (k_ftable s) n) end.
  erewrite bind_eq by (apply dup_ofiles_run; try done; apply Hl; set_solver). unfold with_files.
  rewrite bind_get_cur by done. rewrite Hcwd.
  erewrite bind_eq by (apply (idup_run cwd _ ip); [apply Hl; set_solver|done]).
  match goal with |- context [upd k_icache _ (during ?s0 _ _ _ ?n _ _)] =>
    change (upd k_icache _ (during s0 np cur km n c m)) with (during (s0 <| k_icache ::= ref_inode cwd |>) np cur km n c m) end.
  rewrite bind_upd_np by done. unfold set_name.
  repeat first [rewrite bind_assoc|rewrite bind_get_np by done].
  match goal with |- context [safestrcpy ?a (p_name c) 16] => change a with (p_name p) end.
  rewrite Hnm, bind_deref, bind_upd_np, bind_get_np by done.
  erewrite bind_eq by (apply make_runnable_run; try done; apply Hl; set_solver).
  unfold ret. f_equal. f_equal. unfold new_child. rewrite Hcwd. by destruct p, c.
Qed.
End Run.

Lemma mem_only_during s np cur km n c m s' :
  mem_only (during s np cur km n c m) s' ->
  s' = during (s <| k_out := k_out s' |>) np cur (k_kmem s') n c (k_mem s').
Proof.
  intros H. apply kstate_ext; try reflexivity;
    match goal with |- ?f _ = _ => exact (f_equal f H) end.
Qed.

(** From an address space that could not be copied on. *)
Lemma fork_undo s np cur p c km pid ks m F :
  np <> cur -> (np < length (k_procs s))%nat -> page_ok ks -> ks ∉ F ->
  alloc_inv (during s np cur km (alloced p pid ks) c m) F ->
  exists s', (upd_proc np (fun p => p <| p_pgdir := 0 |>);;; release_embryo np)
      (during s np cur km (alloced p pid ks) c m) = Ret (-1) s' /\
    alloc_inv s' (ks :: F) /\ untouched [ks] m (k_mem s') /\
    s' = during s np cur (k_kmem s') (failed_child p pid ks) c (k_mem s').
Proof.
  intros Hne Hnp Hks Hn Hi. rewrite bind_upd_np by done. unfold release_embryo. rewrite bind_get_np by done.
  set (s1 := during s np cur km _ c m).
  assert (Hi1 : alloc_inv s1 F) by (destruct Hi; by split).
  match goal with |- context [kfree ?a] => change a with ks end.
  rewrite (bind_eq _ _ s1 tt (freed ks s1)) by (apply kfree_run; [done|apply Hi1]).
  assert (E : freed ks s1 = during s np cur (k_kmem (freed ks s1)) ((alloced p pid ks) <| p_pgdir := 0 |>) c
    (k_mem (freed ks s1))) by (apply kstate_ext; reflexivity).
  pose proof (freed_inv ks s1 F Hi1 Hks Hn) as Hi2.
  assert (Hu : untouched [ks] m (k_mem (freed ks s1))).
  { intros x Hx. apply (freed_page_bytes ks s1); [done|apply Hi1|]. apply Hx. left. }
  rewrite E, bind_upd_np by done. eexists. split; [reflexivity|]. split; [destruct Hi2; by split|]. done.
Qed.

(** The new stack is not a page of the caller. *)
Lemma stack_copied s ks F d T E Q x e m' e' :
  uspace s (ks :: F) d T E Q -> E !! x = Some e -> 0 <= x < UTOP ->
  copied (stack_mem ks (k_mem s)) e m' e' -> copied (k_mem s) e m' e'.
Proof.
  intros H He Hx [Hfl Hcp]. split; [done|]. intros o Ho. rewrite Hcp by done.
  destruct (uspace_frame _ _ _ _ _ _ x e H He ltac:(lia)) as [Hp _].
  pose proof (al_pages _ _ (sp_alloc _ _ _ _ _ _ H)) as [Hks _]%Forall_cons.
  apply (untouched_page [ks] _ _ (frame e)); [apply stack_mem_untouched|by apply Forall_singleton|done| |lia].
  intros Hin%list_elem_of_singleton.
  assert (Hin' : ks ∈ ks :: F) by left. apply (space_disjoint _ _ _ _ _ _ _ H) in Hin' as [_ Hin'].
  apply Hin', elem_of_app. left. apply elem_of_upages. exists x, e. split_and!; done || lia.
Qed.

(** C13: [fork], when a process slot and a page for the kernel stack are
    free.  Either it returns the next process id: the child is a runnable
    copy of the caller with its own address space of fresh pages holding the
    same bytes, zero in [%eax], one more reference to each open file and to
    the working directory, and the caller is unchanged.  Or memory runs out,
    it returns -1, the slot is unused again and every page it took is free.
    No page in use before the call is written. *)
Theorem fork_spec s ks F np cur p c T E Q cwd ip nm :
  k_cur s = Some cur -> k_procs s !! cur = Some c -> p_state c <> UNUSED ->
  find_index is_unused (k_procs s) = Some np -> k_procs s !! np = Some p ->
  length (p_ofile c) = NOFILE -> length (p_ofile p) = NOFILE ->
  (forall f, Some f ∈ p_ofile c -> file_live (k_ftable s) f) ->
  p_cwd c = Some cwd -> k_icache s !! cwd = Some ip ->
  safestrcpy (p_name p) (p_name c) 16 = Some nm ->
  (forall l, l ∈ [L_ptable; L_ftable; L_icache] -> l ∉ k_held s) -> k_nextpid s <> 2 ^ 31 - 1 ->
  uspace s (ks :: F) (p_pgdir c) T E Q -> 0 <= p_sz c <= KERNBASE ->
  let b := (p_sz c + PGSIZE - 1) / PGSIZE in
  (forall x, 0 <= x < b -> is_Some (E !! x)) ->
  exists r s' F', fork s = Ret r s' /\ untouched (ks :: F) (k_mem s) (k_mem s') /\
    (r = -1 /\ alloc_inv s' F' /\ F' ≡ₚ ks :: F /\
       k_procs s' = <[np := failed_child p (k_nextpid s) ks]> (k_procs s) /\
       k_ftable s' = k_ftable s /\ k_icache s' = k_icache s \/
     r = k_nextpid s /\ exists pg T' E',
       k_procs s' = <[np := new_child p c (k_nextpid s) ks cur nm pg]> (k_procs s) /\
       k_ftable s' = dup_refs (k_ftable s) (p_ofile c) /\ k_icache s' = ref_inode cwd (k_icache s) /\
       uspace s' F' pg T' E' (p_pgdir c :: tabs T ++ upages E ++ ks :: Q) /\
       F ≡ₚ F' ++ pg :: tabs T' ++ upages E' /\
       (forall x, 0 <= x < b -> exists e e', E !! x = Some e /\ E' !! x = Some e' /\
          copied (k_mem s) e (k_mem s') e') /\
       (forall x, ~ (0 <= x < b) -> E' !! x = kernel_pte x)).
Proof.
  intros Hcur Hc Hun Hf Hp Hlc Hlp Hlive Hcwd Hip Hnm Hl Hpid Hs Hsz b HE.
  assert (Hne : np <> cur).
  { intros ->. apply find_index_Some in Hf as (q & Hq & Hu & _). simplify_eq.
    unfold is_unused in Hu. by destruct (p_state c). }
  assert (Hlt := lookup_lt_Some _ _ _ Hp). assert (Hlt' := lookup_lt_Some _ _ _ Hc).
  pose proof (sp_alloc _ _ _ _ _ _ Hs) as Hinv. pose proof (al_nodup _ _ Hinv) as [HksF _]%NoDup_cons.
  pose proof (al_pages _ _ Hinv) as [Hks _]%Forall_cons.
  assert (Hlpt : L_ptable ∉ k_held s) by (apply Hl; set_solver).
  unfold fork, myproc. mrun. rewrite Hcur. mrun.
  rewrite (bind_eq _ _ _ _ _ (allocproc_run s F ks np cur p c Hinv Hlpt Hpid Hf Hp Hc Hne)).
  rewrite bind_get_cur by done.
  destruct (copyuvm_run _ _ _ _ _ _ (p_sz c) (alloced_space s ks F _ T E Q np cur
    (alloced p (k_nextpid s) ks) c Hs) Hsz HE) as (r & s2 & F2 & Er & Hm & Hu & Hres).
  rewrite (bind_eq _ _ _ _ _ Er). pose proof (mem_only_during _ _ _ _ _ _ _ _ Hm) as E2.
  assert (Hu2 : untouched (ks :: F) (k_mem s) (k_mem s2)).
  { eapply untouched_trans; (eapply untouched_mono; [|by first [exact Hu|apply stack_mem_untouched]]); clear; set_solver. }
  assert (Eprocs : forall n, <[np := n]> (<[cur := c]> (k_procs s)) = <[np := n]> (k_procs s))
    by (intros n; by rewrite (list_insert_id (k_procs s) cur c)).
  destruct Hres as [(-> & Hi2 & HF2)|(T' & E' & H2 & HF2 & Hcp & Hrest)].
  - rewrite E2 in Hi2 |- *. revert Hi2. set (sx := s <| k_out := k_out s2 |>). intros Hi2.
    destruct (fork_undo sx np cur p c (k_kmem s2) (k_nextpid s) ks (k_mem s2) F2) as (s' & Eu & Hi' & Hu' & Es');
      [done|done|exact Hks|by rewrite HF2|exact Hi2|].
    exists (-1), s', (ks :: F2). split; [exact Eu|]. split.
    { eapply untouched_trans; [exact Hu2|]. eapply untouched_mono; [|exact Hu']. clear. set_solver. }
    left. split; [done|]. split; [done|]. split; [by rewrite HF2|]. rewrite Es'. cbn. by rewrite Eprocs.
  - destruct (page_ok_facts r (pd_dir _ _ _ _ (sp_dir _ _ _ _ _ _ H2))) as [_ Hpos].
    rewrite E2. erewrite (fork_rest _ np cur p c cwd nm ip); try done; [|lia].
    eexists _, _, F2. split; [reflexivity|]. split; [exact Hu2|]. right. split; [done|].
    exists r, T', E'. split; [cbn; by rewrite Eprocs|]. split; [done|]. split; [done|]. split.
    { apply (space_frame s2 _ _ _ _ _ _ []); try done; [|exact (space_bytes _ _ _ _ _ _ H2)|apply list_subseteq_nil].
      exact (eq_sym (f_equal k_held E2)). }
    split; [done|]. split; [|done]. intros x Hx. destruct (Hcp x Hx) as (e & e' & He & He' & Hce).
    exists e, e'. split; [done|]. split; [done|]. eapply stack_copied; [done|done| |exact Hce].
    unfold b in Hx. change KERNBASE with 2147483648 in *. change UTOP with 524288. change PGSIZE with 4096 in *. width_lia.
Qed.
End Fork.

(** ** An instance *)

#[local] Existing Instance demo_layout.

(** init, with one page of memory and the root directory, and two free pages. *)
Definition fork_init : proc :=
  (demo_proc 1 RUNNING None) <| p_pgdir := demo_page 0 |> <| p_sz := 100 |> <| p_cwd := Some 0%nat |>.
Definition with_init (s : kstate) : kstate :=
  s <| k_procs := [fork_init; proc_zero] |> <| k_cur := Some 0%nat |>
    <| k_nextpid := 2 |> <| k_icache := [inode_zero <| i_ref := 1 |>] |>.
Definition fork_demo : kstate := with_init demo_user.

Lemma with_init_space s F d T E P : space s F d T E P -> space (with_init s) F d T E P.
Proof.
  intros H. apply (space_frame s _ _ _ _ _ _ []); try done; [exact (space_bytes _ _ _ _ _ _ H)|].
  apply list_subseteq_nil.
Qed.

Lemma fork_spec_witness :
  exists r s', fork fork_demo = Ret r s' /\ (r = -1 \/ r = 2).
Proof.
  destruct (fork_spec fork_demo (demo_page 3) [demo_page 4] 1 0 proc_zero fork_init {[0 := demo_page 1]}
    {[0 := entry (V2P (demo_page 2)) 6]} [] 0 (inode_zero <| i_ref := 1 |>) (p_name proc_zero))
    as (r & s' & F' & Er & _ & Hr).
  1-7: try reflexivity; discriminate.
  - intros f Hf. change (p_ofile fork_init) with (replicate 16 (None : option nat)) in Hf.
    apply elem_of_replicate in Hf as [Hf _]. discriminate.
  - reflexivity.
  - reflexivity.
  - reflexivity.
  - intros l _. apply not_elem_of_nil.
  - discriminate.
  - apply with_init_space. exact demo_user_space.
  - by vm_compute.
  - intros x Hx. change ((p_sz fork_init + PGSIZE - 1) / PGSIZE) with 1 in Hx. replace x with 0 by lia.
    by eexists.
  - exists r, s'. split; [exact Er|]. destruct Hr as [[-> _]|[-> _]]; [by left|by right].
Defined.
