(* ===== verification/BioSpec.v ===== *)
(** What the buffer cache promises its clients.  [cache] relates the buffers,
    their LRU list and the disk to the contents [V] that the file system code
    sees, the buffers [H] it holds and the blocks [P] that the log has pinned
    in memory; [bread], [bwrite] and [brelse] are specified in these terms. *)
From stdpp Require Import functions.
From S2P Require Import Prelude Kstate Mem Sched Sleeplock Bio.

(** * Running the sleep lock of a buffer *)

Abbreviation bufs s := (bc_buf (k_bcache s)).
Abbreviation lru s := (bc_order (k_bcache s)).

(** [s] with buffer [b] replaced. *)
Definition putb (b : nat) (y : buf) (s : kstate) : kstate :=
  s <| k_bcache ::= (fun c => c <| bc_buf ::= <[b := y]> |>) |>.

Lemma bind_get_buf {B} b x (k : buf -> K B) s :
  bufs s !! b = Some x -> bind (get_buf b) k s = k x s.
Proof. intros H. unfold get_buf. mrun. cbn. by rewrite H. Qed.

Lemma upd_buf_run b x f s : bufs s !! b = Some x -> upd_buf b f s = Ret tt (putb b (f x) s).
Proof.
  intros H. unfold upd_buf, modify, putb.
  assert (E : alter f b (bufs s) = <[b := f x]> (bufs s)) by by apply list_alter_at.
  destruct s. unfold upd. cbn in *. by rewrite E.
Qed.
Lemma bind_upd_buf {B} b x f (k : unit -> K B) s :
  bufs s !! b = Some x -> bind (upd_buf b f) k s = k tt (putb b (f x) s).
Proof. intros H. unfold bind. by rewrite (upd_buf_run b x). Qed.

Lemma putb_putb b x y s : putb b y (putb b x s) = putb b y s.
Proof.
  pose proof (list_insert_insert_eq (bufs s) b y x) as E.
  destruct s. unfold putb, upd. cbn in *. by rewrite E.
Qed.
Lemma putb_lookup b x y s : bufs s !! b = Some x -> bufs (putb b y s) !! b = Some y.
Proof. intros H. cbn. apply list_lookup_insert_eq. by eapply lookup_lt_Some. Qed.
Lemma putb_lookup_ne b c y s : c <> b -> bufs (putb b y s) !! c = bufs s !! c.
Proof. intros H. cbn. by rewrite list_lookup_insert_ne. Qed.

(** The process that runs, by its id. *)
Definition me (pid : Z) (s : kstate) : Prop :=
  exists i p, k_cur s = Some i /\ k_procs s !! i = Some p /\ p_pid p = pid.

Lemma holdingsleep_run pid b x s :
  me pid s -> k_held s = [] -> bufs s !! b = Some x ->
  holdingsleep (SL_buf b) s = Ret (ctrue (sl_locked (b_lock x)) && (sl_pid (b_lock x) =? pid)) s.
Proof.
  intros (i & p & Hc & Hp & <-) Hh Hb. unfold holdingsleep, bind at 1.
  rewrite acquire_ok by (rewrite Hh; apply not_elem_of_nil). cbn [sl_get sl_lk].
  rewrite bind_assoc, (bind_get_buf b x) by done. unfold myproc. mrun.
  change (k_cur (s <| k_held := L_bufsleep b :: k_held s |>)) with (k_cur s). rewrite Hc. mrun.
  unfold bind at 1. rewrite (get_proc_eq i p) by done. unfold bind at 1.
  rewrite (release_ok _ []); [|by cbn; rewrite Hh|apply not_elem_of_nil].
  unfold ret. f_equal. rewrite <- Hh. by destruct s.
Qed.

Lemma acquiresleep_run pid b x s :
  me pid s -> k_held s = [] -> bufs s !! b = Some x -> sl_locked (b_lock x) = 0 ->
  acquiresleep (SL_buf b) s = Ret tt (putb b (x <| b_lock := mkSl 1 pid |>) s).
Proof.
  intros (i & p & Hc & Hp & <-) Hh Hb Hl. unfold acquiresleep, bind at 1.
  rewrite acquire_ok by (rewrite Hh; apply not_elem_of_nil). unfold acquiresleep_locked.
  cbn [sl_get sl_lk sl_chan sl_set].
  rewrite bind_assoc, (bind_get_buf b x) by done. mrun. rewrite Hl. cbn [ctrue negb Z.eqb].
  unfold myproc. mrun.
  change (k_cur (s <| k_held := L_bufsleep b :: k_held s |>)) with (k_cur s). rewrite Hc. mrun.
  unfold bind at 1. rewrite (get_proc_eq i p) by done. rewrite (bind_upd_buf b x) by done.
  rewrite (release_ok _ []); [|by cbn; rewrite Hh|apply not_elem_of_nil].
  f_equal. rewrite <- Hh. by destruct s.
Qed.

Lemma releasesleep_run b x s :
  k_held s = [] -> bufs s !! b = Some x ->
  releasesleep (SL_buf b) s =
    Ret tt ((putb b (x <| b_lock := mkSl 0 0 |>) s)
              <| k_procs ::= fmap (wake (Some (C_bufsleep b))) |>).
Proof.
  intros Hh Hb. unfold releasesleep, bind at 1.
  rewrite acquire_ok by (rewrite Hh; apply not_elem_of_nil).
  cbn [sl_lk sl_chan sl_set]. rewrite (bind_upd_buf b x) by done.
  unfold wakeup. mrun. unfold bind at 1.
  rewrite acquire_ok by (cbn; rewrite Hh; by intros [?|?%elem_of_nil]%elem_of_cons).
  unfold wakeup1. mrun. unfold bind at 1.
  rewrite (release_ok _ [L_bufsleep b]);
    [|by cbn; rewrite Hh|by intros [?|?%elem_of_nil]%elem_of_cons].
  rewrite (release_ok _ []); [|done|apply not_elem_of_nil].
  f_equal. rewrite <- Hh. by destruct s.
Qed.

(** * The disk *)

(** [iderw] of a locked buffer: a read fills it, a write stores it. *)
Lemma iderw_run pid b x s d :
  me pid s -> k_held s = [] -> bufs s !! b = Some x -> b_lock x = mkSl 1 pid ->
  b_dev x = 1 -> 0 <= b_blockno x -> k_disk s !! Z.to_nat (b_blockno x) = Some d ->
  b_flags x <> B_VALID -> b_flags x = 0 \/ b_flags x = Z.lor B_VALID B_DIRTY ->
  iderw b s =
    Ret tt (if b_flags x =? 0 then putb b (x <| b_data := d |> <| b_flags := B_VALID |>) s
            else putb b (x <| b_flags := B_VALID |>)
                   (s <| k_disk ::= <[Z.to_nat (b_blockno x) := b_data x]> |>
                      <| k_dwrites ::= cons (b_blockno x, b_data x) |>)).
Proof.
  intros Hme Hh Hb Hl Hd H0 Hn Hne Hf. unfold iderw.
  rewrite (bind_eq _ _ _ _ _ (holdingsleep_run pid b x s Hme Hh Hb)), Hl.
  cbn [sl_locked sl_pid]. rewrite Z.eqb_refl. change (ctrue 1) with true. cbn [negb andb].
  rewrite (bind_get_buf b x), Hd by done. apply lookup_lt_Some in Hn as Hlt.
  destruct Hf as [Hf|Hf]; rewrite Hf.
  - change (Z.land 0 (Z.lor B_VALID B_DIRTY) =? B_VALID) with false.
    change (negb (1 =? 1)) with false. cbv iota. mrun.
    rewrite (proj2 (Z.leb_gt _ _)) by lia. mrun.
    change (ctrue (Z.land 0 B_DIRTY)) with false. cbv iota. rewrite (bind_upd_buf b x), Hn by done.
    rewrite (upd_buf_run b (x <| b_data := d |>)) by by eapply putb_lookup.
    rewrite putb_putb. unfold upd. cbn. by rewrite Hf.
  - change (Z.land (Z.lor B_VALID B_DIRTY) (Z.lor B_VALID B_DIRTY) =? B_VALID) with false.
    change (negb (1 =? 1)) with false. cbv iota. mrun.
    rewrite (proj2 (Z.leb_gt _ _)) by lia. mrun.
    change (ctrue (Z.land (Z.lor B_VALID B_DIRTY) B_DIRTY)) with true. cbv iota.
    change (Z.lor B_VALID B_DIRTY =? 0) with false. cbv iota.
    mrun. rewrite (bind_upd_buf b x) by done. mrun.
    rewrite (upd_buf_run b (x <| b_flags ::= fun f => Z.land f (Z.lnot B_DIRTY) |>))
      by by eapply putb_lookup.
    rewrite <- (putb_putb b (x <| b_flags ::= fun f => Z.land f (Z.lnot B_DIRTY) |>)
      (x <| b_flags := B_VALID |>)).
    do 2 f_equal. unfold upd. cbn. by rewrite Hf.
Qed.

(** * Finding a buffer *)

Lemma scan_skip {S A R} (l1 l2 : list A) (body : A -> M S (ctl R)) s :
  (forall a, a ∈ l1 -> body a s = Ret Continue s) -> scan (l1 ++ l2) body s = scan l2 body s.
Proof.
  induction l1 as [|a l IH]; intros H; [done|]. cbn [app scan].
  rewrite (bind_eq _ _ _ _ _ (H a ltac:(left))). apply IH. intros b Hb. apply H. by right.
Qed.

Definition has_key (dev n : Z) (x : buf) : bool := (b_dev x =? dev) && (b_blockno x =? n).
Definition evictable (x : buf) : bool :=
  (b_refcnt x =? 0) && negb (ctrue (Z.land (b_flags x) B_DIRTY)).

Lemma bget_hit pid dev n b x s l1 l2 :
  me pid s -> k_held s = [] -> lru s = l1 ++ b :: l2 -> bufs s !! b = Some x ->
  has_key dev n x = true -> sl_locked (b_lock x) = 0 ->
  (forall c, c ∈ l1 -> exists y, bufs s !! c = Some y /\ has_key dev n y = false) ->
  bget dev n s =
    Ret b (putb b (x <| b_refcnt := u32 (b_refcnt x + 1) |> <| b_lock := mkSl 1 pid |>) s).
Proof.
  intros Hme Hh Ho Hb Hk Hl Hskip. unfold bget, bind at 1.
  rewrite acquire_ok by (rewrite Hh; apply not_elem_of_nil). rewrite Hh.
  set (s1 := s <| k_held := _ |>). mrun. cbn [compose]. change (bc_order _) with (lru s).
  rewrite Ho. unfold bind at 1. rewrite scan_skip.
  2:{ intros c Hc. destruct (Hskip c Hc) as (y & Hy & Hky).
      rewrite (bind_get_buf c y) by done. unfold has_key in Hky. by rewrite Hky. }
  cbn [scan]. mrun. rewrite (bind_get_buf b x) by done. unfold has_key in Hk. rewrite Hk.
  mrun. rewrite (bind_upd_buf b x) by done. mrun. unfold bind at 1.
  rewrite (release_ok _ []) by (done || apply not_elem_of_nil).
  set (x1 := x <| b_refcnt ::= _ |>). set (s2 := upd k_held _ _).
  assert (E2 : s2 = putb b x1 s) by (subst s2 s1; rewrite <- Hh; by destruct s).
  clearbody s2. subst s2. mrun. unfold bind at 1.
  rewrite (acquiresleep_run pid b x1); [|done|done|by eapply putb_lookup|done].
  by rewrite putb_putb.
Qed.

Lemma bget_miss pid dev n b x s l1 l2 :
  me pid s -> k_held s = [] -> rev (lru s) = l1 ++ b :: l2 ->
  (forall c, c ∈ lru s -> exists y, bufs s !! c = Some y /\ has_key dev n y = false) ->
  bufs s !! b = Some x -> evictable x = true -> sl_locked (b_lock x) = 0 ->
  (forall c, c ∈ l1 -> exists y, bufs s !! c = Some y /\ evictable y = false) ->
  bget dev n s =
    Ret b (putb b (x <| b_dev := dev |> <| b_blockno := n |> <| b_flags := 0 |>
                     <| b_refcnt := 1 |> <| b_lock := mkSl 1 pid |>) s).
Proof.
  intros Hme Hh Ho Hmiss Hb He Hl Hskip. unfold bget, bind at 1.
  rewrite acquire_ok by (rewrite Hh; apply not_elem_of_nil). rewrite Hh.
  set (s1 := s <| k_held := _ |>). mrun. cbn [compose]. change (bc_order _) with (lru s).
  unfold bind at 1. rewrite <- (app_nil_r (lru s)) at 1. rewrite scan_skip.
  2:{ intros c Hc. destruct (Hmiss c Hc) as (y & Hy & Hky).
      rewrite (bind_get_buf c y) by done. unfold has_key in Hky. by rewrite Hky. }
  cbn [scan]. unfold ret at 1. rewrite Ho. unfold bind at 1. rewrite scan_skip.
  2:{ intros c Hc. destruct (Hskip c Hc) as (y & Hy & Hky).
      rewrite (bind_get_buf c y) by done. unfold evictable in Hky. by rewrite Hky. }
  cbn [scan]. mrun. rewrite (bind_get_buf b x) by done. unfold evictable in He. rewrite He.
  mrun. rewrite (bind_upd_buf b x) by done. mrun. unfold bind at 1.
  rewrite (release_ok _ []) by (done || apply not_elem_of_nil).
  set (x1 := x <| b_dev := _ |> <| b_blockno := _ |> <| b_flags := _ |> <| b_refcnt := _ |>).
  set (s2 := upd k_held _ _).
  assert (E2 : s2 = putb b x1 s) by (subst s2 s1; rewrite <- Hh; by destruct s).
  clearbody s2. subst s2. mrun. unfold bind at 1.
  rewrite (acquiresleep_run pid b x1); [|done|done|by eapply putb_lookup|done].
  by rewrite putb_putb.
Qed.

(** * The contract of the cache *)

(** [cache pid H P V s]: process [pid] runs and holds exactly the buffers [H],
    each with its block number; [V] is the content of the disk as the kernel
    sees it; and exactly the blocks of [P] are held back from the disk (their
    buffers are dirty and must not be recycled).  Blocks that are neither
    held nor pinned are the same in memory and on disk. *)
Record cache (pid : Z) (H : list (nat * Z)) (P : gset Z) (V : Z -> list Z)
    (s : kstate) : Prop := mkCache {
  c_len : length (bufs s) = NBUF;
  c_order : lru s ≡ₚ seq 0 NBUF;
  c_spin : k_held s = [];
  c_me : me pid s;
  c_shape : forall b x, bufs s !! b = Some x ->
    (b_dev x = 0 /\ b_flags x = 0) \/
    (b_dev x = 1 /\ (b_flags x = B_VALID \/ b_flags x = Z.lor B_VALID B_DIRTY) /\
     0 <= b_blockno x < Z.of_nat (length (k_disk s)) /\ b_data x = V (b_blockno x));
  c_free : forall b x, bufs s !! b = Some x -> b ∉ H.*1 ->
    b_lock x = mkSl 0 0 /\ b_refcnt x = 0;
  c_held : forall b n, (b, n) ∈ H -> exists x, bufs s !! b = Some x /\
    b_dev x = 1 /\ b_blockno x = n /\ b_lock x = mkSl 1 pid /\ b_refcnt x = 1;
  c_nodup : NoDup H.*1;
  c_uniq : forall b c x y, bufs s !! b = Some x -> bufs s !! c = Some y ->
    b_dev x = 1 -> b_dev y = 1 -> b_blockno x = b_blockno y -> b = c;
  c_dirty : forall b x, bufs s !! b = Some x -> b_flags x = Z.lor B_VALID B_DIRTY ->
    b_blockno x ∈ P;
  c_pin : forall n, n ∈ P -> exists b x, bufs s !! b = Some x /\ b_dev x = 1 /\
    b_blockno x = n /\ b_flags x = Z.lor B_VALID B_DIRTY;
  c_clean : forall n, 0 <= n < Z.of_nat (length (k_disk s)) -> n ∉ P -> n ∉ H.*2 ->
    k_disk s !! Z.to_nat n = Some (V n);
}.

(** What buffer operations leave alone: everything but the cache, the disk
    and the states of sleeping processes. *)
Definition bio_core (s : kstate) :=
  (k_cpu s, k_cur s, k_cr3 s, k_esp0 s, p_pid <$> k_procs s, k_nextpid s, k_initproc s,
   k_mem s, k_kmem s, k_kpgdir s, k_ftable s, k_pipes s, k_icache s, k_sb s, k_log s,
   k_devsw s, k_ticks s, k_input s, k_out s).

Lemma elem_of_rev {A} (x : A) l : x ∈ rev l <-> x ∈ l.
Proof. rewrite rev_alt. apply elem_of_reverse. Qed.

Lemma first_split {A} (f : A -> bool) (l : list A) :
  (exists a, a ∈ l /\ f a = true) ->
  exists l1 a l2, l = l1 ++ a :: l2 /\ f a = true /\ forall c, c ∈ l1 -> f c = false.
Proof.
  induction l as [|x l IH]; intros (a & Ha & Hf); [by apply elem_of_nil in Ha|].
  destruct (f x) eqn:Hx.
  { exists [], x, l. repeat split; [done|]. by intros c ?%elem_of_nil. }
  apply elem_of_cons in Ha as [->|Ha]; [congruence|].
  destruct IH as (l1 & b & l2 & -> & Hb & Hl); [by exists a|].
  exists (x :: l1), b, l2. repeat split; [done|]. intros c [->|Hc]%elem_of_cons; auto.
Qed.

Lemma move_to_front {A} `{EqDecision A} (b : A) l :
  NoDup l -> b ∈ l -> b :: filter (.≠ b) l ≡ₚ l.
Proof.
  intros Hl Hb. apply NoDup_Permutation; [|done|].
  - constructor; [|by apply NoDup_filter]. by intros [? _]%list_elem_of_filter.
  - intros c. rewrite elem_of_cons, list_elem_of_filter. destruct (decide (c = b)); naive_solver.
Qed.

Lemma wake_pid ch p : p_pid (wake ch p) = p_pid p.
Proof. unfold wake. by destruct (_ && _). Qed.

Section Cache.
Context (pid : Z) (H : list (nat * Z)) (P : gset Z) (V : Z -> list Z) (s : kstate).
Context (C : cache pid H P V s).

Lemma cache_in_range b : b ∈ lru s -> exists x, bufs s !! b = Some x.
Proof.
  rewrite (c_order _ _ _ _ _ C). intros [_ Hb]%elem_of_seq.
  apply lookup_lt_is_Some. rewrite (c_len _ _ _ _ _ C). lia.
Qed.

(** While the pinned and the held buffers are fewer than [NBUF], there is a
    buffer to recycle. *)
Lemma cache_evictable :
  (size P + length H < NBUF)%nat ->
  exists b x, b ∈ lru s /\ bufs s !! b = Some x /\ evictable x = true.
Proof.
  intros Hsz.
  set (no := fun b => match bufs s !! b with Some x => evictable x | None => false end).
  destruct (decide (Exists (fun b => no b = true) (lru s))) as [(b & Hb & Hn)%Exists_exists|Hn].
  { subst no. cbn in Hn. destruct (bufs s !! b) as [x|] eqn:E; [|done]. by exists b, x. }
  exfalso. apply not_Exists_Forall in Hn; [|apply _]. rewrite Forall_forall in Hn.
  set (L := filter (fun b => b ∉ H.*1) (seq 0 NBUF)).
  set (blk := fun b => match bufs s !! b with Some x => b_blockno x | None => 0 end).
  assert (HL : forall b, b ∈ L -> exists x, bufs s !! b = Some x /\ b_dev x = 1 /\
            b_flags x = Z.lor B_VALID B_DIRTY).
  { intros b [Hb Hs]%list_elem_of_filter.
    rewrite <- (c_order _ _ _ _ _ C) in Hs. destruct (cache_in_range b Hs) as [x Hx].
    assert (Hv : no b <> true) by exact (Hn b Hs). unfold no in Hv. rewrite Hx in Hv.
    destruct (c_free _ _ _ _ _ C b x Hx Hb) as [_ Hr].
    unfold evictable in Hv. rewrite Hr in Hv.
    exists x. destruct (c_shape _ _ _ _ _ C b x Hx) as [[_ Hf]|(Hd & [Hf|Hf] & _)];
      rewrite Hf in Hv; done. }
  assert (Hnd : NoDup (blk <$> L)).
  { apply NoDup_fmap_2_strong; [|apply NoDup_filter, NoDup_seq].
    intros b c Hb Hc. destruct (HL b Hb) as (x & Hx & Hdx & _).
    destruct (HL c Hc) as (y & Hy & Hdy & _). unfold blk. rewrite Hx, Hy.
    by apply (c_uniq _ _ _ _ _ C). }
  assert (Hsub : (blk <$> L) ⊆+ elements P).
  { apply NoDup_submseteq; [done|]. intros n (b & -> & Hb)%list_elem_of_fmap.
    destruct (HL b Hb) as (x & Hx & _ & Hf). unfold blk. rewrite Hx.
    apply elem_of_elements. by apply (c_dirty _ _ _ _ _ C b). }
  apply submseteq_length in Hsub. rewrite length_fmap in Hsub.
  assert (Hall : seq 0 NBUF ⊆+ H.*1 ++ L).
  { apply NoDup_submseteq; [apply NoDup_seq|]. intros b Hb. apply elem_of_app.
    destruct (decide (b ∈ H.*1)); [by left|right]. by apply list_elem_of_filter. }
  apply submseteq_length in Hall. rewrite length_app, length_seq, length_fmap in Hall.
  unfold size, set_size in Hsz. cbn in Hsz. lia.
Qed.

Lemma cache_held_key b x :
  bufs s !! b = Some x -> b ∈ H.*1 -> b_dev x = 1 /\ b_blockno x ∈ H.*2.
Proof.
  intros Hx ((b' & n) & -> & Hb)%list_elem_of_fmap. cbn in *.
  destruct (c_held _ _ _ _ _ C _ _ Hb) as (y & Hy & Hd & Hn & _).
  assert (y = x) as -> by congruence. split; [done|]. rewrite Hn.
  by apply (list_elem_of_fmap_2 snd _ (b', n)).
Qed.

(** A buffer is taken over for block [n]. *)
Lemma cache_take b x y :
  bufs s !! b = Some x -> b ∉ H.*1 ->
  b_dev y = 1 -> b_lock y = mkSl 1 pid -> b_refcnt y = 1 ->
  0 <= b_blockno y < Z.of_nat (length (k_disk s)) -> b_data y = V (b_blockno y) ->
  (b_flags y = B_VALID /\ (b_blockno y ∉ P) /\ b_flags x <> Z.lor B_VALID B_DIRTY \/
   b_flags y = Z.lor B_VALID B_DIRTY /\ (b_blockno y ∈ P) /\
     (b_flags x = Z.lor B_VALID B_DIRTY -> b_blockno x = b_blockno y)) ->
  (forall c z, c <> b -> bufs s !! c = Some z -> b_dev z = 1 -> b_blockno z <> b_blockno y) ->
  cache pid ((b, b_blockno y) :: H) P V (putb b y s).
Proof.
  intros Hx HbH Hd Hl Hr Hrange Hdata Hfl Huniq.
  assert (Lb : bufs (putb b y s) !! b = Some y) by by eapply putb_lookup.
  assert (Ln : forall c z, bufs (putb b y s) !! c = Some z ->
            (c = b /\ z = y) \/ (c <> b /\ bufs s !! c = Some z)).
  { intros c z. destruct (decide (c = b)) as [->|Hc].
    - rewrite Lb. intros [= <-]. by left.
    - rewrite putb_lookup_ne by done. by right. }
  assert (Hk : forall c z, c <> b -> bufs s !! c = Some z -> bufs (putb b y s) !! c = Some z)
    by (intros; by rewrite putb_lookup_ne).
  destruct C as [c1 c2 c3 c4 c5 c6 c7 c8 c9 c10 c11 c12]. split; try done.
  - cbn. by rewrite length_insert.
  - intros c z [[-> ->]|[Hc Hz]]%Ln; [|by apply (c5 c z)]. right. naive_solver.
  - intros c z [[-> ->]|[Hc Hz]]%Ln; cbn; intros Hni.
    + exfalso. apply Hni. left.
    + apply (c6 c z Hz). intros ?. apply Hni. by right.
  - intros c n [[= -> ->]|Hc]%elem_of_cons; [by exists y|].
    destruct (c7 c n Hc) as (z & Hz & Hrest). exists z. split; [|done]. apply Hk; [|done].
    intros ->. apply HbH. by apply (list_elem_of_fmap_2 fst _ (b, n)).
  - cbn. by constructor.
  - intros c d z w [[-> ->]|[Hc Hz]]%Ln [[-> ->]|[Hd' Hw]]%Ln Hdz Hdw He; [done| | |].
    + by destruct (Huniq d w Hd' Hw Hdw).
    + by destruct (Huniq c z Hc Hz Hdz).
    + by apply (c9 c d z w).
  - intros c z [[-> ->]|[Hc Hz]]%Ln Hf; [|by apply (c10 c z)].
    destruct Hfl as [(Hv & _)|(_ & HP & _)]; [by rewrite Hv in Hf|done].
  - intros n Hn. destruct (c11 n Hn) as (c & z & Hz & Hdz & Hnz & Hfz).
    destruct (decide (c = b)) as [->|Hc]; [|exists c, z; auto]. simplify_eq.
    destruct Hfl as [(_ & _ & Hnd)|(Hfy & _ & He)]; [done|].
    exists b, y. by rewrite He.
  - intros n Hn HP Hni. apply c12; [done|done|]. intros ?. apply Hni. by right.
Qed.

Lemma bread_spec n :
  0 <= n < Z.of_nat (length (k_disk s)) -> n ∉ H.*2 ->
  n ∈ P \/ (size P + length H < NBUF)%nat ->
  exists b s', bread 1 n s = Ret b s' /\ cache pid ((b, n) :: H) P V s' /\
    k_disk s' = k_disk s /\ k_dwrites s' = k_dwrites s /\ bio_core s' = bio_core s.
Proof.
  intros Hrange Hn Hsz.
  destruct (find_index (has_key 1 n) (bufs s)) as [b|] eqn:Hf.
  - apply find_index_Some in Hf as (x & Hx & Hk & _).
    assert (Hkey : b_dev x = 1 /\ b_blockno x = n).
    { apply andb_true_iff in Hk as [?%Z.eqb_eq ?%Z.eqb_eq]. done. }
    destruct Hkey as [Hd Hbn].
    assert (HbH : b ∉ H.*1).
    { intros Hb. destruct (cache_held_key b x Hx Hb) as [_ Hb2]. by rewrite Hbn in Hb2. }
    destruct (c_free _ _ _ _ _ C b x Hx HbH) as [Hl Hr].
    assert (Hbo : b ∈ lru s).
    { rewrite (c_order _ _ _ _ _ C). apply elem_of_seq.
      apply lookup_lt_Some in Hx. rewrite (c_len _ _ _ _ _ C) in Hx. lia. }
    apply list_elem_of_split_l in Hbo as (l1 & l2 & Ho & Hl1).
    assert (Hskip : forall c, c ∈ l1 -> exists y, bufs s !! c = Some y /\ has_key 1 n y = false).
    { intros c Hc. destruct (cache_in_range c) as [y Hy]; [rewrite Ho; set_solver|].
      exists y. split; [done|]. apply not_true_iff_false. intros Hy2.
      apply andb_true_iff in Hy2 as [?%Z.eqb_eq ?%Z.eqb_eq].
      rewrite (c_uniq _ _ _ _ _ C c b y x) in Hc; [done..|]. congruence. }
    destruct (c_shape _ _ _ _ _ C b x Hx) as [[? _]|(_ & Hfl & _ & Hdata)]; [lia|].
    set (y := x <| b_refcnt := u32 (b_refcnt x + 1) |> <| b_lock := mkSl 1 pid |>).
    exists b, (putb b y s). split; [|split; [|done]].
    + unfold bread. rewrite (bind_eq _ _ _ _ _ (bget_hit pid 1 n b x s l1 l2
        (c_me _ _ _ _ _ C) (c_spin _ _ _ _ _ C) Ho Hx Hk ltac:(by rewrite Hl) Hskip)).
      rewrite (bind_get_buf b y) by by eapply putb_lookup.
      change (b_flags y) with (b_flags x). by destruct Hfl as [-> | ->].
    + rewrite <- Hbn. change (b_blockno x) with (b_blockno y). apply (cache_take b x y); try done.
      * cbn. unfold upd. cbn. by rewrite Hr.
      * cbn. unfold upd. cbn. by rewrite Hbn.
      * destruct Hfl as [Hfl|Hfl]; [left|right].
        -- split; [done|]. split; [|by rewrite Hfl]. intros Hp.
           destruct (c_pin _ _ _ _ _ C _ Hp) as (c & z & Hz & Hdz & Hbz & Hfz).
           assert (c = b) as -> by exact (c_uniq _ _ _ _ _ C c b z x Hz Hx Hdz Hd Hbz).
           assert (z = x) as -> by congruence. by rewrite Hfl in Hfz.
        -- split; [done|]. split; [|done]. exact (c_dirty _ _ _ _ _ C b x Hx Hfl).
      * intros c z Hc Hz Hdz He. exact (Hc (c_uniq _ _ _ _ _ C c b z x Hz Hx Hdz Hd He)).
  - assert (Hmiss : forall c z, bufs s !! c = Some z -> has_key 1 n z = false)
      by by apply find_index_None.
    assert (HnP : n ∉ P).
    { intros Hp. destruct (c_pin _ _ _ _ _ C _ Hp) as (c & z & Hz & Hdz & Hbz & _).
      specialize (Hmiss c z Hz). unfold has_key in Hmiss. rewrite Hdz, Hbz, !Z.eqb_refl in Hmiss.
      done. }
    destruct Hsz as [?|Hsz]; [done|].
    destruct (cache_evictable Hsz) as (b0 & x0 & Hb0 & Hx0 & He0).
    destruct (first_split (fun b => match bufs s !! b with Some x => evictable x | None => true end)
      (rev (lru s))) as (l1 & b & l2 & Ho & He & Hl1).
    { exists b0. rewrite Hx0. split; [|done]. by apply elem_of_rev. }
    assert (Hbo : b ∈ lru s).
    { apply elem_of_rev. rewrite Ho. set_solver. }
    destruct (cache_in_range b Hbo) as [x Hx]. rewrite Hx in He.
    assert (Hr : b_refcnt x = 0 /\ b_flags x <> Z.lor B_VALID B_DIRTY).
    { apply andb_true_iff in He as [?%Z.eqb_eq He]. split; [done|]. by intros E; rewrite E in He. }
    destruct Hr as [Hr Hnd].
    assert (HbH : b ∉ H.*1).
    { intros ((b' & m) & -> & Hb)%list_elem_of_fmap.
      destruct (c_held _ _ _ _ _ C _ _ Hb) as (z & Hz & _ & _ & _ & Hrz).
      cbn in Hx. assert (z = x) as -> by congruence. lia. }
    destruct (c_free _ _ _ _ _ C b x Hx HbH) as [Hl _].
    assert (Hdisk := c_clean _ _ _ _ _ C n Hrange HnP Hn).
    set (y0 := x <| b_dev := 1 |> <| b_blockno := n |> <| b_flags := 0 |> <| b_refcnt := 1 |>
                 <| b_lock := mkSl 1 pid |>).
    set (y := y0 <| b_data := V n |> <| b_flags := B_VALID |>).
    exists b, (putb b y s). split; [|split; [|done]].
    + unfold bread. erewrite bind_eq.
      2:{ apply (bget_miss pid 1 n b x s l1 l2); try done; try apply C; [|by rewrite Hl|].
          - intros c Hc. destruct (cache_in_range c Hc) as [z Hz]. exists z. eauto.
          - intros c Hc. specialize (Hl1 c Hc). destruct (bufs s !! c) as [z|]; [|done]. eauto. }
      fold y0. rewrite (bind_get_buf b y0) by by eapply putb_lookup.
      change (negb (ctrue (Z.land (b_flags y0) B_VALID))) with true. cbn [whenM].
      unfold bind. rewrite (iderw_run pid b y0 _ (V n)); try done; try apply C.
      * cbn [b_flags]. change (b_flags y0 =? 0) with true. cbv iota. by rewrite putb_putb.
      * by eapply putb_lookup.
      * cbn. lia.
      * by left.
    + change n with (b_blockno y) at 1. apply (cache_take b x y); try done.
      * by left.
      * intros c z Hc Hz Hdz Hbz. specialize (Hmiss c z Hz). unfold has_key in Hmiss.
        change (b_blockno y) with n in Hbz. by rewrite Hdz, Hbz, !Z.eqb_refl in Hmiss.
Qed.

(** A held buffer: what is in it. *)
Lemma cache_get b n :
  (b, n) ∈ H ->
  exists x, bufs s !! b = Some x /\ b_dev x = 1 /\ b_blockno x = n /\ b_lock x = mkSl 1 pid /\
    b_refcnt x = 1 /\ b_data x = V n /\ 0 <= n < Z.of_nat (length (k_disk s)) /\
    (b_flags x = B_VALID \/ b_flags x = Z.lor B_VALID B_DIRTY).
Proof.
  intros Hb. destruct (c_held _ _ _ _ _ C b n Hb) as (x & Hx & Hd & Hn & Hl & Hr).
  destruct (c_shape _ _ _ _ _ C b x Hx) as [[? _]|(_ & Hf & Hrange & Hdata)]; [lia|].
  exists x. rewrite Hn in *. done.
Qed.

(** A held buffer, and with it the content or the disk copy of its block, is
    changed. *)
Lemma cache_update b n y P' V' s' :
  (b, n) ∈ H -> bufs s' = <[b := y]> (bufs s) -> lru s' = lru s -> k_held s' = [] ->
  me pid s' -> length (k_disk s') = length (k_disk s) ->
  (forall m, 0 <= m -> m <> n -> k_disk s' !! Z.to_nat m = k_disk s !! Z.to_nat m) ->
  b_dev y = 1 -> b_blockno y = n -> b_lock y = mkSl 1 pid -> b_refcnt y = 1 ->
  (b_flags y = B_VALID /\ (n ∉ P') \/ b_flags y = Z.lor B_VALID B_DIRTY /\ (n ∈ P')) ->
  b_data y = V' n -> (forall m, m <> n -> V' m = V m) ->
  (forall m, m <> n -> (m ∈ P' <-> m ∈ P)) ->
  cache pid H P' V' s'.
Proof.
  intros Hb Hbufs Hlru Hspin Hme Hlen Hdisk Hdy Hny Hly Hry Hfl Hdata HV HP.
  destruct (cache_get b n Hb) as (x & Hx & Hd & Hn & _ & _ & _ & Hrange & _).
  assert (Lb : bufs s' !! b = Some y).
  { rewrite Hbufs. apply list_lookup_insert_eq. by eapply lookup_lt_Some. }
  assert (Ln : forall c z, bufs s' !! c = Some z ->
            (c = b /\ z = y) \/ (c <> b /\ bufs s !! c = Some z)).
  { intros c z. destruct (decide (c = b)) as [->|Hc].
    - rewrite Lb. intros [= <-]. by left.
    - rewrite Hbufs, list_lookup_insert_ne by done. by right. }
  assert (Hk : forall c z, c <> b -> bufs s !! c = Some z -> bufs s' !! c = Some z).
  { intros c z Hc Hz. by rewrite Hbufs, list_lookup_insert_ne. }
  assert (Hother : forall c z, c <> b -> bufs s !! c = Some z -> b_dev z = 1 -> b_blockno z <> n).
  { intros c z Hc Hz Hdz Hbz. apply Hc, (c_uniq _ _ _ _ _ C c b z x); congruence. }
  destruct C as [c1 c2 c3 c4 c5 c6 c7 c8 c9 c10 c11 c12]. split; try done.
  - by rewrite Hbufs, length_insert.
  - by rewrite Hlru.
  - rewrite Hlen. intros c z [[-> ->]|[Hc Hz]]%Ln; [right; naive_solver|].
    destruct (c5 c z Hz) as [|(Hdz & Hf & Hr & Hd2)]; [by left|right].
    rewrite HV by eauto. done.
  - intros c z [[-> ->]|[Hc Hz]]%Ln Hni; [|by apply (c6 c z)].
    destruct Hni. by apply (list_elem_of_fmap_2 fst _ (b, n)).
  - intros c m Hc. destruct (decide (c = b)) as [->|Hcb].
    + destruct (c7 b m Hc) as (z & Hz & _ & Hbz & _). assert (z = x) as -> by congruence.
      exists y. rewrite <- Hbz, Hn. done.
    + destruct (c7 c m Hc) as (z & Hz & Hrest). exists z. auto.
  - intros c d z w [[-> ->]|[Hc Hz]]%Ln [[-> ->]|[Hd' Hw]]%Ln Hdz Hdw He; [done| | |].
    + destruct (Hother d w Hd' Hw Hdw). congruence.
    + destruct (Hother c z Hc Hz Hdz). congruence.
    + by apply (c9 c d z w).
  - intros c z [[-> ->]|[Hc Hz]]%Ln Hf.
    + rewrite Hny. destruct Hfl as [[Hv _]|[_ ?]]; [by rewrite Hv in Hf|done].
    + apply HP; [|by apply (c10 c z)]. destruct (c5 c z Hz) as [[_ Hz0]|(Hdz & _)]; [by rewrite Hz0 in Hf|].
      eauto.
  - intros m Hm. destruct (decide (m = n)) as [->|Hmn].
    + exists b, y. destruct Hfl as [[_ ?]|[? _]]; done.
    + apply HP in Hm; [|done]. destruct (c11 m Hm) as (c & z & Hz & Hdz & Hbz & Hfz).
      exists c, z. split; [|done]. apply Hk; [|done]. intros ->. congruence.
  - rewrite Hlen. intros m Hm HmP HmH. assert (Hmn : m <> n).
    { intros ->. apply HmH. by apply (list_elem_of_fmap_2 snd _ (b, n)). }
    rewrite Hdisk, HV by (done || lia). apply c12; [done|by rewrite <- HP|done].
Qed.

Lemma bwrite_spec b n :
  (b, n) ∈ H ->
  exists s', bwrite b s = Ret tt s' /\ cache pid H (P ∖ {[n]}) V s' /\
    k_disk s' = <[Z.to_nat n := V n]> (k_disk s) /\
    k_dwrites s' = (n, V n) :: k_dwrites s /\ bio_core s' = bio_core s.
Proof.
  intros Hb. destruct (cache_get b n Hb) as (x & Hx & Hd & Hn & Hl & Hr & Hdata & Hrange & Hf).
  pose proof (c_me _ _ _ _ _ C) as Hme. pose proof (c_spin _ _ _ _ _ C) as Hspin.
  set (y := x <| b_flags := B_VALID |>).
  exists (putb b y (s <| k_disk ::= <[Z.to_nat n := V n]> |> <| k_dwrites ::= cons (n, V n) |>)).
  split; [|split; [|done]].
  - unfold bwrite. rewrite (bind_eq _ _ _ _ _ (holdingsleep_run pid b x s Hme Hspin Hx)), Hl.
    cbn [sl_locked sl_pid]. rewrite Z.eqb_refl. change (ctrue 1) with true. cbn [negb andb].
    set (x1 := x <| b_flags := Z.lor B_VALID B_DIRTY |>). rewrite (bind_upd_buf b x) by done.
    replace (x <| b_flags ::= _ |>) with x1
      by (unfold x1, upd; cbn; destruct Hf as [-> | ->]; reflexivity).
    destruct (lookup_lt_is_Some_2 (k_disk s) (Z.to_nat n)) as [d Hdn]; [lia|].
    rewrite (iderw_run pid b x1 _ d); try done; cycle 1.
    + by eapply putb_lookup.
    + cbn. unfold upd. cbn. lia.
    + cbn. unfold upd. cbn. by rewrite Hn.
    + by right.
    + change (b_flags x1 =? 0) with false. cbv iota.
      change (b_blockno x1) with (b_blockno x). change (b_data x1) with (b_data x).
      rewrite Hn, Hdata.
      set (s1 := s <| k_disk ::= <[Z.to_nat n := V n]> |> <| k_dwrites ::= cons (n, V n) |>).
      trans (Ret (A:=unit) tt (putb b y (putb b x1 s1))); [reflexivity|by rewrite putb_putb].
  - eapply (cache_update b n y); try done.
    + cbn. by rewrite length_insert.
    + intros m Hm Hmn. cbn. rewrite list_lookup_insert_ne by lia. done.
    + left. split; [done|set_solver].
    + set_solver.
Qed.

Lemma set_data_spec b n l :
  (b, n) ∈ H ->
  exists s', upd_buf b (fun x => x <| b_data := l |>) s = Ret tt s' /\
    cache pid H P (<[n := l]> V) s' /\
    k_disk s' = k_disk s /\ k_dwrites s' = k_dwrites s /\ bio_core s' = bio_core s.
Proof.
  intros Hb. destruct (cache_get b n Hb) as (x & Hx & Hd & Hn & Hl & Hr & _ & _ & Hf).
  exists (putb b (x <| b_data := l |>) s).
  split; [by apply upd_buf_run|split; [|done]].
  eapply (cache_update b n (x <| b_data := l |>)); try done; try apply C.
  - destruct Hf as [Hf|Hf]; [left|right]; (split; [done|]).
    + intros Hp. destruct (c_pin _ _ _ _ _ C _ Hp) as (c & z & Hz & Hdz & Hbz & Hfz).
      assert (c = b) as -> by (apply (c_uniq _ _ _ _ _ C c b z x); congruence).
      assert (z = x) as -> by congruence. by rewrite Hf in Hfz.
    + rewrite <- Hn. by apply (c_dirty _ _ _ _ _ C b).
  - cbn. by rewrite fn_lookup_insert.
  - intros m Hm. by rewrite fn_lookup_insert_ne.
Qed.

Lemma brelse_state b x y w :
  k_held s = [] ->
  Ret (A:=unit) tt
    ((putb b y ((putb b x s) <| k_procs ::= fmap w |>
       <| k_held := L_bcache :: k_held ((putb b x s) <| k_procs ::= fmap w |>) |>))
     <| k_bcache ::= fun c => c <| bc_order := b :: filter (.≠ b) (lru s) |> |> <| k_held := [] |>)
  = Ret tt ((putb b y s) <| k_procs ::= fmap w |>
     <| k_bcache ::= fun c => c <| bc_order ::= fun o => b :: filter (.≠ b) o |> |>).
Proof.
  intros Hspin. f_equal. apply kstate_ext; try reflexivity; [done|].
  change (mkBc (<[b := y]> (<[b := x]> (bufs s))) (b :: filter (.≠ b) (lru s)) =
          mkBc (<[b := y]> (bufs s)) (b :: filter (.≠ b) (lru s))).
  by rewrite list_insert_insert_eq.
Qed.

(** Releasing a buffer whose block is pinned or equal to the disk. *)
Lemma brelse_spec b n H' :
  H ≡ₚ (b, n) :: H' -> n ∈ P \/ k_disk s !! Z.to_nat n = Some (V n) ->
  exists s', brelse b s = Ret tt s' /\ cache pid H' P V s' /\
    k_disk s' = k_disk s /\ k_dwrites s' = k_dwrites s /\ bio_core s' = bio_core s.
Proof.
  intros HH Hok. assert (Hb : (b, n) ∈ H) by (rewrite HH; left).
  destruct (cache_get b n Hb) as (x & Hx & Hd & Hn & Hl & Hr & Hdata & Hrange & Hf).
  pose proof (c_me _ _ _ _ _ C) as Hme. pose proof (c_spin _ _ _ _ _ C) as Hspin.
  set (y := x <| b_lock := mkSl 0 0 |> <| b_refcnt := 0 |>).
  exists ((putb b y s) <| k_procs ::= fmap (wake (Some (C_bufsleep b))) |>
     <| k_bcache ::= fun c => c <| bc_order ::= fun o => b :: filter (.≠ b) o |> |>).
  split; [|split; [|split; [done|split; [done|]]]].
  - unfold brelse. rewrite (bind_eq _ _ _ _ _ (holdingsleep_run pid b x s Hme Hspin Hx)), Hl.
    cbn [sl_locked sl_pid]. rewrite Z.eqb_refl. change (ctrue 1) with true. cbn [negb andb].
    rewrite (bind_eq _ _ _ _ _ (releasesleep_run b x s Hspin Hx)). unfold bind at 1.
    rewrite acquire_ok by (cbn; rewrite Hspin; apply not_elem_of_nil).
    set (x1 := x <| b_lock := mkSl 0 0 |>).
    rewrite (bind_upd_buf b x1) by by eapply putb_lookup.
    set (s1 := upd k_held _ _).
    rewrite (bind_get_buf b y).
    2:{ unfold putb at 1. cbn. rewrite list_lookup_insert_eq.
        - unfold y, x1, upd. cbn. by rewrite Hr.
        - rewrite length_insert. by eapply lookup_lt_Some. }
    change (b_refcnt y =? 0) with true. cbn [whenM]. unfold set_order. mrun.
    rewrite (release_ok _ []); [|by cbn; rewrite Hspin|apply not_elem_of_nil].
    replace (x1 <| b_refcnt ::= _ |>) with y by (unfold y, x1, upd; cbn; by rewrite Hr).
    subst s1. clearbody x1 y. apply brelse_state, Hspin.
  - assert (Lb : bufs (putb b y s) !! b = Some y) by by eapply putb_lookup.
    assert (Ln : forall c z, bufs (putb b y s) !! c = Some z ->
              (c = b /\ z = y) \/ (c <> b /\ bufs s !! c = Some z)).
    { intros c z. destruct (decide (c = b)) as [->|Hc].
      - rewrite Lb. intros [= <-]. by left.
      - rewrite putb_lookup_ne by done. by right. }
    assert (Hnd : (b ∉ H'.*1) /\ NoDup H'.*1).
    { pose proof (c_nodup _ _ _ _ _ C) as Hnd. rewrite HH in Hnd. cbn in Hnd.
      by apply NoDup_cons in Hnd. }
    assert (Hy : forall c z, bufs (putb b y s) !! c = Some z -> exists w, bufs s !! c = Some w /\
              b_dev z = b_dev w /\ b_blockno z = b_blockno w /\ b_flags z = b_flags w /\
              b_data z = b_data w).
    { intros c z [[-> ->]|[Hc Hz]]%Ln; [by exists x|by exists z]. }
    destruct C as [c1 c2 c3 c4 c5 c6 c7 c8 c9 c10 c11 c12]. split; try done.
    + cbn. by rewrite length_insert.
    + trans (lru s); [|done]. apply move_to_front; [rewrite c2; apply NoDup_seq|].
      rewrite c2, <- c1. apply elem_of_seq. apply lookup_lt_Some in Hx. lia.
    + destruct c4 as (i & p & Hi & Hp & Hpid). exists i, (wake (Some (C_bufsleep b)) p).
      split; [done|]. split; [|by rewrite wake_pid]. cbn. by rewrite list_lookup_fmap, Hp.
    + intros c z Hz. destruct (Hy c z Hz) as (w & Hw & -> & -> & -> & ->). by apply (c5 c w).
    + intros c z [[-> ->]|[Hc Hz]]%Ln Hni; [done|]. apply (c6 c z Hz). rewrite HH. cbn.
      by intros [?|?]%elem_of_cons.
    + intros c m Hc. assert (Hcb : c <> b).
      { intros ->. apply Hnd. by apply (list_elem_of_fmap_2 fst _ (b, m)). }
      destruct (c7 c m) as (z & Hz & Hrest); [rewrite HH; by right|].
      exists z. split; [|done]. by rewrite <- Hz, <- (putb_lookup_ne b c y s).
    + apply Hnd.
    + intros c d z w Hz Hw Hdz Hdw He.
      destruct (Hy c z Hz) as (z' & Hz' & Ez1 & Ez2 & _).
      destruct (Hy d w Hw) as (w' & Hw' & Ew1 & Ew2 & _).
      apply (c9 c d z' w'); congruence.
    + intros c z Hz. destruct (Hy c z Hz) as (w & Hw & _ & -> & -> & _). by apply (c10 c w).
    + intros m Hm. destruct (c11 m Hm) as (c & z & Hz & Hrest).
      destruct (decide (c = b)) as [->|Hc].
      * exists b, y. split; [done|]. assert (z = x) as -> by congruence. done.
      * exists c, z. split; [|done]. by rewrite <- Hz, <- (putb_lookup_ne b c y s).
    + intros m Hm HmP HmH. destruct (decide (m = n)) as [->|Hmn]; [by destruct Hok|].
      apply c12; [done|done|]. rewrite HH. cbn. by intros [?|?]%elem_of_cons.
  - unfold bio_core. cbn. rewrite <- list_fmap_compose.
    by rewrite (list_fmap_ext (p_pid ∘ wake (Some (C_bufsleep b))) p_pid)
      by (intros; apply wake_pid).
Qed.

Lemma cache_perm H' : H ≡ₚ H' -> cache pid H' P V s.
Proof.
  intros HH. destruct C as [c1 c2 c3 c4 c5 c6 c7 c8 c9 c10 c11 c12]. split; try done.
  - intros b x Hx Hb. apply (c6 b x Hx). by rewrite HH.
  - intros b n Hb. apply c7. by rewrite HH.
  - by rewrite <- HH.
  - intros n Hn HP HnH. apply c12; [done..|]. by rewrite HH.
Qed.

(** Two views that agree on the disk are the same. *)
Lemma cache_view V' :
  (forall n, 0 <= n < Z.of_nat (length (k_disk s)) -> V' n = V n) -> cache pid H P V' s.
Proof.
  intros HV. destruct C as [c1 c2 c3 c4 c5 c6 c7 c8 c9 c10 c11 c12]. split; try done.
  - intros b x Hx. destruct (c5 b x Hx) as [|(? & ? & ? & Hdata)]; [by left|right].
    by rewrite HV.
  - intros n Hn HP HnH. rewrite HV by done. by apply c12.
Qed.
End Cache.
