(* ===== verification/IdeSpec.v ===== *)
(** The disk driver of [ide.c] with several processes and an interrupting
    drive: requests are served in order, the drive works on the first of them,
    no process sleeps on a request that is not queued, and a process that
    returns from [iderw] has its block transferred. *)
From S2P Require Import Prelude Kstate Demo MemSpec Sched ProcSpec Sleeplock Bio BioSpec Ide.

(** * Flags and requests *)

Definition dirty (x : buf) : bool := ctrue (Z.land (b_flags x) B_DIRTY).
Definition finished (x : buf) : bool := Z.land (b_flags x) (Z.lor B_VALID B_DIRTY) =? B_VALID.
Definition drv (x : buf) : Z := Z.land (b_dev x) 1.

(** What the drive has to do for a buffer. *)
Definition request (x : buf) : job :=
  if dirty x then Writing (drv x) (b_blockno x) (b_data x) else Reading (drv x) (b_blockno x).

Record req_ok (x : buf) : Prop := mkReq {
  rq_block : 0 <= b_blockno x < FSSIZE;
  rq_data : length (b_data x) = Z.to_nat BSIZE;
}.

(** The flags as the interrupt handler leaves them. *)
Lemma intr_flags f : Z.land (Z.land (Z.lor f B_VALID) (Z.lnot B_DIRTY)) (Z.lor B_VALID B_DIRTY) = B_VALID.
Proof.
  apply Z.bits_inj'. intros n Hn. rewrite !Z.land_spec, !Z.lor_spec, Z.lnot_spec by done.
  destruct (decide (n = 1)) as [->|H1]; [change (Z.testbit B_VALID 1) with true; by rewrite orb_true_r|].
  assert (E : Z.testbit B_VALID n = false) by (change B_VALID with (2 ^ 1); apply Z.pow2_bits_false; lia).
  rewrite E, !orb_false_r, orb_false_l. by destruct (Z.testbit B_DIRTY n); rewrite ?andb_false_r.
Qed.

(** In the order of [memide.c] they are the same. *)
Lemma flags_dirty f : Z.lor (Z.land f (Z.lnot B_DIRTY)) B_VALID = Z.land (Z.lor f B_VALID) (Z.lnot B_DIRTY).
Proof.
  rewrite Z.land_lor_distr_l. by replace (Z.land B_VALID (Z.lnot B_DIRTY)) with B_VALID.
Qed.
Lemma flags_clean f : ctrue (Z.land f B_DIRTY) = false -> Z.lor f B_VALID = Z.land (Z.lor f B_VALID) (Z.lnot B_DIRTY).
Proof.
  unfold ctrue. intros Hf%negb_false_iff%Z.eqb_eq. rewrite <- flags_dirty. f_equal. rewrite <- Z.ldiff_land. symmetry.
  apply Z.bits_inj'. intros n Hn. rewrite Z.ldiff_spec. assert (E := f_equal (fun z => Z.testbit z n) Hf). cbn beta in E.
  rewrite Z.land_spec, Z.bits_0 in E. destruct (Z.testbit f n); [|done]. cbn [andb] in *. by rewrite E.
Qed.

(** * The ports *)

Section Driver.
Context {Dv : Type} `{PO : Ports Dv} `{!AtaDrive Dv}.
#[local] Abbreviation I := (M (ide Dv)).

(** The address registers as [idestart] sets them. *)
Lemma drive_bits v t : 0 <= v < 2 -> 0 <= t < 16 -> Z.land (Z.shiftr (Z.lor (Z.lor 0xe0 (Z.shiftl v 4)) t) 4) 1 = v.
Proof.
  intros Hv Ht. assert (v = 0 \/ v = 1) as [-> | ->] by lia.
  all: assert (Hall : forallb (fun t => Z.land (Z.shiftr (Z.lor (Z.lor 0xe0 (Z.shiftl 0 4)) t) 4) 1 =? 0) (seqZ 0 16) &&
                      forallb (fun t => Z.land (Z.shiftr (Z.lor (Z.lor 0xe0 (Z.shiftl 1 4)) t) 4) 1 =? 1) (seqZ 0 16) = true) by by vm_compute.
  all: apply andb_prop in Hall as [H0 H1]; rewrite forallb_forall in H0, H1.
  - apply Z.eqb_eq, H0, list_elem_of_In, elem_of_seqZ. lia.
  - apply Z.eqb_eq, H1, list_elem_of_In, elem_of_seqZ. lia.
Qed.

Lemma lba_bytes n : 0 <= n < 2 ^ 24 -> Z.land n 0xff + 2 ^ 8 * Z.land (Z.shiftr n 8) 0xff + 2 ^ 16 * Z.land (Z.shiftr n 16) 0xff = n.
Proof.
  intros Hn. change 0xff with (Z.ones 8). rewrite !Z.land_ones, !Z.shiftr_div_pow2 by lia.
  Z.to_euclidean_division_equations. lia.
Qed.

Lemma kern_ok {A} (m : K A) (s : ide Dv) Q : returns m (id_k s) Q -> returns (kern m) s (fun a s' => exists k, s' = s <| id_k := k |> /\ Q a k).
Proof. intros (a & k & E & HQ). exists a, (s <| id_k := k |>). unfold kern. rewrite E. eauto. Qed.

Lemma kern_run {A} (m : K A) (s : ide Dv) a k : m (id_k s) = Ret a k -> returns (kern m) s (fun a' s' => a' = a /\ s' = s <| id_k := k |>).
Proof. intros E. exists a, (s <| id_k := k |>). unfold kern. by rewrite E. Qed.
Lemma kern_get_buf b x (s : ide Dv) : bufs (id_k s) !! b = Some x -> returns (kern (get_buf b)) s (fun y s' => y = x /\ s' = s).
Proof.
  intros Hb. exists x, s. split; [|done]. unfold kern, get_buf. mrun. cbn. rewrite Hb. by destruct s.
Qed.

Lemma bind_kern {A B} (m : K A) (f : A -> I B) (s : ide Dv) a k : m (id_k s) = Ret a k -> bind (kern m) f s = f a (s <| id_k := k |>).
Proof. intros E. unfold bind, kern. by rewrite E. Qed.

(** Only the drive has changed, and only its registers. *)
Definition polled (s s' : ide Dv) : Prop :=
  exists d, s' = s <| id_drive := d |> /\ reg d = reg (id_drive s) /\ media d = media (id_drive s) /\ job_of d = job_of (id_drive s).

Lemma polled_poll s : polled s (s <| id_drive := snd (port_inb 0x1f7 (id_drive s)) |>).
Proof. exists (snd (port_inb 0x1f7 (id_drive s))). split; [done|]. apply (inb_status (id_drive s)). Qed.
Lemma polled_trans s1 s2 s3 : polled s1 s2 -> polled s2 s3 -> polled s1 s3.
Proof. intros (d & -> & R1 & M1 & J1) (d' & -> & R2 & M2 & J2). cbn in *. exists d'. split; [done|]. by rewrite R2, M2, J2. Qed.

Lemma idewait_ok chk s : returns (idewait chk) s (fun r s' => polled s s' /\
  r = if chk && bool_decide (job_of (id_drive s) = Failed) then -1 else 0).
Proof.
  assert (HL : forall n s, (exists k, (k < n)%nat /\ Z.land (fst (port_inb 0x1f7 (Nat.iter k (fun d => snd (port_inb 0x1f7 d)) (id_drive s))))
                (Z.lor IDE_BSY IDE_DRDY) = IDE_DRDY) ->
             returns (loop n (fun _ : unit => r <- inb 0x1f7;; ret (if Z.land r (Z.lor IDE_BSY IDE_DRDY) =? IDE_DRDY then inr r else inl tt)) tt) s
               (fun r s' => polled s s' /\ (Z.land r (Z.lor IDE_DF IDE_ERR) <> 0 <-> job_of (id_drive s) = Failed))).
  { clear s. induction n as [|n IH]; intros s (k & Hk & Hr); [lia|]. cbn [loop]. apply returns_assoc. unfold inb.
    pose proof (polled_poll s) as HP. set (s1 := s <| id_drive := snd (port_inb 0x1f7 (id_drive s)) |>) in *.
    apply returns_assoc. eapply returns_bind; [apply returns_gets|]. intros d s0 [-> ->]. apply returns_assoc.
    eapply returns_bind; [apply returns_modify|]. intros [] s0 ->. fold s1. do 2 apply returns_ret_bind.
    destruct (Z.eqb_spec (Z.land (fst (port_inb 0x1f7 (id_drive s))) (Z.lor IDE_BSY IDE_DRDY)) IDE_DRDY) as [E|E].
    - apply returns_ret. split; [done|]. by apply inb_error.
    - destruct k as [|k]; [done|]. eapply returns_mono; [apply (IH s1); exists k; split; [lia|]|].
      + rewrite Nat.iter_succ_r in Hr. exact Hr.
      + intros r s' [HP' Hf]. split; [by eapply polled_trans|]. rewrite Hf.
        destruct HP as (d & E' & _ & _ & J). rewrite E'. cbn. by rewrite J. }
  eapply returns_bind; [apply HL; apply inb_ready|]. intros r s' [HP Hf]. apply returns_ret. split; [done|].
  destruct chk; [|done]. cbn [andb]. destruct (Z.eqb_spec (Z.land r (Z.lor IDE_DF IDE_ERR)) 0) as [E|E]; cbn [negb].
  - rewrite bool_decide_false; [done|]. intros J. by apply Hf.
  - rewrite bool_decide_true; [done|]. by apply Hf.
Qed.

Lemma outb_ok port v s : returns (outb port v) s (fun _ s' => s' = s <| id_drive := port_outb port v (id_drive s) |>).
Proof. by eexists _, _. Qed.
Lemma insl_ok port n s : returns (insl port n) s (fun l s' => l = fst (port_insl port n (id_drive s)) /\ s' = s <| id_drive := snd (port_insl port n (id_drive s)) |>).
Proof. by eexists _, _. Qed.

(** The six register writes of [idestart], for a sector of [dev]. *)
Definition addressed (d : Dv) (dev sector : Z) : Dv :=
  port_outb 0x1f6 (Z.lor (Z.lor 0xe0 (Z.shiftl (Z.land dev 1) 4)) (Z.land (Z.shiftr sector 24) 0x0f))
    (port_outb 0x1f5 (Z.land (Z.shiftr sector 16) 0xff)
      (port_outb 0x1f4 (Z.land (Z.shiftr sector 8) 0xff)
        (port_outb 0x1f3 (Z.land sector 0xff) (port_outb 0x1f2 1 (port_outb 0x3f6 0 d))))).

Lemma addressed_ok d dev sector : 0 <= sector < 2 ^ 24 ->
  let d' := addressed d dev sector in
  media d' = media d /\ job_of d' = job_of d /\ reg d' 0x1f2 = 1 /\ drive_of (reg d') = Z.land dev 1 /\ lba_of (reg d') = sector.
Proof.
  intros Hs. assert (Ht : Z.shiftr sector 24 = 0) by (rewrite Z.shiftr_div_pow2 by lia; apply Z.div_small; lia).
  cbv zeta. unfold addressed. rewrite Ht. change (Z.land 0 0x0f) with 0. set (top := Z.lor (Z.lor 0xe0 (Z.shiftl (Z.land dev 1) 4)) 0).
  destruct (outb_reg d 0x3f6 0) as (R1 & M1 & J1); [set_solver|]. set (d1 := port_outb 0x3f6 0 d) in *.
  destruct (outb_reg d1 0x1f2 1) as (R2 & M2 & J2); [set_solver|]. set (d2 := port_outb 0x1f2 1 d1) in *.
  destruct (outb_reg d2 0x1f3 (Z.land sector 0xff)) as (R3 & M3 & J3); [set_solver|]. set (d3 := port_outb 0x1f3 _ d2) in *.
  destruct (outb_reg d3 0x1f4 (Z.land (Z.shiftr sector 8) 0xff)) as (R4 & M4 & J4); [set_solver|]. set (d4 := port_outb 0x1f4 _ d3) in *.
  destruct (outb_reg d4 0x1f5 (Z.land (Z.shiftr sector 16) 0xff)) as (R5 & M5 & J5); [set_solver|]. set (d5 := port_outb 0x1f5 _ d4) in *.
  destruct (outb_reg d5 0x1f6 top) as (R6 & M6 & J6); [set_solver|]. set (d6 := port_outb 0x1f6 top d5) in *.
  split; [congruence|]. split; [congruence|].
  assert (Hd : 0 <= Z.land dev 1 < 2) by (change 1 with (Z.ones 1) at 1 2; rewrite Z.land_ones by lia; apply Z.mod_pos_bound; lia).
  split; [by rewrite R6, R5, R4, R3, R2|]. unfold drive_of, lba_of. rewrite !R6, !R5, !R4, !R3. cbn [Z.eqb Pos.eqb]. unfold top. split.
  - by apply drive_bits.
  - assert (Z.land (Z.lor (Z.lor 0xe0 (Z.shiftl (Z.land dev 1) 4)) 0) 0xf = 0) as ->.
    { assert (Z.land dev 1 = 0 \/ Z.land dev 1 = 1) as [-> | ->] by lia; done. }
    rewrite lba_bytes by done. lia.
Qed.

Lemma idestart_ok b x s : bufs (id_k s) !! b = Some x -> req_ok x -> job_of (id_drive s) = Idle \/ job_of (id_drive s) = Failed ->
  returns (idestart (Some b)) s (fun _ s' => exists d, s' = s <| id_drive := d |> /\ media d = media (id_drive s) /\ job_of d = request x).
Proof.
  intros Hb [Hn Hl] Hj. unfold idestart. change FSSIZE with 1000 in *. change (BSIZE / SECTOR_SIZE) with 1. cbv zeta.
  tx_step (kern_get_buf b x s) as y s0 E. destruct E as [-> ->].
  change FSSIZE with 1000. rewrite (proj2 (Z.leb_gt 1000 _)), Z.mul_1_r, s32_id by lia. change (1 =? 1) with true. change (7 <? 1) with false. cbv iota.
  tx_step (idewait_ok false s) as r s1 E. destruct E as [(d & -> & R & M & J) _].
  do 6 (eapply returns_bind; [apply outb_ok|intros [] ? ->]). destruct (addressed_ok d (b_dev x) (b_blockno x)) as (M' & J' & R' & Ed & El); [lia|].
  set (d' := addressed d (b_dev x) (b_blockno x)) in *. set (s6 := _ <| id_drive := _ |>).
  assert (E6 : s6 = s <| id_drive := d' |>) by done. rewrite E6. clear s6 E6. unfold request, dirty. rewrite J in J'.
  destruct (ctrue (Z.land (b_flags x) B_DIRTY)).
  - tx_step (outb_ok 0x1f7 IDE_CMD_WRITE) as u s2 E. subst s2. destruct (outb_write d') as [M2 J2]; [by rewrite J'|done|].
    destruct (outsl_data (port_outb 0x1f7 IDE_CMD_WRITE d') _ _ (b_data x) J2) as [M3 J3]; [done|].
    unfold outsl. rewrite (take_ge (b_data x)) by (rewrite Hl; by vm_compute).
    eexists _, _. split; [done|]. exists (port_outsl 0x1f0 (b_data x) (port_outb 0x1f7 IDE_CMD_WRITE d')). split; [done|].
    rewrite M3, M2, M', M, J3, Ed, El. done.
  - eapply returns_mono; [apply outb_ok|]. intros [] s2 ->. destruct (outb_read d') as [M2 J2]; [by rewrite J'|done|].
    exists (port_outb 0x1f7 IDE_CMD_READ d'). split; [done|]. rewrite M2, M', M, J2, Ed, El. done.
Qed.

(** * The queue *)

(** The list threaded through [qnext] from [q]. *)
Fixpoint chain (q : option nat) (nx : list (option nat)) (qs : list nat) : Prop :=
  match qs with
  | [] => q = None
  | b :: qs => q = Some b /\ exists n, nx !! b = Some n /\ chain n nx qs
  end.

Lemma chain_other nx b v qs : forall q, b ∉ qs -> chain q nx qs -> chain q (<[b := v]> nx) qs.
Proof.
  induction qs as [|c qs IH]; intros q Hb; [done|]. intros (-> & n & Hn & Hc). split; [done|]. exists n.
  rewrite list_lookup_insert_ne by set_solver. split; [done|]. apply IH; [set_solver|done].
Qed.

Lemma chain_bound nx qs : forall q, chain q nx qs -> Forall (fun b => b < length nx)%nat qs.
Proof.
  induction qs as [|c qs IH]; intros q; [constructor|]. intros (_ & n & Hn & Hc). constructor; [by eapply lookup_lt_Some|by eapply IH].
Qed.
Lemma chain_length q nx qs : chain q nx qs -> NoDup qs -> (length qs <= length nx)%nat.
Proof.
  intros Hc%chain_bound Hd. rewrite <- (length_seq (length nx) 0). apply submseteq_length, NoDup_submseteq; [done|].
  intros b Hb. rewrite Forall_forall in Hc. apply elem_of_seq. specialize (Hc b Hb). lia.
Qed.

(** Hanging [b] behind the last element. *)
Definition append_at (l : option nat) (b : nat) (s : ide Dv) : ide Dv :=
  match l with None => s <| idequeue := Some b |> | Some c => s <| id_qnext ::= <[c := Some b]> |> end.

Lemma chain_append nx qs b : forall q, chain q nx qs -> NoDup qs -> b ∉ qs -> nx !! b = Some None ->
  match list.last qs with
  | None => chain (Some b) nx (qs ++ [b])
  | Some c => chain q (<[c := Some b]> nx) (qs ++ [b])
  end.
Proof.
  induction qs as [|c qs IH]; intros q Hc Hd Hb Hn; cbn [app chain]; [cbn; eauto|].
  destruct Hc as (-> & n & Hcn & Hc). apply NoDup_cons in Hd as [Hcq Hd]. specialize (IH n Hc Hd ltac:(set_solver) Hn).
  rewrite last_cons. destruct (list.last qs) as [l|] eqn:El.
  - split; [done|]. exists n. split; [|done]. rewrite list_lookup_insert_ne; [done|]. intros ->. apply Hcq. by apply last_Some_elem_of.
  - apply last_None in El as ->. split; [done|]. exists (Some b). split; [apply list_lookup_insert_eq; by eapply lookup_lt_Some|]. split; [done|].
    exists None. split; [|done]. rewrite list_lookup_insert_ne by set_solver. done.
Qed.

(** The loop of [iderw] ends at the last element. *)
Lemma walk_ok (s : ide Dv) qs : forall n pp, (length qs < n)%nat ->
  (exists q, returns (load_pp pp) s (fun v s' => v = q /\ s' = s) /\ chain q (id_qnext s) qs) ->
  returns (loop n (fun pp => v <- load_pp pp;; ret (match v with Some c => inl (Some c) | None => inr pp end)) pp) s
    (fun r s' => r = match list.last qs with Some c => Some c | None => pp end /\ s' = s).
Proof.
  induction qs as [|c qs IH]; intros n pp Hn (q & Hq & Hc); (destruct n as [|n]; [cbn in Hn; lia|]); cbn [loop]; apply returns_assoc.
  - tx_step Hq as v s0 E. destruct E as [-> ->]. cbn in Hc. subst q. apply returns_ret_bind. by apply returns_ret.
  - tx_step Hq as v s0 E. destruct E as [-> ->]. destruct Hc as (-> & m & Hm & Hc). apply returns_ret_bind.
    eapply returns_mono; [apply (IH n (Some c)); [cbn in Hn; lia|]|].
    + exists m. split; [|done]. exists m, s. split; [|done]. cbn [load_pp]. unfold qnext. mrun. by rewrite Hm.
    + intros r s' [-> ->]. rewrite last_cons. by destruct (list.last qs).
Qed.

(** * The invariant *)

(** Process [i] is in [iderw] for buffer [b]: asleep, or woken and not yet
    resumed. *)
Definition waiter (k : kstate) (i b : nat) (p : proc) : Prop := k_procs k !! i = Some p /\ p_chan p = Some (C_buf b).
Definition awaited (k : kstate) (b : nat) : Prop := exists i p, waiter k i b p.

(** [bad]: the buffers whose last request failed. *)
Record ide_inv (bad : gset nat) (qs : list nat) (s : ide Dv) : Prop := mkIdeInv {
  iv_chain : chain (idequeue s) (id_qnext s) qs;
  iv_nodup : NoDup qs;
  iv_len : length (id_qnext s) = NBUF;
  iv_bufs : length (bufs (id_k s)) = NBUF;
  iv_queued : forall b, b ∈ qs -> awaited (id_k s) b;
  iv_head : match qs with
            | [] => job_of (id_drive s) = Idle \/ job_of (id_drive s) = Failed
            | b :: _ => exists x, bufs (id_k s) !! b = Some x /\ job_of (id_drive s) = request x
            end;
  iv_asleep : forall i b p, waiter (id_k s) i b p -> p_state p = SLEEPING -> b ∈ qs;
  iv_buf : forall b, awaited (id_k s) b -> exists x, bufs (id_k s) !! b = Some x /\
    (b ∈ qs -> req_ok x /\ finished x = false) /\
    (b ∉ qs -> finished x = true /\ ((b ∉ bad) -> b_data x = media (id_drive s) (drv x) (b_blockno x)));
  iv_apart : forall b c x y, awaited (id_k s) b -> awaited (id_k s) c -> b <> c ->
    bufs (id_k s) !! b = Some x -> bufs (id_k s) !! c = Some y -> (drv x, b_blockno x) <> (drv y, b_blockno y);
}.

(** ** A request *)

(** The running process [i] may ask for buffer [b]: it holds the buffer's
    lock, no other process is in [iderw] for the buffer or for another
    one of the same block, and there is something to do. *)
Record asks (i b : nat) (s : ide Dv) : Prop := mkAsks {
  as_held : k_held (id_k s) = [];
  as_cur : k_cur (id_k s) = Some i;
  as_proc : exists p, k_procs (id_k s) !! i = Some p /\ (forall c, p_chan p <> Some (C_buf c)) /\
    exists x, bufs (id_k s) !! b = Some x /\ req_ok x /\ finished x = false /\
      b_lock x = mkSl 1 (p_pid p) /\ (b_dev x = 0 \/ havedisk1 s <> 0) /\
      forall c y, awaited (id_k s) c -> bufs (id_k s) !! c = Some y -> c <> b /\ (drv y, b_blockno y) <> (drv x, b_blockno x);
}.

(** Process [i] has gone to sleep on [b], and nothing else. *)
Definition slept (i b : nat) (k : kstate) : kstate :=
  k <| k_held := [L_ptable] |> <| k_procs ::= alter (asleep (C_buf b)) i |>.

Lemma waiter_slept k i b p j c q : k_procs k !! i = Some p -> (forall c, p_chan p = Some (C_buf c) -> c = b) ->
  waiter (slept i b k) j c q <-> (j = i /\ c = b /\ q = asleep (C_buf b) p) \/ (j <> i /\ waiter k j c q).
Proof.
  intros Hp Hno. unfold waiter. change (k_procs (slept i b k)) with (alter (asleep (C_buf b)) i (k_procs k)).
  destruct (decide (j = i)) as [->|Hj].
  - rewrite list_lookup_alter_eq, Hp. cbn. split.
    + intros [[= <-] Hc]. cbn in Hc. injection Hc as <-. by left.
    + intros [(_ & -> & ->)|[? _]]; done.
  - rewrite list_lookup_alter_ne by done. split; [by right|]. intros [(? & _)|[_ ?]]; done.
Qed.
Lemma awaited_slept k i b p c : k_procs k !! i = Some p -> (forall c, p_chan p = Some (C_buf c) -> c = b) ->
  awaited (slept i b k) c <-> c = b \/ awaited k c.
Proof.
  intros Hp Hno. unfold awaited. setoid_rewrite (waiter_slept k i b p _ _ _ Hp Hno). split.
  - intros (j & q & [(_ & -> & _)|[_ Hw]]); [by left|right; eauto].
  - intros [->|(j & q & Hw)]; [eauto 8|]. destruct (decide (j = i)) as [->|Hj]; [|eauto 8].
    destruct Hw as [Hq Hc]. rewrite Hp in Hq. injection Hq as <-. rewrite (Hno c Hc). eauto 8.
Qed.

Lemma iderw_wait_sleeps b x i p (s : ide Dv) : bufs (id_k s) !! b = Some x -> finished x = false ->
  k_held (id_k s) = [L_ide] -> k_cur (id_k s) = Some i -> k_procs (id_k s) !! i = Some p ->
  iderw_wait b s = Switch (s <| id_k := slept i b (id_k s) |>).
Proof.
  intros Hb Hf Hh Hc Hp. unfold iderw_wait. eapply bind_ends; [by apply (kern_get_buf b x)|]. intros y s' [-> ->].
  unfold finished in Hf. rewrite Hf. cbn [negb]. unfold kern. by rewrite (sleep_ok (C_buf b) L_ide i p).
Qed.

(** What a request leaves: the buffer at the end of the queue, its process
    asleep, and the drive at work for it if it was idle. *)
Record requested (i b : nat) (x : buf) (qs : list nat) (s s' : ide Dv) : Prop := mkRequested {
  rd_k : id_k s' = slept i b (id_k s);
  rd_chain : chain (idequeue s') (id_qnext s') (qs ++ [b]);
  rd_len : length (id_qnext s') = NBUF;
  rd_media : media (id_drive s') = media (id_drive s);
  rd_job : job_of (id_drive s') = match qs with [] => request x | _ => job_of (id_drive s) end;
}.

(** Hanging the buffer behind the queue. *)
Lemma enqueue_ok b qs (s : ide Dv) (f : unit -> I unit) (W : outcome (ide Dv) unit -> Prop) :
  chain (idequeue s) (id_qnext s) qs -> NoDup qs -> length (id_qnext s) = NBUF -> b ∉ qs -> (b < NBUF)%nat ->
  (forall q nx, chain q nx (qs ++ [b]) -> length nx = NBUF -> W (f tt (s <| idequeue := q |> <| id_qnext := nx |>))) ->
  W ((store_pp (Some b) None;;;
      pp <- loop (NBUF + 1) (fun pp => v <- load_pp pp;; ret (match v with Some c => inl (Some c) | None => inr pp end)) None;;
      u <- store_pp pp (Some b);; f u) s).
Proof.
  intros Hch Hnd Hlen Hbq Hbn HW. unfold store_pp at 1. mrun. set (s1 := s <| id_qnext ::= <[b := None]> |>).
  assert (Hb1 : id_qnext s1 !! b = Some None) by (apply list_lookup_insert_eq; lia).
  assert (Hch1 : chain (idequeue s1) (id_qnext s1) qs) by (by apply chain_other).
  assert (Hlen1 : length (id_qnext s1) = NBUF) by (change (length (<[b := None]> (id_qnext s)) = NBUF); by rewrite length_insert).
  eapply bind_ends.
  { apply (walk_ok s1 qs); [pose proof (chain_length _ _ _ Hch1 Hnd); lia|]. exists (idequeue s1). split; [|done]. by exists (idequeue s1), s1. }
  intros pp s2 [-> ->]. pose proof (chain_append _ _ _ _ Hch1 Hnd Hbq Hb1) as HA.
  destruct (list.last qs) as [c|]; unfold store_pp; mrun.
  - apply (HW (idequeue s1) (<[c := Some b]> (id_qnext s1))); [done|]. exact (eq_trans (length_insert _ c (Some b)) Hlen1).
  - by apply (HW (Some b) (id_qnext s1)).
Qed.

Lemma iderw_queues i b p x bad qs s : ide_inv bad qs s -> k_held (id_k s) = [] -> k_cur (id_k s) = Some i -> k_procs (id_k s) !! i = Some p ->
  bufs (id_k s) !! b = Some x -> req_ok x -> finished x = false -> b_lock x = mkSl 1 (p_pid p) ->
  b_dev x = 0 \/ havedisk1 s <> 0 -> b ∉ qs -> (b < NBUF)%nat ->
  exists s', iderw b s = Switch s' /\ requested i b x qs s s'.
Proof.
  intros [Hch Hnd Hlen _ _ Hhd _ _ _] Hh Hc Hp Hb RO Hf Hl Hdev Hbq Hbn.
  assert (Hme : me (p_pid p) (id_k s)) by (by exists i, p).
  set (W := fun o : outcome (ide Dv) unit => exists s', o = Switch s' /\ requested i b x qs s s'). change (W (iderw b s)). unfold iderw.
  eapply bind_ends; [apply kern_run, (holdingsleep_run (p_pid p) b x); done|].
  intros a s0 [-> ->]. replace (s <| id_k := id_k s |>) with s by by destruct s. rewrite Hl. cbn [sl_locked sl_pid]. rewrite Z.eqb_refl. cbn [ctrue andb negb Z.eqb].
  eapply bind_ends; [by apply (kern_get_buf b x)|]. intros y s0 [-> ->].
  pose proof Hf as Hf'. unfold finished in Hf'. rewrite Hf'. mrun.
  assert (negb (b_dev x =? 0) && (havedisk1 s =? 0) = false) as ->.
  { destruct Hdev as [->|Hd]; [done|]. by rewrite (proj2 (Z.eqb_neq _ _) Hd), andb_false_r. }
  eapply bind_ends; [apply kern_run, acquire_ok; rewrite Hh; set_solver|]. intros u s0 [_ ->]. rewrite Hh.
  set (s1 := s <| id_k := (id_k s) <| k_held := [L_ide] |> |>). apply (enqueue_ok b qs s1); try done.
  intros q nx Hq Hnx. set (s2 := s1 <| idequeue := q |> <| id_qnext := nx |>). mrun. change (idequeue s2) with q.
  assert (Hw : forall d, iderw_wait b (s2 <| id_drive := d |>) = Switch (s2 <| id_drive := d |> <| id_k := slept i b (id_k s) |>)).
  { intros d. rewrite (iderw_wait_sleeps b x i p) by done. done. }
  destruct qs as [|c qs].
  - pose proof Hq as [-> _]. rewrite bool_decide_true by done. cbn [whenM].
    eapply bind_ends; [by apply (idestart_ok b x s2)|]. intros u' s3 (d & -> & Hm & Hj). rewrite Hw. eexists. split; [done|]. by split.
  - pose proof Hq as [-> _]. rewrite bool_decide_false by (intros [= ->]; set_solver). cbn [whenM]. mrun.
    replace s2 with (s2 <| id_drive := id_drive s |>) by done. rewrite Hw. eexists. split; [done|]. by split.
Qed.

Lemma iderw_inv bad qs s i b : ide_inv bad qs s -> asks i b s ->
  exists s', iderw b s = Switch s' /\ ide_inv (bad ∖ {[b]}) (qs ++ [b]) s'.
Proof.
  intros INV [Hh Hc (p & Hp & Hno & x & Hb & RO & Hf & Hl & Hdev & Hap)].
  assert (Hbq : b ∉ qs) by (intros Hin%(iv_queued _ _ _ INV); by destruct (Hap b x Hin Hb)).
  destruct (iderw_queues i b p x bad qs s INV) as (s' & E & [Ek Hch Hlen Hm Hj]); try done.
  { rewrite <- (iv_bufs _ _ _ INV). by eapply lookup_lt_Some. }
  exists s'. split; [done|]. destruct INV as [_ Hnd _ HB Hq Hhd Has Hbuf Hapa].
  assert (HA : forall c, awaited (id_k s') c <-> c = b \/ awaited (id_k s) c) by (intros c; rewrite Ek; by apply (awaited_slept _ i b p); [|intros c' ?%Hno]).
  assert (Ebufs : bufs (id_k s') = bufs (id_k s)) by by rewrite Ek. split; rewrite ?Ebufs; try done.
  - apply NoDup_app. split; [done|]. split; [set_solver|apply NoDup_singleton].
  - intros c. rewrite HA, elem_of_app, list_elem_of_singleton. naive_solver.
  - destruct qs as [|c qs]; cbn [app]; [by exists x; rewrite Hj|]. by rewrite Hj.
  - intros j c q Hw Hs. rewrite elem_of_app, list_elem_of_singleton. rewrite Ek in Hw. apply (waiter_slept _ i b p) in Hw; [|done|by intros c' ?%Hno].
    destruct Hw as [(_ & -> & _)|[_ Hw]]; [by right|left]. by eapply Has.
  - intros c [->|Hc']%HA.
    + exists x. split; [done|]. split; [done|]. intros []. apply elem_of_app. right. by apply list_elem_of_singleton.
    + destruct (Hbuf c Hc') as (y & Hy & Hin & Hout). destruct (Hap c y Hc' Hy) as [Hcb _]. exists y. split; [done|].
      rewrite elem_of_app, list_elem_of_singleton, Hm. split; [naive_solver|]. intros Hnc. destruct Hout as [Hfin Hd]; [naive_solver|].
      split; [done|]. intros Hbad. apply Hd. set_solver.
  - intros c e y z. rewrite !HA. intros [->|Hc'] [->|He] Hne Hy Hz; [done| | |exact (Hapa c e y z Hc' He Hne Hy Hz)].
    + destruct (Hap e z He Hz) as [_ ?]. rewrite Hb in Hy. congruence.
    + destruct (Hap c y Hc' Hy) as [_ ?]. rewrite Hb in Hz. congruence.
Qed.

(** ** An interrupt *)

(** The buffer as the interrupt handler leaves it. *)
Definition served (x : buf) (data : list Z) : buf :=
  x <| b_data := data |> <| b_flags := Z.land (Z.lor (b_flags x) B_VALID) (Z.lnot B_DIRTY) |>.

Lemma served_finished x data : finished (served x data) = true.
Proof. unfold finished, served. apply Z.eqb_eq, intr_flags. Qed.
Lemma request_at_work x : ~ (request x = Idle \/ request x = Failed).
Proof. unfold request. destruct (dirty x); intros [|]; done. Qed.

Lemma putb_id b x k : bufs k !! b = Some x -> putb b x k = k.
Proof.
  intros H. pose proof (list_insert_id (bufs k) b x H) as E. destruct k. unfold putb, upd. cbn in *. rewrite E.
  match goal with c : bcache |- _ => by destruct c end.
Qed.

(** The transfer of a block that was read. *)
Lemma transfer_ok b x (s : ide Dv) d0 : bufs (id_k s) !! b = Some x -> job_of d0 = request x -> interrupt d0 (id_drive s) ->
  returns (whenM (negb (dirty x))
    (r <- idewait true;;
     whenM (0 <=? r) (data <- insl 0x1f0 (BSIZE / 4);; kern (upd_buf b (fun x => x <| b_data := data |>))))) s
  (fun _ s' => exists data d, s' = s <| id_drive := d |> <| id_k := putb b (x <| b_data := data |>) (id_k s) |> /\
     media d = media (id_drive s) /\ (job_of d = Idle \/ job_of d = Failed) /\
     (job_of (id_drive s) <> Failed -> data = media (id_drive s) (drv x) (b_blockno x)) /\
     (forall v l, (v, l) <> (drv x, b_blockno x) -> media (id_drive s) v l = media d0 v l)).
Proof.
  intros Hb Hj Hint. pose proof (interrupt_done _ _ Hint) as HD. rewrite Hj in HD. unfold request in HD.
  assert (Hid : putb b (x <| b_data := b_data x |>) (id_k s) = id_k s) by (rewrite <- (putb_id b x (id_k s) Hb) at 2; by destruct x).
  destruct (dirty x); cbn [negb whenM].
  - apply returns_ret. exists (b_data x), (id_drive s). rewrite Hid. split; [by destruct s|]. split; [done|].
    destruct HD as [[Ho Hm]|[Ho Hm]].
    + split; [by left|]. split.
      * intros _. by rewrite Hm, !Z.eqb_refl.
      * intros v l Hne. rewrite Hm. destruct (Z.eqb_spec v (drv x)), (Z.eqb_spec l (b_blockno x)); cbn [andb]; congruence.
    + split; [by right|]. by split; [intros []|].
  - destruct HD as [Hm Ho]. tx_step (idewait_ok true s) as r s1 E. destruct E as [(d & -> & _ & M1 & J1) ->].
    assert (Hoth : forall v l, (v, l) <> (drv x, b_blockno x) -> media (id_drive s) v l = media d0 v l) by (intros; by rewrite Hm).
    destruct Ho as [Ho|Ho]; rewrite Ho in *; cbn [andb].
    + rewrite bool_decide_false by done. change (0 <=? 0) with true. cbn [whenM].
      tx_step (insl_ok 0x1f0 (BSIZE / 4)) as data s2 E. destruct E as [-> ->].
      pose proof (insl_data d _ _ J1) as HI. change (SECTOR_SIZE / 4) with (BSIZE / 4) in HI. change (id_drive (s <| id_drive := d |>)) with d.
      destruct (port_insl 0x1f0 (BSIZE / 4) d) as [data d2]. destruct HI as (-> & M2 & J2). cbn [fst snd].
      eapply returns_mono; [apply kern_run, (upd_buf_run b x); exact Hb|]. intros u s' [_ ->].
      exists (media d (drv x) (b_blockno x)), d2. split; [done|]. rewrite M2, M1. auto.
    + rewrite bool_decide_true by done. change (0 <=? -1) with false. cbn [whenM]. apply returns_ret. exists (b_data x), d. rewrite Hid.
      split; [by destruct s|]. split; [done|]. split; [by right|]. by split; [intros []|].
Qed.

(** The kernel after the interrupt for [b]. *)
Definition woken_up (b : nat) (x : buf) (data : list Z) (k : kstate) : kstate :=
  (putb b (served x data) k) <| k_procs ::= fmap (wake (Some (C_buf b))) |>.

Record intr_done (b : nat) (x : buf) (qs : list nat) (data : list Z) (s : ide Dv) (d : Dv) (s' : ide Dv) : Prop := mkIntrDone {
  it_k : id_k s' = woken_up b x data (id_k s);
  it_chain : chain (idequeue s') (id_qnext s') qs;
  it_len : length (id_qnext s') = length (id_qnext s);
  it_media : media (id_drive s') = media d;
  it_data : job_of d <> Failed -> data = media d (drv x) (b_blockno x);
  it_others : forall v l, (v, l) <> (drv x, b_blockno x) -> media d v l = media (id_drive s) v l;
  it_head : match qs with
            | [] => job_of (id_drive s') = Idle \/ job_of (id_drive s') = Failed
            | c :: _ => exists y, bufs (id_k s) !! c = Some y /\ job_of (id_drive s') = request y
            end;
}.

Lemma ideintr_run bad b qs s x d : ide_inv bad (b :: qs) s -> k_held (id_k s) = [] -> bufs (id_k s) !! b = Some x ->
  job_of (id_drive s) = request x -> interrupt (id_drive s) d ->
  returns ideintr (s <| id_drive := d |>) (fun _ s' => exists data, intr_done b x qs data s d s').
Proof.
  intros INV Hh Hb Hj Hint. destruct (iv_chain _ _ _ INV) as (Eq & n & Hn & Hch). unfold ideintr.
  set (k1 := (id_k s) <| k_held := [L_ide] |>). assert (E1 : acquire L_ide (id_k s) = Ret tt k1) by (rewrite acquire_ok; rewrite Hh; [done|set_solver]).
  set (s0 := s <| id_drive := d |>). tx_step (kern_run (acquire L_ide) s0 tt k1 E1) as u s1' E. destruct E as [_ ->].
  set (s1 := s0 <| id_k := k1 |>).
  eapply returns_bind; [apply returns_gets|]. intros q s2' [-> ->]. change (idequeue s1) with (idequeue s). rewrite Eq.
  assert (Hqn : returns (qnext b) s1 (fun v s' => v = n /\ s' = s1)) by (eexists _, _; split; [unfold qnext; mrun; change (id_qnext s1) with (id_qnext s); by rewrite Hn|done]).
  tx_step Hqn as v s2' E. destruct E as [-> ->]. eapply returns_bind; [apply returns_modify|]. intros [] s2' ->.
  set (s2 := s1 <| idequeue := n |>).
  tx_step (kern_get_buf b x s2) as y s3' E. destruct E as [-> ->].
  tx_step (transfer_ok b x s2 (id_drive s)) as u' s3' E. destruct E as (data & d3 & -> & M3 & J3 & Hdata & Hoth).
  set (k3 := putb b (x <| b_data := data |>) k1). set (s3 := s2 <| id_drive := d3 |> <| id_k := k3 |>).
  assert (Hb3 : bufs k3 !! b = Some (x <| b_data := data |>)) by (by apply (putb_lookup b x)).
  pose proof (kern_run _ s3 tt _ (upd_buf_run b _ (fun x => x <| b_flags ::= fun f => Z.lor f B_VALID |>) k3 Hb3)) as H4.
  tx_step H4 as u4 s4' E. clear H4. destruct E as [_ ->]. unfold k3 at 1. rewrite putb_putb. set (x4 := (x <| b_data := data |>) <| b_flags ::= _ |>). set (k4 := putb b x4 k1).
  assert (Hb4 : bufs k4 !! b = Some x4) by (by apply (putb_lookup b x)). set (s4 := s3 <| id_k := k4 |>).
  pose proof (kern_run _ s4 tt _ (upd_buf_run b _ (fun x => x <| b_flags ::= fun f => Z.land f (Z.lnot B_DIRTY) |>) k4 Hb4)) as H5.
  tx_step H5 as u5 s5' E. clear H5. destruct E as [_ ->]. unfold k4 at 1. rewrite putb_putb. change (x4 <| b_flags ::= _ |>) with (served x data).
  set (k5 := putb b (served x data) k1). set (s5 := s4 <| id_k := k5 |>).
  pose proof (kern_run (wakeup (C_buf b)) s5 tt _ (wakeup_ok (C_buf b) k5 ltac:(set_solver))) as H6.
  tx_step H6 as u6 s6' E. clear H6. destruct E as [_ ->]. set (k6 := k5 <| k_procs ::= _ |>). set (s6 := s5 <| id_k := k6 |>).
  eapply returns_bind; [apply returns_gets|]. intros q s7' [-> ->]. change (idequeue s6) with n.
  assert (Hend : forall d7, media d7 = media d -> match qs with
            | [] => job_of d7 = Idle \/ job_of d7 = Failed
            | c :: _ => exists y, bufs (id_k s) !! c = Some y /\ job_of d7 = request y
            end -> returns (kern (release L_ide)) (s6 <| id_drive := d7 |>) (fun _ s' => exists data, intr_done b x qs data s d s')).
  { intros d7 M7 J7. eapply returns_mono; [apply kern_run, (release_ok L_ide []); [done|set_solver]|].
    intros u7 s8 [_ ->]. exists data. split; try done. unfold woken_up. rewrite <- (held_id (id_k s)), Hh. done. }
  destruct qs as [|c qs].
  - cbn in Hch. subst n. rewrite bool_decide_false by auto. cbn [whenM]. apply returns_ret_bind.
    replace s6 with (s6 <| id_drive := d3 |>) by done. by apply Hend.
  - pose proof Hch as [-> _]. rewrite bool_decide_true by done. cbn [whenM].
    pose proof (iv_nodup _ _ _ INV) as Hnd. apply NoDup_cons in Hnd as [Hbq _].
    destruct (iv_buf _ _ _ INV c) as (y & Hy & RO & _); [apply (iv_queued _ _ _ INV); set_solver|]. destruct RO as [RO _]; [set_solver|].
    tx_step (idestart_ok c y s6) as u7 s7 E.
    { change (bufs (putb b (served x data) k1) !! c = Some y). rewrite putb_lookup_ne by set_solver. done. }
    destruct E as (d7 & -> & M7 & J7). apply Hend; [by rewrite M7|eauto].
Qed.

Lemma wake_chan ch p : p_chan (wake ch p) = p_chan p.
Proof. unfold wake. by destruct (_ && _). Qed.
Lemma wake_asleep ch p : p_state (wake ch p) = SLEEPING -> p_state p = SLEEPING /\ p_chan p <> ch.
Proof.
  unfold wake. destruct (bool_decide (p_state p = SLEEPING) && bool_decide (p_chan p = ch)) eqn:E; [done|].
  intros Hs. rewrite Hs, (bool_decide_true (SLEEPING = SLEEPING)) in E by done. split; [done|]. by apply bool_decide_eq_false in E.
Qed.

Lemma waiter_woken b x data k i c q : waiter (woken_up b x data k) i c q <-> exists p, waiter k i c p /\ q = wake (Some (C_buf b)) p.
Proof.
  unfold waiter. change (k_procs (woken_up b x data k)) with (wake (Some (C_buf b)) <$> k_procs k). rewrite list_lookup_fmap, fmap_Some. split.
  - intros [(p & Hp & ->) Hc]. rewrite wake_chan in Hc. eauto.
  - intros (p & [Hp Hc] & ->). rewrite wake_chan. eauto.
Qed.
Lemma awaited_woken b x data k c : awaited (woken_up b x data k) c <-> awaited k c.
Proof. unfold awaited. setoid_rewrite waiter_woken. naive_solver. Qed.

(** The failed requests after the interrupt of a drive that is now [d]. *)
Definition now_bad (d : Dv) (b : nat) (bad : gset nat) : gset nat := if decide (job_of d = Failed) then {[b]} ∪ bad else bad.

Lemma intr_inv bad b qs s x data d s' : ide_inv bad (b :: qs) s -> bufs (id_k s) !! b = Some x -> intr_done b x qs data s d s' ->
  ide_inv (now_bad d b bad) qs s'.
Proof.
  intros [Hch Hnd Hlen HB Hq Hhd Has Hbuf Hapa] Hb [Ek Hch' Hlen' Hm Hdata Hoth Hhd']. apply NoDup_cons in Hnd as [Hbq Hnd].
  assert (HA : forall c, awaited (id_k s') c <-> awaited (id_k s) c) by (intros c; rewrite Ek; apply awaited_woken).
  assert (Hbb : bufs (id_k s') !! b = Some (served x data)) by (rewrite Ek; by apply (putb_lookup b x)).
  assert (Hbc : forall c, c <> b -> bufs (id_k s') !! c = bufs (id_k s) !! c) by (intros c Hc; rewrite Ek; by apply putb_lookup_ne).
  assert (Hbw : awaited (id_k s) b) by (apply Hq; set_solver).
  assert (Hsame : forall c y, bufs (id_k s') !! c = Some y -> exists y0, bufs (id_k s) !! c = Some y0 /\ drv y = drv y0 /\ b_blockno y = b_blockno y0).
  { intros c y Hy. destruct (decide (c = b)) as [->|Hc]; [|rewrite Hbc in Hy by done; eauto]. rewrite Hbb in Hy. injection Hy as <-. eauto. }
  split; [done|done|by rewrite Hlen'|rewrite Ek; exact (eq_trans (length_insert _ _ _) HB)|..].
  - intros c Hc. apply HA, Hq. set_solver.
  - destruct qs as [|c qs]; [done|]. destruct Hhd' as (y & Hy & Hj). exists y. rewrite Hbc by set_solver. done.
  - intros i c q Hw Hs. rewrite Ek in Hw. apply waiter_woken in Hw as (p & Hw & ->). apply wake_asleep in Hs as [Hs Hne].
    destruct Hw as [Hp Hc]. assert (c <> b) by congruence. assert (c ∈ b :: qs) by (by apply (Has i c p)). set_solver.
  - intros c Hc%HA. destruct (Hbuf c Hc) as (y & Hy & Hin & Hout). rewrite Hm. destruct (decide (c = b)) as [->|Hcb].
    + exists (served x data). rewrite Hb in Hy. injection Hy as <-. split; [done|]. split; [done|]. intros _.
      split; [apply served_finished|]. unfold now_bad. intros Hnb. case_decide; [set_solver|]. exact (Hdata ltac:(done)).
    + exists y. rewrite Hbc by done. split; [done|]. split; [intros; apply Hin; set_solver|]. intros Hcq.
      destruct Hout as [Hf Hd]; [set_solver|]. split; [done|]. intros Hnb. rewrite Hoth.
      * apply Hd. unfold now_bad in Hnb. case_decide; set_solver.
      * apply (Hapa c b y x Hc Hbw Hcb Hy Hb).
  - intros c e y z Hc%HA He%HA Hne Hy Hz. destruct (Hsame c y Hy) as (y0 & Hy0 & -> & ->). destruct (Hsame e z Hz) as (z0 & Hz0 & -> & ->).
    by apply (Hapa c e y0 z0).
Qed.

Lemma ideintr_inv bad qs s d : ide_inv bad qs s -> k_held (id_k s) = [] -> interrupt (id_drive s) d ->
  exists b qs', qs = b :: qs' /\ returns ideintr (s <| id_drive := d |>) (fun _ s' =>
    ide_inv (now_bad d b bad) qs' s' /\ awaited (id_k s') b).
Proof.
  intros INV Hh Hint. pose proof (iv_head _ _ _ INV) as Hhd. destruct qs as [|b qs].
  { exfalso. pose proof (interrupt_done _ _ Hint) as HD. destruct Hhd as [E|E]; by rewrite E in HD. }
  exists b, qs. split; [done|]. destruct Hhd as (x & Hb & Hj). eapply returns_mono; [by apply (ideintr_run bad b qs s x d)|].
  intros u s' (data & HI). split; [by eapply intr_inv|]. rewrite (it_k _ _ _ _ _ _ _ HI). apply awaited_woken, (iv_queued _ _ _ INV). set_solver.
Qed.

(** ** A resumption *)

(** The scheduler has resumed process [i], which waits for [b]. *)
Record resumed (i b : nat) (s : ide Dv) : Prop := mkResumed {
  rs_held : k_held (id_k s) = [L_ptable];
  rs_cur : k_cur (id_k s) = Some i;
  rs_waits : exists p, waiter (id_k s) i b p /\ p_state p = RUNNING;
}.

Lemma sleep_return_run i p k : k_held k = [L_ptable] -> k_cur k = Some i -> k_procs k !! i = Some p ->
  sleep_return L_ide k = Ret tt (k <| k_held := [L_ide] |> <| k_procs ::= alter (fun p => p <| p_chan := None |>) i |>).
Proof.
  intros Hh Hc Hp. unfold sleep_return, myproc. mrun. rewrite Hc. mrun. unfold upd_proc. mrun.
  change (bool_decide (L_ide <> L_ptable)) with true. cbn [whenM]. set (k1 := k <| k_procs ::= _ |>).
  assert (Hh1 : k_held k1 = [L_ptable]) by done. rewrite (bind_eq _ _ _ _ _ (release_ok L_ptable [] k1 Hh1 ltac:(set_solver))).
  rewrite acquire_ok by set_solver. done.
Qed.

(** The process is back in [iderw]: it no longer counts as waiting. *)
Definition awake (i : nat) (l : lockid) (k : kstate) : kstate :=
  k <| k_held := [l] |> <| k_procs ::= alter (fun p => p <| p_chan := None |>) i |>.

Lemma slept_awake i b l k : slept i b (awake i l k) = slept i b k.
Proof.
  assert (E : alter (asleep (C_buf b)) i (alter (fun p => p <| p_chan := None |>) i (k_procs k)) = alter (asleep (C_buf b)) i (k_procs k)).
  { apply list_eq. intros j. destruct (decide (j = i)) as [->|Hj]; [|by rewrite !list_lookup_alter_ne].
    rewrite !list_lookup_alter_eq. by destruct (k_procs k !! i). }
  change (k <| k_held := [L_ptable] |> <| k_procs := alter (asleep (C_buf b)) i (alter (fun p => p <| p_chan := None |>) i (k_procs k)) |> =
          k <| k_held := [L_ptable] |> <| k_procs := alter (asleep (C_buf b)) i (k_procs k) |>).
  by rewrite E.
Qed.

(** It sleeps again, as when it was woken to be killed. *)
Lemma again_inv bad qs s i b p : ide_inv bad qs s -> waiter (id_k s) i b p -> b ∈ qs -> ide_inv bad qs (s <| id_k := slept i b (id_k s) |>).
Proof.
  intros [Hch Hnd Hlen HB Hq Hhd Has Hbuf Hapa] [Hp Hc] Hbq.
  assert (Hno : forall c, p_chan p = Some (C_buf c) -> c = b) by congruence.
  assert (HA : forall c, awaited (slept i b (id_k s)) c <-> awaited (id_k s) c).
  { intros c. rewrite (awaited_slept _ i b p c Hp Hno). split; [intros [->|?]; [by exists i, p|done]|by right]. }
  split; try done; cbn.
  - intros c Hin. apply HA. by apply Hq.
  - intros j c q Hw Hs. apply (waiter_slept _ i b p) in Hw as [(_ & -> & _)|[_ Hw]]; [done|by eapply Has|done|done].
  - intros c Hw%HA. by apply Hbuf.
  - intros c e x y Hw%HA He%HA. by apply Hapa.
Qed.

(** It is done. *)
Lemma return_inv bad qs s i b p l : ide_inv bad qs s -> waiter (id_k s) i b p -> b ∉ qs -> ide_inv bad qs (s <| id_k := (awake i l (id_k s)) <| k_held := [] |> |>).
Proof.
  intros [Hch Hnd Hlen HB Hq Hhd Has Hbuf Hapa] [Hp Hc] Hbq. set (k := (awake i l (id_k s)) <| k_held := [] |>).
  assert (HW : forall j c q, waiter k j c q -> waiter (id_k s) j c q).
  { intros j c q [Hj Hq']. change (k_procs k) with (alter (fun p => p <| p_chan := None |>) i (k_procs (id_k s))) in Hj.
    destruct (decide (j = i)) as [->|Hne]; [|by rewrite list_lookup_alter_ne in Hj].
    rewrite list_lookup_alter_eq, Hp in Hj. by injection Hj as <-. }
  assert (HA : forall c, awaited k c -> awaited (id_k s) c) by (intros c (j & q & Hw); exists j, q; auto).
  split; try done; cbn.
  - intros c Hin. destruct (Hq c Hin) as (j & q & Hj & Hcq). exists j, q. split; [|done].
    change (k_procs k) with (alter (fun p => p <| p_chan := None |>) i (k_procs (id_k s))).
    rewrite list_lookup_alter_ne; [done|]. intros ->. rewrite Hp in Hj. congruence.
  - intros j c q Hw%HW. by eapply Has.
  - intros c Hw%HA. by apply Hbuf.
  - intros c e x y Hw%HA He%HA. by apply Hapa.
Qed.

Lemma iderw_return_inv bad qs s i b : ide_inv bad qs s -> resumed i b s ->
  (exists s', iderw_return b s = Switch s' /\ ide_inv bad qs s') \/
  (exists s' x, iderw_return b s = Ret tt s' /\ ide_inv bad qs s' /\ bufs (id_k s') !! b = Some x /\ finished x = true /\
     ((b ∉ bad) -> b_data x = media (id_drive s') (drv x) (b_blockno x))).
Proof.
  intros INV [Hh Hc (p & Hw & Hr)]. pose proof Hw as [Hp Hch]. unfold iderw_return.
  rewrite (bind_kern (sleep_return L_ide) _ s tt (awake i L_ide (id_k s))) by (by apply (sleep_return_run i p)).
  set (s1 := s <| id_k := awake i L_ide (id_k s) |>).
  destruct (iv_buf _ _ _ INV b) as (x & Hx & Hin & Hout); [by exists i, p|].
  destruct (decide (b ∈ qs)) as [Hbq|Hbq]; [left|right].
  - destruct (Hin Hbq) as [_ Hf]. eexists. split; [|by apply (again_inv bad qs s i b p)]. rewrite <- (slept_awake i b L_ide).
    rewrite (iderw_wait_sleeps b x i (p <| p_chan := None |>) s1); try done.
    change (alter (fun p => p <| p_chan := None |>) i (k_procs (id_k s)) !! i = Some (p <| p_chan := None |>)). by rewrite list_lookup_alter_eq, Hp.
  - destruct (Hout Hbq) as [Hf Hd]. eexists _, x. split; [|split; [by apply (return_inv bad qs s i b p L_ide)|done]].
    unfold iderw_wait. eapply bind_ends; [by apply (kern_get_buf b x s1)|]. intros y s2 [-> ->]. unfold finished in Hf. rewrite Hf. cbn [negb].
    unfold kern. by rewrite (release_ok L_ide [] (id_k s1)) by (done || set_solver).
Qed.

(** * Executions *)

(** What the rest of the kernel may do: nothing to the queue, the drive and
    the buffers that processes wait for, and to those processes only what
    [kill] and the scheduler do. *)
Record others (s s' : ide Dv) : Prop := mkOthers {
  ot_queue : idequeue s' = idequeue s /\ id_qnext s' = id_qnext s;
  ot_drive : id_drive s' = id_drive s;
  ot_length : length (bufs (id_k s')) = length (bufs (id_k s));
  ot_bufs : forall b, awaited (id_k s) b -> bufs (id_k s') !! b = bufs (id_k s) !! b;
  ot_new : forall i b p', waiter (id_k s') i b p' -> exists p, waiter (id_k s) i b p /\ (p_state p' = SLEEPING -> p_state p = SLEEPING);
  ot_old : forall i b p, waiter (id_k s) i b p -> exists p', waiter (id_k s') i b p';
}.

(** A step of the system and the number of interrupts in it: a process calls
    [iderw], the drive interrupts, a resumed process goes on in [iderw], and
    anything else. *)
Inductive ide_step : nat -> ide Dv * gset nat -> ide Dv * gset nat -> Prop :=
| step_call i b s s' bad : asks i b s -> iderw b s = Switch s' -> ide_step 0 (s, bad) (s', bad ∖ {[b]})
| step_intr s b d s' bad : k_held (id_k s) = [] -> idequeue s = Some b -> interrupt (id_drive s) d ->
    ideintr (s <| id_drive := d |>) = Ret tt s' -> ide_step 1 (s, bad) (s', now_bad d b bad)
| step_again i b s s' bad : resumed i b s -> iderw_return b s = Switch s' -> ide_step 0 (s, bad) (s', bad)
| step_return i b s s' bad : resumed i b s -> iderw_return b s = Ret tt s' -> ide_step 0 (s, bad) (s', bad)
| step_other s s' bad : others s s' -> ide_step 0 (s, bad) (s', bad).

(** A run with [n] interrupts, through states that all satisfy [P]. *)
Inductive ide_run (P : ide Dv -> Prop) : nat -> ide Dv * gset nat -> ide Dv * gset nat -> Prop :=
| run_refl c : P (fst c) -> ide_run P 0 c c
| run_step k n c1 c2 c3 : P (fst c1) -> ide_step k c1 c2 -> ide_run P n c2 c3 -> ide_run P (k + n) c1 c3.

(** Nobody waits, and the drive has nothing to do. *)
Record ide_start (s : ide Dv) : Prop := mkIdeStart {
  st_queue : idequeue s = None;
  st_len : length (id_qnext s) = NBUF;
  st_bufs : length (bufs (id_k s)) = NBUF;
  st_job : job_of (id_drive s) = Idle;
  st_none : forall b, ~ awaited (id_k s) b;
}.

Lemma start_inv s : ide_start s -> ide_inv ∅ [] s.
Proof.
  intros [Hq Hl Hb Hj Hn]. split; try done.
  - constructor.
  - by intros b ?%elem_of_nil.
  - by left.
  - intros i b p Hw. destruct (Hn b). by exists i, p.
  - by intros b ?%Hn.
  - by intros b c x y ?%Hn.
Qed.

Lemma others_inv bad qs s s' : ide_inv bad qs s -> others s s' -> ide_inv bad qs s'.
Proof.
  intros [Hch Hnd Hlen HB Hq Hhd Has Hbuf Hapa] [[E1 E2] E3 E4 Hbs Hnew Hold].
  assert (HA : forall c, awaited (id_k s') c -> awaited (id_k s) c) by (intros c (i & p' & (p & Hw & _)%Hnew); by exists i, p).
  split; rewrite ?E1, ?E2, ?E3, ?E4; try done.
  - intros c (i & p & (p' & Hw)%Hold)%Hq. by exists i, p'.
  - destruct qs as [|b qs]; [done|]. destruct Hhd as (x & Hx & Hj). exists x. rewrite Hbs; [done|]. apply Hq. set_solver.
  - intros i c p' (p & Hw & Hs)%Hnew Hp. by apply (Has i c p); [|apply Hs].
  - intros c Hw%HA. rewrite Hbs by done. by apply Hbuf.
  - intros c e x y Hw%HA He%HA Hne. rewrite !Hbs by done. by apply Hapa.
Qed.

(** How the queue moves in a step. *)
Lemma step_inv k s bad qs s' bad' : ide_inv bad qs s -> ide_step k (s, bad) (s', bad') ->
  exists qs', ide_inv bad' qs' s' /\ if k is 0%nat then qs `prefix_of` qs' else exists b, qs = b :: qs' /\ awaited (id_k s') b.
Proof.
  intros INV H. remember (s, bad) as c1 eqn:E1. remember (s', bad') as c2 eqn:E2.
  destruct H as [i b s0 s1 bd Ha E|s0 b d s1 bd Hh Hq Hi E|i b s0 s1 bd Hr E|i b s0 s1 bd Hr E|s0 s1 bd Ho]; simplify_eq.
  - destruct (iderw_inv bad qs s i b INV Ha) as (s1 & E1 & INV1). rewrite E1 in E. injection E as <-. eexists. split; [done|]. by eexists.
  - destruct (ideintr_inv bad qs s d INV Hh Hi) as (c & qs' & -> & [] & s1 & E1 & INV1 & Haw). rewrite E1 in E. injection E as <-.
    destruct (iv_chain _ _ _ INV) as [Hq' _]. rewrite Hq in Hq'. injection Hq' as <-. eauto.
  - exists qs. split; [|done]. destruct (iderw_return_inv bad qs s i b INV Hr) as [(s1 & E1 & ?)|(s1 & x & E1 & ?)]; rewrite E1 in E; [|done]. by injection E as <-.
  - exists qs. split; [|done]. destruct (iderw_return_inv bad qs s i b INV Hr) as [(s1 & E1 & ?)|(s1 & x & E1 & ? & _)]; rewrite E1 in E; [done|]. by injection E as <-.
  - exists qs. split; [by eapply others_inv|done].
Qed.

Lemma run_inv P n c c' : ide_run P n c c' -> forall qs, ide_inv (snd c) qs (fst c) -> exists qs', ide_inv (snd c') qs' (fst c').
Proof.
  induction 1 as [c _|k n [s1 b1] [s2 b2] c3 _ Hst _ IH]; intros qs INV; [eauto|].
  destruct (step_inv _ _ _ _ _ _ INV Hst) as (qs' & INV' & _). by apply (IH qs').
Qed.

(** Buffer [b] still has to be transferred. *)
Definition unserved (b : nat) (s : ide Dv) : Prop := exists x, bufs (id_k s) !! b = Some x /\ finished x = false.

Lemma run_bound b n c c' : ide_run (unserved b) n c c' -> forall qs k, ide_inv (snd c) qs (fst c) -> qs !! k = Some b -> (n <= k)%nat.
Proof.
  induction 1 as [c _|m n [s1 b1] [s2 b2] c3 HP Hst Hrun IH]; intros qs k INV Hk; [lia|].
  destruct (step_inv _ _ _ _ _ _ INV Hst) as (qs' & INV' & Hq). assert (Hm : m = 0%nat \/ m = 1%nat) by (inversion Hst; auto).
  destruct Hm as [-> | ->].
  - destruct Hq as [l ->]. apply (IH (qs ++ l) k INV'). by apply lookup_app_l_Some.
  - destruct Hq as (c & -> & Haw). destruct k as [|k]; [|specialize (IH qs' k INV' Hk); lia]. exfalso. cbn in Hk. injection Hk as ->.
    assert (HP2 : unserved b s2) by (inversion Hrun; subst; done). destruct HP2 as (x & Hx & Hf).
    destruct (iv_buf _ _ _ INV' b Haw) as (y & Hy & _ & Hout). rewrite Hx in Hy. injection Hy as <-.
    destruct Hout as [Hf' _]; [|congruence]. pose proof (iv_nodup _ _ _ INV) as Hnd. by apply NoDup_cons in Hnd as [? _].
Qed.

(** * The synchronous driver *)

(** Disk [D] is what drive 1 holds. *)
Definition mirrors (D : list (list Z)) (md : Z -> Z -> list Z) : Prop := forall n l, D !! n = Some l -> md 1 (Z.of_nat n) = l.

(** What [memide.c] does for a buffer. *)
Lemma memide_run b x p i k : k_held k = [] -> k_cur k = Some i -> k_procs k !! i = Some p -> bufs k !! b = Some x ->
  finished x = false -> b_lock x = mkSl 1 (p_pid p) -> b_dev x = 1 -> b_blockno x < Z.of_nat (length (k_disk k)) ->
  exists k', Bio.iderw b k = Ret tt k' /\
    bufs k' = <[b := served x (if dirty x then b_data x else default zero_block (k_disk k !! Z.to_nat (b_blockno x)))]> (bufs k) /\
    k_disk k' = if dirty x then <[Z.to_nat (b_blockno x) := b_data x]> (k_disk k) else k_disk k.
Proof.
  intros Hh Hc Hp Hb Hf Hl Hdev Hn. unfold Bio.iderw.
  rewrite (bind_eq _ _ _ _ _ (holdingsleep_run (p_pid p) b x k ltac:(by exists i, p) Hh Hb)), Hl. cbn [sl_locked sl_pid]. rewrite Z.eqb_refl. cbn [ctrue andb negb Z.eqb].
  rewrite (bind_get_buf b x) by done. unfold finished in Hf. rewrite Hf, Hdev. cbn [negb Z.eqb Pos.eqb]. mrun.
  rewrite (proj2 (Z.leb_gt _ _)) by done. unfold dirty. destruct (ctrue (Z.land (b_flags x) B_DIRTY)) eqn:Ed.
  - rewrite bind_assoc, (bind_upd_buf b x) by done. mrun.
    erewrite upd_buf_run by (cbn; apply list_lookup_insert_eq; by eapply lookup_lt_Some). eexists. split; [done|]. split; [|done].
    cbn. rewrite list_insert_insert_eq. f_equal. unfold served. rewrite <- flags_dirty. by destruct x.
  - rewrite (bind_upd_buf b x) by done.
    erewrite upd_buf_run by (cbn; apply list_lookup_insert_eq; by eapply lookup_lt_Some). eexists. split; [done|]. split; [|done].
    cbn. rewrite list_insert_insert_eq. f_equal. unfold served. rewrite <- (flags_clean _ Ed). by destruct x.
Qed.

(** What the drive has done for a buffer when it interrupts. *)
Lemma interrupt_memide d0 d x D : job_of d0 = request x -> interrupt d0 d -> job_of d <> Failed -> drv x = 1 ->
  0 <= b_blockno x < Z.of_nat (length D) -> mirrors D (media d0) ->
  media d 1 (b_blockno x) = (if dirty x then b_data x else default zero_block (D !! Z.to_nat (b_blockno x))) /\
  mirrors (if dirty x then <[Z.to_nat (b_blockno x) := b_data x]> D else D) (media d).
Proof.
  intros Hj Hint Hok Ev Hn HM. pose proof (interrupt_done _ _ Hint) as HD. rewrite Hj in HD. unfold request in HD. rewrite Ev in HD.
  destruct (dirty x).
  - destruct HD as [[_ ->]|[? _]]; [|done]. split; [by rewrite !Z.eqb_refl|]. intros n l Hl. cbn [Z.eqb Pos.eqb andb].
    destruct (Z.eqb_spec (Z.of_nat n) (b_blockno x)) as [E|E].
    + rewrite <- E, Nat2Z.id, list_lookup_insert_eq in Hl by lia. congruence.
    + rewrite list_lookup_insert_ne in Hl by lia. by apply HM.
  - destruct HD as [-> _]. split; [|done]. destruct (lookup_lt_is_Some_2 D (Z.to_nat (b_blockno x))) as [l Hl]; [lia|].
    rewrite Hl. cbn. rewrite <- (HM _ _ Hl). f_equal. lia.
Qed.
End Driver.

Section Claims.
Context {Dv : Type} `{PO : Ports Dv} `{!AtaDrive Dv}.

(** C25: the disk driver with interrupts.  However calls of [iderw], interrupts
    and the rest of the kernel interleave, from a state where nobody waits: a
    process sleeps on a buffer only while the drive is at work; a request, an
    interrupt and a resumption never panic; and a process that returns from
    [iderw] has its buffer marked valid and clean, with the data that the
    drive has for its block, unless the drive reported an error. *)
Theorem ide_safe n s0 s bad : ide_start s0 -> ide_run (fun _ => True) n (s0, ∅) (s, bad) ->
  (forall i b p, waiter (id_k s) i b p -> p_state p = SLEEPING -> exists x, job_of (id_drive s) = request x) /\
  (forall i b, asks i b s -> exists s', iderw b s = Switch s') /\
  (forall d, k_held (id_k s) = [] -> interrupt (id_drive s) d -> exists s', ideintr (s <| id_drive := d |>) = Ret tt s') /\
  (forall i b, resumed i b s ->
     (exists s', iderw_return b s = Switch s') \/
     (exists s' x, iderw_return b s = Ret tt s' /\ bufs (id_k s') !! b = Some x /\ finished x = true /\
        ((b ∉ bad) -> b_data x = media (id_drive s') (drv x) (b_blockno x)))).
Proof.
  intros ST Hrun. destruct (run_inv _ _ _ _ Hrun [] (start_inv _ ST)) as [qs INV]. cbn in INV. split; [|split; [|split]].
  - intros i b p Hw Hs. pose proof (iv_asleep _ _ _ INV i b p Hw Hs) as Hb. pose proof (iv_head _ _ _ INV) as Hhd.
    destruct qs as [|c qs]; [by apply elem_of_nil in Hb|]. destruct Hhd as (x & _ & Hj). eauto.
  - intros i b Ha. destruct (iderw_inv bad qs s i b INV Ha) as (s' & E & _). eauto.
  - intros d Hh Hi. destruct (ideintr_inv bad qs s d INV Hh Hi) as (b & qs' & _ & [] & s' & E & _). eauto.
  - intros i b Hr. destruct (iderw_return_inv bad qs s i b INV Hr) as [(s' & E & _)|(s' & x & E & _ & Hx)]; eauto 10.
Qed.

(** C26: requests are served in order.  From the call of [iderw], the drive
    interrupts at most as often as there were requests in the queue before
    the buffer's request is served. *)
Theorem ide_in_order n0 n s0 s bad i b s1 c : ide_start s0 -> ide_run (fun _ => True) n0 (s0, ∅) (s, bad) -> asks i b s ->
  iderw b s = Switch s1 -> ide_run (unserved b) n (s1, bad ∖ {[b]}) c ->
  exists qs, chain (idequeue s) (id_qnext s) qs /\ (n <= length qs)%nat.
Proof.
  intros ST Hrun Ha E Hwait. destruct (run_inv _ _ _ _ Hrun [] (start_inv _ ST)) as [qs INV]. cbn in INV.
  destruct (iderw_inv bad qs s i b INV Ha) as (s1' & E' & INV'). rewrite E' in E. injection E as ->.
  exists qs. split; [apply INV|]. apply (run_bound b n _ _ Hwait (qs ++ [b]) (length qs)); [done|]. by rewrite list_lookup_middle.
Qed.

(** C27: a request that has the drive to itself does what the synchronous
    driver [memide.c] does at once: it leaves the process asleep, and the
    interrupt that follows, if the drive reports no error, leaves the same
    buffer and the same disk. *)
Theorem ide_memide s i b x : ide_start s -> asks i b s -> bufs (id_k s) !! b = Some x -> b_dev x = 1 ->
  b_blockno x < Z.of_nat (length (k_disk (id_k s))) -> mirrors (k_disk (id_k s)) (media (id_drive s)) ->
  exists k' s1, Bio.iderw b (id_k s) = Ret tt k' /\ iderw b s = Switch s1 /\
    forall s2 d, others s1 s2 -> k_held (id_k s2) = [] -> interrupt (id_drive s2) d -> job_of d <> Failed ->
    exists s3, ideintr (s2 <| id_drive := d |>) = Ret tt s3 /\ bufs (id_k s3) !! b = bufs k' !! b /\
      mirrors (k_disk k') (media (id_drive s3)).
Proof.
  intros ST [Hh Hc (p & Hp & Hno & x' & Hb & RO & Hf & Hl & Hdev & Hap)] Hb' Hd1 Hn HM. rewrite Hb in Hb'. injection Hb' as ->.
  pose proof (start_inv _ ST) as INV.
  destruct (memide_run b x p i (id_k s)) as (k' & Ek & Ebufs & Edisk); try done. exists k'.
  destruct (iderw_inv ∅ [] s i b INV) as (s1 & E1 & INV1).
  { split; [done|done|]. exists p. split; [done|]. split; [done|]. by exists x. }
  destruct (iderw_queues i b p x ∅ [] s INV) as (s1' & E1' & [Rk _ _ Rm Rj]); try done.
  { by intros ?%elem_of_nil. }
  { rewrite <- (st_bufs _ ST). by eapply lookup_lt_Some. }
  rewrite E1' in E1. injection E1 as ->. exists s1. split; [done|]. split; [done|]. intros s2 d HO Hh2 Hint Hok.
  assert (Hb2 : bufs (id_k s2) !! b = Some x).
  { rewrite (ot_bufs _ _ HO), Rk; [done|]. apply (iv_queued _ _ _ INV1). set_solver. }
  pose proof (others_inv _ _ _ _ INV1 HO) as INV2. destruct (ideintr_run _ b [] s2 x d INV2) as ([] & s3 & E3 & data & [Ik _ _ Im Idata Ioth _]); try done.
  { by rewrite (ot_drive _ _ HO), Rj. }
  exists s3. split; [done|]. rewrite Im, Ebufs, Edisk. destruct RO as [Hblk _].
  assert (Ev : drv x = 1) by (unfold drv; by rewrite Hd1). rewrite (ot_drive _ _ HO) in Hint.
  destruct (interrupt_memide (id_drive s1) d x (k_disk (id_k s)) Rj Hint Hok Ev) as [HD HM']; [lia|by rewrite Rm|].
  split; [|done]. rewrite Ik. cbn. specialize (Idata Hok). rewrite Ev in Idata. rewrite Idata, HD.
  by rewrite !list_lookup_insert_eq by (by eapply lookup_lt_Some).
Qed.
End Claims.

(** * An example *)

(** Process 1 of [Demo] with a changed buffer of block 3 and a drive full of
    zeroes. *)
Definition demo_buf : buf := mkBuf (Z.lor B_VALID B_DIRTY) 1 3 (mkSl 1 1) 1 (replicate 512 7).
Definition demo_ide : ide ata :=
  mkIde (demo2 <| k_disk := replicate 20 zero_block |> <| k_bcache := mkBc (demo_buf :: replicate 29 buf_zero) (seq 0 NBUF) |>)
    None (replicate NBUF None) 1 (mkAta (fun _ => 0) (fun _ _ => zero_block) Idle).

Lemma demo_unawaited b : ~ awaited (id_k demo_ide) b.
Proof.
  intros (i & p & Hp & Hc).
  assert (Hall : Forall (fun p => p_chan p = None) (k_procs (id_k demo_ide))) by (apply (bool_decide_unpack _); by vm_compute).
  rewrite Forall_lookup in Hall. rewrite (Hall _ _ Hp) in Hc. done.
Qed.
Lemma demo_start : ide_start demo_ide.
Proof. split; try done. apply demo_unawaited. Qed.
Lemma demo_asks : asks 0 0 demo_ide.
Proof.
  split; [done|done|]. eexists. split; [done|]. split; [done|]. exists demo_buf. split; [done|]. split; [by split|]. split; [done|]. split; [done|].
  split; [by right|]. by intros c y ?%demo_unawaited.
Qed.

Lemma ide_safe_witness : exists s1, iderw 0 demo_ide = Switch s1 /\
  forall i b p, waiter (id_k s1) i b p -> p_state p = SLEEPING -> exists x, job_of (id_drive s1) = request x.
Proof.
  destruct (iderw_inv ∅ [] demo_ide 0 0 (start_inv _ demo_start) demo_asks) as (s1 & E & _). exists s1. split; [done|].
  apply (ide_safe 0 demo_ide s1 (∅ ∖ {[0%nat]})); [apply demo_start|].
  apply (run_step _ 0 0 _ (s1, ∅ ∖ {[0%nat]})); [done|by eapply step_call, E; apply demo_asks|by apply run_refl].
Defined.

Lemma ide_in_order_witness : exists s1 qs, iderw 0 demo_ide = Switch s1 /\ chain (idequeue demo_ide) (id_qnext demo_ide) qs /\ (0 <= length qs)%nat.
Proof.
  destruct (iderw_queues 0 0 (demo_proc 1 RUNNING None) demo_buf ∅ [] demo_ide (start_inv _ demo_start)) as (s1 & E & [Ek _ _ _ _]); try done.
  { by right. }
  { by intros ?%elem_of_nil. }
  { vm_compute. lia. }
  exists s1. destruct (ide_in_order 0 0 demo_ide demo_ide ∅ 0 0 s1 (s1, ∅ ∖ {[0%nat]})) as (qs & Hq); [apply demo_start|by apply run_refl|apply demo_asks|done| |eauto].
  apply run_refl. exists demo_buf. cbn. by rewrite Ek.
Defined.

Lemma ide_memide_witness : exists k' s1, Bio.iderw 0 (id_k demo_ide) = Ret tt k' /\ iderw 0 demo_ide = Switch s1.
Proof.
  destruct (ide_memide demo_ide 0 0 demo_buf) as (k' & s1 & E & E' & _); [apply demo_start|apply demo_asks|done|done|done| |eauto].
  by intros n l [-> _]%lookup_replicate.
Defined.

(** A read that the drive reports as failed: the handler marks the buffer
    valid all the same, and its old bytes pass for the block. *)
Definition demo_read : ide ata := demo_ide <| id_k ::= fun k => k <| k_bcache ::= fun c => c <| bc_buf ::= <[0%nat := demo_buf <| b_flags := 0 |>]> |> |> |>.
Definition demo_failed : outcome (ide ata) unit :=
  let s1 := end_state demo_read (iderw 0 demo_read) in
  match ata_finish false (id_drive s1) with
  | Some d => ideintr (s1 <| id_k ::= fun k => k <| k_held := [] |> |> <| id_drive := d |>)
  | None => Fault
  end.

Lemma ide_error_ignored :
  match demo_failed with
  | Ret _ s => bufs (id_k s) !! 0%nat = Some (demo_buf <| b_flags := B_VALID |>) /\ media (id_drive s) 1 3 = zero_block
  | _ => False
  end.
Proof. vm_compute. split; reflexivity. Qed.
