(* ===== verification/LogSpec.v ===== *)
(** The log makes a transaction atomic with respect to crashes.  [commit] is
    run to its end and its disk writes are listed; a crash leaves a prefix of
    them on the disk, and [recover_from_log], run on a rebooted machine,
    turns every such disk into the one before the transaction or the one
    after it. *)
From stdpp Require Import functions.
From S2P Require Import Prelude Kstate Demo Mem MemSpec Sched Sleeplock Bio BioSpec Log.

(** * The file system's view of the machine *)

(** [cache] together with the disk, the history of its writes and the log. *)
Record fsys (pid : Z) (H : list (nat * Z)) (P : gset Z) (V : Z -> list Z)
    (D : list (list Z)) (T : list (Z * list Z)) (L : log) (s : kstate) : Prop := mkFsys {
  f_cache : cache pid H P V s;
  f_disk : k_disk s = D;
  f_trace : k_dwrites s = T;
  f_log : k_log s = L;
}.

Section Rules.
Context (pid : Z) (H : list (nat * Z)) (P : gset Z) (V : Z -> list Z).
Context (D : list (list Z)) (T : list (Z * list Z)) (L : log) (s : kstate).
Context (F : fsys pid H P V D T L s).

Lemma core_log s' : bio_core s' = bio_core s -> k_log s' = k_log s.
Proof. unfold bio_core. congruence. Qed.

Lemma fs_bread n :
  0 <= n < Z.of_nat (length D) -> n ∉ H.*2 -> n ∈ P \/ (size P + length H < NBUF)%nat ->
  returns (bread 1 n) s (fun b => fsys pid ((b, n) :: H) P V D T L).
Proof.
  destruct F as [C <- <- <-]. intros Hn HH Hsz.
  destruct (bread_spec _ _ _ _ _ C n Hn HH Hsz) as (b & s' & E & C' & ED & ET & Ec).
  exists b, s'. split; [done|]. split; [done..|]. by apply core_log.
Qed.

Lemma fs_buf_data b n :
  (b, n) ∈ H -> returns (buf_data b) s (fun l s' => l = V n /\ s' = s).
Proof.
  intros Hb. destruct (cache_get _ _ _ _ _ (f_cache _ _ _ _ _ _ _ _ F) b n Hb)
    as (x & Hx & _ & _ & _ & _ & Hd & _).
  exists (V n), s. split; [|done]. unfold buf_data. rewrite (bind_get_buf b x) by done.
  by rewrite Hd.
Qed.

Lemma fs_set_data b n l :
  (b, n) ∈ H -> returns (set_buf_data b l) s (fun _ => fsys pid H P (<[n := l]> V) D T L).
Proof.
  destruct F as [C <- <- <-]. intros Hb.
  destruct (set_data_spec _ _ _ _ _ C b n l Hb) as (s' & E & C' & ED & ET & Ec).
  exists tt, s'. split; [done|]. split; [done..|]. by apply core_log.
Qed.

Lemma fs_bwrite b n :
  (b, n) ∈ H ->
  returns (bwrite b) s (fun _ => fsys pid H (P ∖ {[n]}) V (<[Z.to_nat n := V n]> D)
                                   ((n, V n) :: T) L).
Proof.
  destruct F as [C <- <- <-]. intros Hb.
  destruct (bwrite_spec _ _ _ _ _ C b n Hb) as (s' & E & C' & ED & ET & Ec).
  exists tt, s'. split; [done|]. split; [done..|]. by apply core_log.
Qed.

Lemma fs_brelse b n H' :
  H ≡ₚ (b, n) :: H' -> n ∈ P \/ D !! Z.to_nat n = Some (V n) ->
  returns (brelse b) s (fun _ => fsys pid H' P V D T L).
Proof.
  destruct F as [C <- <- <-]. intros HH Hn.
  destruct (brelse_spec _ _ _ _ _ C b n H' HH Hn) as (s' & E & C' & ED & ET & Ec).
  exists tt, s'. split; [done|]. split; [done..|]. by apply core_log.
Qed.

Lemma fs_upd_log f : returns (upd_log f) s (fun _ => fsys pid H P V D T (f L)).
Proof.
  destruct F as [C <- <- <-]. exists tt, (s <| k_log ::= f |>). split; [done|].
  split; [|done..]. by destruct C.
Qed.

Lemma fs_log_blockno i b :
  lg_block L !! i = Some b -> returns (log_blockno i) s (fun x s' => x = b /\ s' = s).
Proof.
  intros Hb. exists b, s. split; [|done]. unfold log_blockno. mrun.
  by rewrite (f_log _ _ _ _ _ _ _ _ F), Hb.
Qed.

Lemma fs_view V' :
  (forall n, 0 <= n < Z.of_nat (length D) -> V' n = V n) -> fsys pid H P V' D T L s.
Proof.
  destruct F as [C <- <- <-]. intros HV. split; [|done..]. by apply (cache_view _ _ _ V).
Qed.
End Rules.

(** * Sequences of block writes *)

Definition apply_writes (D : list (list Z)) (W : list (Z * list Z)) : list (list Z) :=
  foldl (fun D w => <[Z.to_nat w.1 := w.2]> D) D W.
Definition view_writes (V : Z -> list Z) (W : list (Z * list Z)) : Z -> list Z :=
  foldl (fun V w => <[w.1 := w.2]> V) V W.

Lemma length_apply_writes D W : length (apply_writes D W) = length D.
Proof.
  revert D. induction W as [|w W IH]; intros D; [done|]. cbn. rewrite IH. apply length_insert.
Qed.

Lemma apply_writes_other D W m :
  0 <= m -> (forall w, w ∈ W -> 0 <= w.1 /\ w.1 <> m) ->
  apply_writes D W !! Z.to_nat m = D !! Z.to_nat m.
Proof.
  intros Hm. revert D. induction W as [|w W IH]; intros D HW; [done|]. cbn.
  rewrite IH by (intros; apply HW; by right). destruct (HW w) as [? ?]; [left|].
  apply list_lookup_insert_ne. lia.
Qed.
Lemma view_writes_other V W m :
  (forall w, w ∈ W -> w.1 <> m) -> view_writes V W m = V m.
Proof.
  revert V. induction W as [|w W IH]; intros V HW; [done|]. cbn.
  rewrite IH by (intros; apply HW; by right). apply fn_lookup_insert_ne. apply HW. left.
Qed.

Lemma apply_writes_in D W m x :
  0 <= m < Z.of_nat (length D) -> (m, x) ∈ W -> NoDup W.*1 -> (forall w, w ∈ W -> 0 <= w.1) ->
  apply_writes D W !! Z.to_nat m = Some x.
Proof.
  intros Hm. revert D Hm. induction W as [|w W IH]; intros D Hm Hin Hnd Hpos.
  { by apply elem_of_nil in Hin. }
  cbn in Hnd |- *. apply NoDup_cons in Hnd as [Hw Hnd].
  apply elem_of_cons in Hin as [<-|Hin].
  - cbn in *. rewrite apply_writes_other; [apply list_lookup_insert_eq; lia|lia|].
    intros v Hv. split; [apply Hpos; by right|]. intros <-. apply Hw.
    by apply list_elem_of_fmap_2.
  - apply IH; [by rewrite length_insert|done|done|]. intros v Hv. apply Hpos. by right.
Qed.

Lemma view_writes_in V W m x : (m, x) ∈ W -> NoDup W.*1 -> view_writes V W m = x.
Proof.
  revert V. induction W as [|w W IH]; intros V Hin Hnd; [by apply elem_of_nil in Hin|].
  cbn in Hnd |- *. apply NoDup_cons in Hnd as [Hw Hnd].
  apply elem_of_cons in Hin as [<-|Hin]; [|by apply IH].
  cbn in *. rewrite view_writes_other; [by rewrite fn_lookup_insert|].
  intros v Hv <-. apply Hw. by apply list_elem_of_fmap_2.
Qed.

Lemma apply_writes_app D W W' : apply_writes D (W ++ W') = apply_writes (apply_writes D W) W'.
Proof. apply foldl_app. Qed.
Lemma view_writes_app V W W' : view_writes V (W ++ W') = view_writes (view_writes V W) W'.
Proof. apply foldl_app. Qed.

(** * Writing the log *)

(** The log covers blocks [start .. start+size-1]: the header, then the
    copies of the [n] blocks [bs], which lie elsewhere. *)
Definition in_log (L : log) (m : Z) : Prop := lg_start L <= m < lg_start L + lg_size L.

Record log_ok (L : log) (nd : nat) (bs : list Z) : Prop := mkLogOk {
  lo_dev : lg_dev L = 1;
  lo_start : 1 < lg_start L;
  lo_fit : lg_start L + lg_size L <= Z.of_nat nd;
  lo_width : Z.of_nat nd < 2 ^ 31;
  lo_size : lg_size L <= LOGSIZE;
  lo_len : length (lg_block L) = Z.to_nat LOGSIZE;
  lo_n : lg_n L = Z.of_nat (length bs);
  lo_room : Z.of_nat (length bs) <= lg_size L - 1;
  lo_blocks : forall i b, bs !! i = Some b -> lg_block L !! i = Some b;
  lo_nodup : NoDup bs;
  lo_home : forall b, b ∈ bs -> 0 <= b < Z.of_nat nd /\ ~ in_log L b;
}.

(** The writes of [write_log]: block [i] of the log becomes a copy of [bs[i]]. *)
Definition log_copies (L : log) (V : Z -> list Z) (bs : list Z) : list (Z * list Z) :=
  imap (fun i b => (lg_start L + Z.of_nat i + 1, V b)) bs.

Lemma log_copies_lookup L V bs i :
  log_copies L V bs !! i = (fun b => (lg_start L + Z.of_nat i + 1, V b)) <$> bs !! i.
Proof. apply list_lookup_imap. Qed.

Lemma log_copies_in L nd V bs w :
  log_ok L nd bs -> w ∈ log_copies L V bs ->
  exists i b, bs !! i = Some b /\ w = (lg_start L + Z.of_nat i + 1, V b) /\ in_log L w.1 /\
    lg_start L < w.1 /\ w.1 < Z.of_nat nd.
Proof.
  intros Hok [i Hi]%list_elem_of_lookup. rewrite log_copies_lookup in Hi.
  apply fmap_Some in Hi as (b & Hb & ->). exists i, b. split; [done|]. split; [done|].
  apply lookup_lt_Some in Hb. destruct Hok. unfold in_log. cbn. lia.
Qed.

Lemma log_ok_size L nd bs : log_ok L nd bs -> (size (list_to_set bs : gset Z) < NBUF)%nat.
Proof.
  intros [? ? ? ? Hs ? ? Hr ? Hnd ?]. rewrite size_list_to_set by done.
  change LOGSIZE with 30 in Hs. change NBUF with 30%nat. lia.
Qed.

(** One turn of [write_log]: block [b], pinned in memory, is copied to [m]. *)
Lemma fs_log_copy pid P V D T L s i b m :
  fsys pid [] P V D T L s -> lg_block L !! i = Some b -> b ∈ P -> m ∉ P ->
  0 <= b < Z.of_nat (length D) -> 0 <= m < Z.of_nat (length D) -> (size P < NBUF)%nat ->
  returns (to <- bread 1 m;;
           bno <- log_blockno i;;
           from <- bread 1 bno;;
           l <- buf_data from;;
           set_buf_data to l;;;
           bwrite to;;;
           brelse from;;;
           brelse to) s
    (fun _ => fsys pid [] P (<[m := V b]> V) (<[Z.to_nat m := V b]> D) ((m, V b) :: T) L).
Proof.
  intros F Hi HbP HmP Hb Hm Hsz. assert (Hbm : b <> m) by set_solver.
  eapply returns_bind.
  { apply (fs_bread _ _ _ _ _ _ _ _ F); [done|set_solver|right; cbn; lia]. }
  clear s F. intros to s F. eapply returns_bind; [by apply (fs_log_blockno _ _ _ _ _ _ _ _ F)|].
  intros bno s1 [-> ->]. eapply returns_bind.
  { apply (fs_bread _ _ _ _ _ _ _ _ F); [done|set_solver|by left]. }
  clear s F. intros from s F.
  eapply returns_bind; [apply (fs_buf_data _ _ _ _ _ _ _ _ F from b); left|].
  intros l s1 [-> ->].
  eapply returns_bind; [apply (fs_set_data _ _ _ _ _ _ _ _ F to m); right; left|].
  clear s F. intros [] s F.
  eapply returns_bind; [apply (fs_bwrite _ _ _ _ _ _ _ _ F to m); right; left|].
  clear s F. intros [] s F. rewrite fn_lookup_insert in F.
  replace (P ∖ {[m]}) with P in F by set_solver.
  eapply returns_bind.
  { apply (fs_brelse _ _ _ _ _ _ _ _ F from b [(to, m)]); [done|by left]. }
  clear s F. intros [] s F.
  apply (fs_brelse _ _ _ _ _ _ _ _ F to m []); [done|right].
  rewrite fn_lookup_insert. apply list_lookup_insert_eq. lia.
Qed.

Lemma take_snoc {A} (l : list A) i x : l !! i = Some x -> take (S i) l = take i l ++ [x].
Proof. apply take_S_r. Qed.

Lemma fs_write_log pid V D T L bs s :
  log_ok L (length D) bs -> fsys pid [] (list_to_set bs) V D T L s ->
  returns write_log s (fun _ =>
    fsys pid [] (list_to_set bs) (view_writes V (log_copies L V bs))
      (apply_writes D (log_copies L V bs)) (rev (log_copies L V bs) ++ T) L).
Proof.
  intros Hok F. set (W := log_copies L V bs). set (P := list_to_set bs).
  assert (HlenW : length W = length bs) by (unfold W, log_copies; apply length_imap).
  unfold write_log. eapply returns_bind; [apply returns_gets|].
  intros n s0 [-> ->]. cbn [compose]. rewrite (f_log _ _ _ _ _ _ _ _ F).
  rewrite (lo_n _ _ _ Hok), Nat2Z.id, <- HlenW.
  eapply returns_mono;
    [apply (returns_forM (fun i => fsys pid [] P (view_writes V (take i W))
       (apply_writes D (take i W)) (rev (take i W) ++ T) L))|].
  - done.
  - clear s F. intros i s Hi F. rewrite HlenW in Hi.
    destruct (lookup_lt_is_Some_2 bs i Hi) as [b Hb].
    assert (HbP : b ∈ P) by (apply elem_of_list_to_set; by eapply list_elem_of_lookup_2).
    destruct (lo_home _ _ _ Hok b) as [Hrange Hnl]; [by eapply list_elem_of_lookup_2|].
    set (m := lg_start L + Z.of_nat i + 1).
    assert (HWi : W !! i = Some (m, V b)) by (unfold W; by rewrite log_copies_lookup, Hb).
    assert (Hm : in_log L m /\ m < Z.of_nat (length D) /\ 0 < m).
    { destruct Hok. unfold in_log, m. lia. }
    assert (HmP : m ∉ P).
    { intros Hin%elem_of_list_to_set. 
      destruct (lo_home _ _ _ Hok m Hin) as [_ Hno]. apply Hno, Hm. }
    assert (Hmb : b <> m) by (intros ->; apply Hnl, Hm).
    assert (Vb : view_writes V (take i W) b = V b).
    { apply view_writes_other. intros w Hw Hwb.
      eapply subseteq_take in Hw as Hw'. apply (log_copies_in L (length D)) in Hw'; [|done].
      destruct Hw' as (? & ? & _ & _ & Hl & _). rewrite Hwb in Hl. done. }
    eapply returns_bind; [apply returns_gets|]. intros lg s1 [-> ->].
    rewrite (f_log _ _ _ _ _ _ _ _ F), (lo_dev _ _ _ Hok). fold m.
    eapply returns_mono; [apply (fs_log_copy _ _ _ _ _ _ _ i b m F); try done|].
    + by apply (lo_blocks _ _ _ Hok).
    + by rewrite length_apply_writes.
    + rewrite length_apply_writes. lia.
    + by eapply log_ok_size.
    + intros [] s' F'. rewrite (take_snoc W i _ HWi), apply_writes_app, view_writes_app, rev_app_distr.
      cbn. by rewrite Vb in F'.
  - intros [] s'. by rewrite firstn_all.
Qed.

Lemma log_copies_nodup L V bs : NoDup (log_copies L V bs).*1.
Proof.
  apply NoDup_alt. intros i j x. rewrite !list_lookup_fmap, !log_copies_lookup.
  destruct (bs !! i), (bs !! j); cbn; try done. intros [= <-] [= ?]. lia.
Qed.

(** * The header block *)

(** Word [i+1] of the header is the number of the [i]th block. *)
Definition head_entries (k : nat) (bs : list Z) : list (Z * Z) :=
  imap (fun i b => (4 + 4 * Z.of_nat (k + i), b)) bs.
Definition put_entries (l : list Z) (E : list (Z * Z)) : list Z :=
  foldl (fun l w => splice l w.1 (le32 w.2)) l E.
(** The block [l] with a header for [bs] written over it. *)
Definition head_block (l : list Z) (bs : list Z) : list Z :=
  put_entries (splice l 0 (le32 (Z.of_nat (length bs)))) (head_entries 0 bs).

Lemma head_entries_cons k b bs :
  head_entries k (b :: bs) = (4 + 4 * Z.of_nat k, b) :: head_entries (S k) bs.
Proof.
  unfold head_entries. cbn. rewrite Nat.add_0_r. f_equal. apply imap_ext. intros i x _. cbn.
  by rewrite Nat.add_succ_r.
Qed.

Lemma put_entries_facts k bs l :
  4 + 4 * Z.of_nat (k + length bs) <= Z.of_nat (length l) ->
  length (put_entries l (head_entries k bs)) = length l /\
  (forall j, 0 <= j -> j + 4 <= 4 + 4 * Z.of_nat k ->
     get32 (put_entries l (head_entries k bs)) j = get32 l j) /\
  (forall i b, bs !! i = Some b ->
     get32 (put_entries l (head_entries k bs)) (4 + 4 * Z.of_nat (k + i)) = u32 b).
Proof.
  revert k l. induction bs as [|b bs IH]; intros k l Hl; [by cbn|].
  rewrite head_entries_cons. cbn [length] in Hl.
  change (put_entries l (_ :: head_entries (S k) bs))
    with (put_entries (splice l (4 + 4 * Z.of_nat k) (le32 b)) (head_entries (S k) bs)).
  assert (Hls : length (splice l (4 + 4 * Z.of_nat k) (le32 b)) = length l)
    by (apply length_splice; cbn; lia).
  destruct (IH (S k) (splice l (4 + 4 * Z.of_nat k) (le32 b))) as (H1 & H2 & H3); [rewrite Hls; lia|].
  split; [congruence|]. split.
  - intros j Hj1 Hj2. rewrite H2 by lia. apply get32_splice_ne; cbn; lia.
  - intros [|i] c Hc.
    + injection Hc as ->. rewrite Nat.add_0_r, H2 by lia. apply get32_splice_eq; lia.
    + rewrite <- (H3 i c Hc). do 2 f_equal. lia.
Qed.

(** What [read_head] finds in a header. *)
Lemma head_block_facts l bs :
  length l = Z.to_nat BSIZE -> Z.of_nat (length bs) <= LOGSIZE ->
  length (head_block l bs) = Z.to_nat BSIZE /\
  get32 (head_block l bs) 0 = Z.of_nat (length bs) /\
  forall i b, bs !! i = Some b -> get32 (head_block l bs) (4 + 4 * Z.of_nat i) = u32 b.
Proof.
  change LOGSIZE with 30. intros Hl Hn.
  assert (HB : Z.of_nat (length l) = 512) by by rewrite Hl.
  unfold head_block. set (l0 := splice l 0 _).
  assert (Hl0 : length l0 = length l) by (apply length_splice; cbn; lia).
  destruct (put_entries_facts 0 bs l0) as (H1 & H2 & H3); [lia|].
  split; [congruence|]. split; [|done].
  rewrite H2 by lia. unfold l0. rewrite get32_splice_eq by lia.
  unfold u32. rewrite Z.mod_small; lia.
Qed.

Lemma fs_write_head pid P V D T L bs s :
  log_ok L (length D) bs -> fsys pid [] P V D T L s -> lg_start L ∉ P -> (size P < NBUF)%nat ->
  returns write_head s (fun _ =>
    let h := head_block (V (lg_start L)) bs in
    fsys pid [] P (<[lg_start L := h]> V) (<[Z.to_nat (lg_start L) := h]> D)
      ((lg_start L, h) :: T) L).
Proof.
  intros Hok F HP Hsz. set (st := lg_start L).
  assert (Hst : 0 <= st < Z.of_nat (length D)).
  { destruct Hok. unfold st. lia. }
  unfold write_head. eapply returns_bind; [apply returns_gets|]. intros lg s0 [-> ->].
  rewrite (f_log _ _ _ _ _ _ _ _ F), (lo_dev _ _ _ Hok). fold st.
  eapply returns_bind.
  { apply (fs_bread _ _ _ _ _ _ _ _ F); [done|set_solver|right; cbn; lia]. }
  clear s F. intros b s F.
  eapply returns_bind; [apply (fs_buf_data _ _ _ _ _ _ _ _ F b st); left|]. intros l s0 [-> ->].
  eapply returns_bind; [apply (fs_set_data _ _ _ _ _ _ _ _ F b st); left|].
  clear s F. intros [] s F. rewrite (lo_n _ _ _ Hok), Nat2Z.id in *.
  set (l0 := splice (V st) 0 _) in *. set (E := head_entries 0 bs).
  assert (HE : length E = length bs) by apply length_imap.
  eapply returns_bind.
  { rewrite <- HE. apply (returns_forM (fun i => fsys pid [(b, st)] P
      (<[st := put_entries l0 (take i E)]> V) D T L)); [done|].
    clear s F. intros i s Hi F. rewrite HE in Hi.
    destruct (lookup_lt_is_Some_2 bs i Hi) as [x Hx].
    assert (HEi : E !! i = Some (4 + 4 * Z.of_nat i, x)).
    { unfold E, head_entries. by rewrite list_lookup_imap, Hx. }
    eapply returns_bind.
    { apply (fs_log_blockno _ _ _ _ _ _ _ _ F). by apply (lo_blocks _ _ _ Hok). }
    intros bno s0 [-> ->].
    eapply returns_bind; [apply (fs_buf_data _ _ _ _ _ _ _ _ F b st); left|]. intros l s0 [-> ->].
    eapply returns_mono; [apply (fs_set_data _ _ _ _ _ _ _ _ F b st); left|].
    intros [] s' F'. rewrite fn_lookup_insert in F'.
    rewrite (take_snoc E i _ HEi). unfold put_entries. rewrite foldl_app. cbn.
    eapply fs_view; [exact F'|]. intros n _. destruct (decide (n = st)) as [->|Hn].
    - by rewrite !fn_lookup_insert.
    - by rewrite !fn_lookup_insert_ne. }
  clear s F. intros [] s F. rewrite firstn_all in F.
  eapply returns_bind; [apply (fs_bwrite _ _ _ _ _ _ _ _ F b st); left|].
  clear s F. intros [] s F. rewrite fn_lookup_insert in F.
  replace (P ∖ {[st]}) with P in F by set_solver.
  apply (fs_brelse _ _ _ _ _ _ _ _ F b st []); [done|right].
  rewrite fn_lookup_insert. apply list_lookup_insert_eq. lia.
Qed.

(** * Installing the log *)

(** One turn of [install_trans]: block [m] of the log is copied to [b]. *)
Lemma fs_install pid P V D T L s i b m :
  fsys pid [] P V D T L s -> lg_block L !! i = Some b -> m ∉ P -> m <> b ->
  0 <= b < Z.of_nat (length D) -> 0 <= m < Z.of_nat (length D) ->
  (size P < NBUF)%nat -> b ∈ P \/ (size P + 1 < NBUF)%nat ->
  returns (lbuf <- bread 1 m;;
           bno <- log_blockno i;;
           dbuf <- bread 1 bno;;
           l <- buf_data lbuf;;
           set_buf_data dbuf l;;;
           bwrite dbuf;;;
           brelse lbuf;;;
           brelse dbuf) s
    (fun _ => fsys pid [] (P ∖ {[b]}) (<[b := V m]> V) (<[Z.to_nat b := V m]> D) ((b, V m) :: T) L).
Proof.
  intros F Hi HmP Hmb Hb Hm Hsz Hsz2.
  assert (HDm : D !! Z.to_nat m = Some (V m)).
  { pose proof (c_clean _ _ _ _ _ (f_cache _ _ _ _ _ _ _ _ F) m) as Hc.
    rewrite (f_disk _ _ _ _ _ _ _ _ F) in Hc. apply Hc; [done|done|set_solver]. }
  eapply returns_bind.
  { apply (fs_bread _ _ _ _ _ _ _ _ F); [done|set_solver|right; cbn; lia]. }
  clear s F. intros lbuf s F. eapply returns_bind; [by apply (fs_log_blockno _ _ _ _ _ _ _ _ F)|].
  intros bno s1 [-> ->]. eapply returns_bind.
  { apply (fs_bread _ _ _ _ _ _ _ _ F); [done|set_solver|by cbn]. }
  clear s F. intros dbuf s F.
  eapply returns_bind; [apply (fs_buf_data _ _ _ _ _ _ _ _ F lbuf m); right; left|].
  intros l s1 [-> ->].
  eapply returns_bind; [apply (fs_set_data _ _ _ _ _ _ _ _ F dbuf b); left|].
  clear s F. intros [] s F.
  eapply returns_bind; [apply (fs_bwrite _ _ _ _ _ _ _ _ F dbuf b); left|].
  clear s F. intros [] s F. rewrite fn_lookup_insert in F.
  eapply returns_bind.
  { apply (fs_brelse _ _ _ _ _ _ _ _ F lbuf m [(dbuf, b)]); [by rewrite perm_swap|right].
    rewrite fn_lookup_insert_ne, list_lookup_insert_ne by (done || lia). done. }
  clear s F. intros [] s F.
  apply (fs_brelse _ _ _ _ _ _ _ _ F dbuf b []); [done|right].
  rewrite fn_lookup_insert. apply list_lookup_insert_eq. lia.
Qed.

(** The writes of [install_trans]. *)
Definition installs (L : log) (V : Z -> list Z) (bs : list Z) : list (Z * list Z) :=
  imap (fun i b => (b, V (lg_start L + Z.of_nat i + 1))) bs.

Lemma installs_lookup L V bs i :
  installs L V bs !! i = (fun b => (b, V (lg_start L + Z.of_nat i + 1))) <$> bs !! i.
Proof. apply list_lookup_imap. Qed.
Lemma installs_fst L V bs : (installs L V bs).*1 = bs.
Proof.
  apply list_eq. intros i. rewrite list_lookup_fmap, installs_lookup. by destruct (bs !! i).
Qed.

Lemma fs_install_trans pid P V D T L bs s :
  log_ok L (length D) bs -> fsys pid [] P V D T L s ->
  (forall m, in_log L m -> m ∉ P) -> (P = list_to_set bs \/ P = ∅) ->
  returns install_trans s (fun _ =>
    fsys pid [] ∅ (view_writes V (installs L V bs))
      (apply_writes D (installs L V bs)) (rev (installs L V bs) ++ T) L).
Proof.
  intros Hok F HP HPb. set (W := installs L V bs).
  assert (HlenW : length W = length bs) by (unfold W, installs; apply length_imap).
  assert (Hsz : (size P < NBUF)%nat).
  { destruct HPb as [-> | ->]; [by eapply log_ok_size|]. rewrite size_empty. vm_compute. lia. }
  unfold install_trans. eapply returns_bind; [apply returns_gets|].
  intros n s0 [-> ->]. cbn [compose]. rewrite (f_log _ _ _ _ _ _ _ _ F).
  rewrite (lo_n _ _ _ Hok), Nat2Z.id, <- HlenW.
  eapply returns_mono;
    [apply (returns_forM (fun i => fsys pid [] (P ∖ list_to_set (take i bs))
       (view_writes V (take i W)) (apply_writes D (take i W)) (rev (take i W) ++ T) L))|].
  - assert (E : P ∖ list_to_set (take 0 bs) = P) by (rewrite take_0; set_solver). by rewrite E.
  - clear s F. intros i s Hi F. rewrite HlenW in Hi.
    destruct (lookup_lt_is_Some_2 bs i Hi) as [b Hb].
    destruct (lo_home _ _ _ Hok b) as [Hrange Hnl]; [by eapply list_elem_of_lookup_2|].
    set (m := lg_start L + Z.of_nat i + 1).
    assert (HWi : W !! i = Some (b, V m)) by (unfold W; by rewrite installs_lookup, Hb).
    assert (Hm : in_log L m /\ m < Z.of_nat (length D) /\ 0 < m).
    { destruct Hok. unfold in_log, m. lia. }
    assert (Vm : view_writes V (take i W) m = V m).
    { apply view_writes_other. intros w Hw Hwm. eapply subseteq_take in Hw.
      assert (Hw1 : w.1 ∈ bs) by (rewrite <- (installs_fst L V bs); by apply list_elem_of_fmap_2).
      rewrite Hwm in Hw1. apply (lo_home _ _ _ Hok) in Hw1 as [_ Hw1]. by apply Hw1, Hm. }
    eapply returns_bind; [apply returns_gets|]. intros lg s1 [-> ->].
    rewrite (f_log _ _ _ _ _ _ _ _ F), (lo_dev _ _ _ Hok). fold m.
    assert (Hsub : (size (P ∖ list_to_set (take i bs)) <= size P)%nat)
      by (apply subseteq_size; set_solver).
    eapply returns_mono; [apply (fs_install _ _ _ _ _ _ _ i b m F)|].
    + by apply (lo_blocks _ _ _ Hok).
    + intros Hin%elem_of_difference. by apply (HP m); [apply Hm|apply Hin].
    + intros <-. by apply Hnl, Hm.
    + by rewrite length_apply_writes.
    + rewrite length_apply_writes. lia.
    + lia.
    + destruct HPb as [->| ->].
      * left. apply elem_of_difference. rewrite !elem_of_list_to_set.
        split; [by eapply list_elem_of_lookup_2|]. intros (j & Hj)%list_elem_of_lookup.
        apply lookup_take_Some in Hj as [Hj Hji].
        pose proof (NoDup_lookup _ _ _ _ (lo_nodup _ _ _ Hok) Hb Hj). lia.
      * right. replace (∅ ∖ _) with (∅ : gset Z) by set_solver. rewrite size_empty. vm_compute. lia.
    + intros [] s' F'. rewrite (take_snoc W i _ HWi), apply_writes_app, view_writes_app, rev_app_distr.
      rewrite (take_snoc bs i _ Hb), list_to_set_app_L. cbn. rewrite Vm in F'.
      by replace (P ∖ (list_to_set (take i bs) ∪ ({[b]} ∪ ∅)))
        with (P ∖ list_to_set (take i bs) ∖ {[b]}) by set_solver.
  - intros [] s' F'. rewrite HlenW in F'. rewrite <- HlenW, !firstn_all in F'.
    rewrite HlenW, firstn_all in F'.
    replace (P ∖ list_to_set bs) with (∅ : gset Z) in F' by (destruct HPb as [->| ->]; set_solver).
    done.
Qed.

(** * Commit *)

(** The disk writes of [commit], in order: the copies in the log, the header
    that commits them, the blocks themselves, and the empty header. *)
Definition commit_writes (L : log) (V : Z -> list Z) (bs : list Z) : list (Z * list Z) :=
  let h := head_block (V (lg_start L)) bs in
  log_copies L V bs ++ [(lg_start L, h)] ++ ((fun b => (b, V b)) <$> bs)
    ++ [(lg_start L, head_block h [])].

Lemma log_copies_view L nd V bs i b :
  log_ok L nd bs -> bs !! i = Some b ->
  view_writes V (log_copies L V bs) (lg_start L + Z.of_nat i + 1) = V b.
Proof.
  intros Hok Hi. set (m := lg_start L + Z.of_nat i + 1).
  assert (HWi : log_copies L V bs !! i = Some (m, V b)) by by rewrite log_copies_lookup, Hi.
  rewrite <- (take_drop_middle _ _ _ HWi), view_writes_app. cbn.
  rewrite view_writes_other; [by rewrite fn_lookup_insert|].
  intros w (j & Hj)%list_elem_of_lookup. rewrite lookup_drop, log_copies_lookup in Hj.
  apply fmap_Some in Hj as (c & _ & ->). cbn. unfold m. lia.
Qed.

(** The contents after [commit]: copies and header in the log, the blocks at
    their places. *)
Definition commit_view (L : log) (V : Z -> list Z) (bs : list Z) : Z -> list Z :=
  let st := lg_start L in let h := head_block (V st) bs in
  <[st := head_block h []]>
    (view_writes (<[st := h]> (view_writes V (log_copies L V bs))) ((fun b => (b, V b)) <$> bs)).

Lemma commit_view_outside L nd V bs m :
  log_ok L nd bs -> in_log L (lg_start L) -> ~ in_log L m -> commit_view L V bs m = V m.
Proof.
  intros Hok Hst Hm. unfold commit_view. cbv zeta. rewrite fn_lookup_insert_ne by (intros <-; by apply Hm).
  destruct (decide (m ∈ bs)) as [Hin|Hin].
  - apply view_writes_in; [by apply (list_elem_of_fmap_2 (fun b => (b, V b)))|].
    rewrite <- list_fmap_compose, (list_fmap_ext _ id), list_fmap_id by done. apply Hok.
  - rewrite view_writes_other.
    2:{ intros w (b & -> & Hb)%list_elem_of_fmap. cbn. by intros ->. }
    rewrite fn_lookup_insert_ne by (intros <-; by apply Hm).
    apply view_writes_other. intros w Hw <-.
    apply (log_copies_in L nd) in Hw; [|done]. by destruct Hw as (? & ? & _ & _ & ? & _).
Qed.

Lemma view_writes_cases (P : list Z -> Prop) V W m :
  P (V m) -> (forall w, w ∈ W -> P w.2) -> P (view_writes V W m).
Proof.
  revert V. induction W as [|w W IH]; intros V HV HW; [done|]. cbn. apply IH; [|intros v Hv; apply HW; by right].
  destruct (decide (m = w.1)) as [->|Hne]; [rewrite fn_lookup_insert; apply HW; by left|by rewrite fn_lookup_insert_ne].
Qed.

Lemma commit_view_length L nd V bs m :
  log_ok L nd bs -> in_log L (lg_start L) -> (forall n, 0 <= n < Z.of_nat nd -> length (V n) = Z.to_nat BSIZE) ->
  0 <= m < Z.of_nat nd -> length (commit_view L V bs m) = Z.to_nat BSIZE.
Proof.
  intros Hok Hst HV Hm. unfold commit_view. cbv zeta.
  assert (Hbs : Z.of_nat (length bs) <= LOGSIZE) by (destruct Hok; lia).
  assert (Hh : length (head_block (V (lg_start L)) bs) = Z.to_nat BSIZE).
  { apply head_block_facts; [|done]. apply HV. destruct Hok. unfold in_log in Hst. lia. }
  destruct (decide (m = lg_start L)) as [->|Hne]; [rewrite fn_lookup_insert; by apply head_block_facts|].
  rewrite fn_lookup_insert_ne by done. apply (view_writes_cases (fun l => length l = Z.to_nat BSIZE)).
  - rewrite fn_lookup_insert_ne by done. apply (view_writes_cases (fun l => length l = Z.to_nat BSIZE)); [by apply HV|].
    intros w Hw. apply (log_copies_in L nd) in Hw as (i & b & Hb & -> & _); [|done]. cbn. apply HV, Hok.
    by eapply list_elem_of_lookup_2.
  - intros w (b & -> & Hb)%list_elem_of_fmap. cbn. by apply HV, Hok.
Qed.

Lemma fs_commit pid V D T L bs s :
  log_ok L (length D) bs -> bs <> [] -> length (V (lg_start L)) = Z.to_nat BSIZE ->
  fsys pid [] (list_to_set bs) V D T L s ->
  returns commit s (fun _ s' =>
    fsys pid [] ∅ (commit_view L V bs) (apply_writes D (commit_writes L V bs))
      (rev (commit_writes L V bs) ++ T) (L <| lg_n := 0 |>) s').
Proof.
  intros Hok Hne Hlen F. set (st := lg_start L). set (P := list_to_set bs : gset Z) in *.
  assert (Hst : in_log L st) by (destruct Hok, bs; [done|]; unfold in_log, st; cbn in *; lia).
  assert (HP : forall m, in_log L m -> m ∉ P).
  { intros m Hm Hin%elem_of_list_to_set. by apply (lo_home _ _ _ Hok) in Hin as [_ Hin]. }
  assert (Hsz : (size P < NBUF)%nat) by by eapply log_ok_size.
  set (W1 := log_copies L V bs). set (V1 := view_writes V W1).
  assert (V1st : V1 st = V st).
  { apply view_writes_other. intros w Hw. apply (log_copies_in L (length D)) in Hw; [|done].
    destruct Hw as (? & ? & _ & _ & _ & ? & _). unfold st. lia. }
  unfold commit. eapply returns_bind; [apply returns_gets|]. intros n s0 [-> ->].
  cbn [compose]. rewrite (f_log _ _ _ _ _ _ _ _ F), (lo_n _ _ _ Hok).
  rewrite (proj2 (Z.ltb_lt _ _)) by (destruct bs; [done|cbn; lia]). cbn [whenM].
  eapply returns_bind; [by apply (fs_write_log _ _ _ _ _ _ _ Hok F)|].
  fold W1 V1. clear s F. intros [] s F.
  set (h := head_block (V st) bs).
  eapply returns_bind.
  { eapply fs_write_head; [by rewrite length_apply_writes|exact F|by apply HP|done]. }
  fold st. cbv zeta. rewrite V1st. fold h. clear s F. intros [] s F.
  set (V2 := <[st := h]> V1) in *.
  assert (EW3 : installs L V2 bs = (fun b => (b, V b)) <$> bs).
  { apply list_eq. intros i. rewrite installs_lookup, list_lookup_fmap.
    destruct (bs !! i) as [b|] eqn:Hb; [|done]. cbn. do 2 f_equal. unfold V2.
    rewrite fn_lookup_insert_ne by (unfold st; lia). by apply (log_copies_view L (length D)). }
  eapply returns_bind.
  { eapply fs_install_trans; [by rewrite length_insert, length_apply_writes|exact F|done|by left]. }
  rewrite EW3. set (W3 := (fun b => (b, V b)) <$> bs). clear s F. intros [] s F.
  eapply returns_bind; [apply (fs_upd_log _ _ _ _ _ _ _ _ F)|]. clear s F. intros [] s F.
  assert (Hok0 : log_ok (L <| lg_n := 0 |>) (length D) []).
  { destruct Hok. split; try done; cbn; [lia|constructor|]. by intros b ?%elem_of_nil. }
  assert (V3st : view_writes V2 W3 st = h).
  { rewrite view_writes_other; [by unfold V2; rewrite fn_lookup_insert|].
    intros w (b & -> & Hb)%list_elem_of_fmap. cbn. intros ->.
    by apply (lo_home _ _ _ Hok) in Hb as [_ Hb]. }
  eapply returns_mono.
  { eapply fs_write_head; [|exact F|set_solver|rewrite size_empty; vm_compute; lia].
    by rewrite !length_apply_writes, length_insert, length_apply_writes. }
  clear s F. cbn [lg_start]. change (lg_start (L <| lg_n := 0 |>)) with st.
  cbv zeta. rewrite V3st. intros [] s F.
  unfold commit_writes. fold st h W1 W3.
  rewrite !apply_writes_app, !rev_app_distr. cbn [apply_writes foldl rev app fst snd].
  rewrite <- !app_assoc. exact F.
Qed.

(** * Recovery *)

(** The header block [l] announces the blocks [bs]. *)
Definition announces (l : list Z) (bs : list Z) : Prop :=
  get32 l 0 = Z.of_nat (length bs) /\ Z.of_nat (length bs) <= LOGSIZE /\
  forall i b, bs !! i = Some b -> 0 <= b < 2 ^ 31 /\ get32 l (4 + 4 * Z.of_nat i) = b.


Lemma fs_set_log_block pid H P V D T L s i b :
  fsys pid H P V D T L s -> (i < length (lg_block L))%nat ->
  returns (set_log_block i b) s (fun _ => fsys pid H P V D T (L <| lg_block ::= <[i := b]> |>)).
Proof.
  intros F Hi. destruct (lookup_lt_is_Some_2 _ _ Hi) as [x Hx]. unfold set_log_block.
  eapply returns_bind; [by apply (fs_log_blockno _ _ _ _ _ _ _ _ F)|].
  intros _ s1 [_ ->]. by apply (fs_upd_log _ _ _ _ _ _ _ _ F).
Qed.

(** The log as [read_head] fills it. *)
Definition read_log (L : log) (bs : list Z) : log :=
  L <| lg_n := Z.of_nat (length bs) |> <| lg_block ::= fun old => bs ++ drop (length bs) old |>.

Lemma fs_read_head pid V D T L bs s :
  fsys pid [] ∅ V D T L s -> lg_dev L = 1 -> 0 <= lg_start L < Z.of_nat (length D) ->
  announces (V (lg_start L)) bs -> length (lg_block L) = Z.to_nat LOGSIZE ->
  returns read_head s (fun _ => fsys pid [] ∅ V D T (read_log L bs)).
Proof.
  intros F Hdev Hst (Hn & Hmax & Hbs) Hlen. set (st := lg_start L) in *.
  assert (HDst : D !! Z.to_nat st = Some (V st)).
  { pose proof (c_clean _ _ _ _ _ (f_cache _ _ _ _ _ _ _ _ F) st) as Hc.
    rewrite (f_disk _ _ _ _ _ _ _ _ F) in Hc. apply Hc; set_solver. }
  unfold read_head. eapply returns_bind; [apply returns_gets|]. intros lg s0 [-> ->].
  rewrite (f_log _ _ _ _ _ _ _ _ F), Hdev. fold st. eapply returns_bind.
  { apply (fs_bread _ _ _ _ _ _ _ _ F); [done|set_solver|right; rewrite size_empty; vm_compute; lia]. }
  clear s F. intros b s F.
  eapply returns_bind; [apply (fs_buf_data _ _ _ _ _ _ _ _ F b st); left|]. intros l s0 [-> ->].
  eapply returns_bind; [apply (fs_upd_log _ _ _ _ _ _ _ _ F)|]. clear s F. intros [] s F.
  eapply returns_bind; [apply returns_gets|]. intros n s0 [-> ->]. cbn [compose].
  rewrite (f_log _ _ _ _ _ _ _ _ F). cbn [lg_n]. change LOGSIZE with 30 in *.
  change (lg_n (L <| lg_n := s32 (get32 (V st) 0) |>)) with (s32 (get32 (V st) 0)).
  rewrite Hn, s32_id, Nat2Z.id in * by lia.
  eapply returns_bind.
  { apply (returns_forM (fun i => fsys pid [(b, st)] ∅ V D T
      (L <| lg_n := Z.of_nat (length bs) |>
         <| lg_block ::= fun old => take i bs ++ drop i old |>))); [by destruct L|].
    clear s F. intros i s Hi F. destruct (lookup_lt_is_Some_2 bs i Hi) as [x Hx].
    destruct (Hbs i x Hx) as [Hxr Hxv]. rewrite Hxv, s32_id by done.
    eapply returns_mono; [apply (fs_set_log_block _ _ _ _ _ _ _ _ i x F)|].
    - cbn. unfold upd. cbn. rewrite length_app, length_take, length_drop. lia.
    - intros [] s' F'. rewrite (take_snoc bs i x Hx).
      replace (L <| lg_n := _ |> <| lg_block ::= fun old => (take i bs ++ [x]) ++ drop (S i) old |>)
        with (L <| lg_n := Z.of_nat (length bs) |>
               <| lg_block ::= fun old => take i bs ++ drop i old |> <| lg_block ::= <[i := x]> |>);
        [done|].
      destruct (lookup_lt_is_Some_2 (lg_block L) i) as [y Hy]; [lia|].
      destruct L. unfold upd. cbn in *. f_equal.
      rewrite (drop_S _ _ _ Hy), insert_app_r_alt by (rewrite length_take; lia).
      rewrite length_take_le, Nat.sub_diag, <- app_assoc by lia. done. }
  clear s F. intros [] s F. rewrite firstn_all in F.
  apply (fs_brelse _ _ _ _ _ _ _ _ F b st []); [done|by right].
Qed.

(** The view after recovery: the blocks [bs] are installed, and the header
    announces none. *)
Definition recovered (L : log) (V : Z -> list Z) (bs : list Z) : list (Z * list Z) :=
  let W := installs L V bs in W ++ [(lg_start L, head_block (view_writes V W (lg_start L)) [])].

Lemma fs_recover pid V D T L bs s :
  fsys pid [] ∅ V D T L s -> log_ok (read_log L bs) (length D) bs ->
  announces (V (lg_start L)) bs -> length (lg_block L) = Z.to_nat LOGSIZE ->
  returns recover_from_log s (fun _ s' => let W := recovered L V bs in exists T',
    fsys pid [] ∅ (view_writes V W) (apply_writes D W) T' ((read_log L bs) <| lg_n := 0 |>) s').
Proof.
  intros F Hok Hann Hlen. set (st := lg_start L) in *.
  unfold recover_from_log. eapply returns_bind.
  { eapply fs_read_head; try done.
    - exact (lo_dev _ _ _ Hok).
    - destruct Hok as [_ Hs1 Hf _ _ _ _ Hr _ _ _]. cbn in *. unfold st in *.
      change (lg_start (read_log L bs)) with (lg_start L) in *.
      change (lg_size (read_log L bs)) with (lg_size L) in *. lia. }
  clear s F. intros [] s F. eapply returns_bind.
  { eapply fs_install_trans; [done|exact F|set_solver|by right]. }
  change (installs (read_log L bs) V bs) with (installs L V bs).
  clear s F. intros [] s F.
  eapply returns_bind; [apply (fs_upd_log _ _ _ _ _ _ _ _ F)|]. clear s F. intros [] s F.
  eapply returns_mono.
  { eapply (fs_write_head _ _ _ _ _ _ []);
      [|exact F|set_solver|rewrite size_empty; vm_compute; lia].
    rewrite length_apply_writes. destruct Hok as [? ? ? ? ? ? ? Hroom _ _ _].
    split; try done; [|constructor|by intros b ?%elem_of_nil].
    change (0 <= lg_size (read_log L bs) - 1). lia. }
  clear s F. intros [] s F. cbv zeta in F |- *. unfold recovered. rewrite apply_writes_app, view_writes_app. eexists. exact F.
Qed.

(** * Crashes *)

(** A disk as the kernel sees it after a reboot, when nothing is cached. *)
Definition disk_view (D : list (list Z)) (n : Z) : list Z := default [] (D !! Z.to_nat n).

(** The machine after boot: empty buffers, an unused log, process [pid] (the
    one that runs [forkret]) on the CPU. *)
Definition booted (pid : Z) (s : kstate) : Prop :=
  bufs s = replicate NBUF buf_zero /\ lru s ≡ₚ seq 0 NBUF /\ k_held s = [] /\ me pid s /\
  k_log s = log_zero.

Lemma booted_cache pid s : booted pid s -> cache pid [] ∅ (disk_view (k_disk s)) s.
Proof.
  intros (Hb & Ho & Hh & Hme & _).
  assert (Hz : forall b x, bufs s !! b = Some x -> x = buf_zero).
  { intros b x. rewrite Hb. by intros [-> _]%lookup_replicate. }
  split; try done.
  - by rewrite Hb, length_replicate.
  - intros b x ->%Hz. by left.
  - by intros b x ->%Hz _.
  - by intros b n ?%elem_of_nil.
  - constructor.
  - by intros b c x y ->%Hz _.
  - by intros b x ->%Hz.
  - intros n Hn _ _. unfold disk_view.
    destruct (lookup_lt_is_Some_2 (k_disk s) (Z.to_nat n)) as [x ->]; [lia|done].
Qed.

Section Crash.
Context (V : Z -> list Z) (D : list (list Z)) (L : log) (bs : list Z).
Context (Hok : log_ok L (length D) bs).
Context (Hclean : forall m, 0 <= m < Z.of_nat (length D) -> m ∉ bs -> D !! Z.to_nat m = Some (V m)).
Context (Hempty : announces (V (lg_start L)) []).
Context (Hhead : length (V (lg_start L)) = Z.to_nat BSIZE).

Let st := lg_start L.
Let h := head_block (V st) bs.

Lemma home_ranges b : b ∈ bs -> 0 <= b < Z.of_nat (length D) /\ b <> st /\ ~ in_log L b.
Proof.
  intros Hb. destruct (lo_home _ _ _ Hok b Hb) as [? Hl]. split; [done|]. split; [|done].
  intros ->. apply Hl. destruct Hok. unfold in_log, st. lia.
Qed.

Lemma st_range : in_log L st /\ 0 <= st < Z.of_nat (length D).
Proof. destruct Hok. unfold in_log, st. lia. Qed.

Lemma h_announces : announces h bs.
Proof.
  assert (Hmax : Z.of_nat (length bs) <= LOGSIZE) by (destruct Hok; lia).
  destruct (head_block_facts (V st) bs Hhead Hmax) as (_ & H0 & Hi).
  split; [done|]. split; [done|]. intros i b Hb. unfold h. rewrite (Hi i b Hb).
  assert (Hr : 0 <= b < 2 ^ 31).
  { apply list_elem_of_lookup_2, (lo_home _ _ _ Hok) in Hb as [Hb _].
    pose proof (lo_width _ _ _ Hok). lia. }
  split; [done|]. unfold u32. apply Z.mod_small. lia.
Qed.

Lemma h0_announces : announces (head_block h []) [].
Proof.
  assert (Hmax : Z.of_nat (length bs) <= LOGSIZE) by (destruct Hok; lia).
  destruct (head_block_facts (V st) bs Hhead Hmax) as (Hl & _).
  destruct (head_block_facts h []) as (_ & H0 & _); [done|done|]. split; [done|]. split; [done|].
  by intros i b.
Qed.

Let W1 := log_copies L V bs.
Let W3 := (fun b => (b, V b)) <$> bs.

Lemma W3_fst : W3.*1 = bs.
Proof. unfold W3. by rewrite <- list_fmap_compose, (list_fmap_ext _ id), list_fmap_id. Qed.

(** Writes to the log do not show outside it. *)
Lemma log_writes_outside D' W m :
  (forall w, w ∈ W -> w ∈ W1 \/ w.1 = st) -> 0 <= m -> ~ in_log L m ->
  apply_writes D' W !! Z.to_nat m = D' !! Z.to_nat m.
Proof.
  intros HW Hm Hl. apply apply_writes_other; [done|]. intros w Hw. destruct (HW w Hw) as [Hw1|Hw1].
  - apply (log_copies_in L (length D)) in Hw1 as (? & ? & _ & _ & Hin & ? & _); [|done].
    destruct st_range. split; [unfold st in *; lia|]. by intros <-.
  - destruct st_range. rewrite Hw1. split; [lia|]. by intros <-.
Qed.

(** After the blocks are installed the disk is the new one. *)
Lemma installed_outside D' W m :
  length D' = length D -> (forall m, 0 <= m -> ~ in_log L m -> m ∉ bs ->
    D' !! Z.to_nat m = D !! Z.to_nat m) ->
  (forall w, w ∈ W -> w.1 = st) ->
  0 <= m < Z.of_nat (length D) -> ~ in_log L m ->
  apply_writes D' (W3 ++ W) !! Z.to_nat m = Some (V m).
Proof.
  intros Hlen HD HW Hm Hl. rewrite apply_writes_app, log_writes_outside; [|auto|lia|done].
  destruct (decide (m ∈ bs)) as [Hin|Hin].
  - apply apply_writes_in; [by rewrite Hlen|by apply (list_elem_of_fmap_2 (fun b => (b, V b)))| |].
    + rewrite W3_fst. apply Hok.
    + intros w (b & -> & Hb)%list_elem_of_fmap. by apply home_ranges in Hb as [[? _] _].
  - rewrite apply_writes_other, HD, Hclean; try done; [lia|lia|].
    intros w (b & -> & Hb)%list_elem_of_fmap. cbn. split; [|by intros ->].
    by apply home_ranges in Hb as [[? _] _].
Qed.

(** The disk and header found after a crash, and the disk that installing
    what the header announces leads to. *)
Definition recovers_to (D' : list (list Z)) (new : bool) : Prop :=
  exists bs', (bs' = [] \/ bs' = bs) /\ announces (disk_view D' st) bs' /\
  forall h' m, 0 <= m < Z.of_nat (length D) -> ~ in_log L m ->
    apply_writes D' (installs L (disk_view D') bs' ++ [(st, h')]) !! Z.to_nat m =
      if new then Some (V m) else D !! Z.to_nat m.

(** Before the header is written. *)
Lemma crash_before W : (forall w, w ∈ W -> w ∈ W1) -> recovers_to (apply_writes D W) false.
Proof.
  intros HW. destruct st_range as [Hl Hr].
  assert (Hst : apply_writes D W !! Z.to_nat st = Some (V st)).
  { rewrite apply_writes_other, Hclean; try done; [|lia|].
    - intros Hin. by apply home_ranges in Hin as (_ & ? & _).
    - intros w Hw. apply HW in Hw.
      apply (log_copies_in L (length D)) in Hw as (? & ? & _ & _ & _ & ? & _); [|done].
      unfold st in *. lia. }
  exists []. split; [by left|]. split; [by unfold disk_view; rewrite Hst|].
  intros h' m Hm Hnl. cbn [installs imap app].
  rewrite log_writes_outside; [|set_solver|lia|done].
  rewrite log_writes_outside; [done| |lia|done]. auto.
Qed.

(** Between the two writes of the header. *)
Lemma crash_between W :
  W ⊆ W3 -> recovers_to (apply_writes D (W1 ++ [(st, h)] ++ W)) true.
Proof.
  intros HW. destruct st_range as [Hl Hr]. set (D' := apply_writes D _).
  assert (Hpos : forall w, w ∈ W -> 0 <= w.1 /\ w.1 <> st /\ ~ in_log L w.1).
  { intros w (b & -> & Hb)%HW%list_elem_of_fmap. cbn. by apply home_ranges in Hb as ([? _] & ? & ?). }
  assert (Hst : D' !! Z.to_nat st = Some h).
  { unfold D'. rewrite !apply_writes_app, apply_writes_other;
      [|lia|intros w Hw; by destruct (Hpos w Hw) as (? & ? & _)].
    cbn. apply list_lookup_insert_eq. rewrite length_apply_writes. lia. }
  assert (Hcopy : forall i b, bs !! i = Some b -> disk_view D' (st + Z.of_nat i + 1) = V b).
  { intros i b Hb. set (m := st + Z.of_nat i + 1). unfold disk_view.
    assert (HWi : (m, V b) ∈ W1).
    { apply list_elem_of_lookup. exists i. unfold W1. by rewrite log_copies_lookup, Hb. }
    pose proof (log_copies_in L (length D) V bs _ Hok HWi) as (_ & _ & _ & _ & Hml & Hgt & Hlt).
    cbn in Hml, Hgt, Hlt. unfold D'. rewrite !apply_writes_app, apply_writes_other.
    - cbn. rewrite list_lookup_insert_ne by (unfold st in *; lia).
      erewrite apply_writes_in; [done| |done| |].
      + unfold st in *. lia.
      + apply log_copies_nodup.
      + intros w Hw. apply (log_copies_in L (length D)) in Hw as (? & ? & _ & _ & _ & ? & _); [|done].
        unfold st in *. lia.
    - unfold st in *. lia.
    - intros w Hw. destruct (Hpos w Hw) as (? & _ & Hn). split; [done|]. by intros E; rewrite E in Hn. }
  exists bs. split; [by right|]. split; [unfold disk_view; rewrite Hst; apply h_announces|].
  intros h' m Hm Hnl.
  assert (EW3 : installs L (disk_view D') bs = W3).
  { apply list_eq. intros i. unfold W3. rewrite installs_lookup, list_lookup_fmap.
    destruct (bs !! i) as [b|] eqn:Hb; [|done]. cbn. do 2 f_equal. by apply Hcopy. }
  rewrite EW3. apply installed_outside; try done.
  - unfold D'. apply length_apply_writes.
  - intros j Hj Hjl Hjb. unfold D'. rewrite !apply_writes_app, apply_writes_other; [|done|].
    + rewrite <- apply_writes_app. apply log_writes_outside; [set_solver|done|done].
    + intros w Hw. destruct (Hpos w Hw) as (? & _ & _). split; [done|]. intros <-.
      apply HW, (list_elem_of_fmap_2 fst) in Hw. by rewrite W3_fst in Hw.
  - by intros w ->%list_elem_of_singleton.
Qed.

(** After the header is cleared. *)
Lemma crash_after : recovers_to (apply_writes D (commit_writes L V bs)) true.
Proof.
  destruct st_range as [Hl Hr]. unfold commit_writes. cbv zeta. fold st h W1 W3.
  set (D' := apply_writes D _).
  assert (Hst : D' !! Z.to_nat st = Some (head_block h [])).
  { unfold D'. rewrite !apply_writes_app. cbn. apply list_lookup_insert_eq.
    rewrite !length_apply_writes, length_insert, length_apply_writes. lia. }
  exists []. split; [by left|]. split; [unfold disk_view; rewrite Hst; apply h0_announces|].
  intros h' m Hm Hnl. cbn [installs imap app]. rewrite log_writes_outside; [|set_solver|lia|done].
  unfold D'. rewrite app_assoc, apply_writes_app. apply installed_outside; try done.
  - apply length_apply_writes.
  - intros j Hj Hjl _. apply log_writes_outside; [set_solver|done|done].
  - by intros w ->%list_elem_of_singleton.
Qed.

Lemma crash_cases k :
  recovers_to (apply_writes D (take k (commit_writes L V bs))) (length bs <? k)%nat.
Proof.
  assert (HlenW1 : length W1 = length bs) by apply length_imap.
  assert (HlenW3 : length W3 = length bs) by apply length_fmap.
  destruct (Nat.ltb_spec (length bs) k) as [Hk|Hk].
  - destruct (decide (k <= length bs + 1 + length bs)%nat) as [Hk2|Hk2].
    + replace (take k (commit_writes L V bs))
        with (W1 ++ [(st, h)] ++ take (k - length bs - 1) W3).
      { apply crash_between. apply subseteq_take. }
      unfold commit_writes. cbv zeta. fold st h W1 W3.
      rewrite take_app_ge, HlenW1 by lia. f_equal.
      destruct (k - length bs)%nat as [|j] eqn:Ej; [lia|]. cbn. f_equal.
      rewrite take_app_le by lia. f_equal. lia.
    + rewrite take_ge; [apply crash_after|]. unfold commit_writes. cbv zeta. fold st h W1 W3.
      rewrite !length_app. cbn. lia.
  - apply crash_before. unfold commit_writes. cbv zeta. fold st h W1 W3.
    rewrite take_app_le by lia. intros w. apply subseteq_take.
Qed.
End Crash.

(** ** Boot *)

Lemma fs_readsb pid V D T L s :
  fsys pid [] ∅ V D T L s -> 1 < Z.of_nat (length D) ->
  returns (readsb 1) s (fun sb s' => sb = decode_sb (V 1) /\ fsys pid [] ∅ V D T L s').
Proof.
  intros F Hd.
  assert (HD1 : D !! Z.to_nat 1 = Some (V 1)).
  { pose proof (c_clean _ _ _ _ _ (f_cache _ _ _ _ _ _ _ _ F) 1) as Hc.
    rewrite (f_disk _ _ _ _ _ _ _ _ F) in Hc. apply Hc; [lia|set_solver|set_solver]. }
  unfold readsb. eapply returns_bind.
  { apply (fs_bread _ _ _ _ _ _ _ _ F); [lia|set_solver|right; rewrite size_empty; vm_compute; lia]. }
  clear s F. intros b s F.
  eapply returns_bind; [apply (fs_buf_data _ _ _ _ _ _ _ _ F b 1); left|]. intros l s0 [-> ->].
  eapply returns_bind; [apply (fs_brelse _ _ _ _ _ _ _ _ F b 1 []); [done|by right]|].
  clear s F. intros [] s F. by apply returns_ret.
Qed.

(** The log after [initlog] has read the superblock. *)
Definition boot_log (L : log) : log :=
  log_zero <| lg_start := lg_start L |> <| lg_size := lg_size L |> <| lg_dev := 1 |>.

Lemma boot_log_ok L nd bs bs' :
  log_ok L nd bs -> bs' = [] \/ bs' = bs -> log_ok (read_log (boot_log L) bs') nd bs'.
Proof.
  intros [h1 h2 h3 h4 h5 h6 h7 h8 h9 h10 h11] Hb. change LOGSIZE with 30 in *.
  assert (Hl : (length bs' <= 30)%nat) by (destruct Hb as [-> | ->]; cbn; lia).
  split; try done.
  - cbn. unfold upd. cbn. rewrite length_app, length_drop, length_replicate.
    change (Z.to_nat LOGSIZE) with 30%nat. lia.
  - change (Z.of_nat (length bs') <= lg_size L - 1). destruct Hb as [-> | ->]; cbn; lia.
  - intros i b Hi. cbn. unfold upd. cbn. rewrite lookup_app_l; [done|by eapply lookup_lt_Some].
  - destruct Hb as [-> | ->]; [constructor|done].
  - destruct Hb as [-> | ->]; [by intros b ?%elem_of_nil|done].
Qed.

Lemma fs_initlog pid V D T L bs bs' s :
  fsys pid [] ∅ V D T log_zero s -> log_ok L (length D) bs -> bs' = [] \/ bs' = bs ->
  s32 (sb_logstart (decode_sb (V 1))) = lg_start L ->
  s32 (sb_nlog (decode_sb (V 1))) = lg_size L ->
  announces (V (lg_start L)) bs' ->
  returns (initlog 1) s (fun _ s' => let W := recovered L V bs' in exists T',
    fsys pid [] ∅ (view_writes V W) (apply_writes D W) T' ((read_log (boot_log L) bs') <| lg_n := 0 |>) s').
Proof.
  intros F Hok Hb Hs1 Hs2 Hann. unfold initlog.
  change (BSIZE <=? 4 + 4 * LOGSIZE) with false. cbv iota.
  eapply returns_bind.
  { apply (fs_readsb _ _ _ _ _ _ F). destruct Hok. lia. }
  clear s F. intros sb s [-> F]. rewrite Hs1, Hs2.
  eapply returns_bind; [apply (fs_upd_log _ _ _ _ _ _ _ _ F)|]. clear s F. intros [] s F.
  eapply (fs_recover _ _ _ _ (boot_log L)); [exact F| |done|done].
  by eapply boot_log_ok.
Qed.

(** C3: commits are atomic.  [commit] of a transaction that has changed the
    blocks [bs] in memory returns, and wherever its sequence [W] of disk
    writes is cut short by a crash, booting again from what is on the disk
    runs [initlog] to its end and leaves, outside the log area, exactly the
    disk before the transaction if the header had not been written, and
    exactly the disk with every change of the transaction if it had. *)
Theorem commit_crash_safe pid V L bs s :
  cache pid [] (list_to_set bs) V s -> k_log s = L ->
  log_ok L (length (k_disk s)) bs -> bs <> [] -> 1 ∉ bs ->
  announces (V (lg_start L)) [] -> length (V (lg_start L)) = Z.to_nat BSIZE ->
  s32 (sb_logstart (decode_sb (V 1))) = lg_start L ->
  s32 (sb_nlog (decode_sb (V 1))) = lg_size L ->
  exists s' W, commit s = Ret tt s' /\ k_dwrites s' = rev W ++ k_dwrites s /\
    k_disk s' = apply_writes (k_disk s) W /\ lg_n (k_log s') = 0 /\
    forall k pid0 s0, booted pid0 s0 -> k_disk s0 = apply_writes (k_disk s) (take k W) ->
      exists s1, initlog 1 s0 = Ret tt s1 /\ lg_n (k_log s1) = 0 /\
        forall m, 0 <= m < Z.of_nat (length (k_disk s)) -> ~ in_log L m ->
          k_disk s1 !! Z.to_nat m =
            if (length bs <? k)%nat then Some (V m) else k_disk s !! Z.to_nat m.
Proof.
  intros C HL Hok Hne H1 Hempty Hhead Hs1 Hs2.
  assert (Hclean : forall m, 0 <= m < Z.of_nat (length (k_disk s)) -> m ∉ bs ->
            k_disk s !! Z.to_nat m = Some (V m)).
  { intros m Hm Hb. apply C; [done| |set_solver]. by rewrite elem_of_list_to_set. }
  assert (F : fsys pid [] (list_to_set bs) V (k_disk s) (k_dwrites s) L s) by done.
  destruct (fs_commit _ _ _ _ _ _ _ Hok Hne Hhead F) as ([] & s' & E & F').
  exists s', (commit_writes L V bs). split; [done|].
  split; [apply F'|]. split; [apply F'|].
  split; [by rewrite (f_log _ _ _ _ _ _ _ _ F')|].
  intros k pid0 s0 Hboot Hd0.
  destruct (crash_cases V (k_disk s) L bs Hok Hclean Hempty Hhead k) as (bs' & Hb & Hann & Hfin).
  set (D' := apply_writes (k_disk s) (take k (commit_writes L V bs))) in *.
  assert (HV1 : disk_view D' 1 = V 1).
  { unfold disk_view, D'. rewrite apply_writes_other, Hclean; try done; [destruct Hok; lia|].
    intros w Hw. apply subseteq_take in Hw. unfold commit_writes in Hw. cbv zeta in Hw.
    rewrite !elem_of_app in Hw. pose proof (lo_start _ _ _ Hok).
    destruct Hw as [Hw|[->%list_elem_of_singleton|[(b & -> & Hw)%list_elem_of_fmap|
      ->%list_elem_of_singleton]]]; cbn; try lia.
    - apply (log_copies_in L (length (k_disk s))) in Hw as (? & ? & _ & _ & _ & ? & _); [lia|done].
    - destruct (lo_home _ _ _ Hok b Hw) as [? _]. split; [lia|]. by intros ->. }
  assert (F0 : fsys pid0 [] ∅ (disk_view D') D' (k_dwrites s0) log_zero s0).
  { pose proof (booted_cache _ _ Hboot) as C0. rewrite Hd0 in C0. fold D' in C0.
    split; [done|done|done|apply Hboot]. }
  destruct (fs_initlog _ _ _ _ L bs bs' _ F0) as ([] & s1 & E1 & T' & F1); try done.
  - unfold D'. by rewrite length_apply_writes.
  - by rewrite HV1.
  - by rewrite HV1.
  - exists s1. split; [done|]. split; [by rewrite (f_log _ _ _ _ _ _ _ _ F1)|]. intros m Hm Hl.
    rewrite (f_disk _ _ _ _ _ _ _ _ F1). by apply Hfin.
Qed.

(** ** An instance *)

(** A disk of 34 blocks whose log is blocks 2 to 31, and a transaction that
    has changed block 33 in memory. *)
Definition demo_disk : list (list Z) :=
  zero_block :: (le32 34 ++ le32 2 ++ le32 8 ++ le32 30 ++ le32 2 ++ le32 32 ++ le32 33)
    :: replicate 32 zero_block.
Definition demo_buf : buf := mkBuf 6 1 33 sl_zero 0 [7].
Definition demo_trans : kstate :=
  demo2 <| k_disk := demo_disk |>
    <| k_bcache := mkBc (demo_buf :: replicate 29 buf_zero) (seq 0 NBUF) |>
    <| k_log := mkLog 2 30 1 1 1 1 (33 :: replicate 29 0) |>.
Definition demo_view : Z -> list Z := <[33 := [7]]> (disk_view demo_disk).

Lemma demo_trans_cache : cache 1 [] (list_to_set [33]) demo_view demo_trans.
Proof.
  assert (Hb : forall b x, bufs demo_trans !! b = Some x ->
            (b = 0%nat /\ x = demo_buf) \/ x = buf_zero).
  { intros [|b] x Hx; [injection Hx as <-; by left|]. right.
    change (replicate 29 buf_zero !! b = Some x) in Hx. by apply lookup_replicate in Hx as [-> _]. }
  split.
  - done.
  - done.
  - done.
  - by exists 0%nat, (demo_proc 1 RUNNING None).
  - intros b x [[-> ->]| ->]%Hb; [right|by left]. split; [done|]. split; [by right|].
    split; [by vm_compute|done].
  - intros b x [[-> ->]| ->]%Hb; done.
  - by intros b n ?%elem_of_nil.
  - constructor.
  - intros b c x y [[-> ->]| ->]%Hb [[-> ->]| ->]%Hb; done.
  - intros b x [[-> ->]| ->]%Hb; [|done]. intros _. apply elem_of_list_to_set. left.
  - intros n Hn%elem_of_list_to_set%list_elem_of_singleton. subst n.
    by exists 0%nat, demo_buf.
  - intros n Hn Hp _. unfold demo_view. rewrite fn_lookup_insert_ne.
    2:{ intros <-. apply Hp. apply elem_of_list_to_set. left. }
    unfold disk_view. change (k_disk demo_trans) with demo_disk.
    destruct (lookup_lt_is_Some_2 demo_disk (Z.to_nat n)) as [x ->]; [|done].
    change (k_disk demo_trans) with demo_disk in Hn. lia.
Qed.

Lemma demo_trans_log_ok : log_ok (k_log demo_trans) (length (k_disk demo_trans)) [33].
Proof.
  split; try done.
  - intros [|i] b; [by intros [= <-]|done].
  - apply NoDup_singleton.
  - intros b ->%list_elem_of_singleton. split; [by vm_compute|]. unfold in_log. cbn. lia.
Qed.

Lemma commit_crash_safe_witness :
  exists s', commit demo_trans = Ret tt s' /\ lg_n (k_log s') = 0.
Proof.
  destruct (commit_crash_safe 1 demo_view (k_log demo_trans) [33] demo_trans) as (s' & W & E & H).
  - exact demo_trans_cache.
  - reflexivity.
  - exact demo_trans_log_ok.
  - discriminate.
  - by intros ?%list_elem_of_singleton.
  - split; [reflexivity|]. split; [by vm_compute|]. by intros i b.
  - reflexivity.
  - reflexivity.
  - reflexivity.
  - exists s'. split; [exact E|apply H].
Defined.
