(* ===== verification/LogOps.v ===== *)
(** Transactions and the space of the log: what [log_write] records, and why
    the reservation made by [begin_op] is enough for the blocks a transaction
    writes. *)
From stdpp Require Import functions.
From S2P Require Import Prelude Kstate Demo Mem MemSpec Sched Sleeplock Bio BioSpec Log LogSpec ProcSpec.

(** * log_write *)

(** The blocks of the transaction after block [n] is written. *)
Definition logged (bs : list Z) (n : Z) : list Z := if decide (n ∈ bs) then bs else bs ++ [n].

Lemma logged_set bs n : list_to_set (logged bs n) = ({[n]} ∪ list_to_set bs : gset Z).
Proof.
  unfold logged. case_decide; [set_solver|]. rewrite list_to_set_app_L. cbn. set_solver.
Qed.

Lemma log_slot_absorbs L nd bs n :
  log_ok L nd bs ->
  (exists i, bs !! i = Some n /\ log_slot L n = i) \/ ((n ∉ bs) /\ log_slot L n = length bs).
Proof.
  intros Hok. unfold log_slot. rewrite (lo_n _ _ _ Hok), Nat2Z.id.
  assert (E : take (length bs) (lg_block L) = bs).
  { apply list_eq. intros i. destruct (decide (i < length bs)%nat) as [Hi|Hi].
    - rewrite lookup_take_lt by done. destruct (lookup_lt_is_Some_2 _ _ Hi) as [b Hb].
      by rewrite Hb, (lo_blocks _ _ _ Hok i b).
    - rewrite lookup_take_ge by lia. symmetry. apply lookup_ge_None. lia. }
  rewrite E. destruct (find_index _ bs) as [i|] eqn:Hf.
  - left. apply find_index_Some in Hf as (a & Ha & ->%Z.eqb_eq & _). by exists i.
  - right. split; [|done]. intros (i & Hi)%list_elem_of_lookup.
    apply (proj1 (find_index_None _ _) Hf) in Hi. by rewrite Z.eqb_refl in Hi.
Qed.

(** The log after block [n] is recorded in slot [i]. *)
Definition log_after (L : log) (i : nat) (n : Z) : log :=
  let L := L <| lg_block ::= <[i := n]> |> in
  if Z.of_nat i =? lg_n L then L <| lg_n ::= fun k => k + 1 |> else L.

Lemma log_write_run b x s :
  k_held s = [] -> bufs s !! b = Some x ->
  lg_n (k_log s) < LOGSIZE -> lg_n (k_log s) < lg_size (k_log s) - 1 ->
  1 <= lg_outstanding (k_log s) ->
  (log_slot (k_log s) (b_blockno x) < length (lg_block (k_log s)))%nat ->
  log_write b s =
    Ret tt (putb b (x <| b_flags ::= fun f => Z.lor f B_DIRTY |>)
      (s <| k_log := log_after (k_log s) (log_slot (k_log s) (b_blockno x)) (b_blockno x) |>)).
Proof.
  intros Hh Hb H1 H2 H3 Hi. unfold log_write. mrun.
  rewrite (proj2 (Z.leb_gt _ _)) by done. rewrite (proj2 (Z.leb_gt _ _)) by done. cbn [orb].
  rewrite (proj2 (Z.ltb_ge _ _)) by done. unfold bind at 1.
  rewrite acquire_ok by (rewrite Hh; apply not_elem_of_nil). rewrite Hh.
  rewrite (bind_get_buf b x) by done. set (i := log_slot _ _) in *.
  destruct (lookup_lt_is_Some_2 _ _ Hi) as [y Hy].
  unfold set_log_block, log_blockno, upd_log. mrun.
  change (k_log (s <| k_held := [L_log] |>)) with (k_log s). rewrite Hy. mrun.
  unfold log_after. cbv zeta.
  change (lg_n ((k_log s) <| lg_block ::= <[i := b_blockno x]> |>)) with (lg_n (k_log s)).
  destruct (Z.of_nat i =? lg_n (k_log s)); cbn [whenM]; mrun;
    rewrite (bind_upd_buf b x) by done;
    (rewrite (release_ok _ []) by (done || apply not_elem_of_nil));
    f_equal; apply kstate_ext; reflexivity || done.
Qed.

(** With room in the log. *)
Lemma log_write_ok pid H bs V D T L s b n :
  fsys pid H (list_to_set bs) V D T L s -> log_ok L (length D) bs -> (b, n) ∈ H ->
  ~ in_log L n -> 1 <= lg_outstanding L -> Z.of_nat (length bs) < lg_size L - 1 ->
  exists s' L', log_write b s = Ret tt s' /\
    fsys pid H (list_to_set (logged bs n)) V D T L' s' /\
    log_ok L' (length D) (logged bs n) /\
    (lg_start L' = lg_start L /\ lg_size L' = lg_size L /\ lg_outstanding L' = lg_outstanding L /\
     lg_committing L' = lg_committing L) /\
    k_icache s' = k_icache s /\ k_sb s' = k_sb s /\ k_ftable s' = k_ftable s.
Proof.
  intros F Hok Hb Hn Hout Hroom.
  pose proof F as [C HD HT HL].
  destruct (cache_get _ _ _ _ _ C b n Hb) as (x & Hx & Hd & Hbn & Hl & Hr & Hdata & Hrange & Hf).
  assert (Hslot := log_slot_absorbs L (length D) bs n Hok).
  assert (Hlb : (length bs < 30)%nat) by (pose proof (lo_size _ _ _ Hok); change LOGSIZE with 30 in *; lia).
  assert (Hi : (log_slot L n < 30)%nat).
  { destruct Hslot as [(i & Hi%lookup_lt_Some & ->)|[_ ->]]; lia. }
  set (L' := log_after L (log_slot L n) n).
  eexists _, L'. split; [|split; [|split; [|split]]].
  - rewrite (log_write_run b x); rewrite ?HL, ?Hbn; try done; try apply C.
    + rewrite (lo_n _ _ _ Hok). change LOGSIZE with 30. lia.
    + by rewrite (lo_n _ _ _ Hok).
    + rewrite (lo_len _ _ _ Hok). done.
  - split; [|done|done|done]. rewrite logged_set.
    eapply (cache_update _ _ _ _ _ C b n); try done; try apply C.
    + right. split; [|set_solver]. unfold upd. cbn. by destruct Hf as [-> | ->].
    + set_solver.
  - unfold L', log_after. cbv zeta.
    change (lg_n (L <| lg_block ::= <[log_slot L n := n]> |>)) with (lg_n L).
    rewrite (lo_n _ _ _ Hok). destruct Hok as [h1 h2 h3 h4 h5 h6 h7 h8 h9 h10 h11].
    destruct Hslot as [(i & Hi' & ->)|[Hni ->]].
    + rewrite (proj2 (Z.eqb_neq _ _)) by (apply lookup_lt_Some in Hi'; lia).
      unfold logged. rewrite decide_True by by eapply list_elem_of_lookup_2.
      split; try done; [by cbn; rewrite length_insert|].
      intros j c Hj. cbn. destruct (decide (j = i)) as [->|Hji].
      * rewrite list_lookup_insert_eq by (eapply lookup_lt_Some; by apply h9). congruence.
      * rewrite list_lookup_insert_ne by done. auto.
    + rewrite Z.eqb_refl. unfold logged. rewrite decide_False by done.
      split; try done.
      * by cbn; rewrite length_insert.
      * unfold upd. cbn. rewrite length_app. cbn. lia.
      * rewrite length_app. unfold upd. cbn. lia.
      * intros j c Hj. cbn. apply lookup_app_Some in Hj as [Hj|[Hge Hj]].
        { rewrite list_lookup_insert_ne by (apply lookup_lt_Some in Hj; lia). auto. }
        apply list_lookup_singleton_Some in Hj as [Hj <-].
        replace j with (length bs) by lia. apply list_lookup_insert_eq.
        rewrite h6. change (Z.to_nat LOGSIZE) with 30%nat. lia.
      * apply NoDup_app. split; [done|]. split; [set_solver|apply NoDup_singleton].
      * intros c [Hc| ->%list_elem_of_singleton]%elem_of_app; [by apply h11|]. split; [|done].
         by rewrite <- HD.
  - unfold L', log_after. cbv zeta. by destruct (_ =? _).
  - done.
Qed.

(** [log_write] of a held buffer, inside a transaction that has room,
    records the buffer's block once however often it is written, pins the
    block in memory, and writes nothing to the disk.  Without room it
    panics. *)
Theorem log_write_spec pid H bs V D T L s b n :
  fsys pid H (list_to_set bs) V D T L s -> log_ok L (length D) bs -> (b, n) ∈ H ->
  ~ in_log L n -> 1 <= lg_outstanding L ->
  if Z.of_nat (length bs) <? lg_size L - 1 then
    exists s' L', log_write b s = Ret tt s' /\
      fsys pid H (list_to_set (logged bs n)) V D T L' s' /\
      log_ok L' (length D) (logged bs n) /\ lg_outstanding L' = lg_outstanding L
  else log_write b s = Panic "too big a transaction".
Proof.
  intros F Hok Hb Hn Hout. destruct (Z.ltb_spec (Z.of_nat (length bs)) (lg_size L - 1)) as [Hroom|Hroom].
  - destruct (log_write_ok pid H bs V D T L s b n F Hok Hb Hn Hout Hroom) as (s' & L' & E & F' & Hok' & (_ & _ & Ho & _) & _).
    by exists s', L'.
  - unfold log_write. mrun. rewrite (f_log _ _ _ _ _ _ _ _ F), (lo_n _ _ _ Hok).
    rewrite (proj2 (Z.leb_le (lg_size L - 1) _)) by done. by rewrite orb_true_r.
Qed.

(** * The space of the log *)

(** What the buffer operations leave alone: the log, inodes and files. *)
Definition log_frame (s s' : kstate) : Prop :=
  k_log s' = k_log s /\ k_icache s' = k_icache s /\ k_sb s' = k_sb s /\ k_ftable s' = k_ftable s.
Definition anything (s s' : kstate) : Prop := True.
Abbreviation LogKeeps := (Keeps log_frame anything).

#[export] Instance log_frame_Frame : Frame log_frame anything.
Proof. split; unfold log_frame; naive_solver congruence. Qed.

Lemma keeps_log {A} (m : K A) `{!LogKeeps m} s a s' : m s = Ret a s' -> k_log s' = k_log s.
Proof. by intros [? _]%(keeps_Ret log_frame anything). Qed.

Lemma log_modify (f : kstate -> kstate) : (forall s, log_frame s (f s)) -> LogKeeps (modify f).
Proof. intros H s. apply H. Qed.
#[export] Hint Extern 1 (Keeps log_frame anything (modify _)) =>
  apply log_modify; intros ?; repeat split : typeclass_instances.

#[export] Instance log_acquire l : LogKeeps (acquire l).
Proof. unfold acquire. solve_keeps. Qed.
#[export] Instance log_release l : LogKeeps (release l).
Proof. unfold release. solve_keeps. Qed.
#[export] Instance log_myproc : LogKeeps myproc.
Proof. unfold myproc. solve_keeps. Qed.
#[export] Instance log_get_proc i : LogKeeps (get_proc i).
Proof. unfold get_proc. solve_keeps. Qed.
#[export] Instance log_upd_proc i f : LogKeeps (upd_proc i f).
Proof. unfold upd_proc. apply _. Qed.
#[export] Instance log_get_buf b : LogKeeps (get_buf b).
Proof. unfold get_buf. solve_keeps. Qed.
#[export] Instance log_upd_buf b f : LogKeeps (upd_buf b f).
Proof. unfold upd_buf. apply _. Qed.
#[export] Instance log_swtch {A} : LogKeeps (swtch (A:=A)).
Proof. done. Qed.
#[export] Instance log_sched {A} : LogKeeps (sched (A:=A)).
Proof. unfold sched. solve_keeps. Qed.
#[export] Instance log_sleep {A} c l : LogKeeps (sleep (A:=A) c l).
Proof. unfold sleep. solve_keeps. Qed.
#[export] Instance log_sleep_return l : LogKeeps (sleep_return l).
Proof. unfold sleep_return. solve_keeps. Qed.
#[export] Instance log_wakeup c : LogKeeps (wakeup c).
Proof. unfold wakeup, wakeup1. solve_keeps. Qed.
#[export] Instance log_sl_get b : LogKeeps (sl_get (SL_buf b)).
Proof. unfold sl_get. solve_keeps. Qed.
#[export] Instance log_sl_set b l : LogKeeps (sl_set (SL_buf b) l).
Proof. unfold sl_set. solve_keeps. Qed.
#[export] Instance log_acquiresleep b : LogKeeps (acquiresleep (SL_buf b)).
Proof. unfold acquiresleep, acquiresleep_locked. solve_keeps. Qed.
#[export] Instance log_releasesleep b : LogKeeps (releasesleep (SL_buf b)).
Proof. unfold releasesleep. solve_keeps. Qed.
#[export] Instance log_holdingsleep b : LogKeeps (holdingsleep (SL_buf b)).
Proof. unfold holdingsleep. solve_keeps. Qed.
#[export] Instance log_iderw b : LogKeeps (iderw b).
Proof. unfold iderw. solve_keeps. Qed.
#[export] Instance log_bget d n : LogKeeps (bget d n).
Proof. unfold bget. solve_keeps. Qed.
#[export] Instance log_bread d n : LogKeeps (bread d n).
Proof. unfold bread. solve_keeps. Qed.
#[export] Instance log_bwrite b : LogKeeps (bwrite b).
Proof. unfold bwrite. solve_keeps. Qed.
#[export] Instance log_brelse b : LogKeeps (brelse b).
Proof. unfold brelse, set_order. solve_keeps. Qed.
#[export] Instance log_buf_data b : LogKeeps (buf_data b).
Proof. unfold buf_data. solve_keeps. Qed.
#[export] Instance log_set_buf_data b l : LogKeeps (set_buf_data b l).
Proof. unfold set_buf_data. solve_keeps. Qed.
#[export] Instance log_log_blockno i : LogKeeps (log_blockno i).
Proof. unfold log_blockno. solve_keeps. Qed.
#[export] Instance write_log_log : LogKeeps write_log.
Proof. unfold write_log. solve_keeps. Qed.
#[export] Instance write_head_log : LogKeeps write_head.
Proof. unfold write_head. solve_keeps. Qed.
#[export] Instance install_trans_log : LogKeeps install_trans.
Proof. unfold install_trans. solve_keeps. Qed.

Lemma commit_log s s' :
  commit s = Ret tt s' ->
  k_log s' = (k_log s) <| lg_n := if 0 <? lg_n (k_log s) then 0 else lg_n (k_log s) |>.
Proof.
  unfold commit. mrun. cbn [compose]. destruct (0 <? lg_n (k_log s)); cbn [whenM].
  2:{ intros [= <-]. by destruct (k_log s). }
  intros ([] & s1 & H1 & ([] & s2 & H2 & ([] & s3 & H3 & H4)%bind_Ret)%bind_Ret)%bind_Ret.
  apply keeps_log in H1, H2, H3; try apply _.
  revert H4. unfold upd_log. mrun. intros H4.
  apply keeps_log in H4; [|apply _].
  rewrite H4. cbn. unfold upd. cbn. by rewrite H3, H2, H1.
Qed.

Lemma begin_op_locked_log s s' :
  begin_op_locked s = Ret tt s' ->
  lg_committing (k_log s) = 0 /\
  lg_n (k_log s) + (lg_outstanding (k_log s) + 1) * MAXOPBLOCKS <= LOGSIZE /\
  k_log s' = (k_log s) <| lg_outstanding ::= fun n => n + 1 |>.
Proof.
  unfold begin_op_locked. mrun. unfold ctrue. destruct (Z.eqb_spec (lg_committing (k_log s)) 0); cbn [negb].
  2:{ intros H. exfalso. by eapply sleep_no_Ret. }
  destruct (Z.ltb_spec LOGSIZE (lg_n (k_log s) + (lg_outstanding (k_log s) + 1) * MAXOPBLOCKS)).
  { intros Hs. exfalso. by eapply sleep_no_Ret. }
  unfold upd_log. mrun. intros Hr. apply keeps_log in Hr; [|apply _].
  done.
Qed.

(** [begin_op], at once or after having slept. *)
Lemma begin_op_log s s' :
  begin_op s = Ret tt s' \/ begin_op_return s = Ret tt s' ->
  lg_n (k_log s) + (lg_outstanding (k_log s) + 1) * MAXOPBLOCKS <= LOGSIZE /\
  k_log s' = (k_log s) <| lg_outstanding ::= fun n => n + 1 |>.
Proof.
  unfold begin_op, begin_op_return.
  intros [([] & s1 & H1 & H2)%bind_Ret|([] & s1 & H1 & H2)%bind_Ret];
    apply keeps_log in H1; try apply _;
    apply begin_op_locked_log in H2; rewrite H1 in H2; apply H2.
Qed.

Lemma end_op_log s s' :
  end_op s = Ret tt s' ->
  lg_outstanding (k_log s') = lg_outstanding (k_log s) - 1 /\
  lg_size (k_log s') = lg_size (k_log s) /\
  (lg_n (k_log s') = lg_n (k_log s) \/ lg_n (k_log s') = 0).
Proof.
  unfold end_op. intros ([] & s1 & H1 & H2)%bind_Ret.
  apply keeps_log in H1; [|apply _].
  revert H2. unfold upd_log at 1. mrun.
  set (L1 := k_log (s1 <| k_log ::= _ |>)). destruct (ctrue (lg_committing L1)); [done|].
  assert (E1 : L1 = (k_log s) <| lg_outstanding ::= fun n => n - 1 |>)
    by (unfold L1, upd; cbn; by rewrite H1).
  intros ([] & s2 & H2 & ([] & s3 & H3 & H4)%bind_Ret)%bind_Ret.
  apply keeps_log in H3; [|apply _].
  assert (E2 : exists c, k_log s2 = L1 <| lg_committing := c |>).
  { destruct (lg_outstanding L1 =? 0).
    - injection H2 as <-. by exists 1.
    - apply keeps_log in H2; [|apply _].
      exists (lg_committing L1). rewrite H2. fold L1. by destruct L1. }
  destruct E2 as [c E2]. destruct (lg_outstanding L1 =? 0); cbn [whenM] in H4.
  - apply bind_Ret in H4 as ([] & s4 & H4 & ([] & s5 & H5 & H6)%bind_Ret).
    apply commit_log in H4. apply keeps_log in H5; [|apply _].
    revert H6. unfold upd_log. mrun. intros H6.
    apply keeps_log in H6; [|solve_keeps].
    rewrite H6. cbn. unfold upd. cbn. rewrite H5, H4. unfold upd. cbn. rewrite H3, E2, E1.
    unfold upd. cbn. destruct (0 <? lg_n (k_log s)); auto.
  - injection H4 as <-. rewrite H3, E2, E1. unfold upd. cbn. auto.
Qed.

(** ** Reservations *)

(** [budgets] lists, for each transaction in progress, how many blocks it may
    still write.  A step begins a transaction, which may then write
    [MAXOPBLOCKS] blocks; writes a block of one of them; ends one; or is any
    other activity of the kernel, which leaves the log alone. *)
Inductive log_step : list Z * kstate -> list Z * kstate -> Prop :=
| step_begin bud s s' :
    begin_op s = Ret tt s' \/ begin_op_return s = Ret tt s' ->
    log_step (bud, s) (MAXOPBLOCKS :: bud, s')
| step_write bud i k b s s' :
    bud !! i = Some k -> 0 < k -> log_write b s = Ret tt s' ->
    log_step (bud, s) (<[i := k - 1]> bud, s')
| step_end bud i s s' :
    (i < length bud)%nat -> end_op s = Ret tt s' ->
    log_step (bud, s) (delete i bud, s')
| step_other bud s s' :
    k_log s' = k_log s -> log_step (bud, s) (bud, s').

Fixpoint sum (l : list Z) : Z :=
  match l with
  | [] => 0
  | k :: l => k + sum l
  end.

(** The blocks in the log and those still promised fit in the log. *)
Definition reserved (bud : list Z) (L : log) : Prop :=
  lg_outstanding L = Z.of_nat (length bud) /\ Forall (fun k => 0 <= k <= MAXOPBLOCKS) bud /\
  0 <= lg_n L /\ lg_n L + sum bud <= LOGSIZE.

Lemma sum_bound bud :
  Forall (fun k => 0 <= k <= MAXOPBLOCKS) bud ->
  0 <= sum bud <= Z.of_nat (length bud) * MAXOPBLOCKS.
Proof. change MAXOPBLOCKS with 10. induction 1; cbn [sum length]; lia. Qed.
Lemma sum_lookup bud i k :
  Forall (fun k => 0 <= k <= MAXOPBLOCKS) bud -> bud !! i = Some k -> k <= sum bud.
Proof.
  intros Hb. revert i. induction Hb as [|x l Hx Hl IH]; intros [|i]; cbn; try done.
  - intros [= ->]. pose proof (sum_bound l Hl). lia.
  - intros H%IH. lia.
Qed.
Lemma sum_insert bud i k v : bud !! i = Some k -> sum (<[i := v]> bud) = sum bud - k + v.
Proof.
  revert i. induction bud as [|x l IH]; intros [|i]; cbn; try done.
  - intros [= ->]. change (v + sum l = k + sum l - k + v). lia.
  - intros H%IH. change (x + sum (<[i := v]> l) = x + sum l - k + v). lia.
Qed.
Lemma sum_delete bud i : Forall (fun k => 0 <= k <= MAXOPBLOCKS) bud -> sum (delete i bud) <= sum bud.
Proof.
  intros Hb. revert i. induction Hb as [|x l Hx Hl IH]; intros [|i]; cbn; try done; [|].
  - change (sum l <= x + sum l). lia.
  - specialize (IH i). change (x + sum (delete i l) <= x + sum l). lia.
Qed.

Lemma log_write_log b s s' :
  log_write b s = Ret tt s' ->
  lg_n (k_log s) <= lg_n (k_log s') <= lg_n (k_log s) + 1 /\ lg_n (k_log s) < LOGSIZE /\
  lg_outstanding (k_log s') = lg_outstanding (k_log s) /\ lg_size (k_log s') = lg_size (k_log s).
Proof.
  unfold log_write. mrun. destruct (_ || _) eqn:Efull; [done|].
  apply orb_false_iff in Efull as [Efull%Z.leb_gt _]. destruct (_ <? 1); [done|].
  intros ([] & s1 & H1 & (x & s2 & H2 & H3)%bind_Ret)%bind_Ret.
  apply keeps_log in H1, H2; try apply _.
  revert H3. unfold set_log_block. mrun. intros (y & s3 & H3 & H4)%bind_Ret.
  apply keeps_log in H3; [|apply _].
  revert H4. unfold upd_log. mrun. set (i := log_slot _ _).
  intros ([] & s4 & H4 & ([] & s5 & H5 & H6)%bind_Ret)%bind_Ret.
  apply keeps_log in H5, H6; try apply _.
  rewrite H6, H5. destruct (Z.of_nat i =? _); cbn [whenM] in H4; injection H4 as <-;
    unfold upd; cbn; rewrite H3, H2, H1; repeat split; lia || done.
Qed.

Lemma log_step_reserved c c' :
  log_step c c' -> reserved c.1 (k_log c.2) -> reserved c'.1 (k_log c'.2).
Proof.
  intros [bud s s' Hs|bud i k b s s' Hi Hk Hs|bud i s s' Hi Hs|bud s s' Hs] (Ho & Hb & Hn & Hsum);
    cbn [fst snd] in *; [| | |by rewrite Hs].
  - apply begin_op_log in Hs as [Hfit ->]. pose proof (sum_bound bud Hb).
    unfold reserved, upd. cbn.
    change MAXOPBLOCKS with 10 in *. change LOGSIZE with 30 in *.
    repeat split; try lia. constructor; [lia|done].
  - apply log_write_log in Hs as (Hn' & Hlt & Ho' & _). pose proof (sum_lookup bud i k Hb Hi).
    unfold reserved. rewrite Ho', length_insert, (sum_insert bud i k (k - 1) Hi).
    change MAXOPBLOCKS with 10 in *. repeat split; try lia.
    apply Forall_insert; [done|]. pose proof (Forall_lookup_1 _ _ _ _ Hb Hi) as Hkb. cbn in Hkb. lia.
  - apply end_op_log in Hs as (Ho' & _ & Hn'). pose proof (sum_delete bud i Hb).
    pose proof (sum_bound bud Hb). unfold reserved. rewrite Ho', length_delete by by apply lookup_lt_is_Some.
    assert (Hb' : Forall (fun k => 0 <= k <= MAXOPBLOCKS) (delete i bud)) by by apply Forall_delete.
    repeat split; done || lia.
Qed.

Lemma log_steps_reserved c c' :
  rtc log_step c c' -> reserved c.1 (k_log c.2) -> reserved c'.1 (k_log c'.2).
Proof. induction 1; [done|]. intros Hr. eauto using log_step_reserved. Qed.

Lemma bind_not_panic {A B} (m : K A) (f : A -> K B) s msg :
  m s <> Panic msg -> (forall a s', m s = Ret a s' -> f a s' <> Panic msg) ->
  bind m f s <> Panic msg.
Proof. intros Hm Hf. unfold bind. destruct (m s) eqn:E; try done; [by apply Hf|congruence]. Qed.
Lemma acquire_not_panic l s msg : msg <> "acquire"%string -> acquire l s <> Panic msg.
Proof. intros Hm. unfold acquire. munfold. destruct (decide _); congruence. Qed.

Lemma release_not_panic l s msg : msg <> "release"%string -> release l s <> Panic msg.
Proof. intros Hm. unfold release. munfold. destruct (decide _); congruence. Qed.
Lemma get_buf_not_panic b s msg : get_buf b s <> Panic msg.
Proof. unfold get_buf. mrun. by destruct (_ !! _). Qed.
Lemma log_blockno_not_panic i s msg : log_blockno i s <> Panic msg.
Proof. unfold log_blockno. mrun. by destruct (_ !! _). Qed.


(** The log area of an image made by [mkfs] has [LOGSIZE] blocks in all, one
    less than [log_never_full] asks for: a transaction whose reservation
    [begin_op] has granted can then panic at its last block. *)
Lemma mkfs_log_too_small :
  exists s, reserved [1] (k_log s) /\ lg_size (k_log s) = LOGSIZE /\
    log_write 0 s = Panic "too big a transaction".
Proof.
  exists (kstate_zero <| k_log := log_zero <| lg_size := LOGSIZE |> <| lg_n := 29 |>
    <| lg_outstanding := 1 |> |>).
  repeat split; try by vm_compute. repeat constructor; by vm_compute.
Qed.

(** ** Instances *)

Lemma log_write_spec_witness :
  exists b s s', bread 1 33 demo_trans = Ret b s /\ log_write b s = Ret tt s'.
Proof.
  destruct (bread_spec 1 [] {[33]} demo_view demo_trans) with (n := 33)
    as (b & s & E & C & HD & HT & Hc).
  - exact demo_trans_cache.
  - by vm_compute.
  - apply not_elem_of_nil.
  - left. set_solver.
  - destruct (log_write_spec 1 [(b, 33)] [33] demo_view (k_disk s) (k_dwrites s) (k_log demo_trans)
      s b 33) as (s' & L' & E' & _).
    + split; [exact C|reflexivity|reflexivity|]. exact (core_log _ _ Hc).
    + rewrite HD. exact demo_trans_log_ok.
    + left.
    + unfold in_log. cbn. lia.
    + cbn. lia.
    + exists b, s, s'. split; [exact E|exact E'].
Defined.

Definition wide_log : kstate := kstate_zero <| k_log := log_zero <| lg_size := 31 |> |>.

