(* ===== verification/FsTx.v ===== *)
(** Blocks inside a transaction.  [tx] is the state of the file system code
    between [begin_op] and [end_op]: the buffers held, the blocks the
    transaction has written, the content of all blocks as the kernel sees
    them, and the inode cache.  The rules below say what reading, changing and
    logging a block do to it. *)
From stdpp Require Import functions.
From S2P Require Import Prelude Kstate Mem MemSpec Sched Sleeplock Bio BioSpec Log LogSpec LogOps Inode.

Lemma logged_in bs n m : m ∈ logged bs n <-> m ∈ bs \/ m = n.
Proof. unfold logged. case_decide; set_solver. Qed.
Lemma logged_id bs n : n ∈ bs -> logged bs n = bs.
Proof. intros. unfold logged. by rewrite decide_True. Qed.

Section Tx.
(** The running process, the disk, the superblock, where the log lies and how
    many transactions are in progress, and the open files. *)
Context (pid : Z) (D : list (list Z)) (sb : superblock) (lstart lsize outs : Z) (FT : list file).

Record tx (H : list (nat * Z)) (bs : list Z) (V : Z -> list Z) (IC : list inode)
    (s : kstate) : Prop := mkTx {
  x_cache : cache pid H (list_to_set bs) V s;
  x_disk : k_disk s = D;
  x_log : log_ok (k_log s) (length D) bs;
  x_start : lg_start (k_log s) = lstart;
  x_size : lg_size (k_log s) = lsize;
  x_outs : lg_outstanding (k_log s) = outs;
  x_commit : lg_committing (k_log s) = 0;
  x_icache : k_icache s = IC;
  x_ftable : k_ftable s = FT;
  x_sb : k_sb s = sb;
}.

(** The transaction may still write [k] blocks. *)
Definition room (bs : list Z) (k : Z) : Prop := Z.of_nat (length bs) + k <= lsize - 1.

Lemma room_logged bs n k : room bs (k + 1) -> room (logged bs n) k.
Proof. unfold room, logged. case_decide; [lia|]. rewrite length_app. cbn. lia. Qed.
Lemma room_le bs k k' : room bs k -> k' <= k -> room bs k'.
Proof. unfold room. lia. Qed.

(** ** Steps that leave the log alone *)

Lemma tx_core H bs V IC s H' V' s' :
  tx H bs V IC s -> cache pid H' (list_to_set bs) V' s' -> k_disk s' = k_disk s ->
  bio_core s' = bio_core s -> tx H' bs V' IC s'.
Proof.
  intros [C HD HL Hst Hsz Hout Hcm HI HF HS] C' ED Ec. unfold bio_core in Ec. injection Ec as ? ? ? ? ? ? ? ? ? ? Ef ? Ei Es El ? ? ? ?.
  split; congruence || done.
Qed.

Section Rules.
Context (H : list (nat * Z)) (bs : list Z) (V : Z -> list Z) (IC : list inode) (s : kstate).
Context (X : tx H bs V IC s).

Lemma tx_capacity : (size (list_to_set bs : gset Z) = length bs)%nat /\ (length bs < 30)%nat /\
  (Z.of_nat (length bs) <= lsize - 1)%Z /\ lsize <= 30.
Proof.
  destruct X as [_ _ HL _ Hsz _ _ _ _ _]. split; [apply size_list_to_set, HL|].
  pose proof (lo_room _ _ _ HL). pose proof (lo_size _ _ _ HL) as Hs. change LOGSIZE with 30 in Hs. lia.
Qed.

Lemma tx_bread n :
  0 <= n < Z.of_nat (length D) -> n ∉ H.*2 -> n ∈ bs \/ H = [] \/ (length H = 1%nat /\ room bs 1) ->
  returns (bread 1 n) s (fun b => tx ((b, n) :: H) bs V IC).
Proof.
  intros Hn HH Hsp. pose proof X as [C HD _ _ _ _ _ _ _ _].
  destruct (bread_spec _ _ _ _ _ C n) as (b & s' & E & C' & ED & _ & Ec).
  - by rewrite HD.
  - done.
  - destruct tx_capacity as (-> & Hb & Hlo & Hhi). change NBUF with 30%nat.
    destruct Hsp as [Hin|[->|[Hl Hr]]]; [left; by apply elem_of_list_to_set|right; cbn; lia|right]. unfold room in Hr. lia.
  - exists b, s'. split; [done|]. by eapply tx_core.
Qed.

Lemma tx_buf_data b n : (b, n) ∈ H -> returns (buf_data b) s (fun l s' => l = V n /\ s' = s).
Proof.
  intros Hb. destruct (cache_get _ _ _ _ _ (x_cache _ _ _ _ _ X) b n Hb) as (x & Hx & _ & _ & _ & _ & Hd & _).
  exists (V n), s. split; [|done]. unfold buf_data. rewrite (bind_get_buf b x) by done. by rewrite Hd.
Qed.

Lemma tx_set_data b n l :
  (b, n) ∈ H -> returns (set_buf_data b l) s (fun _ => tx H bs (<[n := l]> V) IC).
Proof.
  intros Hb. destruct (set_data_spec _ _ _ _ _ (x_cache _ _ _ _ _ X) b n l Hb) as (s' & E & C' & ED & _ & Ec).
  exists tt, s'. split; [done|]. by eapply tx_core.
Qed.

Lemma tx_brelse b n H' :
  H ≡ₚ (b, n) :: H' -> n ∈ bs \/ D !! Z.to_nat n = Some (V n) ->
  returns (brelse b) s (fun _ => tx H' bs V IC).
Proof.
  intros HH Hn. pose proof X as [C HD _ _ _ _ _ _ _ _].
  destruct (brelse_spec _ _ _ _ _ C b n H' HH) as (s' & E & C' & ED & _ & Ec).
  { rewrite HD. destruct Hn; [left; by apply elem_of_list_to_set|by right]. }
  exists tt, s'. split; [done|]. by eapply tx_core.
Qed.

(** A block that is neither held nor written by the transaction is on disk. *)
Lemma tx_clean n : 0 <= n < Z.of_nat (length D) -> n ∉ H.*2 -> n ∈ bs \/ D !! Z.to_nat n = Some (V n).
Proof.
  intros Hn HH. destruct (decide (n ∈ bs)) as [|Hnb]; [by left|right].
  destruct X as [C <- _ _ _ _ _ _ _ _]. apply (c_clean _ _ _ _ _ C); [done| |done]. by rewrite elem_of_list_to_set.
Qed.

Lemma tx_log_write b n :
  (b, n) ∈ H -> ~ (lstart <= n < lstart + lsize) -> 1 <= outs -> room bs 1 ->
  returns (log_write b) s (fun _ => tx H (logged bs n) V IC).
Proof.
  intros Hb Hn Hout Hroom. pose proof X as [C HD HL Hst Hsz Ho Hcm HI HF HS].
  assert (F : fsys pid H (list_to_set bs) V D (k_dwrites s) (k_log s) s) by (by split).
  unfold room in Hroom.
  destruct (log_write_ok pid H bs V D (k_dwrites s) (k_log s) s b n F HL Hb)
    as (s' & L' & E & F' & HL' & (Hst' & Hsz' & Ho' & Hcm') & HI' & HS' & HF'); [unfold in_log; congruence|lia|lia|].
  exists tt, s'. split; [done|]. destruct F' as [C' HD' _ HLs]. split; congruence.
Qed.

Lemma tx_get_inode i ip : IC !! i = Some ip -> returns (get_inode i) s (fun x s' => x = ip /\ s' = s).
Proof.
  intros Hi. exists ip, s. split; [|done]. unfold get_inode. mrun. rewrite (x_icache _ _ _ _ _ X), Hi. done.
Qed.

Lemma tx_upd_inode i ip f :
  IC !! i = Some ip -> returns (upd_inode i f) s (fun _ => tx H bs V (<[i := f ip]> IC)).
Proof.
  intros Hi. destruct X as [C HD HL Hst Hsz Hout Hcm HI HF HS].
  exists tt, (s <| k_icache ::= alter f i |>). split; [done|]. split; try done; [by destruct C|].
  change (alter f i (k_icache s) = <[i := f ip]> IC). rewrite HI. by apply list_alter_at.
Qed.

Lemma tx_get_sb : returns (gets k_sb) s (fun x s' => x = sb /\ s' = s).
Proof. exists sb, s. split; [|done]. unfold gets. by rewrite (x_sb _ _ _ _ _ X). Qed.
End Rules.
End Tx.
