(* ===== verification/FsBlock.v ===== *)
(** The bitmap allocator of disk blocks.  [used] reads the bitmap; [balloc]
    finds the first block that is not in use, marks it and clears it, and
    [bfree] gives a block back.  Neither touches any other block, and a
    transaction pays for the bitmap blocks it marks once. *)
From stdpp Require Import functions.
From S2P Require Import Prelude Kstate Mem MemSpec Sched Sleeplock Bio BioSpec Log LogSpec LogOps Inode FsTx.

(** * Bits of a bitmap block *)

Lemma bit_mask_spec bi k : 0 <= bi -> Z.testbit (bit_mask bi) k = (bi mod 8 =? k).
Proof. intros Hb. unfold bit_mask. rewrite Z.shiftl_1_l. apply Z.pow2_bits_eqb, Z.mod_pos_bound. lia. Qed.

Lemma bit_set_testbit l bi : 0 <= bi -> bit_set l bi = Z.testbit (byte_at l (bi / 8)) (bi mod 8).
Proof.
  intros Hb. unfold bit_set, ctrue. set (x := byte_at l (bi / 8)).
  destruct (Z.testbit x (bi mod 8)) eqn:E.
  - apply negb_true_iff, Z.eqb_neq. intros H0. apply (f_equal (fun z => Z.testbit z (bi mod 8))) in H0.
    rewrite Z.land_spec, bit_mask_spec, Z.eqb_refl, Z.bits_0, E in H0 by lia. done.
  - apply negb_false_iff, Z.eqb_eq, Z.bits_inj. intros k. rewrite Z.land_spec, bit_mask_spec, Z.bits_0 by lia.
    destruct (Z.eqb_spec (bi mod 8) k) as [<-|_]; [by rewrite E|apply andb_false_r].
Qed.

Lemma byte_at_insert l i v j :
  0 <= i < Z.of_nat (length l) -> 0 <= j ->
  byte_at (<[Z.to_nat i := v]> l) j = if i =? j then v else byte_at l j.
Proof.
  intros Hi Hj. unfold byte_at. destruct (Z.eqb_spec i j) as [<-|Hne].
  - by rewrite list_lookup_insert_eq by lia.
  - by rewrite list_lookup_insert_ne by lia.
Qed.

Section Bits.
Context (l : list Z) (bi : Z) (Hbi : 0 <= bi < 8 * Z.of_nat (length l)).

Lemma bit_index bj : 0 <= bj -> bi / 8 = bj / 8 -> bi mod 8 = bj mod 8 -> bi = bj.
Proof. intros Hj Hd Hm. rewrite (Z.div_mod bi 8), (Z.div_mod bj 8) by lia. lia. Qed.

Lemma bit_set_mark bj : 0 <= bj -> bit_set (mark_bit l bi) bj = (bi =? bj) || bit_set l bj.
Proof.
  intros Hj. rewrite !bit_set_testbit by done. unfold mark_bit.
  rewrite byte_at_insert; [|split; [apply Z.div_pos|apply Z.div_lt_upper_bound]; lia|by apply Z.div_pos].
  destruct (Z.eqb_spec (bi / 8) (bj / 8)) as [E|E].
  - rewrite Z.lor_spec, bit_mask_spec, E, orb_comm by lia. f_equal.
    apply eq_bool_prop_intro. rewrite !Is_true_true, !Z.eqb_eq. split; [by apply bit_index|congruence].
  - rewrite (proj2 (Z.eqb_neq bi bj)) by congruence. done.
Qed.

Lemma bit_set_clear bj : 0 <= bj -> bit_set (clear_bit l bi) bj = negb (bi =? bj) && bit_set l bj.
Proof.
  intros Hj. rewrite !bit_set_testbit by done. unfold clear_bit.
  rewrite byte_at_insert; [|split; [apply Z.div_pos|apply Z.div_lt_upper_bound]; lia|by apply Z.div_pos].
  destruct (Z.eqb_spec (bi / 8) (bj / 8)) as [E|E].
  - rewrite Z.land_spec, Z.lnot_spec, bit_mask_spec, E, andb_comm by (lia || (apply Z.mod_pos_bound; lia)).
    do 2 f_equal. apply eq_bool_prop_intro. rewrite !Is_true_true, !Z.eqb_eq. split; [by apply bit_index|congruence].
  - rewrite (proj2 (Z.eqb_neq bi bj)) by congruence. done.
Qed.

Lemma length_mark : length (mark_bit l bi) = length l.
Proof. apply length_insert. Qed.
Lemma length_clear : length (clear_bit l bi) = length l.
Proof. apply length_insert. Qed.
End Bits.

Lemma free_bit_Some l n bi :
  free_bit l n = Some bi ->
  (bi < n)%nat /\ bit_set l (Z.of_nat bi) = false /\ forall j, (j < bi)%nat -> bit_set l (Z.of_nat j) = true.
Proof.
  unfold free_bit. intros (a & Ha & Hb & Hmin)%find_index_Some.
  apply lookup_seq in Ha as [-> Hlt]. cbn in Hb. apply negb_true_iff in Hb. split; [done|]. split; [done|].
  intros j Hj. apply negb_false_iff, (Hmin j j); [done|]. apply lookup_seq. split; [done|lia].
Qed.
Lemma free_bit_None l n : free_bit l n = None -> forall j, (j < n)%nat -> bit_set l (Z.of_nat j) = true.
Proof.
  unfold free_bit. intros H j Hj. apply negb_false_iff, (proj1 (find_index_None _ _) H j j).
  apply lookup_seq. done.
Qed.

(** Counting the elements that satisfy a predicate: it depends on the
    predicate on the list only, and drops by one when one element is taken
    out. *)
Section Count.
Context {A : Type} `{EqDecision A} (P Q : A -> Prop).
Context `{!forall x, Decision (P x)} `{!forall x, Decision (Q x)}.

Lemma filter_ext_in (l : list A) : (forall x, x ∈ l -> P x <-> Q x) -> filter P l = filter Q l.
Proof.
  induction l as [|x l IH]; [done|]. intros HPQ. rewrite !filter_cons, IH by (intros; apply HPQ; set_solver).
  destruct (HPQ x) as [H1 H2]; [set_solver|]. by do 2 case_decide; [|tauto..|].
Qed.

Lemma filter_drop_one (l : list A) a :
  NoDup l -> a ∈ l -> P a -> (forall x, x ∈ l -> Q x <-> P x /\ x <> a) ->
  length (filter P l) = S (length (filter Q l)).
Proof.
  intros Hnd. induction Hnd as [|x l Hx Hnd IH]; [by intros ?%not_elem_of_nil|].
  intros Ha HP HQ. rewrite !filter_cons. destruct (decide (x = a)) as [->|Hxa].
  - rewrite decide_True by done. rewrite decide_False by (rewrite HQ by set_solver; naive_solver).
    cbn. do 2 f_equal. apply filter_ext_in. intros y Hy. rewrite HQ by set_solver.
    split; [|by intros []]. intros HPy. split; [done|]. by intros ->.
  - assert (IH' := IH ltac:(set_solver) HP ltac:(intros y Hy; apply HQ; set_solver)).
    destruct (decide (P x)) as [HPx|HPx].
    + rewrite decide_True by (apply HQ; set_solver). cbn. by f_equal.
    + rewrite decide_False by (rewrite HQ by set_solver; by intros []). done.
Qed.
End Count.

(** * The layout of the disk *)

Section Alloc.
Context (pid : Z) (D : list (list Z)) (sb : superblock) (lstart lsize outs : Z) (FT : list file).
#[local] Abbreviation tx := (tx pid D sb lstart lsize outs FT).
#[local] Abbreviation room := (room lsize).

(** The first data block: the bitmap lies before it. *)
Definition dstart : Z := sb_bmapstart sb + sb_size sb / BPB + 1.

(** Log, inodes, bitmap and data follow one another ([mkfs.c]). *)
Record layout : Prop := mkLayout {
  ly_log : 1 < lstart;
  ly_lsize : 0 < lsize;
  ly_inodes : lstart + lsize <= sb_inodestart sb;
  ly_ninodes : 0 <= sb_ninodes sb;
  ly_bmap : sb_inodestart sb + sb_ninodes sb / IPB < sb_bmapstart sb;
  ly_data : dstart <= sb_size sb;
  ly_size : sb_size sb <= Z.of_nat (length D);
  ly_width : Z.of_nat (length D) < 2 ^ 31;
}.
Context (G : layout).

(** The bitmap's bit of block [b]. *)
Definition used (V : Z -> list Z) (b : Z) : bool := bit_set (V (BBLOCK b sb)) (b mod BPB).

Definition datab (b : Z) : Prop := dstart <= b < sb_size sb.

(** Blocks are whole, and the blocks before the data are never free. *)
Record fs_ok (V : Z -> list Z) : Prop := mkFsOk {
  fo_len : forall n, 0 <= n < Z.of_nat (length D) -> length (V n) = Z.to_nat BSIZE;
  fo_meta : forall b, 0 <= b < dstart -> used V b = true;
}.

Lemma size_pos : 0 <= sb_size sb / BPB /\ 0 < sb_bmapstart sb.
Proof.
  destruct G as [h1 h2 h3 h4 h5 h6 h7 h8]. unfold dstart in h6. change IPB with 8 in h5. change BPB with 4096 in *.
  assert (0 <= sb_ninodes sb / 8) by (apply Z.div_pos; lia).
  assert (Hs : 0 <= sb_size sb \/ sb_size sb < 0) by lia. destruct Hs as [Hs|Hs].
  - split; [apply Z.div_pos; lia|lia].
  - exfalso. assert (sb_size sb <= sb_size sb / 4096); [|lia].
    apply Z.div_le_lower_bound; lia.
Qed.

Lemma BBLOCK_at b : 0 <= b < sb_size sb -> BBLOCK b sb = b / BPB + sb_bmapstart sb.
Proof.
  intros Hb. pose proof size_pos. unfold BBLOCK. apply u32_id.
  assert (0 <= b / BPB <= sb_size sb / BPB).
  { change BPB with 4096. split; [apply Z.div_pos; lia|apply Z.div_le_mono; lia]. }
  pose proof (ly_data G). pose proof (ly_size G). pose proof (ly_width G). unfold dstart in *. lia.
Qed.

Lemma BBLOCK_range b : 0 <= b < sb_size sb -> sb_bmapstart sb <= BBLOCK b sb < dstart.
Proof.
  intros Hb. rewrite BBLOCK_at by done. unfold dstart.
  assert (0 <= b / BPB <= sb_size sb / BPB); [|lia].
  change BPB with 4096. split; [apply Z.div_pos; lia|apply Z.div_le_mono; lia].
Qed.

Lemma bmap_disk n : sb_bmapstart sb <= n < dstart ->
  0 <= n < Z.of_nat (length D) /\ ~ (lstart <= n < lstart + lsize).
Proof.
  intros Hn. pose proof size_pos. destruct G as [h1 h2 h3 h4 h5 h6 h7 h8]. change IPB with 8 in h5.
  assert (0 <= sb_ninodes sb / 8) by (apply Z.div_pos; lia). lia.
Qed.
Lemma data_disk n : datab n -> 0 <= n < Z.of_nat (length D) /\ ~ (lstart <= n < lstart + lsize).
Proof.
  intros Hn. pose proof size_pos. destruct G as [h1 h2 h3 h4 h5 h6 h7 h8]. change IPB with 8 in h5.
  assert (0 <= sb_ninodes sb / 8) by (apply Z.div_pos; lia). unfold datab, dstart in *. lia.
Qed.

(** ** The bitmap when blocks change *)

Lemma BPB_bit b : 0 <= b mod BPB < 8 * Z.of_nat (Z.to_nat BSIZE).
Proof. apply Z.mod_pos_bound. done. Qed.

Lemma used_other V n l b : ~ (sb_bmapstart sb <= n < dstart) -> 0 <= b < sb_size sb ->
  used (<[n := l]> V) b = used V b.
Proof.
  intros Hn Hb. unfold used. rewrite fn_lookup_insert_ne; [done|].
  pose proof (BBLOCK_range b Hb). intros ->. lia.
Qed.

(** The view after the bitmap's bit of [b] was set, or cleared. *)
Definition mark (V : Z -> list Z) (b : Z) : Z -> list Z :=
  <[BBLOCK b sb := mark_bit (V (BBLOCK b sb)) (b mod BPB)]> V.
Definition unmark (V : Z -> list Z) (b : Z) : Z -> list Z :=
  <[BBLOCK b sb := clear_bit (V (BBLOCK b sb)) (b mod BPB)]> V.
Definition alloc (V : Z -> list Z) (b : Z) : Z -> list Z := <[b := zero_block]> (mark V b).

Lemma block_bit b c : 0 <= b < sb_size sb -> 0 <= c < sb_size sb ->
  BBLOCK b sb = BBLOCK c sb -> b mod BPB = c mod BPB -> b = c.
Proof.
  intros Hb Hc. rewrite !BBLOCK_at by done. intros Hd Hm. change BPB with 4096 in *.
  rewrite (Z.div_mod b 4096), (Z.div_mod c 4096) by lia. lia.
Qed.

Section Bitmap.
Context (V : Z -> list Z) (b : Z) (Hb : 0 <= b < sb_size sb).
Context (HV : length (V (BBLOCK b sb)) = Z.to_nat BSIZE).

Lemma used_mark c : 0 <= c < sb_size sb -> used (mark V b) c = (b =? c) || used V c.
Proof.
  intros Hc. unfold used, mark. destruct (decide (BBLOCK b sb = BBLOCK c sb)) as [E|E].
  - rewrite <- E, fn_lookup_insert, bit_set_mark; [|rewrite HV; apply BPB_bit|by apply Z.mod_pos_bound].
    f_equal. apply eq_bool_prop_intro. rewrite !Is_true_true, !Z.eqb_eq.
    split; [by apply block_bit|congruence].
  - rewrite fn_lookup_insert_ne by done. by rewrite (proj2 (Z.eqb_neq b c)) by congruence.
Qed.

Lemma used_unmark c : 0 <= c < sb_size sb -> used (unmark V b) c = negb (b =? c) && used V c.
Proof.
  intros Hc. unfold used, unmark. destruct (decide (BBLOCK b sb = BBLOCK c sb)) as [E|E].
  - rewrite <- E, fn_lookup_insert, bit_set_clear; [|rewrite HV; apply BPB_bit|by apply Z.mod_pos_bound].
    do 2 f_equal. apply eq_bool_prop_intro. rewrite !Is_true_true, !Z.eqb_eq.
    split; [by apply block_bit|congruence].
  - rewrite fn_lookup_insert_ne by done. by rewrite (proj2 (Z.eqb_neq b c)) by congruence.
Qed.
End Bitmap.

(** ** Allocation in the view *)

Definition nfree (V : Z -> list Z) : nat :=
  length (filter (fun b => used V b = false) (seqZ 0 (sb_size sb))).

Lemma nfree_pos V : (0 < nfree V)%nat <-> exists b, 0 <= b < sb_size sb /\ used V b = false.
Proof.
  unfold nfree. split.
  - destruct (filter _ _) as [|b l] eqn:E; [cbn; lia|]. intros _. exists b.
    assert (Hb : b ∈ filter (fun b => used V b = false) (seqZ 0 (sb_size sb))) by (rewrite E; set_solver).
    apply list_elem_of_filter in Hb as [Hu Hs%elem_of_seqZ]. split; [lia|done].
  - intros (b & Hb & Hu).
    assert (Hin : b ∈ filter (fun b => used V b = false) (seqZ 0 (sb_size sb))).
    { apply list_elem_of_filter. split; [done|]. apply elem_of_seqZ. lia. }
    destruct (filter _ _); [by apply not_elem_of_nil in Hin|cbn; lia].
Qed.

Section View.
Context (V : Z -> list Z) (FO : fs_ok V).

Lemma fs_ok_bmap b : 0 <= b < sb_size sb -> length (V (BBLOCK b sb)) = Z.to_nat BSIZE.
Proof. intros Hb. apply (fo_len _ FO), bmap_disk, BBLOCK_range, Hb. Qed.

Lemma free_data b : 0 <= b < sb_size sb -> used V b = false -> datab b.
Proof.
  intros Hb Hu. split; [|lia]. destruct (Z.le_gt_cases dstart b) as [|Hlt]; [done|].
  rewrite (fo_meta _ FO) in Hu by lia. done.
Qed.

Lemma used_alloc b c : datab b -> 0 <= c < sb_size sb -> used (alloc V b) c = (b =? c) || used V c.
Proof.
  intros Hb Hc. pose proof size_pos. unfold alloc. unfold datab, dstart in Hb.
  rewrite used_other by (unfold dstart; lia). apply used_mark; [lia|apply fs_ok_bmap; lia|done].
Qed.

Lemma alloc_other b n : datab b -> n <> b -> n <> BBLOCK b sb -> alloc V b n = V n.
Proof. intros Hb H1 H2. unfold alloc, mark. by rewrite !fn_lookup_insert_ne. Qed.
Lemma alloc_used b n : datab b -> used V b = false -> datab n -> used V n = true -> alloc V b n = V n.
Proof.
  intros Hb Hub Hn Hun. apply alloc_other; [done|congruence|].
  pose proof size_pos. unfold datab in *. pose proof (BBLOCK_range b). unfold dstart in *. intros ->. lia.
Qed.
Lemma alloc_meta b n : datab b -> n < sb_bmapstart sb -> alloc V b n = V n.
Proof.
  intros Hb Hn. pose proof size_pos. unfold datab in Hb. pose proof (BBLOCK_range b). unfold dstart in *.
  apply alloc_other; [done|lia|lia].
Qed.
Lemma alloc_self b : alloc V b b = zero_block.
Proof. apply fn_lookup_insert. Qed.

Lemma alloc_ok b : datab b -> fs_ok (alloc V b).
Proof.
  intros Hb. split.
  - intros n Hn. unfold alloc, mark. destruct (decide (n = b)) as [->|Hnb]; [by rewrite fn_lookup_insert|].
    rewrite fn_lookup_insert_ne by done. destruct (decide (n = BBLOCK b sb)) as [->|Hne].
    + rewrite fn_lookup_insert, length_mark. by apply (fo_len _ FO).
    + rewrite fn_lookup_insert_ne by done. by apply (fo_len _ FO).
  - intros c Hc. pose proof (ly_data G). rewrite used_alloc by (done || lia). rewrite (fo_meta _ FO) by done. apply orb_true_r.
Qed.

Lemma nfree_alloc b : datab b -> used V b = false -> nfree V = S (nfree (alloc V b)).
Proof.
  intros Hb Hu. pose proof size_pos. apply (filter_drop_one _ _ _ b); [apply NoDup_seqZ| |done|].
  - apply elem_of_seqZ. unfold datab, dstart in Hb. lia.
  - intros c Hc%elem_of_seqZ. rewrite used_alloc by (done || lia).
    destruct (Z.eqb_spec b c) as [->|Hbc]; cbn; naive_solver.
Qed.
End View.

(** ** Room for the bitmap *)

(** The bitmap blocks the transaction has not written yet. *)
Definition bmaps (bs : list Z) : Z :=
  Z.of_nat (length (filter (fun n => n ∉ bs) (seqZ (sb_bmapstart sb) (sb_size sb / BPB + 1)))).

(** Room for [k] blocks besides all of the bitmap. *)
Definition rooms (bs : list Z) (k : Z) : Prop := room bs (bmaps bs + k).

Lemma bmaps_nonneg bs : 0 <= bmaps bs.
Proof. unfold bmaps. lia. Qed.

Lemma bmaps_other bs n : ~ (sb_bmapstart sb <= n < dstart) -> bmaps (logged bs n) = bmaps bs.
Proof.
  intros Hn. unfold bmaps. do 2 f_equal. apply filter_ext_in. intros x Hx%elem_of_seqZ.
  rewrite logged_in. unfold dstart in Hn. split; [tauto|]. intros Hx' [?|?]; [done|lia].
Qed.

Lemma rooms_bitmap bs n k : sb_bmapstart sb <= n < dstart -> rooms bs k -> rooms (logged bs n) k.
Proof.
  intros Hn Hr. destruct (decide (n ∈ bs)) as [Hin|Hni]; [by rewrite logged_id|].
  assert (E : bmaps bs = bmaps (logged bs n) + 1).
  { unfold bmaps. rewrite (filter_drop_one _ (fun m => m ∉ logged bs n) _ n); [lia|apply NoDup_seqZ| |done|].
    - apply elem_of_seqZ. unfold dstart in Hn. lia.
    - intros x _. rewrite logged_in. tauto. }
  unfold rooms, room in *. unfold logged in *. rewrite decide_False in * by done. rewrite length_app. cbn. lia.
Qed.

Lemma rooms_data bs n k : ~ (sb_bmapstart sb <= n < dstart) -> rooms bs (k + 1) -> rooms (logged bs n) k.
Proof.
  intros Hn Hr. unfold rooms. rewrite bmaps_other by done. apply room_logged.
  by rewrite <- Z.add_assoc.
Qed.
Lemma rooms_absorbed bs n k : n ∈ bs -> rooms bs k -> rooms (logged bs n) k.
Proof. intros Hn. by rewrite logged_id. Qed.
Lemma rooms_le bs k k' : rooms bs k -> k' <= k -> rooms bs k'.
Proof. unfold rooms, room. lia. Qed.
Lemma rooms_room bs k : rooms bs k -> room bs k.
Proof. pose proof (bmaps_nonneg bs). unfold rooms, room. lia. Qed.

(** * The operations *)

(** Buffers held across an allocation: none, or one of a data block in use. *)
Definition holds (V : Z -> list Z) (H : list (nat * Z)) : Prop :=
  H = [] \/ exists h n, H = [(h, n)] /\ datab n /\ used V n = true.

Lemma holds_bitmap V H n : holds V H -> sb_bmapstart sb <= n < dstart -> n ∉ H.*2.
Proof. intros [->|(h & m & -> & Hm & _)] Hn; [set_solver|]. unfold datab in Hm.
  apply not_elem_of_cons. split; [cbn; lia|apply not_elem_of_nil].
Qed.
Lemma holds_free V H b : holds V H -> used V b = false -> b ∉ H.*2.
Proof. intros [->|(h & m & -> & Hm & Hu)] Hn; [apply not_elem_of_nil|].
  apply not_elem_of_cons. split; [cbn; congruence|apply not_elem_of_nil].
Qed.
Lemma holds_bread V H bs n : holds V H -> room bs 1 -> n ∈ bs \/ H = [] \/ (length H = 1%nat /\ room bs 1).
Proof. intros [->|(h & m & -> & _)] Hr; auto. Qed.

Context (Hout : 1 <= outs).

Lemma bzero_ok H bs V IC s b :
  tx H bs V IC s -> datab b -> b ∉ H.*2 -> H = [] \/ length H = 1%nat -> room bs 1 ->
  returns (bzero 1 b) s (fun _ => tx H (logged bs b) (<[b := zero_block]> V) IC).
Proof.
  intros X Hb HH Hlen Hr. destruct (data_disk b Hb) as [Hd Hl]. unfold bzero.
  tx_step (tx_bread pid D sb lstart lsize outs FT H bs V IC s) as bp s1 X1; [naive_solver|].
  tx_step (tx_set_data pid D sb lstart lsize outs FT _ bs V IC s1) as u s2 X2.
  tx_step (tx_log_write pid D sb lstart lsize outs FT _ bs _ IC s2) as u' s3 X3.
  eapply tx_brelse; [done|done|]. left. apply logged_in. by right.
Qed.

(** One turn of [balloc]'s loop over the bitmap: it has passed the blocks
    before [b], all in use. *)
Definition balloc_at (V : Z -> list Z) (b : Z) : Prop :=
  0 <= b /\ b mod BPB = 0 /\ forall c, 0 <= c < b -> c < sb_size sb -> used V c = true.

Lemma balloc_bits V b bi :
  balloc_at V b -> 0 <= bi < Z.min BPB (sb_size sb - b) ->
  used V (b + bi) = bit_set (V (BBLOCK b sb)) bi /\ BBLOCK (b + bi) sb = BBLOCK b sb /\ (b + bi) mod BPB = bi.
Proof.
  intros (Hb & Hm & _) Hbi. change BPB with 4096 in *. unfold used. change BPB with 4096.
  assert (Ed : (b + bi) / 4096 = b / 4096).
  { rewrite (Z.div_mod b 4096), Hm, Z.add_0_r, Z.mul_comm by lia. rewrite Z.add_comm, Z.div_add, Z.div_mul by lia.
    rewrite Z.div_small by lia. lia. }
  assert (Em : (b + bi) mod 4096 = bi) by (rewrite Z.add_mod, Hm, Z.add_0_l, Z.mod_mod by lia; apply Z.mod_small; lia).
  assert (EB : BBLOCK (b + bi) sb = BBLOCK b sb) by (unfold BBLOCK; change BPB with 4096; by rewrite Ed).
  by rewrite EB, Em.
Qed.

Lemma balloc_next V b : balloc_at V b ->
  (forall bi, 0 <= bi < Z.min BPB (sb_size sb - b) -> bit_set (V (BBLOCK b sb)) bi = true) -> balloc_at V (b + BPB).
Proof.
  intros Hat Hall. pose proof Hat as (Hb & Hm & Hused). split; [change BPB with 4096; lia|]. split.
  - change BPB with 4096 in *. rewrite Z.add_mod, Hm by lia. done.
  - intros c Hc Hsz. destruct (Z.lt_ge_cases c b) as [|Hge]; [apply Hused; lia|].
    replace c with (b + (c - b)) by lia. rewrite (proj1 (balloc_bits V b (c - b) Hat ltac:(lia))). apply Hall. lia.
Qed.

Section Turn.
Context (H : list (nat * Z)) (bs : list Z) (V : Z -> list Z) (IC : list inode) (s : kstate).
Context (X : tx H bs V IC s) (FO : fs_ok V) (HH : holds V H) (Hr : rooms bs 2).
Context (b : Z) (Hat : balloc_at V b) (Hb : b < sb_size sb).
#[local] Abbreviation bits := (free_bit (V (BBLOCK b sb)) (Z.to_nat (Z.min BPB (sb_size sb - b)))).

Lemma balloc_read :
  returns (bread 1 (BBLOCK b sb)) s (fun bp => tx ((bp, BBLOCK b sb) :: H) bs V IC).
Proof using X G HH Hr Hat Hb.
  assert (HB : sb_bmapstart sb <= BBLOCK b sb < dstart) by (apply BBLOCK_range; destruct Hat; lia).
  apply tx_bread; [done|by apply bmap_disk|by eapply holds_bitmap|].
  eapply holds_bread; [done|]. apply rooms_room. by eapply rooms_le.
Qed.

(** All blocks of this part are in use. *)
Lemma balloc_pass (found : nat -> list Z -> nat -> K (Z + Z)) :
  bits = None ->
  returns (bp <- bread 1 (BBLOCK b sb);; l <- buf_data bp;;
           match free_bit l (Z.to_nat (Z.min BPB (sb_size sb - b))) with
           | Some bi => found bp l bi
           | None => brelse bp;;; ret (inl (b + BPB))
           end) s (fun x s' => x = inl (b + BPB) /\ tx H bs V IC s' /\ balloc_at V (b + BPB)).
Proof using X G HH Hr Hat Hb.
  intros HN. assert (HB : sb_bmapstart sb <= BBLOCK b sb < dstart) by (apply BBLOCK_range; destruct Hat; lia).
  tx_step balloc_read as bp s1 X1.
  tx_step (tx_buf_data pid D sb lstart lsize outs FT _ bs V IC s1) as l s2 X2. destruct X2 as [-> ->]. rewrite HN.
  tx_step (tx_brelse pid D sb lstart lsize outs FT _ bs V IC s1) as u s3 X3.
  { eapply tx_clean; [exact X|by apply bmap_disk|by eapply holds_bitmap]. }
  apply returns_ret. split; [done|]. split; [done|]. apply balloc_next; [done|].
  intros bi Hbi. replace bi with (Z.of_nat (Z.to_nat bi)) by lia. eapply free_bit_None; [done|lia].
Qed.

(** Block [bi] of this part is the first free one. *)
Lemma balloc_found (Q : Z + Z -> kstate -> Prop) (passed : nat -> K (Z + Z)) bi :
  bits = Some bi ->
  (let c := b + Z.of_nat bi in
   datab c -> used V c = false -> (forall d, 0 <= d < c -> used V d = true) ->
   forall s', tx H (logged (logged bs (BBLOCK c sb)) c) (alloc V c) IC s' -> Q (inr c) s') ->
  returns (bp <- bread 1 (BBLOCK b sb);; l <- buf_data bp;;
           match free_bit l (Z.to_nat (Z.min BPB (sb_size sb - b))) with
           | Some bi =>
             set_buf_data bp (mark_bit l (Z.of_nat bi));;;
             log_write bp;;;
             brelse bp;;;
             bzero 1 (b + Z.of_nat bi);;;
             ret (inr (b + Z.of_nat bi))
           | None => passed bp
           end) s Q.
Proof using X G Hout FO HH Hr Hat Hb.
  intros HS HQ. assert (HB : sb_bmapstart sb <= BBLOCK b sb < dstart) by (apply BBLOCK_range; destruct Hat; lia).
  destruct (free_bit_Some _ _ _ HS) as (Hbi & Hclr & Hmin).
  destruct (balloc_bits V b (Z.of_nat bi) Hat) as (Eu & EB & Em); [lia|].
  cbv zeta in HQ. set (c := b + Z.of_nat bi) in *. rewrite Hclr in Eu.
  assert (Hc : 0 <= c < sb_size sb) by (destruct Hat; lia). assert (Hdc := free_data V FO c Hc Eu).
  assert (Hcb : ~ (sb_bmapstart sb <= c < dstart)) by (unfold datab in Hdc; lia).
  tx_step balloc_read as bp s1 X1.
  tx_step (tx_buf_data pid D sb lstart lsize outs FT _ bs V IC s1) as l s2 X2. destruct X2 as [-> ->]. rewrite HS.
  tx_step (tx_set_data pid D sb lstart lsize outs FT _ bs V IC s1) as u s2 X2.
  tx_step (tx_log_write pid D sb lstart lsize outs FT _ bs _ IC s2) as u' s3 X3;
    [by apply bmap_disk|apply rooms_room; by eapply rooms_le|].
  tx_step (tx_brelse pid D sb lstart lsize outs FT _ _ _ IC s3) as u'' s4 X4; [left; apply logged_in; by right|].
  tx_step (bzero_ok H _ _ IC s4 c) as w s5 X5.
  { by eapply holds_free. }
  { destruct HH as [->|(h & m & -> & _)]; auto. }
  { apply rooms_room. apply rooms_bitmap; [done|]. by eapply rooms_le. }
  apply returns_ret, HQ; [done..| |].
  - intros d Hd. destruct (Z.lt_ge_cases d b) as [|Hge]; [destruct Hat as (_ & _ & h); apply h; lia|].
    replace d with (b + (d - b)) by lia. rewrite (proj1 (balloc_bits V b (d - b) Hat ltac:(lia))).
    replace (d - b) with (Z.of_nat (Z.to_nat (d - b))) by lia. apply Hmin. lia.
  - unfold alloc, mark. by rewrite EB, Em.
Qed.
End Turn.

Definition balloc_meas (b : Z) : nat := Z.to_nat (sb_size sb / BPB + 1 - b / BPB).

Lemma balloc_meas_next b : 0 <= b < sb_size sb -> (balloc_meas (b + BPB) < balloc_meas b)%nat.
Proof.
  intros Hb. unfold balloc_meas. assert (b / BPB <= sb_size sb / BPB) by (apply Z.div_le_mono; [done|lia]).
  change BPB with 4096 in *. replace (b + 4096) with (b + 1 * 4096) by lia. rewrite Z.div_add by lia.
  assert (0 <= b / 4096) by (apply Z.div_pos; lia). lia.
Qed.

Lemma balloc_ok H bs V IC s :
  tx H bs V IC s -> fs_ok V -> holds V H -> rooms bs 2 -> (0 < nfree V)%nat ->
  returns (balloc 1) s (fun b s' => datab b /\ used V b = false /\ (forall c, 0 <= c < b -> used V c = true) /\
    tx H (logged (logged bs (BBLOCK b sb)) b) (alloc V b) IC s').
Proof.
  intros X FO HH Hr (f & Hf & Huf)%nfree_pos. unfold balloc.
  tx_step (tx_get_sb pid D sb lstart lsize outs FT H bs V IC s) as sb' s0 E. destruct E as [-> ->].
  eapply (returns_loop (fun b s => tx H bs V IC s /\ balloc_at V b) balloc_meas).
  - split; [done|]. split; [done|]. split; [done|]. lia.
  - unfold balloc_meas. rewrite Z.div_0_l by done. pose proof size_pos. lia.
  - clear s X. intros b s [X Hat]. destruct (Z.ltb_spec b (sb_size sb)) as [Hb|Hb].
    + destruct (free_bit (V (BBLOCK b sb)) (Z.to_nat (Z.min BPB (sb_size sb - b)))) as [bi|] eqn:EF.
      * by eapply (balloc_found H bs V IC s X FO HH Hr b Hat Hb).
      * eapply returns_mono; [by eapply (balloc_pass H bs V IC s X HH Hr b Hat Hb)|].
        intros x s' (-> & X' & Hat'). split; [done|]. apply balloc_meas_next. destruct Hat; lia.
    + exfalso. destruct Hat as (_ & _ & Hused). rewrite Hused in Huf by lia. done.
Qed.

Lemma balloc_full H bs V IC s :
  tx H bs V IC s -> fs_ok V -> holds V H -> rooms bs 2 -> nfree V = 0%nat ->
  balloc 1 s = Panic "balloc: out of blocks".
Proof.
  intros X FO HH Hr Hfull. unfold balloc.
  destruct (tx_get_sb pid D sb lstart lsize outs FT H bs V IC s X) as (sb' & s0 & E & -> & ->).
  rewrite (bind_eq _ _ _ _ _ E).
  assert (Hall : forall c, 0 <= c < sb_size sb -> used V c = true).
  { intros c Hc. destruct (used V c) eqn:Hu; [done|]. assert (0 < nfree V)%nat by (apply nfree_pos; eauto). lia. }
  eapply (panics_loop (fun b s => tx H bs V IC s /\ balloc_at V b) balloc_meas).
  - split; [done|]. split; [done|]. split; [done|]. lia.
  - unfold balloc_meas. rewrite Z.div_0_l by done. pose proof size_pos. lia.
  - clear s X E. intros b s [X Hat]. destruct (Z.ltb_spec b (sb_size sb)) as [Hb|Hb]; [right|by left].
    edestruct (balloc_pass H bs V IC s X HH Hr b Hat Hb) as (x & s' & E & -> & X' & Hat').
    { destruct (free_bit _ _) as [bi|] eqn:EF; [exfalso|done]. destruct (free_bit_Some _ _ _ EF) as (Hbi & Hclr & _).
      destruct (balloc_bits V b (Z.of_nat bi) Hat) as (Eu & _); [lia|]. rewrite Hall in Eu by (destruct Hat; lia). congruence. }
    eexists _, _. split; [exact E|]. split; [done|]. apply balloc_meas_next. destruct Hat; lia.
Qed.

(** Outside a transaction a free block cannot be taken: the change of the
    bitmap has no log to go to. *)
Lemma tx_log_write_outside H bs V IC s b : tx H bs V IC s -> room bs 1 -> outs < 1 ->
  log_write b s = Panic "log_write outside of trans".
Proof using .
  clear Hout. intros X Hr Ho. destruct (tx_capacity _ _ _ _ _ _ _ _ _ _ _ _ X) as (_ & Hb & _). destruct X as [_ _ HL _ Hsz Hou _ _ _ _].
  unfold log_write. mrun. rewrite (lo_n _ _ _ HL), Hsz, Hou. unfold room in Hr. change LOGSIZE with 30.
  rewrite (proj2 (Z.leb_gt _ _)), (proj2 (Z.leb_gt _ _)), (proj2 (Z.ltb_lt _ _)) by lia. done.
Qed.

Lemma balloc_outside H bs V IC s :
  tx H bs V IC s -> holds V H -> rooms bs 2 -> outs < 1 -> (0 < nfree V)%nat ->
  balloc 1 s = Panic "log_write outside of trans".
Proof using G.
  clear Hout. intros X HH Hr Ho (f & Hf & Huf)%nfree_pos. unfold balloc.
  destruct (tx_get_sb pid D sb lstart lsize outs FT H bs V IC s X) as (sb' & s0 & E & -> & ->).
  rewrite (bind_eq _ _ _ _ _ E).
  eapply (panics_loop (fun b s => tx H bs V IC s /\ balloc_at V b) balloc_meas).
  - split; [done|]. split; [done|]. split; [done|]. lia.
  - unfold balloc_meas. rewrite Z.div_0_l by done. pose proof size_pos. lia.
  - clear s X E. intros b s [X Hat]. destruct (Z.ltb_spec b (sb_size sb)) as [Hb|Hb].
    2: { exfalso. destruct Hat as (_ & _ & Hused). rewrite Hused in Huf by lia. done. }
    destruct (free_bit (V (BBLOCK b sb)) (Z.to_nat (Z.min BPB (sb_size sb - b)))) as [bi|] eqn:EF; [left|right].
    + panic_step (balloc_read H bs V IC s X HH Hr b Hat Hb) as bp s1 X1.
      panic_step (tx_buf_data pid D sb lstart lsize outs FT _ bs V IC s1) as l s2 X2. destruct X2 as [-> ->]. rewrite EF.
      panic_step (tx_set_data pid D sb lstart lsize outs FT _ bs V IC s1) as u s3 X3.
      eapply panics_first, tx_log_write_outside; [exact X3| |done]. apply rooms_room. by eapply rooms_le.
    + edestruct (balloc_pass H bs V IC s X HH Hr b Hat Hb) as (x & s' & E & -> & X' & Hat'); [exact EF|].
      eexists _, _. split; [exact E|]. split; [done|]. apply balloc_meas_next. destruct Hat; lia.
Qed.
End Alloc.

(** C11: inside a transaction with room, [balloc] returns the first block that
    the bitmap says is free, which is always a data block; it marks that block,
    clears it, and touches no other block and no other bit.  When no block is
    free it panics. *)
Theorem balloc_spec pid D sb lstart lsize outs FT H bs V IC s :
  layout D sb lstart lsize -> 1 <= outs -> tx pid D sb lstart lsize outs FT H bs V IC s ->
  fs_ok D sb V -> holds sb V H -> rooms sb lsize bs 2 ->
  if Nat.eqb (nfree sb V) 0 then balloc 1 s = Panic "balloc: out of blocks"
  else returns (balloc 1) s (fun b s' => exists V' bs', tx pid D sb lstart lsize outs FT H bs' V' IC s' /\
    datab sb b /\ used sb V b = false /\ (forall c, 0 <= c < b -> used sb V c = true) /\
    V' b = zero_block /\ fs_ok D sb V' /\ nfree sb V = S (nfree sb V') /\
    (forall c, 0 <= c < sb_size sb -> used sb V' c = (b =? c) || used sb V c) /\
    (forall n, n <> b -> n <> BBLOCK b sb -> V' n = V n)).
Proof.
  intros G Hout X FO HH Hr. destruct (Nat.eqb_spec (nfree sb V) 0) as [Hz|Hnz].
  - by eapply balloc_full.
  - eapply returns_mono; [eapply balloc_ok; try done; lia|]. intros b s' (Hb & Hu & Hmin & X').
    eexists _, _. split; [exact X'|]. split; [done|]. split; [done|]. split; [done|].
    split; [apply alloc_self|]. split; [by eapply alloc_ok|]. split; [by eapply nfree_alloc|].
    split; [intros c Hc; by eapply used_alloc|]. intros n H1 H2. by apply (alloc_other sb).
Qed.
