(* ===== verification/FsMap.v ===== *)
(** The blocks of a file.  [faddr] is the map from file blocks to disk blocks
    that an inode's addresses and its indirect block make, [file_ok] says that
    it is one-to-one into blocks in use, and [bmap] returns [faddr], allocating
    a zeroed block where there is none.  [grows] is what extending a file
    leaves alone: the metadata and the blocks of all other files. *)
From stdpp Require Import functions.
From S2P Require Import Prelude Kstate Mem MemSpec Sched Sleeplock Bio BioSpec Log LogSpec LogOps Inode FsTx FsBlock.

Section Map.
Context (D : list (list Z)) (sb : superblock) (lstart lsize : Z).
#[local] Abbreviation layout := (layout D sb lstart lsize).
#[local] Abbreviation fs_ok := (fs_ok D sb).
#[local] Abbreviation used := (used sb).
#[local] Abbreviation datab := (datab sb).
#[local] Abbreviation alloc := (alloc sb).

(** * The map *)

Definition ia (A : list Z) (k : Z) : Z := default 0 (A !! Z.to_nat k).

Definition faddr (V : Z -> list Z) (A : list Z) (bn : Z) : Z :=
  if bn <? NDIRECT then ia A bn
  else if ia A NDIRECT =? 0 then 0
  else get32 (V (ia A NDIRECT)) (4 * (bn - NDIRECT)).

Definition fblock (bn : Z) : Prop := 0 <= bn < MAXFILE.

Record file_ok (V : Z -> list Z) (A : list Z) : Prop := mkFileOk {
  fl_len : length A = Z.to_nat (NDIRECT + 1);
  fl_blk : forall bn, fblock bn -> faddr V A bn <> 0 ->
    datab (faddr V A bn) /\ used V (faddr V A bn) = true;
  fl_inj : forall bn bn', fblock bn -> fblock bn' -> faddr V A bn <> 0 ->
    faddr V A bn = faddr V A bn' -> bn = bn';
  fl_ind : ia A NDIRECT <> 0 -> datab (ia A NDIRECT) /\ used V (ia A NDIRECT) = true;
  fl_sep : forall bn, fblock bn -> ia A NDIRECT <> 0 -> faddr V A bn <> ia A NDIRECT;
}.

(** Block [n] belongs to the file. *)
Definition owns (V : Z -> list Z) (A : list Z) (n : Z) : Prop :=
  n <> 0 /\ (n = ia A NDIRECT \/ exists bn, fblock bn /\ faddr V A bn = n).

Record grows (V : Z -> list Z) (A : list Z) (V' : Z -> list Z) (A' : list Z) : Prop := mkGrows {
  gr_used : forall b, datab b -> used V b = true -> used V' b = true;
  gr_data : forall n, datab n -> used V n = true -> ~ owns V A n -> V' n = V n;
  gr_meta : forall n, n < sb_bmapstart sb -> V' n = V n;
  gr_new : forall n, datab n -> owns V' A' n -> owns V A n \/ used V n = false;
}.

Lemma fgrows_refl V A : grows V A V A.
Proof. split; auto. Qed.

Lemma fgrows_trans V A V1 A1 V2 A2 : grows V A V1 A1 -> grows V1 A1 V2 A2 -> grows V A V2 A2.
Proof.
  intros [u1 d1 m1 n1] [u2 d2 m2 n2]. split; [auto| | |].
  - intros n Hn Hu Ho. rewrite d2, d1; [done|done|done|done|done|auto|].
    intros Ho1. destruct (n1 n Hn Ho1); [done|congruence].
  - intros n Hn. by rewrite m2, m1.
  - intros n Hn Ho. destruct (n2 n Hn Ho) as [Ho1|Hf]; [by apply n1|right].
    destruct (used V n) eqn:Hu; [|done]. rewrite u1 in Hf by done. done.
Qed.

Lemma owns_data V A n : file_ok V A -> owns V A n -> datab n /\ used V n = true.
Proof.
  intros FL [Hn [->|(bn & Hbn & <-)]]; [by apply (fl_ind _ _ FL)|by apply (fl_blk _ _ FL)].
Qed.

(** A file that shares no block with one that grows stays as it is. *)
Section Other.
Context (V : Z -> list Z) (A : list Z) (V' : Z -> list Z) (A' B : list Z).
Context (GR : grows V A V' A') (FB : file_ok V B) (Hsep : forall n, owns V A n -> ~ owns V B n).

Lemma other_block n : owns V B n -> V' n = V n.
Proof using GR FB Hsep.
  intros Hn. destruct (owns_data _ _ _ FB Hn) as [Hd Hu]. apply (gr_data _ _ _ _ GR); [done..|].
  intros Ho. by apply (Hsep n).
Qed.

Lemma other_faddr bn : faddr V' B bn = faddr V B bn.
Proof using GR FB Hsep.
  unfold faddr. destruct (bn <? NDIRECT); [done|]. destruct (Z.eqb_spec (ia B NDIRECT) 0) as [|Hi]; [done|].
  rewrite other_block; [done|]. split; [done|by left].
Qed.

Lemma other_owns n : owns V' B n <-> owns V B n.
Proof using GR FB Hsep. unfold owns. by setoid_rewrite other_faddr. Qed.

Lemma other_ok : file_ok V' B.
Proof using GR FB Hsep.
  assert (Hu : forall n, owns V B n -> used V' n = true).
  { intros n Hn. destruct (owns_data _ _ _ FB Hn). by apply (gr_used _ _ _ _ GR). }
  destruct FB as [h1 h2 h3 h4 h5]. split; try setoid_rewrite other_faddr; try done.
  - intros bn Hbn Hn. split; [by apply h2|]. apply Hu. split; [done|]. right. eauto.
  - intros Hn. split; [by apply h4|]. apply Hu. split; [done|]. by left.
Qed.

Lemma other_sep : forall n, owns V' A' n -> ~ owns V' B n.
Proof using GR FB Hsep.
  intros n Ho. rewrite other_owns. intros HB. destruct (owns_data _ _ _ FB HB) as [Hd Hu].
  destruct (gr_new _ _ _ _ GR n Hd Ho) as [HA|Hf]; [by apply (Hsep n)|congruence].
Qed.
End Other.

(** * Adding a block *)

(** The blocks that mapping [bn] allocates. *)
Definition cost (V : Z -> list Z) (A : list Z) (bn : Z) : nat :=
  Nat.add (if faddr V A bn =? 0 then 1%nat else 0%nat)
    (if (NDIRECT <=? bn) && (ia A NDIRECT =? 0) then 1%nat else 0%nat).

(** From [V], [A] to [V'], [A'], file block [bn] got the disk block [a], or
    had it already. *)
Record mapped (bn a : Z) (V : Z -> list Z) (A : list Z) (V' : Z -> list Z) (A' : list Z) : Prop := mkMapped {
  mp_ok : fs_ok V';
  mp_file : file_ok V' A';
  mp_grows : grows V A V' A';
  mp_at : faddr V' A' bn = a;
  mp_nz : a <> 0;
  mp_rest : forall n, fblock n -> n <> bn -> faddr V' A' n = faddr V A n;
  mp_data : forall n, fblock n -> faddr V A n <> 0 ->
    faddr V' A' n = faddr V A n /\ V' (faddr V A n) = V (faddr V A n);
  mp_zero : faddr V A bn = 0 -> V' a = zero_block;
  mp_ind : ia A NDIRECT <> 0 \/ bn < NDIRECT -> ia A' NDIRECT = ia A NDIRECT;
  mp_indz : NDIRECT <= bn -> ia A' NDIRECT <> 0;
  mp_free : (nfree sb V' + cost V A bn)%nat = nfree sb V;
}.

Section Steps.
Context (G : layout) (V : Z -> list Z) (A : list Z) (FO : fs_ok V) (FL : file_ok V A).

(** It is there already. *)
Lemma mapped_already bn : fblock bn -> faddr V A bn <> 0 -> mapped bn (faddr V A bn) V A V A.
Proof using FO FL.
  intros Hbn Hn. assert (Hi : NDIRECT <= bn -> ia A NDIRECT <> 0).
  { intros Hge Hz. apply Hn. unfold faddr. rewrite (proj2 (Z.ltb_ge _ _)) by done. by rewrite Hz. }
  split; try done; [apply fgrows_refl|].
  unfold cost. rewrite (proj2 (Z.eqb_neq _ _)) by done.
  destruct (Z.leb_spec NDIRECT bn); cbn; [|lia]. rewrite (proj2 (Z.eqb_neq _ _)) by auto. lia.
Qed.

Context (b : Z) (Hb : datab b) (Hfree : used V b = false).

Lemma fresh_nz : b <> 0.
Proof using G Hb. pose proof (size_pos _ _ _ _ G). unfold FsBlock.datab, dstart in Hb. lia. Qed.
Lemma fresh_u32 : u32 b = b.
Proof using G Hb. apply u32_id. destruct (data_disk _ _ _ _ G b Hb). pose proof (ly_width _ _ _ _ G). lia. Qed.
Lemma fresh_ne n : owns V A n -> n <> b.
Proof using FL Hfree. intros Hn ->. destruct (owns_data _ _ _ FL Hn). congruence. Qed.
Lemma owns_faddr n : fblock n -> faddr V A n <> 0 -> owns V A (faddr V A n).
Proof. intros Hn Hz. split; [done|right; eauto]. Qed.
Lemma owns_ind : ia A NDIRECT <> 0 -> owns V A (ia A NDIRECT).
Proof. intros Hz. split; [done|by left]. Qed.
Lemma alloc_owned n : owns V A n -> alloc V b n = V n.
Proof using G FO FL Hb Hfree.
  intros Hn. destruct (owns_data _ _ _ FL Hn). by eapply (alloc_used D sb lstart lsize).
Qed.

(** A new data block, mapped at [bn] directly or through the indirect block. *)
Section Data.
Context (bn : Z) (V' : Z -> list Z) (A' : list Z) (Hbn : fblock bn) (Hz : faddr V A bn = 0).
Context (Hlen : length A' = length A) (Hind : ia A' NDIRECT = ia A NDIRECT) (Hindz : NDIRECT <= bn -> ia A NDIRECT <> 0).
Context (Hf : forall n, fblock n -> faddr V' A' n = if n =? bn then b else faddr V A n).
Context (HV : forall n, n <> ia A NDIRECT \/ ia A NDIRECT = 0 -> V' n = alloc V b n).
Context (Hl : ia A NDIRECT <> 0 -> length (V' (ia A NDIRECT)) = Z.to_nat BSIZE).

Lemma used_grown c : 0 <= c < sb_size sb -> used V' c = (b =? c) || used V c.
Proof using All.
  intros Hc. rewrite <- (used_alloc D sb lstart lsize G V FO b c Hb Hc). unfold FsBlock.used. rewrite HV; [done|].
  destruct (Z.eq_dec (ia A NDIRECT) 0) as [|Hi]; [by right|left].
  destruct (fl_ind _ _ FL Hi) as [Hd _]. pose proof (BBLOCK_range _ _ _ _ G c Hc). unfold FsBlock.datab in Hd. lia.
Qed.
Lemma used_grown_data c : datab c -> used V' c = (b =? c) || used V c.
Proof using All.
  intros Hc. apply used_grown. pose proof (size_pos _ _ _ _ G). unfold FsBlock.datab, dstart in Hc. lia.
Qed.

Lemma grown_fs_ok : fs_ok V'.
Proof using All.
  pose proof (alloc_ok D sb lstart lsize G V FO b Hb) as FO'. split.
  - intros n Hn. destruct (Z.eq_dec (ia A NDIRECT) 0) as [Hi|Hi].
    + rewrite HV by auto. by apply (fo_len _ _ _ FO').
    + destruct (Z.eq_dec n (ia A NDIRECT)) as [->|Hne]; [auto|]. rewrite HV by auto. by apply (fo_len _ _ _ FO').
  - intros c Hc. pose proof (ly_data _ _ _ _ G). rewrite used_grown by lia. rewrite (fo_meta _ _ _ FO) by done. apply orb_true_r.
Qed.

Lemma grown_owned n : owns V A n -> n <> ia A NDIRECT -> V' n = V n.
Proof using All. intros Hn Hne. rewrite HV by auto. by apply alloc_owned. Qed.

Lemma grown_file_ok : file_ok V' A'.
Proof using All.
  assert (Hb0 := fresh_nz). pose proof FL as [h1 h2 h3 h4 h5]. split.
  - congruence.
  - intros n Hn. rewrite Hf by done. destruct (Z.eqb_spec n bn) as [->|Hne]; intros Hnz.
    + split; [done|]. rewrite used_grown_data, Z.eqb_refl by done. done.
    + destruct (h2 n Hn Hnz) as [Hd Hu]. split; [done|]. rewrite used_grown_data, Hu by done. apply orb_true_r.
  - intros n n' Hn Hn'. rewrite !Hf by done.
    destruct (Z.eqb_spec n bn) as [->|Hne], (Z.eqb_spec n' bn) as [->|Hne']; [done| | |by apply h3].
    + intros _ E. destruct (fresh_ne (faddr V A n')); [|done]. apply owns_faddr; congruence.
    + intros Hnz E. destruct (fresh_ne (faddr V A n)); [|done]. by apply owns_faddr.
  - rewrite Hind. intros Hi. destruct (h4 Hi) as [Hd Hu]. split; [done|]. rewrite used_grown_data, Hu by done. apply orb_true_r.
  - intros n Hn Hi. rewrite Hf, Hind by done. rewrite Hind in Hi. destruct (Z.eqb_spec n bn) as [->|Hne]; [|by apply h5].
    intros E. destruct (fresh_ne (ia A NDIRECT)); [|done]. by apply owns_ind.
Qed.

Lemma grown_grows : grows V A V' A'.
Proof using All.
  pose proof (size_pos _ _ _ _ G) as Hsz. split.
  - intros c Hc Hu. rewrite used_grown_data, Hu by done. apply orb_true_r.
  - intros n Hn Hu Ho. rewrite HV.
    + by eapply (alloc_used D sb lstart lsize).
    + destruct (Z.eq_dec (ia A NDIRECT) 0) as [|Hi]; [by right|left]. intros ->. by apply Ho, owns_ind.
  - intros n Hn. rewrite HV.
    + by eapply (alloc_meta D sb lstart lsize).
    + destruct (Z.eq_dec (ia A NDIRECT) 0) as [|Hi]; [by right|left]. destruct (fl_ind _ _ FL Hi) as [Hd _].
      unfold FsBlock.datab, dstart in Hd. lia.
  - intros n Hn [Hnz [->|(k & Hk & <-)]]; [left; split; [done|left; done]|].
    rewrite Hf in * by done. destruct (Z.eqb_spec k bn); [by right|left]. by apply owns_faddr.
Qed.

Lemma grown_mapped : mapped bn b V A V' A'.
Proof using All.
  assert (Hfb : faddr V' A' bn = b) by (rewrite Hf, Z.eqb_refl; done).
  split.
  - apply grown_fs_ok.
  - apply grown_file_ok.
  - apply grown_grows.
  - done.
  - by apply fresh_nz.
  - intros n Hn Hne. rewrite Hf by done. by rewrite (proj2 (Z.eqb_neq _ _)).
  - intros n Hn Hnz. rewrite Hf by done. destruct (Z.eqb_spec n bn) as [->|Hne]; [done|]. split; [done|].
    apply grown_owned; [by apply owns_faddr|]. intros E. apply (fl_sep _ _ FL n Hn); congruence.
  - intros _. rewrite HV; [apply alloc_self|]. destruct (Z.eq_dec (ia A NDIRECT) 0) as [|Hi]; [by right|left].
    intros E. by apply (fresh_ne (ia A NDIRECT)); [apply owns_ind|].
  - done.
  - rewrite Hind. done.
  - rewrite (nfree_alloc D sb lstart lsize G V FO b Hb Hfree). unfold cost. rewrite Hz. cbn.
    replace (_ && _) with false; [|destruct (Z.leb_spec NDIRECT bn); [|done]; symmetry; apply Z.eqb_neq; auto].
    rewrite Nat.add_comm. cbn. f_equal. unfold nfree. f_equal. apply filter_ext_in. intros c Hc%elem_of_seqZ.
    rewrite used_grown by lia. rewrite (used_alloc D sb lstart lsize G V FO b c Hb) by lia. done.
Qed.
End Data.

Lemma alloc_faddr n : faddr (alloc V b) A n = faddr V A n.
Proof using G FO FL Hb Hfree.
  unfold faddr. destruct (n <? NDIRECT); [done|]. destruct (Z.eqb_spec (ia A NDIRECT) 0); [done|].
  rewrite alloc_owned; [done|]. by apply owns_ind.
Qed.

Lemma ia_insert k x n : 0 <= k < NDIRECT + 1 -> 0 <= n -> ia (<[Z.to_nat k := x]> A) n = if n =? k then x else ia A n.
Proof using FL.
  intros Hk Hn. unfold ia. destruct (Z.eqb_spec n k) as [->|Hne].
  - rewrite list_lookup_insert_eq; [done|]. rewrite (fl_len _ _ FL). lia.
  - by rewrite list_lookup_insert_ne by lia.
Qed.

Lemma mapped_direct bn : 0 <= bn < NDIRECT -> faddr V A bn = 0 ->
  mapped bn b V A (alloc V b) (<[Z.to_nat bn := b]> A).
Proof using G FO FL Hb Hfree.
  intros Hbn Hz. change NDIRECT with 12 in *.
  assert (Hi : ia (<[Z.to_nat bn := b]> A) 12 = ia A 12).
  { rewrite ia_insert by (change NDIRECT with 12; lia). by rewrite (proj2 (Z.eqb_neq _ _)) by lia. }
  apply grown_mapped; change NDIRECT with 12.
  - unfold fblock. change MAXFILE with 140. lia.
  - done.
  - apply length_insert.
  - done.
  - lia.
  - intros n Hn. rewrite <- alloc_faddr. unfold faddr. change NDIRECT with 12. rewrite Hi.
    destruct (Z.ltb_spec n 12).
    + unfold fblock in Hn. rewrite ia_insert by (change NDIRECT with 12; lia). done.
    + by rewrite (proj2 (Z.eqb_neq n bn)) by lia.
  - done.
  - intros Hnz. rewrite alloc_owned by (by apply owns_ind). destruct (fl_ind _ _ FL Hnz) as [Hd _].
    by apply (fo_len _ _ _ FO), (data_disk _ _ _ _ G).
Qed.

Lemma mapped_entry bn : NDIRECT <= bn -> fblock bn -> ia A NDIRECT <> 0 -> faddr V A bn = 0 ->
  mapped bn b V A (<[ia A NDIRECT := splice (V (ia A NDIRECT)) (4 * (bn - NDIRECT)) (le32 b)]> (alloc V b)) A.
Proof using G FO FL Hb Hfree.
  intros Hge Hbn Hi Hz. destruct (fl_ind _ _ FL Hi) as [Hd _].
  assert (Hlen : length (V (ia A NDIRECT)) = Z.to_nat BSIZE) by (by apply (fo_len _ _ _ FO), (data_disk _ _ _ _ G)).
  assert (Hr : 0 <= 4 * (bn - NDIRECT) /\ 4 * (bn - NDIRECT) + 4 <= Z.of_nat (length (V (ia A NDIRECT)))).
  { unfold fblock in Hbn. rewrite Hlen. change MAXFILE with 140 in *. change NDIRECT with 12 in *. change BSIZE with 512. lia. }
  apply grown_mapped; try done.
  - intros n Hn. unfold faddr. rewrite (proj2 (Z.eqb_neq _ 0)) by done. destruct (Z.ltb_spec n NDIRECT) as [Hlt|Hgen].
    + by rewrite (proj2 (Z.eqb_neq n bn)) by lia.
    + rewrite fn_lookup_insert. destruct (Z.eqb_spec n bn) as [->|Hne].
      * rewrite get32_splice_eq by lia. by apply fresh_u32.
      * apply get32_splice_ne; cbn; lia.
  - intros n [Hn|?]; [|done]. by rewrite fn_lookup_insert_ne.
  - intros _. rewrite fn_lookup_insert, length_splice by (cbn; lia). done.
Qed.

(** A new indirect block, which maps nothing yet. *)
Lemma get32_zero k : get32 zero_block k = 0.
Proof.
  assert (Hz : forall j, byte_at zero_block j = 0).
  { intros j. unfold byte_at, zero_block. destruct (replicate _ 0 !! Z.to_nat j) eqn:E; [|done].
    by apply lookup_replicate in E as [-> _]. }
  unfold get32. by rewrite !Hz.
Qed.

Lemma indirect_faddr n : ia A NDIRECT = 0 -> fblock n ->
  faddr (alloc V b) (<[Z.to_nat NDIRECT := b]> A) n = faddr V A n.
Proof using G FL Hb.
  intros Hi Hn. assert (Hb0 := fresh_nz). unfold fblock in Hn. unfold faddr. rewrite Hi.
  destruct (Z.ltb_spec n NDIRECT).
  - rewrite ia_insert by (change NDIRECT with 12 in *; lia). by rewrite (proj2 (Z.eqb_neq _ _)) by lia.
  - rewrite ia_insert by (change NDIRECT with 12 in *; lia). rewrite Z.eqb_refl, (proj2 (Z.eqb_neq _ _)) by done.
    rewrite alloc_self. apply get32_zero.
Qed.

Lemma indirect_ok : ia A NDIRECT = 0 -> file_ok (alloc V b) (<[Z.to_nat NDIRECT := b]> A).
Proof using G FO FL Hb Hfree.
  intros Hi. assert (Hb0 := fresh_nz). pose proof FL as [h1 h2 h3 h4 h5].
  assert (Hu : forall c, datab c -> used (alloc V b) c = (b =? c) || used V c).
  { intros c Hc. apply (used_alloc D sb lstart lsize G V FO); [done|].
    pose proof (size_pos _ _ _ _ G). unfold FsBlock.datab, dstart in Hc. lia. }
  assert (Ei : ia (<[Z.to_nat NDIRECT := b]> A) NDIRECT = b) by (rewrite ia_insert by done; by rewrite Z.eqb_refl).
  split.
  - by rewrite length_insert.
  - intros n Hn. rewrite indirect_faddr by done. intros Hnz. destruct (h2 n Hn Hnz) as [Hd Hun].
    split; [done|]. rewrite Hu, Hun by done. apply orb_true_r.
  - intros n n' Hn Hn'. rewrite !indirect_faddr by done. by apply h3.
  - rewrite Ei. intros _. split; [done|]. by rewrite Hu, Z.eqb_refl.
  - intros n Hn _. rewrite Ei, indirect_faddr by done. intros E. destruct (fresh_ne (faddr V A n)); [|done].
    apply owns_faddr; [done|congruence].
Qed.

Lemma indirect_grows : ia A NDIRECT = 0 -> grows V A (alloc V b) (<[Z.to_nat NDIRECT := b]> A).
Proof using G FO FL Hb Hfree.
  intros Hi. pose proof (size_pos _ _ _ _ G) as Hsz. split.
  - intros c Hc Hu. rewrite (used_alloc D sb lstart lsize G V FO), Hu; [apply orb_true_r|done|].
    unfold FsBlock.datab, dstart in Hc. lia.
  - intros n Hn Hu _. by eapply (alloc_used D sb lstart lsize).
  - intros n Hn. by eapply (alloc_meta D sb lstart lsize).
  - intros n Hn [Hnz [->|(k & Hk & <-)]].
    + rewrite ia_insert by done. rewrite Z.eqb_refl. by right.
    + left. rewrite indirect_faddr in * by done. by apply owns_faddr.
Qed.

Lemma mapped_indirect bn a V2 A2 : ia A NDIRECT = 0 -> NDIRECT <= bn -> fblock bn ->
  mapped bn a (alloc V b) (<[Z.to_nat NDIRECT := b]> A) V2 A2 -> mapped bn a V A V2 A2.
Proof using G FO FL Hb Hfree.
  intros Hi Hge Hbn M. assert (Hb0 := fresh_nz).
  assert (Ei : ia (<[Z.to_nat NDIRECT := b]> A) NDIRECT = b) by (rewrite ia_insert by done; by rewrite Z.eqb_refl).
  pose proof M as [m1 m2 m3 m4 m5 m6 m7 m8 m9 m10 m11]. split; try done.
  - eapply fgrows_trans; [by apply indirect_grows|done].
  - intros n Hn Hne. rewrite m6 by done. by apply indirect_faddr.
  - intros n Hn Hnz. specialize (m7 n Hn). rewrite indirect_faddr in m7 by done. destruct (m7 Hnz) as [-> ->].
    split; [done|]. apply alloc_owned. by apply owns_faddr.
  - intros Hz. apply m8. by rewrite indirect_faddr.
  - intros [?|?]; [done|lia].
  - rewrite (nfree_alloc D sb lstart lsize G V FO b Hb Hfree), <- m11. unfold cost.
    rewrite indirect_faddr, Ei, Hi, (proj2 (Z.eqb_neq b 0)), andb_false_r by done.
    rewrite (proj2 (Z.leb_le _ _)) by done. cbn [andb]. change (0 =? 0) with true. cbn iota. lia.
Qed.
End Steps.

(** * [bmap] *)

Section Bmap.
Context (outs pid : Z) (FT : list file) (G : layout).
Context (IC : list inode) (i : nat) (ip : inode) (HIC : IC !! i = Some ip) (Hdev : i_dev ip = 1).
#[local] Abbreviation tx := (tx pid D sb lstart lsize outs FT).
#[local] Abbreviation rooms := (rooms sb lsize).

(** Inside a transaction, with inode [i] having the addresses [A]. *)
Definition fx (H : list (nat * Z)) (bs : list Z) (V : Z -> list Z) (A : list Z) (s : kstate) : Prop :=
  tx H bs V (<[i := ip <| i_addrs := A |>]> IC) s.

(** The log block that mapping blocks beyond the direct ones may still need. *)
Definition ipend (bs : list Z) (A : list Z) : Z :=
  if decide (ia A NDIRECT <> 0 /\ ia A NDIRECT ∈ bs) then 0 else 1.

Lemma ipend_mono bs bs' A A' : ia A' NDIRECT = ia A NDIRECT -> (forall n, n ∈ bs -> n ∈ bs') -> ipend bs' A' <= ipend bs A.
Proof. intros E Hsub. unfold ipend. rewrite E. repeat case_decide; try lia. naive_solver. Qed.
Lemma ipend_bound bs A : 0 <= ipend bs A <= 1.
Proof. unfold ipend. case_decide; lia. Qed.

Context (Hout : 1 <= outs).

Section Run.
Context (H : list (nat * Z)) (bs : list Z) (V : Z -> list Z) (A : list Z) (s : kstate).
Context (X : fx H bs V A s) (FO : fs_ok V) (FL : file_ok V A).

Lemma fx_get_inode : returns (get_inode i) s (fun x s' => x = ip <| i_addrs := A |> /\ s' = s).
Proof using X HIC.
  eapply tx_get_inode; [exact X|]. apply list_lookup_insert_eq. by eapply lookup_lt_Some.
Qed.

Lemma fx_set_addr k a : returns (set_addr i k a) s (fun _ => fx H bs V (<[Z.to_nat k := a]> A)).
Proof using X HIC.
  eapply returns_mono.
  - eapply tx_upd_inode; [exact X|]. apply list_lookup_insert_eq. by eapply lookup_lt_Some.
  - intros [] s' X'. unfold fx. cbn beta in X'. rewrite list_insert_insert_eq in X'. exact X'.
Qed.

(** An allocation that leaves [k] blocks of room. *)
Lemma fx_balloc k : holds sb V H -> rooms bs (k + 1) -> 1 <= k -> (0 < nfree sb V)%nat ->
  returns (balloc 1) s (fun b s' => exists bs', fx H bs' (alloc V b) A s' /\ datab b /\ used V b = false /\
    b ∈ bs' /\ (forall n, n ∈ bs -> n ∈ bs') /\ rooms bs' k).
Proof using G Hout X FO.
  intros HH Hr Hk Hfree. eapply returns_mono.
  - eapply balloc_ok; [done|exact Hout|exact X|done|done|eapply rooms_le; [exact Hr|lia]|done].
  - intros b s' (Hb & Hu & _ & X'). eexists. split; [exact X'|]. split; [done|]. split; [done|].
    split; [apply logged_in; by right|]. split; [intros n Hn; rewrite !logged_in; auto|].
    pose proof (size_pos _ _ _ _ G). unfold FsBlock.datab, dstart in Hb.
    apply rooms_data; [unfold dstart; lia|]. apply rooms_bitmap; [|done].
    apply (BBLOCK_range D sb lstart lsize G). lia.
Qed.
End Run.

(** A block that is mapped: nothing changes. *)
Lemma bmap_hit bs V A s bn :
  fx [] bs V A s -> file_ok V A -> fblock bn -> faddr V A bn <> 0 ->
  returns (bmap i bn) s (fun a s' => a = faddr V A bn /\ fx [] bs V A s').
Proof using G HIC Hdev.
  intros X FL Hbn Hnz. unfold bmap.
  tx_step fx_get_inode as x s0 E. destruct E as [-> ->]. unfold addr_at.
  change (i_addrs (ip <| i_addrs := A |>)) with A. change (i_dev (ip <| i_addrs := A |>)) with (i_dev ip). rewrite Hdev.
  unfold faddr in *. fold (ia A bn). fold (ia A NDIRECT). destruct (Z.ltb_spec bn NDIRECT) as [Hlt|Hge].
  - rewrite (proj2 (Z.eqb_neq _ _)) by done. by apply returns_ret.
  - unfold fblock in Hbn. change MAXFILE with (NDIRECT + NINDIRECT) in Hbn. rewrite (proj2 (Z.ltb_lt _ _)) by lia.
    destruct (Z.eqb_spec (ia A NDIRECT) 0) as [|Hi]; [done|]. apply returns_ret_bind.
    destruct (fl_ind _ _ FL Hi) as [Hd _]. destruct (data_disk _ _ _ _ G _ Hd) as [Hdisk _].
    tx_step (tx_bread pid D sb lstart lsize outs FT [] bs V _ s X (ia A NDIRECT)) as bp s1 X1; [apply not_elem_of_nil|auto|].
    tx_step (tx_buf_data pid D sb lstart lsize outs FT _ bs V _ s1) as l s2 E. destruct E as [-> ->].
    rewrite (proj2 (Z.eqb_neq _ _)) by done. apply returns_ret_bind.
    tx_step (tx_brelse pid D sb lstart lsize outs FT _ bs V _ s1 X1) as u s3 X3.
    { eapply tx_clean; [exact X|done|apply not_elem_of_nil]. }
    apply returns_ret. split; [done|exact X3].
Qed.

(** What [bmap] returns with when it allocates, [k] blocks of room being
    left, and in general. *)
Definition bmap_grew (bn k : Z) (V : Z -> list Z) (A : list Z) (a : Z) (s : kstate) : Prop :=
  exists bs' V' A', fx [] bs' V' A' s /\ mapped bn a V A V' A' /\ a ∈ bs' /\ rooms bs' (ipend bs' A' + k).
Definition bmap_post (bn k : Z) (bs : list Z) (V : Z -> list Z) (A : list Z) (a : Z) (s : kstate) : Prop :=
  (a = faddr V A bn /\ a <> 0 /\ fx [] bs V A s) \/ (faddr V A bn = 0 /\ bmap_grew bn k V A a s).

Section Miss.
Context (bs : list Z) (V : Z -> list Z) (A : list Z) (s : kstate).
Context (X : fx [] bs V A s) (FO : fs_ok V) (FL : file_ok V A).
Context (bn k : Z) (Hbn : fblock bn) (Hk : 1 <= k) (Hz : faddr V A bn = 0).
Context (Hr : rooms bs (ipend bs A + k + 1)).

Lemma bmap_miss_direct (Hlt : bn < NDIRECT) (Hfree : (0 < nfree sb V)%nat) :
  returns (addr <- balloc 1;; set_addr i bn addr;;; ret addr) s (bmap_grew bn k V A).
Proof using All.
  pose proof (ipend_bound bs A) as Hip.
  tx_step (fx_balloc [] bs V A s X FO (ipend bs A + k)) as b s1 E; [by left|lia|].
  destruct E as (bs' & X1 & Hb & Hu & Hin & Hsub & Hr').
  tx_step (fx_set_addr [] bs' _ A s1 X1 bn b) as u s2 X2. apply returns_ret.
  unfold fblock in Hbn. assert (M := mapped_direct G V A FO FL b Hb Hu bn ltac:(lia) Hz).
  eexists _, _, _. split; [exact X2|]. split; [exact M|]. split; [done|].
  eapply rooms_le; [exact Hr'|]. pose proof (ipend_mono bs bs' A _ (mp_ind _ _ _ _ _ _ M (or_intror Hlt)) Hsub). lia.
Qed.

Lemma bmap_miss_entry (Hge : NDIRECT <= bn) (Hi : ia A NDIRECT <> 0) (Hfree : (0 < nfree sb V)%nat) :
  returns (bp <- bread 1 (ia A NDIRECT);;
           l <- buf_data bp;;
           addr <- (if get32 l (4 * (bn - NDIRECT)) =? 0 then
                      addr <- balloc 1;;
                      l <- buf_data bp;;
                      set_buf_data bp (splice l (4 * (bn - NDIRECT)) (le32 addr));;;
                      log_write bp;;;
                      ret addr
                    else ret (get32 l (4 * (bn - NDIRECT))));;
           brelse bp;;;
           ret addr) s (bmap_grew bn k V A).
Proof using All.
  pose proof (ipend_bound bs A) as Hip.
  destruct (fl_ind _ _ FL Hi) as [Hd Hui]. destruct (data_disk _ _ _ _ G _ Hd) as [Hdisk Hlog].
  tx_step (tx_bread pid D sb lstart lsize outs FT [] bs V _ s X (ia A NDIRECT)) as bp s1 X1; [apply not_elem_of_nil|auto|].
  tx_step (tx_buf_data pid D sb lstart lsize outs FT _ bs V _ s1) as l s2 E. destruct E as [-> ->].
  assert (Hg : get32 (V (ia A NDIRECT)) (4 * (bn - NDIRECT)) = 0).
  { unfold faddr in Hz. rewrite (proj2 (Z.ltb_ge _ _)), (proj2 (Z.eqb_neq _ _)) in Hz by done. done. }
  rewrite Hg. change (0 =? 0) with true. cbn iota. apply returns_assoc.
  tx_step (fx_balloc [(bp, ia A NDIRECT)] bs V A s1 X1 FO (ipend bs A + k)) as b s2 E; [right; eauto|lia|].
  destruct E as (bs' & X2 & Hb & Hu & Hin & Hsub & Hr').
  apply returns_assoc. unfold fx in X2.
  tx_step (tx_buf_data pid D sb lstart lsize outs FT _ bs' _ _ s2 X2) as l s3 E. destruct E as [-> ->].
  rewrite (alloc_owned G V A FO FL b Hb Hu) by by apply owns_ind.
  apply returns_assoc. tx_step (tx_set_data pid D sb lstart lsize outs FT _ bs' _ _ s2 X2) as u s3 X3.
  apply returns_assoc. tx_step (tx_log_write pid D sb lstart lsize outs FT _ bs' _ _ s3 X3) as u' s4 X4;
    [apply (rooms_room sb); eapply rooms_le; [exact Hr'|lia]|].
  apply returns_ret_bind.
  tx_step (tx_brelse pid D sb lstart lsize outs FT _ _ _ _ s4 X4) as u'' s5 X5; [left; apply logged_in; by right|].
  apply returns_ret. assert (M := mapped_entry G V A FO FL b Hb Hu bn Hge Hbn Hi Hz).
  eexists _, _, _. split; [exact X5|]. split; [exact M|]. split; [apply logged_in; by left|].
  replace (ipend (logged bs' (ia A NDIRECT)) A) with 0.
  2: { unfold ipend. rewrite decide_True; [done|]. split; [done|]. apply logged_in. by right. }
  destruct (decide (ia A NDIRECT ∈ bs')) as [Hini|Hni].
  - apply rooms_absorbed; [done|]. eapply rooms_le; [exact Hr'|lia].
  - apply rooms_data; [unfold FsBlock.datab in Hd; lia|]. eapply rooms_le; [exact Hr'|].
    unfold ipend. rewrite decide_False; [lia|]. intros [_ ?]. by apply Hni, Hsub.
Qed.
End Miss.

Lemma bmap_ok bs V A s bn k :
  fx [] bs V A s -> fs_ok V -> file_ok V A -> fblock bn -> (cost V A bn <= nfree sb V)%nat ->
  1 <= k -> rooms bs (ipend bs A + k + 1) -> returns (bmap i bn) s (bmap_post bn k bs V A).
Proof using G HIC Hdev Hout.
  intros X FO FL Hbn Hc Hk Hr. destruct (Z.eq_dec (faddr V A bn) 0) as [Hz|Hnz].
  2: { eapply returns_mono; [by apply bmap_hit|]. intros a s' [-> X']. by left. }
  eapply (returns_mono _ _ (bmap_grew bn k V A)); [|intros a s' Hg; by right].
  unfold bmap. tx_step fx_get_inode as x s0 E. destruct E as [-> ->]. unfold addr_at.
  change (i_addrs (ip <| i_addrs := A |>)) with A. change (i_dev (ip <| i_addrs := A |>)) with (i_dev ip). rewrite Hdev.
  fold (ia A bn). fold (ia A NDIRECT). unfold cost in Hc. rewrite Hz in Hc. cbn [Z.eqb] in Hc.
  destruct (Z.ltb_spec bn NDIRECT) as [Hlt|Hge].
  - pose proof Hz as Hz'. unfold faddr in Hz'. rewrite (proj2 (Z.ltb_lt _ _)) in Hz' by done. rewrite Hz'.
    apply (bmap_miss_direct bs V A s X FO FL bn k); done || lia.
  - unfold fblock in Hbn. change MAXFILE with (NDIRECT + NINDIRECT) in Hbn. rewrite (proj2 (Z.ltb_lt _ _)) by lia.
    rewrite (proj2 (Z.leb_le _ _)) in Hc by done. cbn [andb] in Hc.
    destruct (Z.eqb_spec (ia A NDIRECT) 0) as [Hi|Hi].
    2: { apply returns_ret_bind. apply (bmap_miss_entry bs V A s X FO FL bn k); done || lia. }
    apply returns_assoc. pose proof (ipend_bound bs A) as Hip.
    assert (Ep : ipend bs A = 1) by (unfold ipend; rewrite decide_False; [done|tauto]). rewrite Ep in Hr.
    tx_step (fx_balloc [] bs V A s X FO (k + 1)) as b s1 E; [by left|eapply rooms_le; [exact Hr|lia]|lia|lia|].
    destruct E as (bs' & X1 & Hb & Hu & Hin & Hsub & Hr').
    apply returns_assoc. tx_step (fx_set_addr [] bs' _ A s1 X1 NDIRECT b) as u s2 X2. apply returns_ret_bind.
    assert (Hb0 := fresh_nz G b Hb).
    assert (Ei : ia (<[Z.to_nat NDIRECT := b]> A) NDIRECT = b) by (rewrite (ia_insert V A FL) by done; by rewrite Z.eqb_refl).
    assert (Hr2 : rooms bs' (ipend bs' (<[Z.to_nat NDIRECT := b]> A) + k + 1)).
    { unfold ipend. by rewrite Ei, decide_True. }
    rewrite (nfree_alloc _ _ _ _ G V FO b Hb Hu) in Hc.
    eapply returns_mono.
    + rewrite <- Ei at 1. apply (bmap_miss_entry bs' _ _ s2 X2 (alloc_ok _ _ _ _ G V FO b Hb)
        (indirect_ok G V A FO FL b Hb Hu Hi) bn k); try done; [by rewrite indirect_faddr|congruence|lia].
    + intros a s3 (bs2 & V2 & A2 & X3 & M & Hcase). exists bs2, V2, A2. split; [done|]. split; [|done].
      by eapply mapped_indirect.
Qed.
End Bmap.
End Map.
