(* ===== verification/FsFile.v ===== *)
(** Files as arrays of bytes.  [content] is what the blocks of a file hold up
    to its size; [readi] returns a slice of it and [writei] splices into it,
    growing the file when it writes at its end, and both leave every other
    file as it was. *)
From stdpp Require Import functions.
From S2P Require Import Prelude Kstate Mem MemSpec Sched Sleeplock Bio BioSpec Log LogSpec LogOps Inode Dir FsTx FsBlock FsMap.

(** * Slices *)

Lemma slice_app l a n m : 0 <= a -> 0 <= n -> 0 <= m -> slice l a n ++ slice l (a + n) m = slice l a (n + m).
Proof.
  intros Ha Hn Hm. unfold slice. rewrite !Z2Nat.inj_add, <- drop_drop by lia.
  rewrite <- (take_drop (Z.to_nat n) (take (Z.to_nat n + Z.to_nat m) (drop (Z.to_nat a) l))).
  rewrite take_take, Nat.min_l by lia. f_equal. by rewrite skipn_firstn_comm, Nat.add_comm, Nat.add_sub.
Qed.

Lemma slice_lookup l a n (j : nat) : 0 <= a -> (slice l a n) !! j = if Z.of_nat j <? n then l !! (Z.to_nat a + j)%nat else None.
Proof.
  intros Ha. unfold slice. rewrite lookup_take. destruct (Z.ltb_spec (Z.of_nat j) n).
  - rewrite decide_True by lia. apply lookup_drop.
  - by rewrite decide_False by lia.
Qed.

Lemma slice_length l a n : 0 <= a -> 0 <= n -> Z.of_nat (length (slice l a n)) = Z.max 0 (Z.min n (Z.of_nat (length l) - a)).
Proof. intros Ha Hn. unfold slice. rewrite length_take, length_drop. lia. Qed.

Lemma byte_at_slice l a n j : 0 <= a -> 0 <= j < n -> byte_at (slice l a n) j = byte_at l (a + j).
Proof.
  intros Ha Hj. unfold byte_at. rewrite slice_lookup by done. rewrite (proj2 (Z.ltb_lt _ _)) by lia.
  by replace (Z.to_nat a + Z.to_nat j)%nat with (Z.to_nat (a + j)) by lia.
Qed.

Lemma addrs_self ip : ip <| i_addrs := i_addrs ip |> = ip.
Proof. by destruct ip. Qed.

(** * Turns of the loops over blocks *)

(** The blocks that the range [o, e) touches. *)
Definition turns (o e : Z) : Z := if o <? e then (e - 1) / BSIZE - o / BSIZE + 1 else 0.

(** The bytes of the range in the block of its first byte. *)
Definition chunk (o e : Z) : Z := Z.min (e - o) (BSIZE - o mod BSIZE).

Ltac blocks_lia := change BSIZE with 512 in *; Z.to_euclidean_division_equations; lia.

Lemma turns_bound o n : 0 <= o -> 0 <= n -> 0 <= turns o (o + n) <= n / BSIZE + 2.
Proof. intros Ho Hn. unfold turns. destruct (Z.ltb_spec o (o + n)); blocks_lia. Qed.

Lemma turns_next o e : 0 <= o < e -> turns o e = turns (o + chunk o e) e + 1 /\ 0 <= turns (o + chunk o e) e.
Proof.
  intros Ho. unfold turns, chunk. rewrite (proj2 (Z.ltb_lt o e)) by lia.
  destruct (Z.ltb_spec (o + Z.min (e - o) (BSIZE - o mod BSIZE)) e); blocks_lia.
Qed.

Lemma chunk_pos o e : 0 <= o < e -> 0 < chunk o e <= e - o /\ o mod BSIZE + chunk o e <= BSIZE.
Proof. intros Ho. unfold chunk. blocks_lia. Qed.

(** A byte of the chunk is in the chunk's block. *)
Lemma chunk_block o e x : 0 <= o < e -> o <= x < o + chunk o e ->
  x / BSIZE = o / BSIZE /\ x mod BSIZE = o mod BSIZE + (x - o).
Proof. intros Ho Hx. unfold chunk in Hx. blocks_lia. Qed.
Lemma block_chunk o e x : 0 <= o < e -> x / BSIZE = o / BSIZE ->
  x = o + (x mod BSIZE - o mod BSIZE).
Proof. intros Ho Hx. blocks_lia. Qed.

(** After a chunk, a longer range goes on in the next block or in the same. *)
Lemma turns_step o e x : 0 <= o < e -> e <= x -> o + chunk o e < x ->
  ((o + chunk o e) / BSIZE = o / BSIZE + 1 /\ turns (o + chunk o e) x = turns o x - 1) \/
  ((o + chunk o e) / BSIZE = o / BSIZE /\ turns (o + chunk o e) x = turns o x).
Proof.
  intros Ho He Hx. unfold turns. rewrite (proj2 (Z.ltb_lt o x)), (proj2 (Z.ltb_lt _ x)) by lia.
  assert (Hc : (o + chunk o e) / BSIZE = o / BSIZE + 1 \/ (o + chunk o e) / BSIZE = o / BSIZE).
  { unfold chunk. blocks_lia. }
  destruct Hc as [-> | ->]; [left|right]; lia.
Qed.
Lemma turns_pos o x : 0 <= o < x -> 1 <= turns o x.
Proof. intros Ho. unfold turns. rewrite (proj2 (Z.ltb_lt o x)) by lia. blocks_lia. Qed.
Lemma turns_done x : turns x x = 0.
Proof. unfold turns. by rewrite Z.ltb_irrefl. Qed.

Section File.
Context (D : list (list Z)) (sb : superblock) (lstart lsize : Z).
#[local] Abbreviation layout := (layout D sb lstart lsize).
#[local] Abbreviation fs_ok := (fs_ok D sb).
#[local] Abbreviation used := (used sb).
#[local] Abbreviation datab := (datab sb).
#[local] Abbreviation file_ok := (file_ok sb).
#[local] Abbreviation grows := (grows sb).
#[local] Abbreviation mapped := (mapped D sb).

(** * Contents *)

Definition fbyte (V : Z -> list Z) (A : list Z) (x : Z) : Z :=
  if faddr V A (x / BSIZE) =? 0 then 0 else byte_at (V (faddr V A (x / BSIZE))) (x mod BSIZE).

Definition bytes_of (V : Z -> list Z) (A : list Z) (size : Z) : list Z := fbyte V A <$> seqZ 0 size.
Definition content (V : Z -> list Z) (ip : inode) : list Z := bytes_of V (i_addrs ip) (i_size ip).

(** All blocks up to the size are mapped: there are no holes. *)
Definition covers (V : Z -> list Z) (A : list Z) (size : Z) : Prop :=
  forall bn, 0 <= bn -> bn * BSIZE < size -> faddr V A bn <> 0.

(** A [short]. *)
Definition short (v : Z) : Prop := - 2 ^ 15 <= v < 2 ^ 15.

(** An inode of a file or directory in the cache. *)
Record inode_ok (V : Z -> list Z) (ip : inode) : Prop := mkInodeOk {
  in_file : file_ok V (i_addrs ip);
  in_covers : covers V (i_addrs ip) (i_size ip);
  in_size : 0 <= i_size ip <= MAXFILE * BSIZE;
  in_dev : i_dev ip = 1;
  in_type : i_type ip <> T_DEV;
  in_inum : 0 <= i_inum ip < sb_ninodes sb;
  in_short : short (i_type ip) /\ short (i_major ip) /\ short (i_minor ip) /\ short (i_nlink ip);
}.

Lemma fblock_at x size : 0 <= x < size -> size <= MAXFILE * BSIZE -> fblock (x / BSIZE).
Proof. intros Hx Hs. unfold fblock. change MAXFILE with 140 in *. blocks_lia. Qed.

Lemma bytes_of_length V A size : 0 <= size -> Z.of_nat (length (bytes_of V A size)) = size.
Proof. intros Hs. unfold bytes_of. rewrite length_fmap, length_seqZ. lia. Qed.

Lemma bytes_of_lookup V A size (j : nat) :
  bytes_of V A size !! j = if Z.of_nat j <? size then Some (fbyte V A (Z.of_nat j)) else None.
Proof.
  unfold bytes_of. rewrite list_lookup_fmap. destruct (Z.ltb_spec (Z.of_nat j) size).
  - by rewrite lookup_seqZ_lt by lia.
  - by rewrite lookup_seqZ_ge by lia.
Qed.

(** The chunk of a range that the loops of [readi] and [writei] handle in one
    turn is a slice of one block. *)
Lemma slice_block V A size o e :
  0 <= o < e -> e <= size -> length (V (faddr V A (o / BSIZE))) = Z.to_nat BSIZE -> faddr V A (o / BSIZE) <> 0 ->
  slice (V (faddr V A (o / BSIZE))) (o mod BSIZE) (chunk o e) = slice (bytes_of V A size) o (chunk o e).
Proof.
  intros Ho He Hl Hnz. destruct (chunk_pos o e Ho) as [Hc1 Hc2].
  assert (Hm : 0 <= o mod BSIZE < BSIZE) by (by apply Z.mod_pos_bound).
  apply list_eq. intros j. rewrite !slice_lookup by lia. destruct (Z.ltb_spec (Z.of_nat j) (chunk o e)); [|done].
  rewrite bytes_of_lookup. rewrite (proj2 (Z.ltb_lt _ size)) by lia.
  destruct (chunk_block o e (o + Z.of_nat j) Ho ltac:(lia)) as [E1 E2].
  replace (Z.of_nat (Z.to_nat o + j)) with (o + Z.of_nat j) by lia.
  unfold fbyte. rewrite E1, E2, (proj2 (Z.eqb_neq _ _)) by done. unfold byte_at.
  replace (Z.to_nat (o mod BSIZE + (o + Z.of_nat j - o))) with (Z.to_nat (o mod BSIZE) + j)%nat by lia.
  destruct (lookup_lt_is_Some_2 (V (faddr V A (o / BSIZE))) (Z.to_nat (o mod BSIZE) + j)%nat) as [x ->]; [lia|done].
Qed.

(** The range that a read or write with [uint] offset and length is given. *)
Lemma range_u32 off n : 0 <= off < 2 ^ 32 -> 0 <= n < 2 ^ 32 ->
  (u32 (off + n) <? off) = false -> u32 (off + n) = off + n.
Proof. intros Ho Hn Hlt%Z.ltb_ge. unfold u32 in *. Z.to_euclidean_division_equations. lia. Qed.

(** * Reading *)

Section Read.
Context (outs pid : Z) (FT : list file) (G : layout).
#[local] Abbreviation tx := (tx pid D sb lstart lsize outs FT).
Context (bs : list Z) (V : Z -> list Z) (IC : list inode) (i : nat) (ip : inode).
Context (FO : fs_ok V) (HIC : IC !! i = Some ip) (IO : inode_ok V ip).

Definition read_result (off n : Z) : Z * list Z :=
  if (i_size ip <? off) || (u32 (off + n) <? off) then (-1, [])
  else let l := slice (content V ip) off n in (Z.of_nat (length l), l).

Lemma fx_self H s :
  fx D sb lstart lsize outs pid FT IC i ip H bs V (i_addrs ip) s <-> tx H bs V IC s.
Proof using HIC.
  unfold fx. by rewrite addrs_self, list_insert_id.
Qed.

(** One turn of the loop of [readi], and what comes after it. *)
Lemma read_turn {B} (f : list Z -> K B) (Q : B -> kstate -> Prop) s o e :
  tx [] bs V IC s -> 0 <= o < e -> e <= i_size ip ->
  (forall l s', slice l (o mod BSIZE) (chunk o e) = slice (content V ip) o (chunk o e) ->
     tx [] bs V IC s' -> returns (f l) s' Q) ->
  returns (bno <- bmap i (o / BSIZE);; bp <- bread (i_dev ip) bno;; l <- buf_data bp;; brelse bp;;; f l) s Q.
Proof using G FO HIC IO.
  intros X Ho He HQ. destruct IO as [FL Hcov Hsz Hdev _ _ _]. apply fx_self in X.
  assert (Hf : fblock (o / BSIZE)) by (eapply fblock_at; [split; [|apply Ho]|]; lia).
  assert (Hnz : faddr V (i_addrs ip) (o / BSIZE) <> 0) by (apply Hcov; blocks_lia).
  tx_step (bmap_hit D sb lstart lsize outs pid FT G IC i ip HIC Hdev bs V _ s _ X FL) as a s1 E. destruct E as [-> X1].
  rewrite Hdev. destruct (fl_blk _ _ _ FL _ Hf Hnz) as [Hd _]. destruct (data_disk _ _ _ _ G _ Hd) as [Hdisk _].
  tx_step (tx_bread pid D sb lstart lsize outs FT [] bs V _ s1 X1) as bp s2 X2; [apply not_elem_of_nil|auto|].
  tx_step (tx_buf_data pid D sb lstart lsize outs FT _ bs V _ s2 X2) as l s3 E. destruct E as [-> ->].
  tx_step (tx_brelse pid D sb lstart lsize outs FT _ bs V _ s2 X2) as u s4 X4.
  { eapply tx_clean; [exact X1|done|apply not_elem_of_nil]. }
  apply HQ; [|by apply fx_self]. apply slice_block; [done|done|by apply (fo_len _ _ _ FO)|done].
Qed.

Lemma readi_ok s off n :
  tx [] bs V IC s -> 0 <= off < 2 ^ 32 -> 0 <= n < 2 ^ 32 ->
  returns (readi i off n) s (fun r s' => r = read_result off n /\ tx [] bs V IC s').
Proof using G FO HIC IO.
  intros X Ho Hn. destruct IO as [FL Hcov Hsz Hdev Hty _ _]. unfold readi, read_result.
  tx_step (tx_get_inode pid D sb lstart lsize outs FT [] bs V IC s X i) as x s0 E. destruct E as [-> ->].
  rewrite (proj2 (Z.eqb_neq _ _)) by done.
  destruct (Z.ltb_spec (i_size ip) off) as [Hlt|Hge]; [by apply returns_ret|]. cbn [orb].
  destruct (u32 (off + n) <? off) eqn:Hov; [by apply returns_ret|]. rewrite (range_u32 off n) by done.
  set (n' := if i_size ip <? off + n then u32 (i_size ip - off) else n).
  assert (Hn' : n' = Z.min n (i_size ip - off)).
  { unfold n'. change (MAXFILE * BSIZE) with 71680 in *. destruct (Z.ltb_spec (i_size ip) (off + n)); [|lia]. rewrite u32_id; lia. }
  assert (Hc : slice (content V ip) off n = slice (content V ip) off n').
  { apply list_eq. intros j. rewrite !slice_lookup by lia. unfold content. rewrite bytes_of_lookup.
    destruct (Z.ltb_spec (Z.of_nat j) n), (Z.ltb_spec (Z.of_nat j) n'); try done; try lia.
    by rewrite (proj2 (Z.ltb_ge _ _)) by lia. }
  rewrite Hc. assert (Hl : Z.of_nat (length (slice (content V ip) off n')) = n').
  { rewrite slice_length by lia. unfold content. rewrite bytes_of_length; lia. }
  cbv zeta. rewrite Hl. clearbody n'.
  eapply (returns_loop (fun '(tot, o, dst) s => tx [] bs V IC s /\ 0 <= tot <= n' /\ o = off + tot /\
            dst = slice (content V ip) off tot) (fun '(tot, o, dst) => Z.to_nat (turns o (off + n')))).
  - split; [done|]. split; [lia|]. split; [lia|]. done.
  - unfold io_fuel. pose proof (turns_bound off n' ltac:(lia) ltac:(lia)). lia.
  - clear s X. intros [[tot o] dst] s (X & Htot & -> & ->). destruct (Z.ltb_spec tot n') as [Hlt|Hend].
    + assert (Hr : 0 <= off + tot < off + n') by lia. pose proof (chunk_pos _ _ Hr) as [Hp _].
      pose proof (turns_next _ _ Hr) as [Ht1 Ht2].
      eapply (read_turn _ _ s (off + tot) (off + n') X Hr ltac:(lia)). intros l s' El X'. apply returns_ret.
      replace (Z.min (n' - tot) (BSIZE - (off + tot) mod BSIZE)) with (chunk (off + tot) (off + n')) by (unfold chunk; lia).
      split; [|lia]. split; [done|]. split; [lia|]. split; [lia|]. rewrite El. apply slice_app; lia.
    + apply returns_ret. split; [|done]. change (MAXFILE * BSIZE) with 71680 in *. rewrite s32_id by lia.
      by replace tot with n' by lia.
Qed.
End Read.

(** * Changing the content of a block *)

Lemma data_range (G : layout) c : datab c -> 0 <= c < sb_size sb.
Proof. intros Hc. pose proof (size_pos _ _ _ _ G). unfold FsBlock.datab, dstart in Hc. lia. Qed.

Section Put.
Context (G : layout) (V : Z -> list Z) (A : list Z) (FO : fs_ok V) (FL : file_ok V A).
Context (bn : Z) (Hbn : fblock bn) (Hnz : faddr V A bn <> 0) (l : list Z) (Hl : length l = Z.to_nat BSIZE).
#[local] Abbreviation a := (faddr V A bn).
#[local] Abbreviation V' := (<[faddr V A bn := l]> V).

Lemma put_data : datab a.
Proof using FL Hbn Hnz. by apply (fl_blk _ _ _ FL). Qed.

Lemma put_used c : 0 <= c < sb_size sb -> used V' c = used V c.
Proof using All.
  intros Hc. apply (used_other D sb lstart lsize G); [|done]. pose proof put_data as Hd. unfold FsBlock.datab in Hd. lia.
Qed.

Lemma put_faddr n : faddr V' A n = faddr V A n.
Proof using FL Hbn.
  unfold faddr at 1 3. destruct (n <? NDIRECT); [done|]. destruct (Z.eqb_spec (ia A NDIRECT) 0) as [|Hi]; [done|].
  rewrite fn_lookup_insert_ne; [done|]. by apply (fl_sep _ _ _ FL).
Qed.

Lemma put_owns n : owns V' A n <-> owns V A n.
Proof using FL Hbn. unfold owns. by setoid_rewrite put_faddr. Qed.

Lemma put_fs_ok : fs_ok V'.
Proof using All.
  split.
  - intros n Hn. destruct (Z.eq_dec n a) as [->|Hne]; [by rewrite fn_lookup_insert|].
    rewrite fn_lookup_insert_ne by done. by apply (fo_len _ _ _ FO).
  - intros c Hc. pose proof (ly_data _ _ _ _ G). rewrite put_used by lia. by apply (fo_meta _ _ _ FO).
Qed.

Lemma put_file_ok : file_ok V' A.
Proof using All.
  destruct FL as [h1 h2 h3 h4 h5]. split; try setoid_rewrite put_faddr; try done.
  - intros n Hn Hz. destruct (h2 n Hn Hz) as [Hd Hu]. split; [done|]. rewrite put_used; [done|by apply (data_range G)].
  - intros Hz. destruct (h4 Hz) as [Hd Hu]. split; [done|]. rewrite put_used; [done|by apply (data_range G)].
Qed.

Lemma put_grows : grows V A V' A.
Proof using All.
  split.
  - intros b Hb Hu. rewrite put_used; [done|by apply (data_range G)].
  - intros n Hn Hu Ho. rewrite fn_lookup_insert_ne; [done|]. intros <-. apply Ho. split; [done|right; eauto].
  - intros n Hn. rewrite fn_lookup_insert_ne; [done|]. pose proof put_data as Hd. pose proof (size_pos _ _ _ _ G).
    unfold FsBlock.datab, dstart in Hd. lia.
  - intros n Hn. rewrite put_owns. by left.
Qed.

Lemma put_nfree : nfree sb V' = nfree sb V.
Proof using All.
  unfold nfree. f_equal. apply filter_ext_in. intros c Hc%elem_of_seqZ. rewrite put_used by lia. done.
Qed.

Lemma put_fbyte x : fblock (x / BSIZE) ->
  fbyte V' A x = if x / BSIZE =? bn then byte_at l (x mod BSIZE) else fbyte V A x.
Proof using All.
  intros Hx. unfold fbyte. rewrite put_faddr. destruct (Z.eqb_spec (x / BSIZE) bn) as [E|E].
  - rewrite E, (proj2 (Z.eqb_neq _ _)) by done. by rewrite fn_lookup_insert.
  - destruct (Z.eqb_spec (faddr V A (x / BSIZE)) 0) as [|Hz]; [done|]. rewrite fn_lookup_insert_ne; [done|].
    intros Heq. apply E. symmetry. by apply (fl_inj _ _ _ FL).
Qed.
End Put.

(** Mapping a block changes no byte: a new block is zero. *)
Lemma byte_zero k : byte_at zero_block k = 0.
Proof.
  unfold byte_at, zero_block. destruct (replicate _ 0 !! Z.to_nat k) eqn:E; [|done].
  by apply lookup_replicate in E as [-> _].
Qed.
Lemma mapped_fbyte bn a V A V' A' x : mapped bn a V A V' A' -> fblock (x / BSIZE) -> fbyte V' A' x = fbyte V A x.
Proof.
  intros M Hx. unfold fbyte. destruct (Z.eqb_spec (faddr V A (x / BSIZE)) 0) as [Hz|Hz].
  - destruct (Z.eq_dec (x / BSIZE) bn) as [E|E].
    + rewrite E in *. rewrite (mp_at _ _ _ _ _ _ _ _ M), (mp_zero _ _ _ _ _ _ _ _ M Hz), byte_zero. by destruct (_ =? _).
    + by rewrite (mp_rest _ _ _ _ _ _ _ _ M), Hz.
  - destruct (mp_data _ _ _ _ _ _ _ _ M _ Hx Hz) as [-> ->]. by rewrite (proj2 (Z.eqb_neq _ _)).
Qed.

(** * The blocks a write needs *)

Definition needs (V : Z -> list Z) (A : list Z) (bn k : Z) : nat :=
  Nat.add (length (filter (fun n => faddr V A n = 0) (seqZ bn k)))
    (if (ia A NDIRECT =? 0) && (0 <? k) && (NDIRECT <? bn + k) then 1%nat else 0%nat).

Lemma unmapped_next V A bn k : 1 <= k ->
  length (filter (fun n => faddr V A n = 0) (seqZ bn k)) =
  Nat.add (if faddr V A bn =? 0 then 1%nat else 0%nat) (length (filter (fun n => faddr V A n = 0) (seqZ (bn + 1) (k - 1)))).
Proof.
  intros Hk. rewrite (seqZ_cons bn k) by lia. rewrite filter_cons. unfold Z.succ, Z.pred.
  destruct (Z.eqb_spec (faddr V A bn) 0); [rewrite decide_True by done|rewrite decide_False by done]; done.
Qed.

Lemma needs_cost V A bn k : 1 <= k -> (cost V A bn <= needs V A bn k)%nat.
Proof.
  intros Hk. unfold cost, needs. rewrite unmapped_next by done. destruct (Z.leb_spec NDIRECT bn); cbn [andb]; [|lia].
  rewrite (proj2 (Z.ltb_lt NDIRECT (bn + k))), (proj2 (Z.ltb_lt 0 k)), !andb_true_r by lia. lia.
Qed.

Lemma needs_next V A V' A' bn a k :
  mapped bn a V A V' A' -> 0 <= bn -> 1 <= k -> bn + k <= MAXFILE -> (needs V A bn k <= nfree sb V)%nat ->
  (needs V' A' (bn + 1) (k - 1) <= nfree sb V')%nat.
Proof.
  intros M Hbn Hk Hmax. rewrite <- (mp_free _ _ _ _ _ _ _ _ M). unfold needs, cost. rewrite unmapped_next by done.
  replace (bn + 1 + (k - 1)) with (bn + k) by lia.
  replace (filter (fun n => faddr V' A' n = 0) (seqZ (bn + 1) (k - 1)))
    with (filter (fun n => faddr V A n = 0) (seqZ (bn + 1) (k - 1))).
  2: { apply filter_ext_in. intros n Hn%elem_of_seqZ. rewrite (mp_rest _ _ _ _ _ _ _ _ M); [done| |lia]. unfold fblock. lia. }
  destruct (Z.leb_spec NDIRECT bn) as [Hge|Hlt]; cbn [andb].
  - rewrite (proj2 (Z.eqb_neq (ia A' NDIRECT) 0)) by (by apply (mp_indz _ _ _ _ _ _ _ _ M)). cbn [andb].
    rewrite (proj2 (Z.ltb_lt NDIRECT (bn + k))), (proj2 (Z.ltb_lt 0 k)), !andb_true_r by lia. lia.
  - rewrite (mp_ind _ _ _ _ _ _ _ _ M), (proj2 (Z.ltb_lt 0 k)), andb_true_r by auto with lia.
    destruct (ia A NDIRECT =? 0), (0 <? k - 1), (NDIRECT <? bn + k); cbn [andb]; lia.
Qed.

Lemma needs_mapped V A bn k : faddr V A bn <> 0 -> 1 <= k -> (needs V A bn k <= needs V A (bn + 1) (k - 1))%nat.
Proof.
  intros Hnz Hk. unfold needs. rewrite unmapped_next by done. rewrite (proj2 (Z.eqb_neq (faddr V A bn) 0)) by done.
  replace (bn + 1 + (k - 1)) with (bn + k) by lia. destruct (Z.eqb_spec (ia A NDIRECT) 0) as [Hi|]; [|cbn; lia].
  unfold faddr in Hnz. destruct (Z.ltb_spec bn NDIRECT); [|by rewrite Hi in Hnz]. cbn [andb].
  destruct (Z.ltb_spec 0 k), (Z.ltb_spec 0 (k - 1)), (Z.ltb_spec NDIRECT (bn + k)); cbn [andb]; lia.
Qed.
Lemma needs_none V A bn : needs V A bn 0 = 0%nat.
Proof. unfold needs. by rewrite Z.ltb_irrefl, andb_false_r, seqZ_nil by lia. Qed.

(** * Writing *)

Section Write.
Context (outs pid : Z) (FT : list file) (G : layout).
#[local] Abbreviation tx := (tx pid D sb lstart lsize outs FT).
#[local] Abbreviation rooms := (rooms sb lsize).
Context (IC : list inode) (i : nat) (ip : inode) (HIC : IC !! i = Some ip) (Hdev : i_dev ip = 1) (Hout : 1 <= outs).
#[local] Abbreviation fx := (fx D sb lstart lsize outs pid FT IC i ip).

(** One turn of the loop of [writei] writes [w] into the chunk of its range. *)
Record wrote (o e : Z) (w : list Z) (V : Z -> list Z) (A : list Z) (V' : Z -> list Z) (A' : list Z) : Prop := mkWrote {
  wr_fs : fs_ok V';
  wr_file : file_ok V' A';
  wr_grows : grows V A V' A';
  wr_at : faddr V' A' (o / BSIZE) <> 0;
  wr_rest : forall n, fblock n -> faddr V A n <> 0 -> faddr V' A' n <> 0;
  wr_same : faddr V A (o / BSIZE) <> 0 -> A' = A;
  wr_bytes : forall x, fblock (x / BSIZE) ->
    fbyte V' A' x = if (o <=? x) && (x <? o + chunk o e) then byte_at w (x - o) else fbyte V A x;
  wr_needs : forall k, 1 <= k -> o / BSIZE + k <= MAXFILE -> (needs V A (o / BSIZE) k <= nfree sb V)%nat ->
    (needs V' A' (o / BSIZE + 1) (k - 1) <= nfree sb V')%nat;
}.

Lemma wrote_mapped o e w V A V1 A1 a :
  0 <= o < e -> fblock (o / BSIZE) -> Z.of_nat (length w) = chunk o e -> mapped (o / BSIZE) a V A V1 A1 ->
  (faddr V A (o / BSIZE) <> 0 -> A1 = A) ->
  wrote o e w V A (<[a := splice (V1 a) (o mod BSIZE) w]> V1) A1.
Proof using G.
  intros Ho Hf Hw M Hs. pose proof (mp_at _ _ _ _ _ _ _ _ M) as Ha. pose proof (mp_nz _ _ _ _ _ _ _ _ M) as Hnz. subst a.
  set (l := splice _ _ _). pose proof (mp_file _ _ _ _ _ _ _ _ M) as FL1. pose proof (mp_ok _ _ _ _ _ _ _ _ M) as FO1.
  destruct (chunk_pos o e Ho) as [Hc1 Hc2]. assert (Hm : 0 <= o mod BSIZE < BSIZE) by (by apply Z.mod_pos_bound).
  assert (Hlen : length (V1 (faddr V1 A1 (o / BSIZE))) = Z.to_nat BSIZE).
  { apply (fo_len _ _ _ FO1), (data_disk _ _ _ _ G), (fl_blk _ _ _ FL1); done. }
  assert (Hl : length l = Z.to_nat BSIZE) by (unfold l; rewrite length_splice; lia).
  assert (Hpf := put_faddr V1 A1 FL1 (o / BSIZE) Hf l). split.
  - by apply put_fs_ok.
  - by apply put_file_ok.
  - eapply fgrows_trans; [apply M|by apply put_grows].
  - by rewrite Hpf.
  - intros n Hn Hz. rewrite Hpf. by rewrite (proj1 (mp_data _ _ _ _ _ _ _ _ M n Hn Hz)).
  - done.
  - intros x Hx. rewrite put_fbyte by done. rewrite <- (mapped_fbyte _ _ _ _ _ _ x M Hx).
    destruct (Z.eqb_spec (x / BSIZE) (o / BSIZE)) as [E|E].
    + pose proof (block_chunk o e x Ho E) as Ex. unfold l. rewrite byte_at_splice by (rewrite ?Hlen; lia || (apply Z.mod_pos_bound; done)).
      rewrite Hw. unfold fbyte. rewrite E, (proj2 (Z.eqb_neq _ _)) by done.
      destruct (Z.leb_spec (o mod BSIZE) (x mod BSIZE)), (Z.leb_spec o x); try lia; cbn [andb]; [|done].
      destruct (Z.ltb_spec (x mod BSIZE) (o mod BSIZE + chunk o e)), (Z.ltb_spec x (o + chunk o e)); try lia.
      f_equal. lia.
    + destruct (Z.leb_spec o x), (Z.ltb_spec x (o + chunk o e)); cbn [andb]; try done.
      destruct (chunk_block o e x Ho); [lia|done].
  - intros k Hk Hmax Hn. rewrite put_nfree by done. assert (Ho0 : 0 <= o / BSIZE) by apply Hf.
    pose proof (needs_next _ _ _ _ _ _ k M Ho0 Hk Hmax Hn) as Hn'. unfold needs in *.
    erewrite filter_ext_in; [exact Hn'|]. intros n _. cbn beta. by rewrite Hpf.
Qed.

(** Writing into the block [bmap] returned, [k] blocks of room being left. *)
Lemma write_block {B} (f : K B) (Q : B -> kstate -> Prop) s bs V A bn w o k :
  fx [] bs V A s -> fs_ok V -> file_ok V A -> fblock bn -> faddr V A bn <> 0 -> 1 <= k ->
  (rooms bs (ipend bs A + k + 1) \/ (faddr V A bn ∈ bs /\ rooms bs (ipend bs A + k))) ->
  (forall bs' s', fx [] bs' (<[faddr V A bn := splice (V (faddr V A bn)) o w]> V) A s' -> rooms bs' (ipend bs' A + k) ->
     returns f s' Q) ->
  returns (bp <- bread 1 (faddr V A bn);; l <- buf_data bp;; set_buf_data bp (splice l o w);;; log_write bp;;; brelse bp;;; f) s Q.
Proof using G Hout.
  intros X FO FL Hbn Hnz Hk Hr HQ. destruct (fl_blk _ _ _ FL _ Hbn Hnz) as [Hd _].
  destruct (data_disk _ _ _ _ G _ Hd) as [Hdisk Hlog]. pose proof (ipend_bound bs A) as Hip.
  tx_step (tx_bread pid D sb lstart lsize outs FT [] bs V _ s X) as bp s1 X1; [apply not_elem_of_nil|auto|].
  tx_step (tx_buf_data pid D sb lstart lsize outs FT _ bs V _ s1 X1) as l s2 E. destruct E as [-> ->].
  tx_step (tx_set_data pid D sb lstart lsize outs FT _ bs V _ s1 X1) as u s2 X2.
  tx_step (tx_log_write pid D sb lstart lsize outs FT _ bs _ _ s2 X2) as u' s3 X3.
  { apply (rooms_room sb). destruct Hr as [Hr|[_ Hr]]; eapply rooms_le; try exact Hr; lia. }
  tx_step (tx_brelse pid D sb lstart lsize outs FT _ _ _ _ s3 X3) as u'' s4 X4; [left; apply logged_in; by right|].
  eapply HQ; [exact X4|]. destruct Hr as [Hr|[Hin Hr]].
  - eapply (rooms_le _ _ _ (ipend bs A + k)); [apply rooms_data; [unfold FsBlock.datab in Hd; lia|exact Hr]|].
    apply Z.add_le_mono_r, ipend_mono; [done|]. intros n Hn. apply logged_in. by left.
  - by rewrite logged_id.
Qed.

Lemma write_turn {B} (f : K B) (Q : B -> kstate -> Prop) s bs V A o e w k :
  fx [] bs V A s -> fs_ok V -> file_ok V A -> 0 <= o < e -> e <= MAXFILE * BSIZE -> Z.of_nat (length w) = chunk o e ->
  1 <= k -> rooms bs (ipend bs A + k + 1) -> (cost V A (o / BSIZE) <= nfree sb V)%nat ->
  (forall bs' V' A' s', fx [] bs' V' A' s' -> wrote o e w V A V' A' -> rooms bs' (ipend bs' A' + k) -> returns f s' Q) ->
  returns (bno <- bmap i (o / BSIZE);; bp <- bread (i_dev ip) bno;; l <- buf_data bp;;
           set_buf_data bp (splice l (o mod BSIZE) w);;; log_write bp;;; brelse bp;;; f) s Q.
Proof using G HIC Hdev Hout.
  intros X FO FL Ho He Hw Hk Hr Hc HQ. assert (Hf : fblock (o / BSIZE)) by (eapply fblock_at; [split; [|apply Ho]|]; lia).
  tx_step (bmap_ok D sb lstart lsize outs pid FT G IC i ip HIC Hdev Hout bs V A s (o / BSIZE) k X FO FL) as a s1 P. rewrite Hdev.
  destruct P as [(-> & Hnz & X1)|(Hz & bs1 & V1 & A1 & X1 & M & Hin & Hr1)].
  - pose proof (mapped_already D sb V A FO FL _ Hf Hnz) as M.
    eapply (write_block f Q s1 bs V A (o / BSIZE) w _ k X1); try done; [by left|].
    intros bs' s' X' Hr'. eapply HQ; [exact X'| |done]. by apply wrote_mapped.
  - pose proof (mp_at _ _ _ _ _ _ _ _ M) as Ha. pose proof (mp_nz _ _ _ _ _ _ _ _ M) as Hnz. rewrite <- Ha in *.
    eapply (write_block f Q s1 bs1 V1 A1 (o / BSIZE) w _ k X1); try done; [apply M|apply M|by right|].
    intros bs' s' X' Hr'. eapply HQ; [exact X'| |done]. apply wrote_mapped; done.
Qed.

(** ** The loop *)

Section Loop.
Context (V : Z -> list Z) (A : list Z) (size off : Z) (src : list Z).
#[local] Abbreviation n := (Z.of_nat (length src)).
Context (Hcov : covers V A size) (Hoff : 0 <= off <= size) (Hsize : size <= MAXFILE * BSIZE) (Hend : off + n <= MAXFILE * BSIZE).

(** After [tot] bytes. *)
Record written (tot : Z) (V' : Z -> list Z) (A' : list Z) : Prop := mkWritten {
  wn_fs : fs_ok V';
  wn_file : file_ok V' A';
  wn_grows : grows V A V' A';
  wn_covers : covers V' A' (Z.max size (off + tot));
  wn_same : off + n <= size -> A' = A;
  wn_bytes : forall x, fblock (x / BSIZE) ->
    fbyte V' A' x = if (off <=? x) && (x <? off + tot) then byte_at src (x - off) else fbyte V A x;
}.

Lemma written_start : fs_ok V -> file_ok V A -> written 0 V A.
Proof using Hcov Hoff.
  intros FO FL. split; try done.
  - apply fgrows_refl.
  - intros bn Hbn Hlt. apply Hcov; [done|lia].
  - intros x Hx. destruct (Z.leb_spec off x), (Z.ltb_spec x (off + 0)); cbn; lia || done.
Qed.

Lemma written_turn tot V1 A1 V2 A2 :
  0 <= tot < n -> written tot V1 A1 ->
  wrote (off + tot) (off + n) (slice src tot (chunk (off + tot) (off + n))) V1 A1 V2 A2 ->
  written (tot + chunk (off + tot) (off + n)) V2 A2.
Proof using Hoff Hsize Hend.
  intros Ht [h1 h2 h3 h4 h5 h6] [w1 w2 w3 w4 w5 w6 w7 _]. assert (Hr : 0 <= off + tot < off + n) by lia.
  destruct (chunk_pos _ _ Hr) as [Hc1 Hc2]. set (c := chunk (off + tot) (off + n)) in *. split.
  - done.
  - done.
  - by eapply fgrows_trans.
  - intros bn Hbn Hlt. destruct (Z.lt_ge_cases (bn * BSIZE) (Z.max size (off + tot))) as [Hold|Hnew].
    + apply w5; [|by apply h4]. unfold fblock. change MAXFILE with 140 in *. blocks_lia.
    + replace bn with ((off + tot) / BSIZE); [done|]. subst c. unfold chunk in *. blocks_lia.
  - intros Hin. rewrite w6; [by apply h5|]. apply h4; subst c; unfold chunk in *; blocks_lia.
  - intros x Hx. rewrite w7, h6 by done.
    destruct (Z.leb_spec (off + tot) x), (Z.ltb_spec x (off + tot + c)), (Z.leb_spec off x), (Z.ltb_spec x (off + (tot + c))),
      (Z.ltb_spec x (off + tot)); cbn [andb]; try lia; try done.
    rewrite byte_at_slice by lia. f_equal. lia.
Qed.

(** The write is the first part of one that ends at [last]. *)
Context (last : Z) (Hlast : off + n <= last <= MAXFILE * BSIZE).

Lemma write_loop s bs :
  fx [] bs V A s -> fs_ok V -> file_ok V A -> rooms bs (ipend bs A + turns off (off + n) + 1) ->
  (needs V A (off / BSIZE) (turns off last) <= nfree sb V)%nat ->
  returns (loop (io_fuel n)
      (fun '(tot, off) =>
         if tot <? n then
           bno <- bmap i (off / BSIZE);;
           bp <- bread (i_dev ip) bno;;
           let m := Z.min (n - tot) (BSIZE - off mod BSIZE) in
           l <- buf_data bp;;
           set_buf_data bp (splice l (off mod BSIZE) (slice src tot m));;;
           log_write bp;;;
           brelse bp;;;
           ret (inl (tot + m, off + m))
         else ret (inr off)) (0, off)) s
    (fun o s' => o = off + n /\ exists bs' V' A', fx [] bs' V' A' s' /\ written n V' A' /\ rooms bs' (ipend bs' A' + 1) /\
       (needs V' A' ((off + n) / BSIZE) (turns (off + n) last) <= nfree sb V')%nat).
Proof using All.
  intros X FO FL Hr Hn.
  eapply (returns_loop (fun '(tot, o) s => 0 <= tot <= n /\ o = off + tot /\ exists bs' V' A', fx [] bs' V' A' s /\ written tot V' A' /\
            rooms bs' (ipend bs' A' + turns o (off + n) + 1) /\ (needs V' A' (o / BSIZE) (turns o last) <= nfree sb V')%nat)
            (fun '(tot, o) => Z.to_nat (turns o (off + n)))).
  - split; [lia|]. split; [lia|]. exists bs, V, A. split; [done|]. split; [|done]. by apply written_start.
  - unfold io_fuel. pose proof (turns_bound off n ltac:(lia) ltac:(lia)). lia.
  - clear s bs X FO FL Hr Hn. intros [tot o] s (Ht & -> & bs & V1 & A1 & X & W & Hr & Hn).
    destruct (Z.ltb_spec tot n) as [Hlt|Hge].
    + assert (Hr' : 0 <= off + tot < off + n) by lia. pose proof (turns_next _ _ Hr') as [Et Ht'].
      destruct (chunk_pos _ _ Hr') as [Hc1 Hc2].
      replace (Z.min (n - tot) (BSIZE - (off + tot) mod BSIZE)) with (chunk (off + tot) (off + n)) by (unfold chunk; lia).
      set (c := chunk (off + tot) (off + n)) in *.
      eapply (write_turn _ _ s bs V1 A1 (off + tot) (off + n) (slice src tot c) (turns (off + tot) (off + n)) X);
        [apply W|apply W|done|done|rewrite slice_length by lia; fold c; lia|lia|done| |].
      { eapply Nat.le_trans; [apply (needs_cost _ _ _ (turns (off + tot) last)); apply turns_pos; lia|done]. }
      intros bs' V' A' s' X' WR Hr2. apply returns_ret. split; [|lia].
      split; [lia|]. split; [lia|]. exists bs', V', A'. split; [done|]. split; [eapply written_turn; [lia|exact W|exact WR]|].
      split; [eapply rooms_le; [exact Hr2|lia]|].
      assert (Hk : 1 <= turns (off + tot) last) by (apply turns_pos; lia).
      assert (Hn' : (needs V' A' ((off + tot) / BSIZE + 1) (turns (off + tot) last - 1) <= nfree sb V')%nat).
      { apply (wr_needs _ _ _ _ _ _ _ WR); [done| |done]. unfold turns. rewrite (proj2 (Z.ltb_lt _ _)) by lia.
        change MAXFILE with 140 in *. blocks_lia. }
      destruct (Z.lt_ge_cases (off + tot + c) last) as [Hmore|Hdone].
      * destruct (turns_step _ _ last Hr' (proj1 Hlast) Hmore) as [[E1 E2]|[E1 E2]]; fold c in E1, E2; rewrite E1, E2; [done|].
        eapply Nat.le_trans; [apply needs_mapped; [apply WR|done]|done].
      * replace (off + tot + c) with last by lia. rewrite turns_done, needs_none. lia.
    + apply returns_ret. replace tot with n in * by lia. split; [done|]. exists bs, V1, A1. split; [done|]. split; [done|].
      split; [|done]. eapply rooms_le; [exact Hr|]. rewrite turns_done. lia.
Qed.
End Loop.
End Write.
End File.
