(* ===== verification/FsInode.v ===== *)
(** Inodes on disk: a [dinode] is read back as it was written, writing one
    leaves the others in its block alone, and [iupdate] copies an inode of the
    cache to its place. *)
From stdpp Require Import functions.
From S2P Require Import Prelude Kstate Mem MemSpec Sched Sleeplock Bio BioSpec Log LogSpec LogOps Inode FsTx FsBlock FsMap FsFile.

(** * Fields of an array inside an array *)

Section Field.
Context (l w : list Z) (i : Z) (Hi : 0 <= i) (Hl : i + Z.of_nat (length w) <= Z.of_nat (length l)).

Lemma byte_at_inside j : 0 <= j < Z.of_nat (length w) -> byte_at (splice l i w) (i + j) = byte_at w j.
Proof using All.
  intros Hj. rewrite byte_at_splice by lia. rewrite (proj2 (Z.leb_le _ _)), (proj2 (Z.ltb_lt _ _)) by lia.
  cbn [andb]. f_equal. lia.
Qed.
Lemma get16_inside j : 0 <= j -> j + 2 <= Z.of_nat (length w) -> get16 (splice l i w) (i + j) = get16 w j.
Proof using All. intros H1 H2. unfold get16. rewrite <- !Z.add_assoc, !byte_at_inside by lia. done. Qed.
Lemma get32_inside j : 0 <= j -> j + 4 <= Z.of_nat (length w) -> get32 (splice l i w) (i + j) = get32 w j.
Proof using All. intros H1 H2. unfold get32. rewrite <- !(Z.add_assoc i), !byte_at_inside by lia. done. Qed.

Lemma byte_at_outside j : 0 <= j -> j < i \/ i + Z.of_nat (length w) <= j -> byte_at (splice l i w) j = byte_at l j.
Proof using All.
  intros Hj Hd. rewrite byte_at_splice by lia.
  destruct (Z.leb_spec i j), (Z.ltb_spec j (i + Z.of_nat (length w))); cbn [andb]; lia || done.
Qed.
Lemma get16_outside j : 0 <= j -> j + 2 <= i \/ i + Z.of_nat (length w) <= j -> get16 (splice l i w) j = get16 l j.
Proof using All. intros Hj Hd. unfold get16. by rewrite !byte_at_outside by lia. Qed.
End Field.

Lemma byte_at_app_r w r j : 0 <= j -> byte_at (w ++ r) (Z.of_nat (length w) + j) = byte_at r j.
Proof. intros Hj. unfold byte_at. rewrite lookup_app_r by lia. do 2 f_equal. lia. Qed.
Lemma get32_app_r w r j : 0 <= j -> get32 (w ++ r) (Z.of_nat (length w) + j) = get32 r j.
Proof. intros Hj. unfold get32. rewrite <- !(Z.add_assoc (Z.of_nat _)), !byte_at_app_r by lia. done. Qed.
Lemma get16_app_r w r j : 0 <= j -> get16 (w ++ r) (Z.of_nat (length w) + j) = get16 r j.
Proof. intros Hj. unfold get16. rewrite <- !(Z.add_assoc (Z.of_nat _)), !byte_at_app_r by lia. done. Qed.

Lemma get32_le32_app v r : get32 (le32 v ++ r) 0 = u32 v.
Proof. rewrite <- word_bytes. reflexivity. Qed.
Lemma get16_le16_app v r : get16 (le16 v ++ r) 0 = u16 v.
Proof.
  change (u8 v + u8 (Z.shiftr v 8) * 2 ^ 8 = u16 v). rewrite Z.shiftr_div_pow2 by lia. width_lia.
Qed.

(** The words of an array of words. *)
Lemma get32_words ws (k : nat) x : ws !! k = Some x -> get32 (mjoin (le32 <$> ws)) (4 * Z.of_nat k) = u32 x.
Proof.
  revert k. induction ws as [|w ws IH]; intros [|k] Hk; [done..| |].
  - injection Hk as ->. apply get32_le32_app.
  - rewrite <- (IH k Hk). cbn [fmap list_fmap mjoin list_join].
    replace (4 * Z.of_nat (S k)) with (Z.of_nat (length (le32 w)) + 4 * Z.of_nat k) by (cbn; lia).
    apply get32_app_r. lia.
Qed.
Lemma words_length ws : length (mjoin (le32 <$> ws)) = (4 * length ws)%nat.
Proof.
  induction ws as [|w ws IH]; [done|].
  change (mjoin (le32 <$> w :: ws)) with (le32 w ++ mjoin (le32 <$> ws)). rewrite length_app, IH. cbn. lia.
Qed.

(** * The on-disk inode *)

(** The fields have their widths. *)
Record dinode_ok (d : dinode) : Prop := mkDinodeOk {
  di_type : short (d_type d);
  di_major : short (d_major d);
  di_minor : short (d_minor d);
  di_nlink : short (d_nlink d);
  di_size : 0 <= d_size d < 2 ^ 32;
  di_len : length (d_addrs d) = Z.to_nat (NDIRECT + 1);
  di_addrs : forall k a, d_addrs d !! k = Some a -> 0 <= a < 2 ^ 32;
}.

Lemma short_s16 v : short v -> s16 (u16 v) = v.
Proof. unfold short. intros H. width_lia. Qed.

Lemma encode_length d : length (d_addrs d) = Z.to_nat (NDIRECT + 1) -> Z.of_nat (length (encode_dinode d)) = sizeof_dinode.
Proof. intros H. unfold encode_dinode. rewrite !length_app, words_length, H. done. Qed.

(** The fields of the encoding. *)
Lemma encode_fields d : dinode_ok d ->
  get16 (encode_dinode d) 0 = u16 (d_type d) /\ get16 (encode_dinode d) 2 = u16 (d_major d) /\
  get16 (encode_dinode d) 4 = u16 (d_minor d) /\ get16 (encode_dinode d) 6 = u16 (d_nlink d) /\
  get32 (encode_dinode d) 8 = d_size d /\
  forall k a, d_addrs d !! k = Some a -> get32 (encode_dinode d) (12 + 4 * Z.of_nat k) = a.
Proof.
  intros [_ _ _ _ Hs _ Ha]. unfold encode_dinode. set (ws := mjoin _). split; [apply get16_le16_app|].
  assert (E16 : forall a b r, get16 (le16 a ++ le16 b ++ r) 2 = u16 b).
  { intros a b r. rewrite (get16_app_r (le16 a) _ 0) by done. apply get16_le16_app. }
  split; [apply E16|]. rewrite (get16_app_r (le16 (d_type d)) _ 2) by done. split; [apply E16|].
  rewrite (get16_app_r (le16 (d_type d)) _ 4), (get16_app_r (le16 (d_major d)) _ 2) by done. split; [apply E16|].
  split.
  - rewrite (get32_app_r (le16 (d_type d)) _ 6), (get32_app_r (le16 (d_major d)) _ 4), (get32_app_r (le16 (d_minor d)) _ 2),
      (get32_app_r (le16 (d_nlink d)) _ 0) by done.
    rewrite get32_le32_app. by apply u32_id.
  - intros k a Hk. rewrite !app_assoc.
    change 12 with (Z.of_nat (length ((((le16 (d_type d) ++ le16 (d_major d)) ++ le16 (d_minor d)) ++ le16 (d_nlink d)) ++ le32 (d_size d)))).
    rewrite get32_app_r by lia. unfold ws. rewrite (get32_words _ _ a) by done. apply u32_id. by eapply Ha.
Qed.

Section Dinode.
Context (l : list Z) (o : Z) (d : dinode) (Ho : 0 <= o) (Hl : o + sizeof_dinode <= Z.of_nat (length l)).

Lemma decode_encode : dinode_ok d -> decode_dinode (splice l o (encode_dinode d)) o = d.
Proof using Ho Hl.
  intros OK. pose proof (encode_fields d OK) as (E1 & E2 & E3 & E4 & E5 & E6). destruct OK as [h1 h2 h3 h4 h5 h6 h7].
  pose proof (encode_length d h6) as Hlen. rewrite <- Hlen in Hl.
  assert (Hlen' : Z.of_nat (length (encode_dinode d)) = 64) by done.
  assert (E0 := get16_inside l (encode_dinode d) o Ho Hl 0 ltac:(lia) ltac:(lia)). rewrite Z.add_0_r in E0.
  unfold decode_dinode. rewrite E0, !get16_inside, get32_inside by lia.
  rewrite E1, E2, E3, E4, E5, !short_s16 by done. destruct d as [t mj mn nl sz ad]. cbn [d_type d_major d_minor d_nlink d_size d_addrs] in *.
  f_equal. apply list_eq. intros k. rewrite list_lookup_fmap.
  destruct (ad !! k) as [a|] eqn:Ek.
  - pose proof (lookup_lt_Some _ _ _ Ek). rewrite lookup_seq_lt by lia. cbn. f_equal.
    rewrite <- (E6 _ _ Ek), <- Z.add_assoc. change (Z.to_nat (NDIRECT + 1)) with 13%nat in *. apply get32_inside; lia.
  - apply lookup_ge_None in Ek. rewrite lookup_seq_ge by lia. done.
Qed.

Lemma decode_other o' : length (d_addrs d) = Z.to_nat (NDIRECT + 1) -> 0 <= o' ->
  o' + sizeof_dinode <= o \/ o + sizeof_dinode <= o' ->
  decode_dinode (splice l o (encode_dinode d)) o' = decode_dinode l o'.
Proof using Ho Hl.
  intros Hd Ho' Hsep. pose proof (encode_length d Hd) as Hlen. rewrite <- Hlen in Hl, Hsep.
  assert (Hlen' : Z.of_nat (length (encode_dinode d)) = 64) by (by rewrite Hlen).
  unfold decode_dinode. rewrite !get16_outside by lia. rewrite (get32_splice_ne _ _ _ (o' + 8)) by lia. f_equal.
  apply list_fmap_ext. intros j k Hk. apply lookup_seq in Hk as [-> Hj]. change (Z.to_nat (NDIRECT + 1)) with 13%nat in *.
  apply get32_splice_ne; lia.
Qed.
End Dinode.

(** * Inodes in the view of the blocks *)

Section Inodes.
Context (D : list (list Z)) (sb : superblock) (lstart lsize : Z).
#[local] Abbreviation layout := (layout D sb lstart lsize).
#[local] Abbreviation fs_ok := (fs_ok D sb).
#[local] Abbreviation used := (used sb).
#[local] Abbreviation datab := (datab sb).
#[local] Abbreviation file_ok := (file_ok sb).
#[local] Abbreviation inode_ok := (inode_ok sb).

Lemma inode_dinode_ok (G : layout) V ip : inode_ok V ip -> dinode_ok (dinode_of ip).
Proof.
  intros [FL _ Hsz _ _ _ (h1 & h2 & h3 & h4)]. split; try done.
  - cbn. change (MAXFILE * BSIZE) with 71680 in Hsz. lia.
  - apply (fl_len _ _ _ FL).
  - cbn. intros k a Hk. pose proof (lookup_lt_Some _ _ _ Hk) as Hlt. rewrite (fl_len _ _ _ FL) in Hlt.
    change (Z.to_nat (NDIRECT + 1)) with 13%nat in Hlt. destruct (Z.eq_dec a 0) as [->|Hnz]; [lia|].
    assert (Hia : ia (i_addrs ip) (Z.of_nat k) = a) by (unfold ia; by rewrite Nat2Z.id, Hk).
    assert (Hd : datab a).
    { destruct (Z.lt_ge_cases (Z.of_nat k) NDIRECT) as [Hd|Hd].
      - assert (Hf : faddr V (i_addrs ip) (Z.of_nat k) = a) by (unfold faddr; by rewrite (proj2 (Z.ltb_lt _ _))).
        rewrite <- Hf. apply (fl_blk _ _ _ FL); [|congruence]. unfold fblock. change NDIRECT with 12 in Hd. change MAXFILE with 140. lia.
      - assert (Ek : Z.of_nat k = NDIRECT) by (change NDIRECT with 12 in *; lia). rewrite Ek in Hia.
        rewrite <- Hia. apply (fl_ind _ _ _ FL). congruence. }
    destruct (data_disk _ _ _ _ G _ Hd). pose proof (ly_width _ _ _ _ G). lia.
Qed.

Definition dinode_at (V : Z -> list Z) (inum : Z) : dinode := decode_dinode (V (IBLOCK inum sb)) (dinode_off inum).

(** The inode of number [inum] as the kernel would load it. *)
Definition inode_at (V : Z -> list Z) (inum : Z) : inode :=
  let d := dinode_at V inum in
  mkInode 1 inum 1 (mkSl 0 0) 1 (d_type d) (d_major d) (d_minor d) (d_nlink d) (d_size d) (d_addrs d).

Lemma inode_at_dinode V inum : dinode_of (inode_at V inum) = dinode_at V inum.
Proof. unfold inode_at. by destruct (dinode_at V inum). Qed.

Lemma inode_at_of V inum ip : dinode_at V inum = dinode_of ip ->
  i_dev ip = 1 -> i_inum ip = inum -> i_ref ip = 1 -> i_lock ip = mkSl 0 0 -> i_valid ip = 1 -> inode_at V inum = ip.
Proof. intros E. unfold inode_at. rewrite E. destruct ip. cbn. intros. by subst. Qed.

Section Block.
Context (G : layout) (inum : Z) (Hi : 0 <= inum < sb_ninodes sb).

Lemma IBLOCK_at : IBLOCK inum sb = inum / IPB + sb_inodestart sb /\ 0 <= inum / IPB <= sb_ninodes sb / IPB.
Proof using All.
  assert (Hq : 0 <= inum / IPB <= sb_ninodes sb / IPB).
  { change IPB with 8. split; [apply Z.div_pos; lia|apply Z.div_le_mono; lia]. }
  split; [|done]. apply u32_id. pose proof (size_pos _ _ _ _ G) as [Hs1 Hs2]. destruct G as [h1 h2 h3 h4 h5 h6 h7 h8].
  unfold dstart in h6. lia.
Qed.
Lemma IBLOCK_range : lstart + lsize <= IBLOCK inum sb < sb_bmapstart sb.
Proof using All. destruct IBLOCK_at as [-> Hq]. destruct G as [h1 h2 h3 h4 h5 h6 h7 h8]. lia. Qed.
Lemma IBLOCK_disk : 0 <= IBLOCK inum sb < Z.of_nat (length D) /\ ~ (lstart <= IBLOCK inum sb < lstart + lsize).
Proof using All.
  pose proof IBLOCK_range. pose proof (size_pos _ _ _ _ G) as [Hs1 Hs2]. destruct G as [h1 h2 h3 h4 h5 h6 h7 h8].
  unfold dstart in h6. lia.
Qed.
Lemma dinode_off_range : 0 <= dinode_off inum /\ dinode_off inum + sizeof_dinode <= BSIZE.
Proof using All. unfold dinode_off. change IPB with 8. change sizeof_dinode with 64. change BSIZE with 512. Z.to_euclidean_division_equations. lia. Qed.
End Block.

(** ** Storing an inode *)

Definition stored (V : Z -> list Z) (ip : inode) : Z -> list Z :=
  <[IBLOCK (i_inum ip) sb := splice (V (IBLOCK (i_inum ip) sb)) (dinode_off (i_inum ip)) (encode_dinode (dinode_of ip))]> V.

Section Stored.
Context (G : layout) (V : Z -> list Z) (ip : inode) (FO : fs_ok V) (Hin : 0 <= i_inum ip < sb_ninodes sb).
Context (OK : dinode_ok (dinode_of ip)).

Lemma stored_block : length (V (IBLOCK (i_inum ip) sb)) = Z.to_nat BSIZE.
Proof using All. by apply (fo_len _ _ _ FO), IBLOCK_disk. Qed.

Lemma stored_ne n : sb_bmapstart sb <= n -> stored V ip n = V n.
Proof using All. intros Hn. unfold stored. rewrite fn_lookup_insert_ne; [done|]. pose proof (IBLOCK_range G _ Hin). lia. Qed.

Lemma stored_self : dinode_at (stored V ip) (i_inum ip) = dinode_of ip.
Proof using All.
  pose proof stored_block as Hl. pose proof (dinode_off_range G _ Hin). unfold dinode_at, stored. rewrite fn_lookup_insert.
  apply decode_encode; [lia| |done]. rewrite Hl. change BSIZE with 512 in *. lia.
Qed.

Lemma stored_other m : 0 <= m < sb_ninodes sb -> m <> i_inum ip -> dinode_at (stored V ip) m = dinode_at V m.
Proof using All.
  intros Hm Hne. pose proof stored_block as Hl. pose proof (dinode_off_range G _ Hin). pose proof (dinode_off_range G _ Hm).
  unfold dinode_at, stored. destruct (Z.eq_dec (IBLOCK (i_inum ip) sb) (IBLOCK m sb)) as [E|E].
  - rewrite E, fn_lookup_insert. rewrite <- E. apply decode_other; [lia|rewrite Hl; change BSIZE with 512 in *; lia|apply OK|lia|].
    rewrite (proj1 (IBLOCK_at G _ Hin)), (proj1 (IBLOCK_at G _ Hm)) in E. unfold dinode_off. change IPB with 8 in *.
    change sizeof_dinode with 64. Z.to_euclidean_division_equations. lia.
  - by rewrite fn_lookup_insert_ne.
Qed.

Lemma stored_fs_ok : fs_ok (stored V ip).
Proof using All.
  pose proof stored_block as Hl. pose proof (dinode_off_range G _ Hin). split.
  - intros n Hn. unfold stored. destruct (Z.eq_dec n (IBLOCK (i_inum ip) sb)) as [->|Hne].
    + rewrite fn_lookup_insert, length_splice; [done|lia|]. rewrite encode_length by apply OK. rewrite Hl. change BSIZE with 512 in *. lia.
    + rewrite fn_lookup_insert_ne by done. by apply (fo_len _ _ _ FO).
  - intros b Hb. pose proof (ly_data _ _ _ _ G). rewrite <- (fo_meta _ _ _ FO b Hb). unfold FsBlock.used. rewrite stored_ne; [done|].
    apply (BBLOCK_range D sb lstart lsize G). lia.
Qed.
End Stored.

(** A view that differs in the blocks before the bitmap only has the same
    files. *)
Section Agree.
Context (G : layout) (V V' : Z -> list Z) (HV : forall n, sb_bmapstart sb <= n -> V' n = V n).

Lemma data_after n : datab n -> sb_bmapstart sb <= n.
Proof using G. intros Hn. pose proof (size_pos _ _ _ _ G). unfold FsBlock.datab, dstart in Hn. lia. Qed.

Lemma agree_used c : datab c -> used V' c = used V c.
Proof using All.
  intros Hc. unfold FsBlock.used. rewrite HV; [done|]. apply (BBLOCK_range D sb lstart lsize G), (data_range D sb lstart lsize G), Hc.
Qed.

Lemma agree_nfree : nfree sb V' = nfree sb V.
Proof using All.
  unfold nfree. f_equal. apply filter_ext_in. intros c Hc%elem_of_seqZ. unfold FsBlock.used. rewrite HV; [done|].
  apply (BBLOCK_range D sb lstart lsize G). lia.
Qed.

Section Of.
Context (A : list Z) (FL : file_ok V A).

Lemma agree_faddr n : faddr V' A n = faddr V A n.
Proof using All.
  unfold faddr. destruct (n <? NDIRECT); [done|]. destruct (Z.eqb_spec (ia A NDIRECT) 0) as [|Hi]; [done|].
  rewrite HV; [done|]. by apply data_after, (fl_ind _ _ _ FL).
Qed.
Lemma agree_owns n : owns V' A n <-> owns V A n.
Proof using All. unfold owns. by setoid_rewrite agree_faddr. Qed.
Lemma agree_fbyte x : fblock (x / BSIZE) -> fbyte V' A x = fbyte V A x.
Proof using All.
  intros Hx. unfold fbyte. rewrite agree_faddr. destruct (Z.eqb_spec (faddr V A (x / BSIZE)) 0) as [|Hz]; [done|].
  rewrite HV; [done|]. by apply data_after, (fl_blk _ _ _ FL).
Qed.
Lemma agree_file_ok : file_ok V' A.
Proof using All.
  destruct FL as [h1 h2 h3 h4 h5]. split; try setoid_rewrite agree_faddr; try done.
  - intros n Hn Hz. destruct (h2 n Hn Hz). by rewrite agree_used.
  - intros Hz. destruct (h4 Hz). by rewrite agree_used.
Qed.
End Of.

Lemma agree_inode_ok ip : inode_ok V ip -> inode_ok V' ip.
Proof using All.
  intros [h1 h2 h3 h4 h5 h6 h7]. split; try done; [by apply agree_file_ok|].
  intros bn Hbn Hlt. rewrite agree_faddr by done. by apply h2.
Qed.
Lemma agree_content ip : inode_ok V ip -> content V' ip = content V ip.
Proof using All.
  intros [h1 _ h3 _ _ _ _]. unfold content, bytes_of. apply list_fmap_ext. intros j x Hx. apply lookup_seqZ in Hx as [-> Hj].
  apply agree_fbyte; [done|]. eapply fblock_at; [|exact (proj2 h3)]. lia.
Qed.
End Agree.

Lemma iupdate_ok (outs pid : Z) (FT : list file) (G : layout) (Hout : 1 <= outs) bs V IC s i ip :
  tx pid D sb lstart lsize outs FT [] bs V IC s -> IC !! i = Some ip -> i_dev ip = 1 ->
  0 <= i_inum ip < sb_ninodes sb -> room lsize bs 1 ->
  returns (iupdate i) s (fun _ => tx pid D sb lstart lsize outs FT [] (logged bs (IBLOCK (i_inum ip) sb)) (stored V ip) IC).
Proof.
  intros X HIC Hdev Hin Hr. destruct (IBLOCK_disk G _ Hin) as [Hd Hl]. unfold iupdate.
  tx_step (tx_get_inode pid D sb lstart lsize outs FT [] bs V IC s X i ip) as x s0 E. destruct E as [-> ->]. rewrite Hdev.
  tx_step (tx_get_sb pid D sb lstart lsize outs FT [] bs V IC s X) as x s0 E. destruct E as [-> ->].
  tx_step (tx_bread pid D sb lstart lsize outs FT [] bs V _ s X) as bp s1 X1; [apply not_elem_of_nil|auto|].
  tx_step (tx_buf_data pid D sb lstart lsize outs FT _ bs V _ s1 X1) as l s2 E. destruct E as [-> ->].
  tx_step (tx_set_data pid D sb lstart lsize outs FT _ bs V _ s1 X1) as u s2 X2.
  tx_step (tx_log_write pid D sb lstart lsize outs FT _ bs _ _ s2 X2) as u' s3 X3.
  eapply tx_brelse; [exact X3|done|]. left. apply logged_in. by right.
Qed.
End Inodes.
