(* ===== verification/FsSpec.v ===== *)
(** The file system as a set of byte arrays: [readi] returns a slice of a
    file's content, [writei] splices bytes into it, and no other file, nor its
    inode on disk, changes. *)
From stdpp Require Import functions.
From S2P Require Import Prelude Kstate Demo Mem MemSpec Sched Sleeplock Bio BioSpec Log LogSpec LogOps Inode Dir FsTx FsBlock FsMap FsFile FsInode.

Section Spec.
Context (D : list (list Z)) (sb : superblock) (lstart lsize : Z).
#[local] Abbreviation layout := (layout D sb lstart lsize).
#[local] Abbreviation fs_ok := (fs_ok D sb).
#[local] Abbreviation inode_ok := (inode_ok sb).
#[local] Abbreviation rooms := (rooms sb lsize).
#[local] Abbreviation dinode_at := (dinode_at sb).
#[local] Abbreviation written := (written D sb).

(** Files with no block in common. *)
Definition apart (V : Z -> list Z) (ip jp : inode) : Prop :=
  forall n, owns V (i_addrs ip) n -> ~ owns V (i_addrs jp) n.

(** [src] was written at [off] of the file [ip]. *)
Record file_written (off : Z) (src : list Z) (V : Z -> list Z) (ip : inode) (V' : Z -> list Z) (ip' : inode) : Prop := mkFileWritten {
  fw_fs : fs_ok V';
  fw_inode : inode_ok V' ip';
  fw_content : content V' ip' = splice (content V ip) off src;
  fw_fields : ip' = ip <| i_addrs := i_addrs ip' |> <| i_size := i_size ip' |>;
  fw_synced : dinode_at V (i_inum ip) = dinode_of ip -> dinode_at V' (i_inum ip) = dinode_of ip';
  fw_dinodes : forall m, 0 <= m < sb_ninodes sb -> m <> i_inum ip -> dinode_at V' m = dinode_at V m;
  fw_others : forall jp, inode_ok V jp -> apart V ip jp ->
    inode_ok V' jp /\ content V' jp = content V jp /\ apart V' ip' jp;
}.

Section Write.
Context (G : layout) (V : Z -> list Z) (ip : inode) (off : Z) (src : list Z).
#[local] Abbreviation n := (Z.of_nat (length src)).
Context (IO : inode_ok V ip) (Hoff : 0 <= off <= i_size ip) (Hend : off + n <= MAXFILE * BSIZE).
Context (V' : Z -> list Z) (A' : list Z) (W : written V (i_addrs ip) (i_size ip) off src n V' A').
#[local] Abbreviation ip' := (ip <| i_addrs := A' |> <| i_size := Z.max (i_size ip) (off + n) |>).

Lemma written_inode_ok : inode_ok V' ip'.
Proof using All.
  destruct IO as [h1 h2 h3 h4 h5 h6 h7], W as [w1 w2 w3 w4 w5 w6]. split; try done. cbn. lia.
Qed.

Lemma written_content : content V' ip' = splice (content V ip) off src.
Proof using All.
  destruct W as [_ _ _ _ _ Hb]. pose proof (in_size _ _ _ IO) as Hsz. unfold content.
  change (bytes_of V' A' (Z.max (i_size ip) (off + n)) = splice (bytes_of V (i_addrs ip) (i_size ip)) off src).
  set (c := bytes_of V (i_addrs ip) (i_size ip)). pose proof (bytes_of_length V (i_addrs ip) (i_size ip) ltac:(lia)) as Hc. fold c in Hc.
  apply list_eq. intros j. rewrite bytes_of_lookup. unfold splice.
  assert (Hfb : Z.of_nat j < Z.max (i_size ip) (off + n) -> fblock (Z.of_nat j / BSIZE)).
  { intros Hlt. eapply (fblock_at _ (Z.max (i_size ip) (off + n))); lia. }
  destruct (Z.lt_ge_cases (Z.of_nat j) off) as [Hlt|Hge].
  { rewrite (proj2 (Z.ltb_lt _ _)), Hb by (lia || auto with lia). rewrite (proj2 (Z.leb_gt _ _)) by lia. cbn [andb].
    rewrite lookup_app_l by (rewrite length_take; lia). rewrite lookup_take_lt by lia. unfold c. rewrite bytes_of_lookup.
    by rewrite (proj2 (Z.ltb_lt _ _)) by lia. }
  rewrite lookup_app_r by (rewrite length_take; lia). rewrite length_take_le by lia.
  destruct (Z.lt_ge_cases (Z.of_nat j) (off + n)) as [Hlt|Hge'].
  - rewrite (proj2 (Z.ltb_lt _ _)), Hb by (lia || auto with lia).
    rewrite (proj2 (Z.leb_le _ _)), (proj2 (Z.ltb_lt _ _)) by lia. cbn [andb]. rewrite lookup_app_l by lia.
    unfold byte_at. replace (Z.to_nat (Z.of_nat j - off)) with (j - Z.to_nat off)%nat by lia.
    destruct (lookup_lt_is_Some_2 src (j - Z.to_nat off)%nat) as [x ->]; [lia|done].
  - rewrite lookup_app_r, lookup_drop by lia. replace (_ + _ + _)%nat with j by lia. unfold c. rewrite bytes_of_lookup.
    destruct (Z.ltb_spec (Z.of_nat j) (i_size ip)), (Z.ltb_spec (Z.of_nat j) (Z.max (i_size ip) (off + n))); try lia; [|done].
    rewrite Hb by auto. by rewrite (proj2 (Z.ltb_ge _ (off + n))), andb_false_r by lia.
Qed.

Lemma written_others jp : inode_ok V jp -> apart V ip jp ->
  inode_ok V' jp /\ content V' jp = content V jp /\ apart V' ip' jp.
Proof using All.
  intros JO Hap. destruct W as [_ _ Hg _ _ _]. pose proof (in_file _ _ _ JO) as FB. split; [|split].
  - destruct JO as [h1 h2 h3 h4 h5 h6 h7]. split; try done; [by eapply other_ok|].
    intros bn Hbn Hlt. rewrite (other_faddr sb V (i_addrs ip) V' A') by done. by apply h2.
  - unfold content, bytes_of. apply list_fmap_ext. intros j x Hx. apply lookup_seqZ in Hx as [-> Hj]. unfold fbyte.
    rewrite (other_faddr sb V (i_addrs ip) V' A') by done. destruct (Z.eqb_spec (faddr V (i_addrs jp) ((0 + Z.of_nat j) / BSIZE)) 0) as [|Hz]; [done|].
    rewrite (other_block sb V (i_addrs ip) V' A' (i_addrs jp)); [done..|]. split; [done|right]. eexists. split; [|done].
    eapply fblock_at; [|exact (proj2 (in_size _ _ _ JO))]. lia.
  - intros m. by apply (other_sep sb V (i_addrs ip) V' A').
Qed.

Lemma written_dinodes m : 0 <= m < sb_ninodes sb -> dinode_at V' m = dinode_at V m.
Proof using All.
  intros Hm. unfold FsInode.dinode_at. rewrite (gr_meta _ _ _ _ _ (wn_grows _ _ _ _ _ _ _ _ _ _ W)); [done|].
  by apply (IBLOCK_range D sb lstart lsize G).
Qed.

(** Without growth, the inode and its copy on disk are as before. *)
Lemma written_within : off + n <= i_size ip -> file_written off src V ip V' ip'.
Proof using All.
  intros Hin. pose proof (wn_same _ _ _ _ _ _ _ _ _ _ W Hin) as EA. split.
  - apply W.
  - apply written_inode_ok.
  - apply written_content.
  - done.
  - intros Hs. rewrite written_dinodes by apply IO. rewrite Hs, EA, Z.max_l by lia. by destruct ip.
  - intros m Hm _. by apply written_dinodes.
  - apply written_others.
Qed.

(** With growth, [iupdate] follows. *)
Lemma written_grown : file_written off src V ip (stored sb V' ip') ip'.
Proof using All.
  pose proof written_inode_ok as IO'. pose proof (in_inum _ _ _ IO') as Hin. pose proof (wn_fs _ _ _ _ _ _ _ _ _ _ W) as FO'.
  pose proof (inode_dinode_ok _ _ _ _ G _ _ IO') as OK.
  assert (HV := stored_ne D sb lstart lsize G V' ip' FO' Hin OK). split.
  - by apply (stored_fs_ok D sb lstart lsize).
  - by eapply (agree_inode_ok D sb lstart lsize G V').
  - rewrite <- written_content. by eapply (agree_content D sb lstart lsize G V').
  - done.
  - intros _. exact (stored_self D sb lstart lsize G V' ip' FO' Hin OK).
  - intros m Hm Hne. rewrite <- written_dinodes by done. exact (stored_other D sb lstart lsize G V' ip' FO' Hin OK m Hm Hne).
  - intros jp JO Hap. destruct (written_others jp JO Hap) as (JO' & EC & Hap'). split; [|split].
    + by eapply (agree_inode_ok D sb lstart lsize G V').
    + rewrite <- EC. by eapply (agree_content D sb lstart lsize G V').
    + intros m. rewrite (agree_owns D sb lstart lsize G V' _ HV) by apply IO'.
      rewrite (agree_owns D sb lstart lsize G V' _ HV (i_addrs jp)) by apply JO'. apply Hap'.
Qed.
End Write.

(** Enough of the log is left to write up to [e] from [off] on, and enough
    free blocks. *)
Definition log_room (bs : list Z) (ip : inode) (off e : Z) : Prop :=
  rooms bs (ipend bs (i_addrs ip) + turns off e + 1).
Definition disk_room (V : Z -> list Z) (ip : inode) (off e : Z) : Prop :=
  (needs V (i_addrs ip) (off / BSIZE) (turns off e) <= nfree sb V)%nat.

Lemma agree_room (G : layout) V V' ip off e : (forall n, sb_bmapstart sb <= n -> V' n = V n) ->
  inode_ok V ip -> disk_room V ip off e -> disk_room V' ip off e.
Proof.
  intros HV IO Hr. unfold disk_room in *. rewrite (agree_nfree D sb lstart lsize G V _ HV). unfold needs in *.
  erewrite filter_ext_in; [exact Hr|]. intros n _. cbn beta.
  by rewrite (agree_faddr D sb lstart lsize G V _ HV) by apply IO.
Qed.

Section Run.
Context (outs pid : Z) (FT : list file).
#[local] Abbreviation tx := (tx pid D sb lstart lsize outs FT).
Context (G : layout) (Hout : 1 <= outs) (bs : list Z) (V : Z -> list Z) (IC : list inode) (i : nat) (ip : inode) (s : kstate).
Context (X : tx [] bs V IC s) (FO : fs_ok V) (HIC : IC !! i = Some ip) (IO : inode_ok V ip).
Context (off : Z) (src : list Z) (Hoff : 0 <= off < 2 ^ 32) (Hsrc : Z.of_nat (length src) < 2 ^ 32).
#[local] Abbreviation n := (Z.of_nat (length src)).

(** The write may be the first part of one that ends at [last]. *)
Lemma writei_ok last : off <= i_size ip -> off + n <= last <= MAXFILE * BSIZE ->
  log_room bs ip off (off + n) -> disk_room V ip off last ->
  returns (writei i src off) s (fun r s' => r = n /\ exists bs' V' ip',
    tx [] bs' V' (<[i := ip']> IC) s' /\ file_written off src V ip V' ip' /\ disk_room V' ip' (off + n) last).
Proof using All.
  intros Ho Hlast Hr Hn. assert (Hend : off + n <= MAXFILE * BSIZE) by lia. pose proof IO as [FL Hcov Hsz Hdev Hty Hin _]. unfold writei. change (MAXFILE * BSIZE) with 71680 in *.
  tx_step (tx_get_inode pid D sb lstart lsize outs FT [] bs V IC s X i) as x s0 E. destruct E as [-> ->].
  rewrite (proj2 (Z.eqb_neq _ _)) by done. rewrite (u32_id (off + n)) by lia.
  rewrite (proj2 (Z.ltb_ge (i_size ip) off)), (proj2 (Z.ltb_ge (off + n) off)), (proj2 (Z.ltb_ge 71680 (off + n))) by lia. cbn [orb].
  eapply returns_bind.
  { eapply (write_loop D sb lstart lsize outs pid FT G IC i ip HIC Hdev Hout V (i_addrs ip) (i_size ip) off src Hcov)
      with (last := last); try done; try (change (MAXFILE * BSIZE) with 71680; lia). by apply fx_self. }
  intros o s1 (-> & bs' & V' & A' & X1 & W & Hr' & Hn'). pose proof (ipend_bound bs' A') as Hip.
  assert (HIC' : <[i := ip <| i_addrs := A' |>]> IC !! i = Some (ip <| i_addrs := A' |>))
    by (apply list_lookup_insert_eq; by eapply lookup_lt_Some).
  tx_step (tx_get_inode pid D sb lstart lsize outs FT [] bs' V' _ s1 X1 i) as x s0 E. destruct E as [-> ->].
  change (i_size (ip <| i_addrs := A' |>)) with (i_size ip).
  destruct (Z.ltb_spec (i_size ip) (off + n)) as [Hg|Hg].
  - rewrite (proj2 (Z.ltb_lt 0 n)) by lia. cbn [andb whenM]. apply returns_assoc.
    tx_step (tx_upd_inode pid D sb lstart lsize outs FT [] bs' V' _ s1 X1 i) as u s2 X2. rewrite list_insert_insert_eq in X2.
    tx_step (iupdate_ok D sb lstart lsize outs pid FT G Hout bs' V' _ s2 i (ip <| i_addrs := A' |> <| i_size := off + n |>) X2) as u' s3 X3.
    { apply list_lookup_insert_eq. by eapply lookup_lt_Some. }
    { apply (rooms_room sb). eapply rooms_le; [exact Hr'|lia]. }
    apply returns_ret. split; [done|]. eexists _, _, _. split; [exact X3|].
    pose proof (written_inode_ok G V ip off src IO ltac:(lia) Hend V' A' W) as IO'.
    pose proof (written_grown G V ip off src IO ltac:(lia) Hend V' A' W) as FW. rewrite Z.max_r in FW, IO' by lia.
    split; [done|]. apply (agree_room G V'); [|done|exact Hn'].
    apply (stored_ne D sb lstart lsize G V'); [apply W|exact Hin|exact (inode_dinode_ok _ _ _ _ G _ _ IO')].
  - rewrite andb_false_r. cbn [whenM]. apply returns_ret_bind, returns_ret. split; [done|]. eexists _, _, _. split; [exact X1|].
    pose proof (written_within G V ip off src IO ltac:(lia) Hend V' A' W Hg) as FW. rewrite Z.max_l in FW by lia.
    replace (ip <| i_addrs := A' |> <| i_size := i_size ip |>) with (ip <| i_addrs := A' |>) in FW by (by destruct ip).
    split; [done|exact Hn'].
Qed.
End Run.
End Spec.
