(* ===== verification/FsOp.v ===== *)
(** Transactions of the file system seen from outside: [begin_op] and [end_op]
    around the code that writes, and the sleep lock of an inode.  Between
    transactions the disk holds what the kernel sees. *)
From stdpp Require Import functions.
From S2P Require Import Prelude Kstate Mem MemSpec Sched ProcSpec Sleeplock Bio BioSpec Log LogSpec LogOps Inode FsTx.

(** * The sleep lock of an inode *)

(** [s] with inode [i] of the cache replaced. *)
Definition puti (i : nat) (y : inode) (s : kstate) : kstate := s <| k_icache ::= <[i := y]> |>.

Lemma bind_get_inode {B} i x (k : inode -> K B) s :
  k_icache s !! i = Some x -> bind (get_inode i) k s = k x s.
Proof. intros H. unfold get_inode. mrun. by rewrite H. Qed.
Lemma bind_upd_inode {B} i x f (k : unit -> K B) s :
  k_icache s !! i = Some x -> bind (upd_inode i f) k s = k tt (puti i (f x) s).
Proof.
  intros H. unfold bind, upd_inode, modify, puti.
  assert (E : alter f i (k_icache s) = <[i := f x]> (k_icache s)) by by apply list_alter_at.
  destruct s. unfold upd. cbn in *. by rewrite E.
Qed.

Section Sleep.
Context (i : nat) (x : inode) (s : kstate) (Hh : k_held s = []) (Hi : k_icache s !! i = Some x).

Lemma holdingsleep_inode pid : me pid s ->
  holdingsleep (SL_inode i) s = Ret (ctrue (sl_locked (i_lock x)) && (sl_pid (i_lock x) =? pid)) s.
Proof using All.
  intros (c & p & Hc & Hp & <-). unfold holdingsleep, bind at 1.
  rewrite acquire_ok by (rewrite Hh; apply not_elem_of_nil). cbn [sl_get sl_lk].
  rewrite bind_assoc, (bind_get_inode i x) by done. unfold myproc. mrun.
  change (k_cur (s <| k_held := L_inodesleep i :: k_held s |>)) with (k_cur s). rewrite Hc. mrun.
  unfold bind at 1. rewrite (get_proc_eq c p) by done. unfold bind at 1.
  rewrite (release_ok _ []); [|by cbn; rewrite Hh|apply not_elem_of_nil].
  unfold ret. f_equal. rewrite <- Hh. by destruct s.
Qed.

Lemma acquiresleep_inode pid : me pid s -> sl_locked (i_lock x) = 0 ->
  acquiresleep (SL_inode i) s = Ret tt (puti i (x <| i_lock := mkSl 1 pid |>) s).
Proof using All.
  intros (c & p & Hc & Hp & <-) Hl. unfold acquiresleep, bind at 1.
  rewrite acquire_ok by (rewrite Hh; apply not_elem_of_nil). unfold acquiresleep_locked.
  cbn [sl_get sl_lk sl_chan sl_set].
  rewrite bind_assoc, (bind_get_inode i x) by done. mrun. rewrite Hl. cbn [ctrue negb Z.eqb].
  unfold myproc. mrun.
  change (k_cur (s <| k_held := L_inodesleep i :: k_held s |>)) with (k_cur s). rewrite Hc. mrun.
  unfold bind at 1. rewrite (get_proc_eq c p) by done. rewrite (bind_upd_inode i x) by done.
  rewrite (release_ok _ []); [|by cbn; rewrite Hh|apply not_elem_of_nil].
  f_equal. rewrite <- Hh. by destruct s.
Qed.

Lemma releasesleep_inode :
  releasesleep (SL_inode i) s =
    Ret tt ((puti i (x <| i_lock := mkSl 0 0 |>) s) <| k_procs ::= fmap (wake (Some (C_inodesleep i))) |>).
Proof using All.
  unfold releasesleep, bind at 1. rewrite acquire_ok by (rewrite Hh; apply not_elem_of_nil).
  cbn [sl_lk sl_chan sl_set]. rewrite (bind_upd_inode i x) by done. unfold bind at 1.
  rewrite wakeup_ok by (cbn; rewrite Hh; by intros [?|?%elem_of_nil]%elem_of_cons).
  rewrite (release_ok _ []); [|by cbn; rewrite Hh|apply not_elem_of_nil].
  f_equal. rewrite <- Hh. by destruct s.
Qed.
End Sleep.

(** * The cache and processes *)

Lemma me_wake pid s ch : me pid s -> me pid (s <| k_procs ::= fmap (wake ch) |>).
Proof.
  intros (c & p & Hc & Hp & Hid). exists c, (wake ch p). split; [done|]. split.
  - change (k_procs (s <| k_procs ::= fmap (wake ch) |>)) with (wake ch <$> k_procs s). by rewrite list_lookup_fmap, Hp.
  - rewrite <- Hid. unfold wake. by destruct (_ && _).
Qed.
Lemma cache_wake pid H P V s ch : cache pid H P V s -> cache pid H P V (s <| k_procs ::= fmap (wake ch) |>).
Proof. intros [h1 h2 h3 h4 h5 h6 h7 h8 h9 h10 h11 h12]. split; try done. by apply me_wake. Qed.

Section Op.
Context (pid : Z) (sb : superblock) (lstart lsize : Z).
#[local] Abbreviation tx D outs FT := (tx pid D sb lstart lsize outs FT).

(** ** Locking an inode that is in the cache *)

Lemma ilock_ok D outs FT bs V IC s i ip :
  tx D outs FT [] bs V IC s -> IC !! i = Some ip -> 1 <= i_ref ip -> i_valid ip <> 0 -> sl_locked (i_lock ip) = 0 ->
  returns (ilock (Some i)) s (fun _ => tx D outs FT [] bs V (<[i := ip <| i_lock := mkSl 1 pid |>]> IC)).
Proof.
  intros [C HD HL Hst Hsz Hout Hcm HI HF HS] Hi Hr Hv Hl. rewrite <- HI in *. cbn [ilock].
  exists tt, (puti i (ip <| i_lock := mkSl 1 pid |>) s). split.
  - rewrite (bind_get_inode i ip) by done. rewrite (proj2 (Z.ltb_ge _ _)) by done.
    rewrite (bind_eq _ _ _ _ _ (acquiresleep_inode i ip s (c_spin _ _ _ _ _ C) Hi pid (c_me _ _ _ _ _ C) Hl)).
    rewrite (bind_get_inode i (ip <| i_lock := mkSl 1 pid |>)).
    + change (i_valid (ip <| i_lock := mkSl 1 pid |>)) with (i_valid ip). by rewrite (proj2 (Z.eqb_neq _ _)).
    + cbn. apply list_lookup_insert_eq. by eapply lookup_lt_Some.
  - split; try done. by destruct C.
Qed.

Lemma iunlock_ok D outs FT bs V IC s i ip :
  tx D outs FT [] bs V IC s -> IC !! i = Some ip -> 1 <= i_ref ip -> i_lock ip = mkSl 1 pid ->
  returns (iunlock (Some i)) s (fun _ => tx D outs FT [] bs V (<[i := ip <| i_lock := mkSl 0 0 |>]> IC)).
Proof.
  intros [C HD HL Hst Hsz Hout Hcm HI HF HS] Hi Hr Hl. rewrite <- HI in *. cbn [iunlock].
  eexists tt, _. split.
  - rewrite (bind_eq _ _ _ _ _ (holdingsleep_inode i ip s (c_spin _ _ _ _ _ C) Hi pid (c_me _ _ _ _ _ C))).
    rewrite (bind_get_inode i ip) by done. rewrite Hl. cbn [sl_locked sl_pid]. rewrite Z.eqb_refl.
    change (ctrue 1) with true. cbn [andb negb orb]. rewrite (proj2 (Z.ltb_ge _ _)) by done.
    exact (releasesleep_inode i ip s (c_spin _ _ _ _ _ C) Hi).
  - split; try done. apply cache_wake. by destruct C.
Qed.

(** ** Open files *)

Lemma tx_get_file D outs FT H bs V IC s fd f :
  tx D outs FT H bs V IC s -> FT !! fd = Some f -> returns (get_file fd) s (fun x s' => x = f /\ s' = s).
Proof. intros X Hf. exists f, s. split; [|done]. unfold get_file. mrun. by rewrite (x_ftable _ _ _ _ _ _ _ _ _ _ _ _ X), Hf. Qed.

Lemma tx_upd_file D outs FT H bs V IC s fd f g :
  tx D outs FT H bs V IC s -> FT !! fd = Some f -> returns (upd_file fd g) s (fun _ => tx D outs (<[fd := g f]> FT) H bs V IC).
Proof.
  intros [C HD HL Hst Hsz Hout Hcm HI HF HS] Hf. exists tt, (s <| k_ftable ::= alter g fd |>). split; [done|].
  split; try done; [by destruct C|].
  change (alter g fd (k_ftable s) = <[fd := g f]> FT). rewrite HF. by apply list_alter_at.
Qed.

(** ** A transaction on its own *)

Lemma begin_op_ok D FT V IC s :
  tx D 0 FT [] [] V IC s -> returns begin_op s (fun _ => tx D 1 FT [] [] V IC).
Proof.
  intros [C HD HL Hst Hsz Hout Hcm HI HF HS]. pose proof (c_spin _ _ _ _ _ C) as Hh.
  exists tt, (s <| k_log ::= fun lg => lg <| lg_outstanding ::= fun n => n + 1 |> |>). split.
  - unfold begin_op, bind at 1. rewrite acquire_ok by (rewrite Hh; apply not_elem_of_nil). unfold begin_op_locked. mrun.
    change (k_log (s <| k_held := L_log :: k_held s |>)) with (k_log s). rewrite Hcm, Hout, (lo_n _ _ _ HL). mrun.
    change (ctrue 0) with false. cbv iota. change (LOGSIZE <? Z.of_nat (length (@nil Z)) + (0 + 1) * MAXOPBLOCKS) with false. cbv iota.
    unfold upd_log. mrun. rewrite (release_ok _ []); [|by cbn; rewrite Hh|apply not_elem_of_nil].
    f_equal. rewrite <- Hh. by destruct s.
  - split; try done.
    + by destruct C.
    + by destruct HL.
    + unfold upd. cbn. by rewrite Hout.
Qed.

Lemma commit_files s s' : commit s = Ret tt s' ->
  k_icache s' = k_icache s /\ k_sb s' = k_sb s /\ k_ftable s' = k_ftable s.
Proof.
  unfold commit. mrun. cbn [compose]. destruct (0 <? lg_n (k_log s)); cbn [whenM]; [|by intros [= <-]].
  intros ([] & s1 & H1 & ([] & s2 & H2 & ([] & s3 & H3 & ([] & s4 & H4 & H5)%bind_Ret)%bind_Ret)%bind_Ret)%bind_Ret.
  apply (keeps_Ret log_frame anything) in H1 as (_ & E1 & F1 & G1), H2 as (_ & E2 & F2 & G2),
    H3 as (_ & E3 & F3 & G3), H5 as (_ & E5 & F5 & G5); try apply _.
  injection H4 as <-. cbn in E5, F5, G5. split; [congruence|]. split; congruence.
Qed.

(** The log alone changes. *)
Lemma tx_log D outs FT bs V IC s f outs' c :
  tx D outs FT [] bs V IC s -> (forall L, f L = L <| lg_outstanding := outs' |> <| lg_committing := c |>) ->
  fsys pid [] (list_to_set bs) V D (k_dwrites s) (f (k_log s)) (s <| k_log ::= f |>) /\ log_ok (f (k_log s)) (length D) bs.
Proof.
  intros [C HD HL Hst Hsz Hout Hcm HI HF HS] Hf. split.
  - split; try done. by destruct C.
  - rewrite Hf. by destruct HL.
Qed.

(** All blocks of the disk are whole. *)
Definition whole (D : list (list Z)) (V : Z -> list Z) : Prop :=
  forall n, 0 <= n < Z.of_nat (length D) -> length (V n) = Z.to_nat BSIZE.

(** [commit] of what the transaction wrote, if it wrote anything. *)
Lemma commit_ok D FT bs V IC s0 s :
  tx D 1 FT [] bs V IC s0 -> whole D V ->
  s = s0 <| k_log ::= fun lg => lg <| lg_outstanding := 0 |> <| lg_committing := 1 |> |> ->
  returns commit s (fun _ s' => exists D' V' T', length D' = length D /\ whole D' V' /\
    (forall m, ~ (lstart <= m < lstart + lsize) -> V' m = V m) /\
    fsys pid [] ∅ V' D' T' ((k_log s) <| lg_n := 0 |>) s' /\
    k_icache s' = k_icache s0 /\ k_sb s' = k_sb s0 /\ k_ftable s' = k_ftable s0).
Proof.
  intros X Hlen Hs. destruct (tx_log _ _ _ _ _ _ _ (fun lg => lg <| lg_outstanding := 0 |> <| lg_committing := 1 |>) 0 1 X) as [F HL]; [done|].
  rewrite <- Hs in F. change ((k_log s0) <| lg_outstanding := 0 |> <| lg_committing := 1 |>) with (k_log (s0 <| k_log ::= fun lg => lg <| lg_outstanding := 0 |> <| lg_committing := 1 |> |>)) in F, HL.
  rewrite <- Hs in F, HL. pose proof X as [_ _ _ Hst Hsz _ _ _ _ _].
  assert (Hst' : lg_start (k_log s) = lstart) by (by rewrite Hs). assert (Hsz' : lg_size (k_log s) = lsize) by (by rewrite Hs).
  destruct (decide (bs = [])) as [->|Hne].
  - exists tt, s. split.
    + unfold commit. mrun. cbn [compose]. by rewrite (lo_n _ _ _ HL).
    + exists D, V, (k_dwrites s0). split; [done|]. split; [done|]. split; [done|]. split; [|by rewrite Hs].
      replace ((k_log s) <| lg_n := 0 |>) with (k_log s); [exact F|]. pose proof (lo_n _ _ _ HL) as En. destruct (k_log s). cbn in En. by rewrite En.
  - assert (Hin : in_log (k_log s) (lg_start (k_log s))) by (pose proof (lo_room _ _ _ HL); unfold in_log; lia).
    assert (Hhd : length (V (lg_start (k_log s))) = Z.to_nat BSIZE) by (apply Hlen; destruct HL; unfold in_log in Hin; lia).
    destruct (fs_commit pid V D _ (k_log s) bs s HL Hne Hhd F) as ([] & s' & E & F').
    assert (HD' : length (apply_writes D (commit_writes (k_log s) V bs)) = length D) by apply length_apply_writes.
    exists tt, s'. split; [done|]. eexists _, (commit_view (k_log s) V bs), _. split; [exact HD'|]. split; [|split; [|split; [exact F'|]]].
    + intros n Hn. rewrite HD' in Hn. by eapply commit_view_length.
    + intros m Hm. eapply commit_view_outside; [exact HL|done|]. unfold in_log. congruence.
    + destruct (commit_files s s' E) as (-> & -> & ->). by rewrite Hs.
Qed.

Lemma end_op_ok D FT bs V IC s :
  tx D 1 FT [] bs V IC s -> whole D V ->
  returns end_op s (fun _ s' => exists D' V', length D' = length D /\ whole D' V' /\
    (forall m, ~ (lstart <= m < lstart + lsize) -> V' m = V m) /\ tx D' 0 FT [] [] V' IC s').
Proof.
  intros X Hlen. pose proof X as [C HD HL Hst Hsz Hout Hcm HI HF HS]. pose proof (c_spin _ _ _ _ _ C) as Hh.
  set (s1 := s <| k_log ::= fun lg => lg <| lg_outstanding := 0 |> <| lg_committing := 1 |> |>).
  destruct (commit_ok D FT bs V IC s s1 X Hlen eq_refl) as ([] & s2 & E & D' & V' & T' & HD' & Hw' & HV' & F' & EI & ES & EF).
  exists tt, (s2 <| k_log ::= fun lg => lg <| lg_committing := 0 |> |> <| k_procs ::= fmap (wake (Some C_log)) |>).
  destruct F' as [C2 HD2 HT2 HL2]. pose proof (c_spin _ _ _ _ _ C2) as Hh2. split.
  - unfold end_op, bind at 1. rewrite acquire_ok by (rewrite Hh; apply not_elem_of_nil). unfold upd_log. mrun.
    set (sa := upd k_log _ _).
    assert (Ec : lg_committing (k_log sa) = 0) by (subst sa; unfold upd; cbn; exact Hcm).
    assert (Eo : lg_outstanding (k_log sa) = 0) by (subst sa; unfold upd; cbn; by rewrite Hout).
    rewrite Ec, Eo. change (ctrue 0) with false. cbv iota. change (0 =? 0) with true. cbv iota. cbn [whenM]. mrun.
    unfold bind at 1. rewrite (release_ok _ []); [|by subst sa; cbn; rewrite Hh|apply not_elem_of_nil].
    set (sb' := upd k_held _ _). assert (Eb : sb' = s1).
    { subst sb' sa s1. unfold upd. cbn. rewrite <- Hh, Hout. by destruct s. }
    rewrite Eb, (bind_eq _ _ _ _ _ E). unfold bind at 1. rewrite acquire_ok by (rewrite Hh2; apply not_elem_of_nil). mrun.
    unfold bind at 1. rewrite wakeup_ok by (cbn; rewrite Hh2; by intros [?|?%elem_of_nil]%elem_of_cons).
    rewrite (release_ok _ []); [|by cbn; rewrite Hh2|apply not_elem_of_nil].
    f_equal. rewrite <- Hh2. by destruct s2.
  - exists D', V'. split; [done|]. split; [done|]. split; [done|]. split; try done.
    + apply cache_wake. by destruct C2.
    + change (log_ok ((k_log s2) <| lg_committing := 0 |>) (length D') []). rewrite HL2, HD'.
      destruct HL as [h1 h2 h3 h4 h5 h6 h7 h8 h9 h10 h11]. split; try done; [cbn; lia|constructor|by intros b ?%elem_of_nil].
    + change (lg_start (k_log s2) = lstart). by rewrite HL2.
    + change (lg_size (k_log s2) = lsize). by rewrite HL2.
    + change (lg_outstanding (k_log s2) = 0). by rewrite HL2.
    + change (k_icache s2 = IC). congruence.
    + change (k_ftable s2 = FT). congruence.
    + change (k_sb s2 = sb). congruence.
Qed.
End Op.
