(* ===== verification/FsSys.v ===== *)
(** Reading and writing open files: [fileread] returns the bytes at the file's
    offset and moves it, and [filewrite], whose transactions commit one after
    another, leaves the written bytes on the disk. *)
From stdpp Require Import functions.
From S2P Require Import Prelude Kstate Demo Mem MemSpec Sched Sleeplock Bio BioSpec Log LogSpec LogOps Inode Dir File FsTx FsBlock FsMap FsFile FsInode FsSpec FsOp.

Lemma splice_splice c o a b : 0 <= o <= Z.of_nat (length c) ->
  splice (splice c o a) (o + Z.of_nat (length a)) b = splice c o (a ++ b).
Proof.
  intros Ho. unfold splice. rewrite (app_assoc (take _ c) a).
  assert (Hl : length (take (Z.to_nat o) c ++ a) = Z.to_nat (o + Z.of_nat (length a))) by (rewrite length_app, length_take; lia).
  rewrite take_app_length' by done. rewrite drop_app_ge by lia. rewrite Hl, drop_drop, <- !app_assoc.
  do 3 f_equal. rewrite length_app. f_equal. lia.
Qed.
Lemma splice_nil c o : splice c o [] = c.
Proof. unfold splice. rewrite app_nil_l, Nat.add_0_r. apply take_drop. Qed.

Section Sys.
Context (pid : Z) (sb : superblock) (lstart lsize : Z).
#[local] Abbreviation layout D := (layout D sb lstart lsize).
#[local] Abbreviation tx D outs FT := (tx pid D sb lstart lsize outs FT).
#[local] Abbreviation inode_ok := (inode_ok sb).
#[local] Abbreviation file_written D := (file_written D sb).

(** * Several writes *)

Lemma written_nothing D V ip off : fs_ok D sb V -> inode_ok V ip -> file_written D off [] V ip V ip.
Proof.
  intros FO IO. split; try done; [by rewrite splice_nil|by destruct ip].
Qed.

Lemma content_length V ip : inode_ok V ip -> Z.of_nat (length (content V ip)) = i_size ip.
Proof. intros IO. apply bytes_of_length. apply IO. Qed.

Lemma written_trans D D' off s1 s2 V ip V1 ip1 V2 ip2 :
  inode_ok V ip -> 0 <= off <= i_size ip -> file_written D off s1 V ip V1 ip1 ->
  file_written D' (off + Z.of_nat (length s1)) s2 V1 ip1 V2 ip2 -> file_written D' off (s1 ++ s2) V ip V2 ip2.
Proof.
  intros IO Hoff [a1 a2 a3 a4 a5 a6 a7] [b1 b2 b3 b4 b5 b6 b7].
  assert (Ei : i_inum ip1 = i_inum ip) by (by rewrite a4). rewrite Ei in *. split; try done.
  - rewrite b3, a3, splice_splice; [done|]. rewrite content_length by done. done.
  - rewrite b4, a4 at 1. by destruct ip.
  - auto.
  - intros m Hm Hne. rewrite b6, a6; done.
  - intros jp JO Hap. destruct (a7 jp JO Hap) as (JO1 & E1 & Hap1). destruct (b7 jp JO1 Hap1) as (JO2 & E2 & Hap2).
    split; [done|]. split; [congruence|done].
Qed.

(** The view of the blocks outside the log is what counts. *)
Lemma log_before_bitmap D (V1 V2 : Z -> list Z) : layout D -> (forall m, ~ (lstart <= m < lstart + lsize) -> V2 m = V1 m) ->
  forall n, sb_bmapstart sb <= n -> V2 n = V1 n.
Proof.
  intros G HV n Hn. apply HV. pose proof (ly_inodes _ _ _ _ G). pose proof (ly_bmap _ _ _ _ G). pose proof (ly_ninodes _ _ _ _ G).
  assert (0 <= sb_ninodes sb / IPB) by (apply Z.div_pos; [lia|done]). lia.
Qed.

Lemma written_agree D D' off src V ip V1 ip1 V2 : layout D -> length D' = length D -> whole D' V2 ->
  (forall m, ~ (lstart <= m < lstart + lsize) -> V2 m = V1 m) ->
  file_written D off src V ip V1 ip1 -> file_written D' off src V ip V2 ip1.
Proof.
  intros G HD Hw HV [a1 a2 a3 a4 a5 a6 a7].
  assert (HVd := log_before_bitmap D V1 V2 G HV).
  assert (HVi : forall m, 0 <= m < sb_ninodes sb -> dinode_at sb V2 m = dinode_at sb V1 m).
  { intros m Hm. unfold dinode_at. rewrite HV; [done|]. by apply (IBLOCK_disk D sb lstart lsize G). }
  assert (Hin : 0 <= i_inum ip < sb_ninodes sb) by (pose proof (in_inum _ _ _ a2) as Hin; by rewrite a4 in Hin). split.
  - split; [done|]. intros b Hb. rewrite <- (fo_meta _ _ _ a1 b Hb). unfold used. rewrite HVd; [done|].
    apply (BBLOCK_range D sb lstart lsize G). pose proof (ly_data _ _ _ _ G). lia.
  - by eapply (agree_inode_ok D sb lstart lsize G V1).
  - rewrite <- a3. by eapply (agree_content D sb lstart lsize G V1).
  - done.
  - intros Hs. rewrite HVi by done. auto.
  - intros m Hm Hne. rewrite HVi by done. auto.
  - intros jp JO Hap. destruct (a7 jp JO Hap) as (JO1 & E1 & Hap1). split; [|split].
    + by eapply (agree_inode_ok D sb lstart lsize G V1).
    + rewrite <- E1. by eapply (agree_content D sb lstart lsize G V1).
    + intros m. rewrite (agree_owns D sb lstart lsize G V1 V2 HVd (i_addrs ip1)) by apply a2.
      rewrite (agree_owns D sb lstart lsize G V1 V2 HVd (i_addrs jp)) by apply JO1. apply Hap1.
Qed.

(** Neither does it matter who holds the inode's lock. *)
Lemma inode_ok_lock V ip l : inode_ok V ip <-> inode_ok V (ip <| i_lock := l |>).
Proof. split; by intros [h1 h2 h3 h4 h5 h6 h7]. Qed.
Lemma written_lock D off src V ip V' ip' l l' :
  file_written D off src V (ip <| i_lock := l |>) V' ip' -> i_lock ip = l' ->
  file_written D off src V ip V' (ip' <| i_lock := l' |>).
Proof.
  intros [a1 a2 a3 a4 a5 a6 a7] Hl. split; try done.
  - exact (proj1 (inode_ok_lock _ _ _) a2).
  - rewrite a4, <- Hl. by destruct ip.
Qed.

(** * One transaction of [filewrite] *)

(** An inode in the cache that nobody has locked. *)
Definition usable (ip : inode) : Prop := 1 <= i_ref ip /\ i_valid ip <> 0 /\ i_lock ip = mkSl 0 0.

Definition moved (f : file) (n : Z) : file := f <| f_off := f_off f + n |>.

(** The log has room for what [begin_op] reserves, and the bitmap is one
    block. *)
Definition op_fits : Prop := MAXOPBLOCKS <= lsize - 1 /\ sb_size sb < BPB.

Lemma op_room ip off n : op_fits -> 0 <= sb_size sb -> 0 <= off -> 0 <= n <= filewrite_max -> log_room sb lsize [] ip off (off + n).
Proof.
  intros [Hl Hb] Hs Ho Hn. unfold log_room, rooms, room. cbn [length].
  assert (Hbm : bmaps sb [] <= 1).
  { unfold bmaps. rewrite Z.div_small by lia. change (0 + 1) with 1. pose proof (length_filter (fun n => n ∉ []) (seqZ (sb_bmapstart sb) 1)) as Hf.
    rewrite length_seqZ in Hf. lia. }
  pose proof (ipend_bound [] (i_addrs ip)). pose proof (turns_bound off n Ho ltac:(lia)) as [_ Ht].
  assert (n / BSIZE <= 3) by (change filewrite_max with 1536 in Hn; change BSIZE with 512; Z.to_euclidean_division_equations; lia).
  change MAXOPBLOCKS with 10 in Hl. lia.
Qed.

Section Op.
Context (D : list (list Z)) (G : layout D) (FT : list file) (V : Z -> list Z) (IC : list inode) (s : kstate).
Context (X : tx D 0 FT [] [] V IC s) (FO : fs_ok D sb V) (Hfit : op_fits).
Context (fd : nat) (f : file) (HF : FT !! fd = Some f) (i : nat) (Hip : f_ip f = Some i).
Context (ip : inode) (HI : IC !! i = Some ip) (IO : inode_ok V ip) (Hu : usable ip).
Context (src : list Z) (Hn : 0 < Z.of_nat (length src) <= filewrite_max) (last : Z).
#[local] Abbreviation n := (Z.of_nat (length src)).
Context (Hoff : 0 <= f_off f <= i_size ip) (Hlast : f_off f + n <= last <= MAXFILE * BSIZE).
Context (Hroom : disk_room sb V ip (f_off f) last).

Lemma write_op {B} (k : Z -> K B) (Q : B -> kstate -> Prop) :
  (forall D' V' ip' s', length D' = length D -> tx D' 0 (<[fd := moved f n]> FT) [] [] V' (<[i := ip']> IC) s' ->
     file_written D' (f_off f) src V ip V' ip' -> disk_room sb V' ip' (f_off f + n) last -> returns (k n) s' Q) ->
  returns (begin_op;;;
           ilock (f_ip f);;;
           ip <- deref (f_ip f);;
           f <- get_file fd;;
           r <- writei ip src (f_off f);;
           whenM (0 <? r) (upd_file fd (fun f => f <| f_off ::= fun o => u32 (o + r) |>));;;
           iunlock (f_ip f);;;
           end_op;;;
           k r) s Q.
Proof using All.
  intros HQ. destruct Hu as (Hr & Hv & Hl). change (MAXFILE * BSIZE) with 71680 in *.
  tx_step (begin_op_ok pid sb lstart lsize) as u s1 X1. rewrite Hip.
  tx_step (ilock_ok pid sb lstart lsize D 1 FT [] V IC s1 i ip X1) as u' s2 X2; [by rewrite Hl|].
  cbn [deref]. apply returns_ret_bind.
  tx_step (tx_get_file pid sb lstart lsize D 1 FT [] [] V _ s2 fd f X2) as x s0 E. destruct E as [-> ->]. rewrite Hip.
  assert (HI2 : <[i := ip <| i_lock := mkSl 1 pid |>]> IC !! i = Some (ip <| i_lock := mkSl 1 pid |>))
    by (apply list_lookup_insert_eq; by eapply lookup_lt_Some).
  assert (Hs : 0 <= sb_size sb) by (pose proof (size_pos _ _ _ _ G); pose proof (ly_data _ _ _ _ G); unfold dstart in *; lia).
  assert (Hlr := op_room (ip <| i_lock := mkSl 1 pid |>) (f_off f) n Hfit Hs ltac:(lia) ltac:(lia)).
  assert (HW := writei_ok D sb lstart lsize 1 pid FT G ltac:(lia) [] V _ i (ip <| i_lock := mkSl 1 pid |>) s2 X2 FO HI2
    (proj1 (inode_ok_lock _ _ _) IO) (f_off f) src ltac:(lia) ltac:(lia) last (proj2 Hoff) Hlast Hlr Hroom).
  tx_step HW as r s3 E. destruct E as (-> & bs & V1 & ip1 & X3 & FW & Hroom1).
  rewrite list_insert_insert_eq in X3. rewrite (proj2 (Z.ltb_lt 0 n)) by lia. cbn [whenM].
  tx_step (tx_upd_file pid sb lstart lsize D 1 FT [] bs V1 _ s3 fd f) as u'' s4 X4.
  assert (Ef : (f <| f_off ::= fun o => u32 (o + n) |>) = moved f n).
  { unfold moved, upd. cbn. by rewrite u32_id by lia. }
  rewrite Ef in X4. pose proof (fw_fields _ _ _ _ _ _ _ _ FW) as Efld.
  assert (HI4 : <[i := ip1]> IC !! i = Some ip1) by (apply list_lookup_insert_eq; by eapply lookup_lt_Some).
  tx_step (iunlock_ok pid sb lstart lsize D 1 _ bs V1 _ s4 i ip1 X4) as w s5 X5; [by rewrite Efld|by rewrite Efld|].
  rewrite list_insert_insert_eq in X5.
  tx_step (end_op_ok pid sb lstart lsize D _ bs V1 _ s5 X5) as w' s6 E; [exact (fo_len _ _ _ (fw_fs _ _ _ _ _ _ _ _ FW))|].
  destruct E as (D' & V' & HD' & Hw & HV & X6).
  pose proof (written_lock D _ _ _ _ _ _ _ _ FW Hl) as FW1.
  pose proof (written_agree D D' _ _ _ _ _ _ V' G HD' Hw HV FW1) as FW'.
  eapply HQ; [exact HD'|exact X6|exact FW'|].
  apply (agree_room D sb lstart lsize G V1); [by apply (log_before_bitmap D)|apply FW1|exact Hroom1].
Qed.
End Op.

(** * The whole of [filewrite] *)

Lemma layout_length D D' : layout D -> length D' = length D -> layout D'.
Proof. intros [h1 h2 h3 h4 h5 h6 h7 h8] HD. split; rewrite ?HD; done. Qed.

Lemma splice_length c o a : 0 <= o <= Z.of_nat (length c) ->
  Z.of_nat (length (splice c o a)) = Z.max (Z.of_nat (length c)) (o + Z.of_nat (length a)).
Proof. intros Ho. unfold splice. rewrite !length_app, length_take, length_drop. lia. Qed.

Lemma written_size D off src V ip V' ip' : inode_ok V ip -> 0 <= off <= i_size ip ->
  file_written D off src V ip V' ip' -> i_size ip' = Z.max (i_size ip) (off + Z.of_nat (length src)).
Proof.
  intros IO Hoff FW. rewrite <- (content_length V' ip') by apply FW. rewrite (fw_content _ _ _ _ _ _ _ _ FW).
  rewrite splice_length by (rewrite content_length; done). by rewrite content_length.
Qed.

Lemma moved_moved f a b : moved (moved f a) b = moved f (a + b).
Proof. unfold moved, upd. cbn. by rewrite Z.add_assoc. Qed.
Lemma moved_0 f : moved f 0 = f.
Proof. destruct f. unfold moved, upd. cbn. by rewrite Z.add_0_r. Qed.

Section Filewrite.
Context (D : list (list Z)) (G : layout D) (FT : list file) (V : Z -> list Z) (IC : list inode).
Context (FO : fs_ok D sb V) (Hfit : op_fits).
Context (fd : nat) (f : file) (HF : FT !! fd = Some f) (i : nat) (Hip : f_ip f = Some i).
Context (ip : inode) (HI : IC !! i = Some ip) (IO : inode_ok V ip) (Hu : usable ip).
Context (addr : list Z).
#[local] Abbreviation n := (Z.of_nat (length addr)).
Context (Hoff : 0 <= f_off f <= i_size ip) (Hend : f_off f + n <= MAXFILE * BSIZE).
Context (Hroom : disk_room sb V ip (f_off f) (f_off f + n)).

(** After [k] bytes, between transactions. *)
Definition wrote_upto (k : Z) (s : kstate) : Prop := 0 <= k <= n /\ exists D' V' ip', length D' = length D /\
  tx D' 0 (<[fd := moved f k]> FT) [] [] V' (<[i := ip']> IC) s /\
  file_written D' (f_off f) (take (Z.to_nat k) addr) V ip V' ip' /\ disk_room sb V' ip' (f_off f + k) (f_off f + n).

Lemma filewrite_start s : tx D 0 FT [] [] V IC s -> wrote_upto 0 s.
Proof using All.
  intros X. split; [lia|]. exists D, V, ip. split; [done|]. rewrite moved_0, !list_insert_id, Z.add_0_r by done.
  split; [done|]. split; [by apply written_nothing|done].
Qed.

Lemma filewrite_turn {B} k (c : Z -> K B) (Q : B -> kstate -> Prop) s :
  wrote_upto k s -> k < n -> let n1 := Z.min (n - k) filewrite_max in
  (forall s', wrote_upto (k + n1) s' -> returns (c n1) s' Q) ->
  returns (begin_op;;;
           ilock (f_ip f);;;
           ip <- deref (f_ip f);;
           f <- get_file fd;;
           r <- writei ip (slice addr k n1) (f_off f);;
           whenM (0 <? r) (upd_file fd (fun f => f <| f_off ::= fun o => u32 (o + r) |>));;;
           iunlock (f_ip f);;;
           end_op;;;
           c r) s Q.
Proof using All.
  intros (Hk & D1 & V1 & ip1 & HD1 & X & FW & Hr) Hlt n1 HQ.
  assert (Hn1 : 0 < n1 <= filewrite_max /\ n1 <= n - k) by (subst n1; change filewrite_max with 1536; lia).
  assert (Hls : Z.of_nat (length (slice addr k n1)) = n1) by (rewrite slice_length; lia).
  assert (Hlt' : Z.of_nat (length (take (Z.to_nat k) addr)) = k) by (rewrite length_take; lia).
  pose proof (written_size _ _ _ _ _ _ _ IO Hoff FW) as Hsz. rewrite Hlt' in Hsz.
  pose proof (fw_fields _ _ _ _ _ _ _ _ FW) as Ef. change (f_ip f) with (f_ip (moved f k)).
  eapply (write_op D1 (layout_length _ _ G HD1) (<[fd := moved f k]> FT) V1 (<[i := ip1]> IC) s X) with (last := f_off f + n) (ip := ip1) (i := i).
  - apply FW.
  - done.
  - apply list_lookup_insert_eq. by eapply lookup_lt_Some.
  - done.
  - apply list_lookup_insert_eq. by eapply lookup_lt_Some.
  - apply FW.
  - destruct Hu as (h1 & h2 & h3). rewrite Ef. done.
  - lia.
  - change (f_off (moved f k)) with (f_off f + k). lia.
  - change (f_off (moved f k)) with (f_off f + k). lia.
  - exact Hr.
  - rewrite Hls. intros D2 V2 ip2 s2 HD2 X2 FW2 Hr2. apply HQ. split; [lia|]. exists D2, V2, ip2.
    split; [congruence|]. rewrite !list_insert_insert_eq, moved_moved in X2. split; [done|].
    change (f_off (moved f k)) with (f_off f + k) in FW2, Hr2. split.
    + rewrite <- Hlt' in FW2. pose proof (written_trans _ _ _ _ _ _ _ _ _ _ _ IO Hoff FW FW2) as FW3.
      unfold slice in FW3. rewrite Hlt', take_take_drop in FW3. by rewrite Z2Nat.inj_add by lia.
    + by rewrite Z.add_assoc.
Qed.

Lemma filewrite_ok s : tx D 0 FT [] [] V IC s -> f_writable f <> 0 -> f_type f = FD_INODE ->
  returns (filewrite fd addr) s (fun r s' => r = n /\ wrote_upto n s').
Proof using All.
  intros X Hw Hty. unfold filewrite.
  tx_step (tx_get_file pid sb lstart lsize D 0 FT [] [] V IC s fd f) as x s0 E. destruct E as [-> ->].
  rewrite (proj2 (Z.eqb_neq _ _)), Hty by done.
  eapply (returns_loop wrote_upto (fun k => Z.to_nat (n - k))).
  - by apply filewrite_start.
  - lia.
  - clear s X. intros k s W. destruct (Z.ltb_spec k n) as [Hlt|Hge].
    + eapply (filewrite_turn k _ _ s W Hlt). intros s' W'. set (n1 := Z.min (n - k) filewrite_max) in *.
      assert (0 < n1) by (subst n1; change filewrite_max with 1536; lia).
      rewrite (proj2 (Z.ltb_ge _ _)), Z.eqb_refl by lia. cbn [negb]. apply returns_ret. split; [done|]. pose proof (proj1 W). lia.
    + apply returns_ret. pose proof (proj1 W). replace k with n in * by lia. by rewrite Z.eqb_refl.
Qed.
End Filewrite.

(** * Contracts *)

(** Between transactions: nothing is logged, and the structures of the disk
    are in order. *)
Record quiet (D : list (list Z)) (FT : list file) (V : Z -> list Z) (IC : list inode) (s : kstate) : Prop := mkQuiet {
  q_layout : layout D;
  q_fits : op_fits;
  q_fs : fs_ok D sb V;
  q_tx : tx D 0 FT [] [] V IC s;
}.

(** [f] is open file [fd], of the inode [ip] at index [i] of the cache. *)
Record opened (FT : list file) (V : Z -> list Z) (IC : list inode) (fd : nat) (f : file) (i : nat) (ip : inode) : Prop := mkOpened {
  op_file : FT !! fd = Some f;
  op_type : f_type f = FD_INODE;
  op_ip : f_ip f = Some i;
  op_inode : IC !! i = Some ip;
  op_ok : inode_ok V ip;
  op_free : usable ip;
  op_off : 0 <= f_off f <= i_size ip;
}.

(** The disk itself holds what the kernel sees. *)
Lemma quiet_disk D FT V IC s : quiet D FT V IC s ->
  forall m, 0 <= m < Z.of_nat (length D) -> k_disk s !! Z.to_nat m = Some (V m).
Proof.
  intros [_ _ _ X] m Hm. destruct X as [C HD _ _ _ _ _ _ _ _]. apply (c_clean _ _ _ _ _ C); [by rewrite HD|set_solver|apply not_elem_of_nil].
Qed.

Lemma filewrite_quiet D FT V IC s fd f i ip addr :
  quiet D FT V IC s -> opened FT V IC fd f i ip -> f_writable f <> 0 ->
  f_off f + Z.of_nat (length addr) <= MAXFILE * BSIZE -> disk_room sb V ip (f_off f) (f_off f + Z.of_nat (length addr)) ->
  returns (filewrite fd addr) s (fun r s' => r = Z.of_nat (length addr) /\ exists D' V' ip',
    quiet D' (<[fd := moved f (Z.of_nat (length addr))]> FT) V' (<[i := ip']> IC) s' /\
    opened (<[fd := moved f (Z.of_nat (length addr))]> FT) V' (<[i := ip']> IC) fd (moved f (Z.of_nat (length addr))) i ip' /\
    file_written D' (f_off f) addr V ip V' ip').
Proof.
  intros [G Hfit FO X] [HF Hty Hip HI IO Hu Hoff] Hw Hend Hroom. eapply returns_mono.
  { eapply (filewrite_ok D G FT V IC FO Hfit fd f HF i Hip ip HI IO Hu addr); done. }
  intros r s' (-> & _ & D' & V' & ip' & HD & X' & FW & _). split; [done|]. exists D', V', ip'.
  rewrite firstn_all2 in FW by lia. pose proof (written_size _ _ _ _ _ _ _ IO Hoff FW) as Hsz.
  pose proof (fw_fields _ _ _ _ _ _ _ _ FW) as Ef. split; [|split; [|done]].
  - split; [by apply (layout_length D)|done|apply FW|done].
  - split; try done.
    + apply list_lookup_insert_eq. by eapply lookup_lt_Some.
    + apply list_lookup_insert_eq. by eapply lookup_lt_Some.
    + apply FW.
    + rewrite Ef. exact Hu.
    + change (f_off (moved f (Z.of_nat (length addr)))) with (f_off f + Z.of_nat (length addr)). lia.
Qed.

Lemma fileread_quiet D FT V IC s fd f i ip n :
  quiet D FT V IC s -> opened FT V IC fd f i ip -> f_readable f <> 0 -> 0 <= n < 2 ^ 31 ->
  let l := slice (content V ip) (f_off f) n in
  returns (fileread fd n) s (fun r s' => r = (Z.of_nat (length l), l) /\
    quiet D (<[fd := moved f (Z.of_nat (length l))]> FT) V IC s').
Proof.
  intros [G Hfit FO X] [HF Hty Hip HI IO (Hr & Hv & Hl) Hoff] Hrd Hn l.
  pose proof (in_size _ _ _ IO) as Hsz. change (MAXFILE * BSIZE) with 71680 in Hsz.
  unfold fileread. tx_step (tx_get_file pid sb lstart lsize D 0 FT [] [] V IC s fd f) as x s0 E. destruct E as [-> ->].
  rewrite (proj2 (Z.eqb_neq _ _)), Hty, Hip by done.
  tx_step (ilock_ok pid sb lstart lsize D 0 FT [] V IC s i ip X) as u s1 X1; [by rewrite Hl|].
  cbn [deref]. apply returns_ret_bind.
  assert (HI1 : <[i := ip <| i_lock := mkSl 1 pid |>]> IC !! i = Some (ip <| i_lock := mkSl 1 pid |>))
    by (apply list_lookup_insert_eq; by eapply lookup_lt_Some).
  tx_step (readi_ok D sb lstart lsize 0 pid FT G [] V _ i _ FO HI1 (proj1 (inode_ok_lock _ _ _) IO) s1 (f_off f) (u32 n) X1)
    as r s2 E; [lia|rewrite u32_id; lia|]. destruct E as [-> X2]. rewrite u32_id by lia.
  unfold read_result. change (i_size (ip <| i_lock := mkSl 1 pid |>)) with (i_size ip).
  change (content V (ip <| i_lock := mkSl 1 pid |>)) with (content V ip). fold l.
  rewrite u32_id by lia. rewrite (proj2 (Z.ltb_ge _ _)), (proj2 (Z.ltb_ge _ (f_off f))) by lia. cbn [orb]. cbv zeta.
  assert (Hll : 0 <= Z.of_nat (length l) <= i_size ip - f_off f).
  { unfold l. rewrite slice_length, content_length by (done || lia). lia. }
  eapply (returns_bind _ _ _ (fun _ => tx D 0 (<[fd := moved f (Z.of_nat (length l))]> FT) [] [] V (<[i := ip <| i_lock := mkSl 1 pid |>]> IC))).
  { destruct (Z.ltb_spec 0 (Z.of_nat (length l))) as [Hpos|Hz]; cbn [whenM].
    - eapply returns_mono; [by eapply (tx_upd_file pid sb lstart lsize)|]. intros [] s3 X3. cbn beta in X3.
      replace (f <| f_off ::= fun o => u32 (o + Z.of_nat (length l)) |>) with (moved f (Z.of_nat (length l))) in X3; [done|].
      unfold moved, upd. cbn. by rewrite u32_id by lia.
    - replace (Z.of_nat (length l)) with 0 by lia. rewrite moved_0, list_insert_id by done. by apply returns_ret. }
  intros [] s3 X3. tx_step (iunlock_ok pid sb lstart lsize D 0 _ [] V _ s3 i _ X3) as w s4 X4.
  apply returns_ret. split; [done|]. rewrite list_insert_insert_eq in X4.
  replace (ip <| i_lock := mkSl 1 pid |> <| i_lock := mkSl 0 0 |>) with ip in X4 by (rewrite <- Hl; by destruct ip).
  rewrite (list_insert_id IC) in X4 by done. by split.
Qed.
End Sys.

(** C8: [filewrite] on a file open for writing writes all the bytes, however
    many transactions that takes: the file's content becomes the old one with
    the bytes spliced in at the offset, growing as needed; the offset moves
    past them; all of it, and the inode where it was in step with its copy,
    is on the disk when the call returns; and every file that shares no block
    with this one keeps its content and its inode.  A file not open for
    writing gives -1. *)
Theorem filewrite_spec pid sb lstart lsize D FT V IC s fd f i ip addr :
  quiet pid sb lstart lsize D FT V IC s -> opened sb FT V IC fd f i ip ->
  f_off f + Z.of_nat (length addr) <= MAXFILE * BSIZE ->
  disk_room sb V ip (f_off f) (f_off f + Z.of_nat (length addr)) ->
  if f_writable f =? 0 then filewrite fd addr s = Ret (-1) s
  else returns (filewrite fd addr) s (fun r s' => r = Z.of_nat (length addr) /\ exists D' V' ip',
    let f' := moved f (Z.of_nat (length addr)) in
    quiet pid sb lstart lsize D' (<[fd := f']> FT) V' (<[i := ip']> IC) s' /\
    opened sb (<[fd := f']> FT) V' (<[i := ip']> IC) fd f' i ip' /\
    (forall m, 0 <= m < Z.of_nat (length D') -> k_disk s' !! Z.to_nat m = Some (V' m)) /\
    file_written D' sb (f_off f) addr V ip V' ip').
Proof.
  intros Hq Ho Hend Hroom. destruct (Z.eqb_spec (f_writable f) 0) as [Hz|Hw].
  - unfold filewrite. pose proof (q_tx _ _ _ _ _ _ _ _ _ Hq) as X.
    destruct (tx_get_file _ _ _ _ _ _ _ _ _ _ _ _ _ _ X (op_file _ _ _ _ _ _ _ _ Ho)) as (x & s0 & E & -> & ->).
    by rewrite (bind_eq _ _ _ _ _ E), Hz.
  - eapply returns_mono; [by eapply filewrite_quiet|]. intros r s' (-> & D' & V' & ip' & Hq' & Ho' & FW).
    split; [done|]. exists D', V', ip'. split; [done|]. split; [done|]. split; [by eapply quiet_disk|done].
Qed.

(** C9: [fileread] on a file open for reading returns the bytes of the file
    from its offset on, at most [n] of them and none past the end, moves the
    offset by as many, and changes no file.  A file not open for reading gives
    -1. *)
Theorem fileread_spec pid sb lstart lsize D FT V IC s fd f i ip n :
  quiet pid sb lstart lsize D FT V IC s -> opened sb FT V IC fd f i ip -> 0 <= n < 2 ^ 31 ->
  let l := slice (content V ip) (f_off f) n in
  if f_readable f =? 0 then fileread fd n s = Ret (-1, []) s
  else returns (fileread fd n) s (fun r s' => r = (Z.of_nat (length l), l) /\
    quiet pid sb lstart lsize D (<[fd := moved f (Z.of_nat (length l))]> FT) V IC s').
Proof.
  intros Hq Ho Hn l. destruct (Z.eqb_spec (f_readable f) 0) as [Hz|Hr].
  - unfold fileread. pose proof (q_tx _ _ _ _ _ _ _ _ _ Hq) as X.
    destruct (tx_get_file _ _ _ _ _ _ _ _ _ _ _ _ _ _ X (op_file _ _ _ _ _ _ _ _ Ho)) as (x & s0 & E & -> & ->).
    by rewrite (bind_eq _ _ _ _ _ E), Hz.
  - by eapply fileread_quiet.
Qed.

(** C10: what one open file writes, another one at the same place reads back. *)
Theorem write_read pid sb lstart lsize D FT V IC s fd f fd' f' i ip addr :
  quiet pid sb lstart lsize D FT V IC s -> opened sb FT V IC fd f i ip -> opened sb FT V IC fd' f' i ip ->
  fd <> fd' -> f_off f' = f_off f -> f_writable f <> 0 -> f_readable f' <> 0 ->
  f_off f + Z.of_nat (length addr) <= MAXFILE * BSIZE ->
  disk_room sb V ip (f_off f) (f_off f + Z.of_nat (length addr)) ->
  returns (filewrite fd addr;;; fileread fd' (Z.of_nat (length addr))) s
    (fun r _ => r = (Z.of_nat (length addr), addr)).
Proof.
  intros Hq Ho Ho' Hne Heq Hw Hr Hend Hroom. eapply returns_bind; [by eapply filewrite_quiet|].
  intros r s' (_ & D' & V' & ip' & Hq' & [h1 h2 h3 h4 h5 h6 h7] & FW).
  pose proof (op_off _ _ _ _ _ _ _ _ Ho) as Hoff. pose proof (op_ok _ _ _ _ _ _ _ _ Ho) as IO.
  assert (Ho2 : opened sb (<[fd := moved f (Z.of_nat (length addr))]> FT) V' (<[i := ip']> IC) fd' f' i ip').
  { destruct Ho' as [g1 g2 g3 g4 g5 g6 g7]. split; try done; [by rewrite list_lookup_insert_ne|].
    change (f_off (moved f (Z.of_nat (length addr)))) with (f_off f + Z.of_nat (length addr)) in h7. lia. }
  eapply returns_mono; [eapply (fileread_quiet _ _ _ _ _ _ _ _ _ _ _ _ _ (Z.of_nat (length addr)) Hq' Ho2 Hr)|].
  { change (MAXFILE * BSIZE) with 71680 in Hend. lia. }
  intros x s2 [-> _]. rewrite (fw_content _ _ _ _ _ _ _ _ FW), Heq.
  assert (E : slice (splice (content V ip) (f_off f) addr) (f_off f) (Z.of_nat (length addr)) = addr); [|by rewrite E].
  pose proof (content_length _ _ _ IO) as Hc. unfold slice, splice. rewrite Nat2Z.id.
  rewrite drop_app_length' by (rewrite length_take; lia). by rewrite take_app_length.
Qed.
