(* ===== verification/FsDemo.v ===== *)
(** A small concrete file system, on which the theorems about files are
    applied: a disk of 40 blocks with a log of 20, eight inodes, one bitmap
    block and one file of five bytes, opened twice. *)
From stdpp Require Import functions.
From S2P Require Import Prelude Kstate Demo Mem MemSpec Sched Sleeplock Bio BioSpec Log LogSpec LogOps Inode Dir File FsTx FsBlock FsMap FsFile FsInode FsSpec FsOp FsSys.

Definition small_sb : superblock := mkSb 40 15 8 20 2 22 24.
Definition small_bitmap : list Z := [255; 255; 255; 3] ++ replicate 508 0.
Definition small_disk : list (list Z) :=
  replicate 24 zero_block ++ [small_bitmap; [104; 101; 108; 108; 111] ++ replicate 507 0] ++ replicate 14 zero_block.
Definition small_view : Z -> list Z := disk_view small_disk.

Definition small_inode : inode := mkInode 1 1 1 (mkSl 0 0) 1 2 0 0 1 5 (25 :: replicate 12 0).
Definition small_icache : list inode := small_inode :: replicate 49 inode_zero.
Definition small_file : file := mkFile FD_INODE 1 1 1 0 (Some 0%nat) 2.
Definition small_ftable : list file := [small_file; small_file].

Definition small_boot : kstate :=
  demo2 <| k_disk := small_disk |> <| k_bcache := mkBc (replicate NBUF buf_zero) (seq 0 NBUF) |>
    <| k_icache := small_icache |> <| k_ftable := small_ftable |> <| k_sb := small_sb |>.
Definition small_log : log := log_zero <| lg_start := 2 |> <| lg_size := 20 |> <| lg_dev := 1 |>.
Definition small_fs : kstate := small_boot <| k_log := small_log |>.

Lemma small_layout : layout small_disk small_sb 2 20.
Proof. split; vm_compute; congruence. Qed.

Lemma small_lengths n : 0 <= n < Z.of_nat (length small_disk) -> length (small_view n) = Z.to_nat BSIZE.
Proof.
  intros Hn. assert (Hall : forallb (fun l => Nat.eqb (length l) (Z.to_nat BSIZE)) small_disk = true) by by vm_compute.
  rewrite forallb_forall in Hall. unfold small_view, disk_view.
  destruct (lookup_lt_is_Some_2 small_disk (Z.to_nat n)) as [l Hl]; [lia|]. rewrite Hl. cbn [default].
  apply Nat.eqb_eq, Hall, list_elem_of_In. by eapply list_elem_of_lookup_2.
Qed.

Lemma small_used b : 0 <= b < 26 -> used small_sb small_view b = true.
Proof.
  intros Hb. assert (Hall : forallb (used small_sb small_view) (seqZ 0 26) = true) by by vm_compute.
  rewrite forallb_forall in Hall. apply Hall, list_elem_of_In, elem_of_seqZ. lia.
Qed.

Lemma small_fs_ok : fs_ok small_disk small_sb small_view.
Proof. split; [apply small_lengths|]. intros b Hb. apply small_used. change (dstart small_sb) with 25 in Hb. lia. Qed.

Lemma cache_set_log pid H P V s l : cache pid H P V s -> cache pid H P V (s <| k_log := l |>).
Proof. by intros [h1 h2 h3 h4 h5 h6 h7 h8 h9 h10 h11 h12]. Qed.

Lemma small_cache : cache 1 [] (list_to_set []) small_view small_fs.
Proof.
  apply cache_set_log. apply (booted_cache 1 small_boot).
  split; [done|]. split; [done|]. split; [done|]. split; [|done]. by exists 0%nat, (demo_proc 1 RUNNING None).
Qed.

Lemma small_faddr bn : fblock bn -> faddr small_view (i_addrs small_inode) bn = if bn =? 0 then 25 else 0.
Proof.
  intros Hbn. unfold fblock in Hbn. unfold faddr. destruct (Z.ltb_spec bn NDIRECT) as [Hlt|Hge].
  - change NDIRECT with 12 in Hlt.
    assert (Hall : forallb (fun b => ia (i_addrs small_inode) b =? if b =? 0 then 25 else 0) (seqZ 0 12) = true) by by vm_compute.
    rewrite forallb_forall in Hall. apply Z.eqb_eq, Hall, list_elem_of_In, elem_of_seqZ. lia.
  - change NDIRECT with 12 in *. change (ia (i_addrs small_inode) 12) with 0. by rewrite (proj2 (Z.eqb_neq bn 0)) by lia.
Qed.

Lemma small_inode_ok : inode_ok small_sb small_view small_inode.
Proof.
  split; try done; cbn [i_size i_inum]; try (change MAXFILE with 140; change BSIZE with 512); try (vm_compute; split; congruence).
  - split; try done.
    + intros bn Hbn. rewrite small_faddr by done. destruct (bn =? 0); [|done]. intros _. split; [by vm_compute|by apply small_used].
    + intros a b Ha Hb. rewrite !small_faddr by done. destruct (Z.eqb_spec a 0), (Z.eqb_spec b 0); done || lia.
  - intros bn H0 Hbn. change (bn * 512 < 5) in Hbn. rewrite small_faddr by (unfold fblock; change MAXFILE with 140; lia).
    replace bn with 0 by lia. done.
Qed.

Lemma small_quiet : quiet 1 small_sb 2 20 small_disk small_ftable small_view small_icache small_fs.
Proof.
  split; [apply small_layout|by vm_compute|apply small_fs_ok|]. split; try done; [apply small_cache|].
  split; try done; try (vm_compute; congruence); [constructor|by intros b ?%elem_of_nil].
Qed.

Lemma small_opened fd : (fd < 2)%nat -> opened small_sb small_ftable small_view small_icache fd small_file 0 small_inode.
Proof.
  intros Hfd. split; try done; [by destruct fd as [|[|]]; [..|lia]|apply small_inode_ok].
Qed.

(** ** Instances *)

(** Six hundred bytes at offset 2: the file grows by a block. *)
Definition small_bytes : list Z := replicate 600 7.

Lemma small_room : disk_room small_sb small_view small_inode 2 602.
Proof. unfold disk_room. apply Nat.leb_le. by vm_compute. Qed.

Lemma filewrite_spec_witness : exists s', filewrite 0 small_bytes small_fs = Ret 600 s'.
Proof.
  destruct (filewrite_spec 1 small_sb 2 20 small_disk small_ftable small_view small_icache small_fs 0 small_file 0 small_inode small_bytes)
    as (r & s' & E & Er & _).
  - exact small_quiet.
  - apply small_opened. lia.
  - vm_compute. congruence.
  - exact small_room.
  - exists s'. rewrite E, Er. reflexivity.
Defined.

Lemma fileread_spec_witness : exists s', fileread 0 10 small_fs = Ret (3, [108; 108; 111]) s'.
Proof.
  destruct (fileread_spec 1 small_sb 2 20 small_disk small_ftable small_view small_icache small_fs 0 small_file 0 small_inode 10)
    as (r & s' & E & Er & _).
  - exact small_quiet.
  - apply small_opened. lia.
  - lia.
  - exists s'. rewrite E, Er. by vm_compute.
Defined.

Lemma write_read_witness : exists s', (filewrite 0 small_bytes;;; fileread 1 600) small_fs = Ret (600, small_bytes) s'.
Proof.
  destruct (write_read 1 small_sb 2 20 small_disk small_ftable small_view small_icache small_fs 0 small_file 1 small_file 0 small_inode small_bytes)
    as (r & s' & E & Er).
  - exact small_quiet.
  - apply small_opened. lia.
  - apply small_opened. lia.
  - discriminate.
  - reflexivity.
  - discriminate.
  - discriminate.
  - vm_compute. congruence.
  - exact small_room.
  - exists s'. transitivity (Ret (S := kstate) r s'); [exact E|]. rewrite Er. reflexivity.
Defined.

Lemma balloc_spec_witness : exists s1 s2, begin_op small_fs = Ret tt s1 /\ balloc 1 s1 = Ret 26 s2.
Proof.
  destruct (begin_op_ok 1 small_sb 2 20 small_disk small_ftable small_view small_icache small_fs) as ([] & s1 & E & X).
  - exact (q_tx _ _ _ _ _ _ _ _ _ small_quiet).
  - destruct (balloc_spec 1 small_disk small_sb 2 20 1 small_ftable [] [] small_view small_icache s1)
      as (b & s2 & E2 & V' & bs' & _ & Hb & Hf & Hmin & _).
    + exact small_layout.
    + lia.
    + exact X.
    + exact small_fs_ok.
    + left. reflexivity.
    + vm_compute. congruence.
    + exists s1, s2. split; [exact E|]. rewrite E2. f_equal.
      destruct (Z.lt_trichotomy b 26) as [Hlt|[Heq|Hgt]]; [|exact Heq|].
      * rewrite small_used in Hf; [discriminate|]. destruct Hb as [Hb _]. change (dstart small_sb) with 25 in Hb. lia.
      * specialize (Hmin 26 ltac:(lia)). vm_compute in Hmin. discriminate.
Defined.
