(* ===== verification/Mkfs.v ===== *)
(** The program that builds the file system image ([mkfs.c]): it lays out
    the super block, the inodes and the bitmap, and copies the files named on
    its command line into the root directory of the image.  The host's files
    hold whole sectors of the image; a command line argument is a byte string
    without its final zero. *)
From S2P Require Import Prelude Kstate Mem Log Inode Dir.

Definition NINODES : Z := 200.
Definition nbitmap : Z := FSSIZE / (BSIZE * 8) + 1.
Definition ninodeblocks : Z := NINODES / IPB + 1.
Definition nlog : Z := LOGSIZE.

(** The image and the global variables [sb], [freeinode] and [freeblock]. *)
Record mkfs : Type := mkMkfs {
  m_img : list (list Z);
  m_sb : superblock;
  m_freeinode : Z;
  m_freeblock : Z;
}.
#[export] Instance eta_mkfs : Eta mkfs := fun r =>
  mkMkfs (m_img r) (m_sb r) (m_freeinode r) (m_freeblock r).

Definition mkfs_start : mkfs := mkMkfs [] sb_zero 1 0.

(** The bytes are stored in Intel order and read back as the host's number:
    the host is an Intel machine too. *)
Definition xshort (x : Z) : Z := get16 (le16 x) 0.
Definition xint (x : Z) : Z := get32 (le32 x) 0.

(** [struct superblock] in memory. *)
Definition encode_sb (sb : superblock) : list Z :=
  mjoin (le32 <$> [sb_size sb; sb_nblocks sb; sb_ninodes sb; sb_nlog sb; sb_logstart sb; sb_inodestart sb; sb_bmapstart sb]).

Definition assert (b : bool) : M mkfs unit := if b then ret tt else panic "assert".

Section Mkfs.
(** The host: whether it has room for the sector at a byte of the image,
    whether it lets the image be created, and the bytes of the file of a
    name, if it can be opened. *)
Context (room : Z -> bool) (creat : list Z -> bool) (open : list Z -> option (list Z)).

(** Sector [k] of a file becomes [buf]; a file that was shorter is extended. *)
Definition put_sect (img : list (list Z)) (k : nat) (buf : list Z) : list (list Z) :=
  if decide (k < length img)%nat then <[k := buf]> img
  else img ++ replicate (k - length img) zero_block ++ [buf].

Definition wsect (sec : Z) (buf : list Z) : M mkfs unit :=
  let off := u32 (sec * BSIZE) in
  if room off then modify (fun m => m <| m_img ::= fun img => put_sect img (Z.to_nat (off / BSIZE)) buf |>)
  else panic "write".

Definition rsect (sec : Z) : M mkfs (list Z) :=
  let off := u32 (sec * BSIZE) in
  img <- gets m_img;;
  match img !! Z.to_nat (off / BSIZE) with
  | Some buf => ret buf
  | None => panic "read"
  end.

Definition winode (inum : Z) (ip : dinode) : M mkfs unit :=
  sb <- gets m_sb;;
  let bn := IBLOCK inum sb in
  buf <- rsect bn;;
  wsect bn (splice buf (dinode_off inum) (encode_dinode ip)).

Definition rinode (inum : Z) : M mkfs dinode :=
  sb <- gets m_sb;;
  let bn := IBLOCK inum sb in
  buf <- rsect bn;;
  ret (decode_dinode buf (dinode_off inum)).

Definition ialloc (type : Z) : M mkfs Z :=
  inum <- gets m_freeinode;;
  modify (fun m => m <| m_freeinode := u32 (inum + 1) |>);;;
  winode inum (dinode_zero <| d_type := s16 (xshort type) |> <| d_nlink := s16 (xshort 1) |> <| d_size := xint 0 |>);;;
  ret inum.

(** The block whose first [used] bits are set. *)
Definition bitmap (used : Z) : list Z := foldl mark_bit zero_block (seqZ 0 used).

Definition balloc (used : Z) : M mkfs unit :=
  assert (used <? BSIZE * 8);;;
  sb <- gets m_sb;;
  wsect (sb_bmapstart sb) (bitmap used).

(** [freeblock++] *)
Definition next_block : M mkfs Z :=
  b <- gets m_freeblock;;
  modify (fun m => m <| m_freeblock := u32 (b + 1) |>);;;
  ret b.

Definition daddr (din : dinode) (n : Z) : Z := default 0 (d_addrs din !! Z.to_nat n).
Definition set_daddr (din : dinode) (n a : Z) : dinode := din <| d_addrs ::= <[Z.to_nat n := a]> |>.

(** The block of [iappend]'s file that holds its block [fbn], and the inode
    with the addresses that were added for it: through the indirect block, and
    in general. *)
Definition iappend_indirect (din : dinode) (fbn : Z) : M mkfs (dinode * Z) :=
  indirect <- rsect (xint (daddr din NDIRECT));;
  indirect <- (if get32 indirect (4 * (fbn - NDIRECT)) =? 0 then
                 b <- next_block;;
                 let indirect := splice indirect (4 * (fbn - NDIRECT)) (le32 (xint b)) in
                 wsect (xint (daddr din NDIRECT)) indirect;;;
                 ret indirect
               else ret indirect);;
  ret (din, xint (get32 indirect (4 * (fbn - NDIRECT)))).

Definition iappend_block (din : dinode) (fbn : Z) : M mkfs (dinode * Z) :=
  if fbn <? NDIRECT then
    din <- (if xint (daddr din fbn) =? 0 then b <- next_block;; ret (set_daddr din fbn (xint b)) else ret din);;
    ret (din, xint (daddr din fbn))
  else
    din <- (if xint (daddr din NDIRECT) =? 0 then b <- next_block;; ret (set_daddr din NDIRECT (xint b)) else ret din);;
    iappend_indirect din fbn.

(** One turn of the loop of [iappend] with its variables [n], [off], [p] and
    [din]. *)
Definition iappend_turn : Z * Z * list Z * dinode -> M mkfs (Z * Z * list Z * dinode + Z * dinode) :=
  fun '(n, off, p, din) =>
  if 0 <? n then
    let fbn := off / BSIZE in
    assert (fbn <? MAXFILE);;;
    '(din, x) <- iappend_block din fbn;;
    let n1 := Z.min n (u32 ((fbn + 1) * BSIZE - off)) in
    buf <- rsect x;;
    wsect x (splice buf (off - fbn * BSIZE) (slice p 0 n1));;;
    ret (inl (n - n1, u32 (off + n1), drop (Z.to_nat n1) p, din))
  else ret (inr (off, din)).

Definition iappend (inum : Z) (xp : list Z) : M mkfs unit :=
  din <- rinode inum;;
  let n := Z.of_nat (length xp) in
  '(off, din) <- loop (io_fuel n) iappend_turn (n, xint (d_size din), xp, din);;
  winode inum (din <| d_size := xint off |>).

(** A directory entry for inode [inum]; [name] ends in a zero. *)
Definition mkdirent (inum : Z) (name : list Z) : M mkfs dirent :=
  nm <- deref (strncpy (replicate (Z.to_nat DIRSIZ) 0) name DIRSIZ);;
  ret (mkDirent (xshort inum) nm).

(** [read(fd, buf, sizeof(buf))] until the end of the file. *)
Definition copy_file (inum : Z) (data : list Z) : M mkfs unit :=
  loop (Z.to_nat (Z.of_nat (length data) / BSIZE) + 2)
    (fun rest =>
       let buf := take (Z.to_nat BSIZE) rest in
       if 0 <? Z.of_nat (length buf) then iappend inum buf;;; ret (inl (drop (Z.to_nat BSIZE) rest))
       else ret (inr tt)) data.

(** [if(argv[i][0] == '_') ++argv[i];] *)
Definition skip_underscore (arg : list Z) : list Z :=
  match arg with
  | c :: r => if c =? 95 then r else arg
  | [] => []
  end.

(** The turn of [main]'s loop for the argument [arg]. *)
Definition add_file (rootino : Z) (arg : list Z) : M mkfs unit :=
  assert (negb (existsb (Z.eqb slash) arg));;;
  match open arg with
  | None => panic "open"
  | Some data =>
      let arg := skip_underscore arg in
      inum <- ialloc T_FILE;;
      de <- mkdirent inum (arg ++ [0]);;
      iappend rootino (encode_dirent de);;;
      copy_file inum data
  end.

Definition nmeta : Z := 2 + nlog + ninodeblocks + nbitmap.
Definition nblocks : Z := FSSIZE - nmeta.

Definition main (argv : list (list Z)) : M mkfs unit :=
  match argv with
  | _ :: img :: args =>
      assert (BSIZE mod sizeof_dinode =? 0);;;
      assert (BSIZE mod sizeof_dirent =? 0);;;
      if negb (creat img) then panic "open"
      else
        let sb := mkSb (xint FSSIZE) (xint nblocks) (xint NINODES) (xint nlog) (xint 2) (xint (2 + nlog))
                    (xint (2 + nlog + ninodeblocks)) in
        modify (fun m => m <| m_img := [] |> <| m_sb := sb |> <| m_freeblock := nmeta |>);;;
        forM (seq 0 (Z.to_nat FSSIZE)) (fun i => wsect (Z.of_nat i) zero_block);;;
        wsect 1 (splice zero_block 0 (encode_sb sb));;;
        rootino <- ialloc T_DIR;;
        assert (rootino =? ROOTINO);;;
        de <- mkdirent rootino [46; 0];;
        iappend rootino (encode_dirent de);;;
        de <- mkdirent rootino [46; 46; 0];;
        iappend rootino (encode_dirent de);;;
        forM args (add_file rootino);;;
        din <- rinode rootino;;
        let off := xint (d_size din) in
        let off := u32 ((off / BSIZE + 1) * BSIZE) in
        winode rootino (din <| d_size := xint off |>);;;
        fb <- gets m_freeblock;;
        balloc (s32 fb)
  | _ => panic "Usage: mkfs fs.img files..."
  end.
End Mkfs.
