(* ===== verification/MkfsSpec.v ===== *)
(** What [mkfs] builds.  [made] relates the image under construction to the
    view of a finished file system whose bitmap marks the blocks handed out so
    far; [iappend] then extends a file exactly as the kernel's [writei] does,
    and at the end every file of the command line is in the image, with its
    own blocks and its bytes. *)
From stdpp Require Import functions.
From S2P Require Import Prelude Kstate Mem MemSpec Log Inode Dir FsBlock FsMap FsFile FsInode FsSpec Mkfs.

(** * The layout *)

Definition mksb : superblock := mkSb 1000 941 200 30 2 32 58.
Definition blank : list (list Z) := replicate (Z.to_nat FSSIZE) zero_block.

Lemma blank_length : Z.of_nat (length blank) = 1000.
Proof. done. Qed.

Lemma mksb_layout : layout blank mksb 2 30.
Proof. split; rewrite ?blank_length; vm_compute; done. Qed.

#[local] Abbreviation used := (used mksb).
#[local] Abbreviation datab := (datab mksb).
#[local] Abbreviation alloc := (alloc mksb).
#[local] Abbreviation fs_ok := (fs_ok blank mksb).
#[local] Abbreviation file_ok := (file_ok mksb).
#[local] Abbreviation mapped := (mapped blank mksb).
#[local] Abbreviation inode_ok := (inode_ok mksb).
#[local] Abbreviation dinode_at := (dinode_at mksb).
#[local] Abbreviation inode_at := (inode_at mksb).
#[local] Abbreviation bmapb := (sb_bmapstart mksb).

Lemma xint_id x : 0 <= x < 2 ^ 32 -> xint x = x.
Proof. intros Hx. unfold xint. rewrite <- (app_nil_r (le32 x)), get32_le32_app. by apply u32_id. Qed.
Lemma xshort_id x : 0 <= x < 2 ^ 16 -> xshort x = x.
Proof. intros Hx. unfold xshort. rewrite <- (app_nil_r (le16 x)), get16_le16_app. unfold u16. by apply Z.mod_small. Qed.

(** * The bitmap *)

Lemma bitmap_next n : 0 <= n -> bitmap (n + 1) = mark_bit (bitmap n) n.
Proof.
  intros Hn. unfold bitmap. rewrite (seqZ_app 0 n 1) by lia. rewrite foldl_app. done.
Qed.

Lemma bitmap_spec n : 0 <= n <= BPB ->
  length (bitmap n) = Z.to_nat BSIZE /\ forall b, 0 <= b < BPB -> bit_set (bitmap n) b = (b <? n).
Proof.
  intros [Hn Hle]. revert Hle. pattern n. apply natlike_ind; [..|done].
  - intros _. split; [done|]. intros b Hb. rewrite bit_set_testbit by lia. change (bitmap 0) with zero_block.
    rewrite byte_zero, Z.bits_0. symmetry. apply Z.ltb_ge. lia.
  - clear n Hn. intros n Hn IH Hle. unfold Z.succ in *. destruct IH as [Hl IH]; [lia|]. rewrite bitmap_next by done.
    split; [by rewrite length_mark|]. intros b Hb.
    rewrite bit_set_mark by (rewrite ?Hl; change BPB with 4096 in *; change (Z.to_nat BSIZE) with 512%nat; lia).
    rewrite IH by done. destruct (Z.eqb_spec n b), (Z.ltb_spec b n), (Z.ltb_spec b (n + 1)); lia || done.
Qed.

(** * The image under construction *)

Section Made.
Context (room : Z -> bool) (Hroom : forall n, 0 <= n < FSSIZE -> room (n * BSIZE) = true).

(** [fb] and [fi] are the next free block and inode; [V] is the file system
    the image will be, once its bitmap is written. *)
Record made (fb fi : Z) (V : Z -> list Z) (m : mkfs) : Prop := mkMade {
  md_sb : m_sb m = mksb;
  md_fb : m_freeblock m = fb;
  md_fi : m_freeinode m = fi;
  md_len : length (m_img m) = Z.to_nat FSSIZE;
  md_img : forall n, 0 <= n < FSSIZE -> n <> bmapb -> m_img m !! Z.to_nat n = Some (V n);
  md_range : nmeta <= fb <= FSSIZE;
  md_bmap : V bmapb = bitmap fb;
  md_zero : forall n, fb <= n < FSSIZE -> V n = zero_block;
  md_fs : fs_ok V;
}.

Lemma BBLOCK_mk b : 0 <= b < FSSIZE -> BBLOCK b mksb = bmapb.
Proof.
  intros Hb. rewrite (BBLOCK_at blank mksb 2 30 mksb_layout) by exact Hb.
  rewrite Z.div_small; [done|]. change BPB with 4096. change FSSIZE with 1000 in Hb. lia.
Qed.

Lemma datab_mk b : datab b <-> nmeta <= b < FSSIZE.
Proof. done. Qed.

Section Run.
Context (fb fi : Z) (V : Z -> list Z) (m : mkfs) (MD : made fb fi V m).

Lemma made_used b : 0 <= b < FSSIZE -> used V b = (b <? fb).
Proof using MD.
  intros Hb. unfold FsBlock.used. rewrite BBLOCK_mk, (md_bmap _ _ _ _ MD) by done. pose proof (md_range _ _ _ _ MD).
  change FSSIZE with 1000 in *. change nmeta with 59 in *.
  rewrite Z.mod_small by (change BPB with 4096; lia). apply bitmap_spec; change BPB with 4096; lia.
Qed.

(** Block [fb] is handed out. *)
Lemma made_next : fb < FSSIZE ->
  returns next_block m (fun b m' => b = fb /\ datab b /\ used V b = false /\ made (fb + 1) fi (alloc V fb) m').
Proof using MD.
  intros Hlt. pose proof (md_range _ _ _ _ MD) as Hr. destruct MD as [h1 h2 h3 h4 h5 h6 h7 h8 h9].
  assert (Hd : datab fb) by (apply datab_mk; lia).
  eexists _, _. split; [reflexivity|]. cbn beta. rewrite h2. split; [done|]. split; [done|].
  split; [rewrite made_used by (change nmeta with 59 in *; lia); apply Z.ltb_irrefl|].
  assert (Hal : forall n, n <> bmapb -> n <> fb -> alloc V fb n = V n).
  { intros n Hn Hne. apply (alloc_other mksb V fb n Hd Hne). rewrite BBLOCK_mk; [done|]. change nmeta with 59 in *. lia. }
  change FSSIZE with 1000 in *. change nmeta with 59 in *. rewrite u32_id by lia. split; try done.
  - intros n Hn Hnb. transitivity (m_img m !! Z.to_nat n); [done|]. rewrite h5 by done. f_equal.
    destruct (Z.eq_dec n fb) as [->|Hne]; [|by rewrite Hal]. rewrite h8 by lia. symmetry. apply alloc_self.
  - change nmeta with 59. change FSSIZE with 1000. lia.
  - unfold FsBlock.alloc, FsBlock.mark. rewrite BBLOCK_mk by (change FSSIZE with 1000; lia).
    rewrite fn_lookup_insert_ne by (cbn; lia). rewrite fn_lookup_insert, h7.
    rewrite Z.mod_small by (change BPB with 4096; lia). symmetry. apply bitmap_next. lia.
  - intros n Hn. change FSSIZE with 1000 in *. rewrite Hal by (cbn; lia). apply h8. lia.
  - by apply (alloc_ok blank mksb 2 30 mksb_layout).
Qed.

Lemma sect_of n : 0 <= n < FSSIZE -> u32 (n * BSIZE) = n * BSIZE /\ n * BSIZE / BSIZE = n.
Proof. intros Hn. change FSSIZE with 1000 in *. change BSIZE with 512. split; [apply u32_id; lia|apply Z.div_mul; lia]. Qed.

Lemma made_rsect n : 0 <= n < FSSIZE -> n <> bmapb -> returns (rsect n) m (fun l m' => l = V n /\ m' = m).
Proof using MD.
  intros Hn Hb. destruct (sect_of n Hn) as [E1 E2]. exists (V n), m. split; [|done].
  unfold rsect. rewrite bind_gets, E1, E2. by rewrite (md_img _ _ _ _ MD n Hn Hb).
Qed.

Lemma made_wsect n l : 0 <= n < fb -> n <> bmapb -> length l = Z.to_nat BSIZE ->
  returns (wsect room n l) m (fun _ => made fb fi (<[n := l]> V)).
Proof using MD Hroom.
  intros Hn Hb Hl. pose proof (md_range _ _ _ _ MD) as Hr. destruct (sect_of n ltac:(lia)) as [E1 E2]. unfold wsect.
  rewrite E1, E2, Hroom by lia. eexists _, _. split; [reflexivity|].
  destruct MD as [h1 h2 h3 h4 h5 h6 h7 h8 h9]. unfold put_sect. split; try done.
  - cbn. rewrite decide_True by lia. by rewrite length_insert.
  - intros k Hk Hkb. cbn. rewrite decide_True by lia. destruct (Z.eq_dec k n) as [->|Hne].
    + rewrite fn_lookup_insert. apply list_lookup_insert_eq. lia.
    + rewrite fn_lookup_insert_ne by done. rewrite list_lookup_insert_ne by lia. by apply h5.
  - by rewrite fn_lookup_insert_ne.
  - intros k Hk. rewrite fn_lookup_insert_ne by lia. by apply h8.
  - split.
    + intros k Hk. destruct (Z.eq_dec k n) as [->|Hne]; [by rewrite fn_lookup_insert|].
      rewrite fn_lookup_insert_ne by done. by apply (fo_len _ _ _ h9).
    + intros b Hlt. rewrite <- (fo_meta _ _ _ h9 b Hlt). unfold FsBlock.used. rewrite fn_lookup_insert_ne; [done|].
      rewrite BBLOCK_mk; [done|]. change (dstart mksb) with 59 in Hlt. change FSSIZE with 1000. lia.
Qed.
End Run.

(** * A block of a file *)

Lemma daddr_ia din k : daddr din k = ia (d_addrs din) k.
Proof. done. Qed.
Lemma datab_xint a : a = 0 \/ datab a -> xint a = a.
Proof. rewrite datab_mk. change nmeta with 59. change FSSIZE with 1000. intros Ha. apply xint_id. lia. Qed.
Lemma ia_xint V A : file_ok V A -> xint (ia A NDIRECT) = ia A NDIRECT.
Proof. intros FL. apply datab_xint. destruct (Z.eq_dec (ia A NDIRECT) 0); [by left|right]. by apply (fl_ind _ _ _ FL). Qed.
Lemma faddr_xint V A n : file_ok V A -> fblock n -> xint (faddr V A n) = faddr V A n.
Proof. intros FL Hn. apply datab_xint. destruct (Z.eq_dec (faddr V A n) 0); [by left|right]. by apply (fl_blk _ _ _ FL). Qed.
Lemma datab_sect b : datab b -> 0 <= b < FSSIZE /\ b <> bmapb.
Proof. rewrite datab_mk. change nmeta with 59. change FSSIZE with 1000. cbn. lia. Qed.

(** Blocks of files were handed out. *)
Lemma used_lt fb fi V m b : made fb fi V m -> datab b -> used V b = true -> 0 <= b < fb /\ b <> bmapb.
Proof.
  intros MD Hb. destruct (datab_sect b Hb). rewrite (made_used _ _ _ _ MD) by done. rewrite Z.ltb_lt. lia.
Qed.

(** The file block [fbn] was mapped to [x], and the inode has the addresses
    for it. *)
Definition appended (fb fi : Z) (V : Z -> list Z) (din : dinode) (fbn : Z) (r : dinode * Z) (m : mkfs) : Prop :=
  exists V' A', fst r = din <| d_addrs := A' |> /\
    made (fb + Z.of_nat (cost V (d_addrs din) fbn)) fi V' m /\
    mapped fbn (snd r) V (d_addrs din) V' A' /\ (faddr V (d_addrs din) fbn <> 0 -> A' = d_addrs din).

Section Block.
Context (fi : Z) (din : dinode) (fbn : Z) (Hfb : fblock fbn).
#[local] Abbreviation A := (d_addrs din).

Lemma din_self : din = din <| d_addrs := A |>.
Proof. by destruct din. Qed.

Lemma direct_ok fb V m : made fb fi V m -> file_ok V A -> fbn < NDIRECT ->
  fb + Z.of_nat (cost V A fbn) <= FSSIZE ->
  returns (iappend_block room din fbn) m (appended fb fi V din fbn).
Proof using Hfb.
  intros MD FL Hd Hc. unfold iappend_block. rewrite (proj2 (Z.ltb_lt _ _)) by done.
  assert (Ef : daddr din fbn = faddr V A fbn) by (unfold faddr; by rewrite (proj2 (Z.ltb_lt _ _))).
  rewrite Ef, (faddr_xint _ _ _ FL Hfb). assert (Hn : (NDIRECT <=? fbn) = false) by (apply Z.leb_gt; lia).
  destruct (Z.eqb_spec (faddr V A fbn) 0) as [Hz|Hnz].
  - unfold cost in Hc. rewrite Hz, Hn in Hc. cbn in Hc. apply returns_assoc.
    tx_step (made_next fb fi V m MD) as b m1 E; [lia|]. destruct E as (-> & Hb & Hu & MD1).
    apply returns_ret_bind. cbn beta. apply returns_ret. exists (alloc V fb), (<[Z.to_nat fbn := fb]> A).
    rewrite (datab_xint fb) by auto. split; [done|]. split; [unfold cost; rewrite Hz, Hn; done|].
    assert (MP := mapped_direct blank mksb 2 30 mksb_layout V A (md_fs _ _ _ _ MD) FL fb Hb Hu fbn (conj (proj1 Hfb) Hd) Hz).
    assert (Ex : daddr (set_daddr din fbn fb) fbn = fb).
    { unfold daddr, set_daddr, upd. cbn. rewrite list_lookup_insert_eq; [done|]. rewrite (fl_len _ _ _ FL). unfold fblock in Hfb. lia. }
    cbn [snd]. rewrite Ex, (datab_xint fb) by auto. split; [done|]. done.
  - apply returns_ret_bind, returns_ret. exists V, A. cbn [fst snd]. rewrite Ef, (faddr_xint _ _ _ FL Hfb).
    split; [apply din_self|]. split; [|split; [|done]].
    + unfold cost. rewrite (proj2 (Z.eqb_neq _ _)), Hn by done. by rewrite Z.add_0_r.
    + apply mapped_already; [apply (md_fs _ _ _ _ MD)|done..].
Qed.

Lemma entry_ok fb V m : made fb fi V m -> file_ok V A -> NDIRECT <= fbn -> ia A NDIRECT <> 0 ->
  fb + Z.of_nat (cost V A fbn) <= FSSIZE ->
  returns (iappend_indirect room din fbn) m (appended fb fi V din fbn).
Proof using Hfb Hroom.
  intros MD FL Hd Hi Hc. destruct (fl_ind _ _ _ FL Hi) as [Hdi Hui]. destruct (datab_sect _ Hdi) as [Hs1 Hs2].
  unfold iappend_indirect. rewrite daddr_ia, (ia_xint _ _ FL).
  tx_step (made_rsect fb fi V m MD (ia A NDIRECT)) as l m1 E. destruct E as [-> ->].
  assert (Ef : get32 (V (ia A NDIRECT)) (4 * (fbn - NDIRECT)) = faddr V A fbn).
  { unfold faddr. by rewrite (proj2 (Z.ltb_ge _ _)), (proj2 (Z.eqb_neq _ _)). }
  assert (Ec : cost V A fbn = if faddr V A fbn =? 0 then 1%nat else 0%nat).
  { unfold cost. rewrite (proj2 (Z.eqb_neq (ia A NDIRECT) 0)), andb_false_r, Nat.add_0_r by done. done. }
  rewrite Ef. destruct (Z.eqb_spec (faddr V A fbn) 0) as [Hz|Hnz].
  - rewrite Ec in Hc. apply returns_assoc.
    tx_step (made_next fb fi V m MD) as b m1 E; [lia|]. destruct E as (-> & Hb & Hu & MD1).
    assert (MP := mapped_entry blank mksb 2 30 mksb_layout V A (md_fs _ _ _ _ MD) FL fb Hb Hu fbn Hd Hfb Hi Hz).
    rewrite (datab_xint fb) by auto. cbv zeta. set (l := splice _ _ _) in *.
    assert (Hl : length l = Z.to_nat BSIZE).
    { pose proof (fo_len _ _ _ (mp_ok _ _ _ _ _ _ _ _ MP) (ia A NDIRECT)) as Hl. rewrite fn_lookup_insert in Hl.
      apply Hl. rewrite blank_length. exact Hs1. }
    destruct (used_lt _ _ _ _ _ MD Hdi Hui) as [Hlt _]. apply returns_assoc.
    tx_step (made_wsect (fb + 1) fi (alloc V fb) m1 MD1 (ia A NDIRECT) l) as u m2 MD2; [lia|].
    apply returns_ret_bind. cbn beta. apply returns_ret. eexists _, A. split; [apply din_self|].
    split; [rewrite Ec; exact MD2|]. cbn [snd].
    assert (Ex : get32 l (4 * (fbn - NDIRECT)) = fb).
    { pose proof (mp_at _ _ _ _ _ _ _ _ MP) as Ha. unfold faddr in Ha.
      rewrite (proj2 (Z.ltb_ge _ _)), (proj2 (Z.eqb_neq _ _)), fn_lookup_insert in Ha by done. exact Ha. }
    rewrite Ex, datab_xint by auto. done.
  - apply returns_ret_bind, returns_ret. exists V, A. cbn [fst snd]. rewrite Ef, (faddr_xint _ _ _ FL Hfb).
    split; [apply din_self|]. split; [|split; [|done]].
    + rewrite Ec. by rewrite Z.add_0_r.
    + apply mapped_already; [apply (md_fs _ _ _ _ MD)|done..].
Qed.
End Block.

Lemma block_ok fb fi V m din fbn : made fb fi V m -> file_ok V (d_addrs din) -> fblock fbn ->
  fb + Z.of_nat (cost V (d_addrs din) fbn) <= FSSIZE ->
  returns (iappend_block room din fbn) m (appended fb fi V din fbn).
Proof using Hroom.
  intros MD FL Hfb Hc. destruct (Z.lt_ge_cases fbn NDIRECT) as [Hd|Hd]; [by apply direct_ok|].
  unfold iappend_block. rewrite (proj2 (Z.ltb_ge _ _)), daddr_ia, (ia_xint _ _ FL) by done.
  destruct (Z.eqb_spec (ia (d_addrs din) NDIRECT) 0) as [Hi|Hi]; [|apply returns_ret_bind; by apply entry_ok].
  assert (Ec : cost V (d_addrs din) fbn = 2%nat).
  { unfold cost, faddr. by rewrite (proj2 (Z.ltb_ge _ _)), (proj2 (Z.leb_le _ _)), Hi. }
  rewrite Ec in Hc. apply returns_assoc.
  tx_step (made_next fb fi V m MD) as b m1 E; [lia|]. destruct E as (-> & Hb & Hu & MD1).
  apply returns_ret_bind. cbn beta. rewrite (datab_xint fb) by auto.
  assert (FO := md_fs _ _ _ _ MD). assert (G := mksb_layout).
  assert (FL1 := indirect_ok blank mksb 2 30 G V (d_addrs din) FO FL fb Hb Hu Hi).
  assert (Ei : ia (<[Z.to_nat NDIRECT := fb]> (d_addrs din)) NDIRECT = fb).
  { rewrite (ia_insert mksb V _ FL) by done. by rewrite Z.eqb_refl. }
  assert (Hb0 : fb <> 0) by exact (fresh_nz blank mksb 2 30 G fb Hb).
  assert (Ec1 : cost (alloc V fb) (<[Z.to_nat NDIRECT := fb]> (d_addrs din)) fbn = 1%nat).
  { unfold cost. rewrite (indirect_faddr blank mksb 2 30 G V _ FL) by done. rewrite Ei, (proj2 (Z.eqb_neq fb 0)), andb_false_r by done.
    unfold faddr. by rewrite (proj2 (Z.ltb_ge _ _)), Hi by done. }
  eapply returns_mono.
  - apply (entry_ok fi (set_daddr din NDIRECT fb) fbn Hfb (fb + 1) (alloc V fb) m1 MD1 FL1 Hd).
    + intros E. by rewrite <- Ei in Hb0.
    + change (d_addrs (set_daddr din NDIRECT fb)) with (<[Z.to_nat NDIRECT := fb]> (d_addrs din)). rewrite Ec1. lia.
  - intros [din' x] m2 (V' & A' & E1 & E2 & MP & _). exists V', A'. split; [done|].
    change (d_addrs (set_daddr din NDIRECT fb)) with (<[Z.to_nat NDIRECT := fb]> (d_addrs din)) in *. rewrite Ec1 in E2.
    split; [by replace (fb + Z.of_nat (cost V (d_addrs din) fbn)) with (fb + 1 + Z.of_nat 1) by lia|].
    split; [|intros Hnz; exfalso; apply Hnz; unfold faddr; by rewrite (proj2 (Z.ltb_ge _ _)), Hi].
    by eapply (mapped_indirect blank mksb 2 30 G V (d_addrs din) FO FL fb Hb Hu).
Qed.

(** * Appending *)

(** The blocks of a file of [size] bytes, its indirect block included. *)
Definition fblocks (size : Z) : Z := (size + BSIZE - 1) / BSIZE + (if NDIRECT * BSIZE <? size then 1 else 0).

Lemma fblocks_mono a b : 0 <= a <= b -> fblocks a <= fblocks b.
Proof.
  intros Hab. unfold fblocks. change (NDIRECT * BSIZE) with 6144.
  destruct (Z.ltb_spec 6144 a), (Z.ltb_spec 6144 b); blocks_lia.
Qed.

(** The blocks that the next chunk of a file takes. *)
Lemma cost_fblocks V A o e : file_ok V A -> covers V A o -> 0 <= o < e -> e <= MAXFILE * BSIZE ->
  fblocks o + Z.of_nat (cost V A (o / BSIZE)) <= fblocks (o + chunk o e).
Proof.
  intros FL Hcov Ho He. pose proof (chunk_pos o e Ho) as [Hc _].
  assert (H1 : faddr V A (o / BSIZE) = 0 -> o mod BSIZE = 0).
  { intros Hz. destruct (Z.eq_dec (o mod BSIZE) 0) as [|Hm]; [done|]. destruct (Hcov (o / BSIZE)); [blocks_lia..|done]. }
  assert (H2 : ia A NDIRECT = 0 -> o <= NDIRECT * BSIZE).
  { intros Hi. destruct (Z.le_gt_cases o (NDIRECT * BSIZE)) as [|Hgt]; [done|]. destruct (Hcov NDIRECT); [done|lia|].
    unfold faddr. by rewrite Z.ltb_irrefl, Hi. }
  assert (H3 : o mod BSIZE = 0 \/ o mod BSIZE <> 0) by lia. unfold cost, fblocks.
  change (NDIRECT * BSIZE) with 6144 in *. change NDIRECT with 12 in *.
  destruct (Z.eqb_spec (faddr V A (o / BSIZE)) 0), (Z.leb_spec 12 (o / BSIZE)), (Z.eqb_spec (ia A 12) 0); cbn [andb Nat.add];
    unfold chunk in *; destruct (Z.ltb_spec 6144 o), (Z.ltb_spec 6144 (o + Z.min (e - o) (BSIZE - o mod BSIZE))); blocks_lia.
Qed.

Section Append.
Context (fi : Z) (V : Z -> list Z) (din : dinode) (off : Z) (src : list Z).
#[local] Abbreviation A := (d_addrs din).
#[local] Abbreviation n := (Z.of_nat (length src)).
Context (Hcov : covers V A off) (Hoff : 0 <= off) (Hend : off + n <= MAXFILE * BSIZE).

(** After [tot] bytes, from the state with the first free block [fb]. *)
Record appending (fb tot : Z) (m : mkfs) (fb' : Z) (V' : Z -> list Z) (A' : list Z) : Prop := mkAppending {
  ap_made : made fb' fi V' m;
  ap_written : written blank mksb V A off off src tot V' A';
  ap_blocks : fb' + fblocks off <= fb + fblocks (off + tot);
  ap_beyond : forall bn, fblock bn -> off + tot <= bn * BSIZE -> faddr V' A' bn = faddr V A bn;
}.

Lemma turn_ok fb tot m fb' V' A' : appending fb tot m fb' V' A' -> 0 <= tot < n ->
  fb + fblocks (off + n) - fblocks off <= FSSIZE ->
  let c := chunk (off + tot) (off + n) in
  returns (iappend_turn room (n - tot, off + tot, drop (Z.to_nat tot) src, din <| d_addrs := A' |>)) m
    (fun r m' => exists fb2 V2 A2, appending fb (tot + c) m' fb2 V2 A2 /\
       r = inl (n - (tot + c), off + (tot + c), drop (Z.to_nat (tot + c)) src, din <| d_addrs := A2 |>)).
Proof using Hroom Hcov Hoff Hend.
  intros [MD W Hfb Hbey] Ht Hfit c. assert (Hr : 0 <= off + tot < off + n) by lia.
  pose proof (chunk_pos _ _ Hr) as [Hc1 Hc2]. fold c in Hc1, Hc2.
  pose proof (wn_file _ _ _ _ _ _ _ _ _ _ W) as FL.
  assert (Hcov' : covers V' A' (off + tot)).
  { intros bn Hbn Hlt. apply (wn_covers _ _ _ _ _ _ _ _ _ _ W); lia. }
  assert (Hf : fblock ((off + tot) / BSIZE)) by (eapply fblock_at; [exact Hr|done]).
  pose proof (cost_fblocks V' A' _ _ FL Hcov' Hr Hend) as Hcost. fold c in Hcost.
  assert (Hmono := fblocks_mono (off + tot + c) (off + n) ltac:(lia)).
  unfold iappend_turn. rewrite (proj2 (Z.ltb_lt 0 (n - tot))) by lia. unfold assert.
  rewrite (proj2 (Z.ltb_lt _ MAXFILE)) by apply Hf. apply returns_ret_bind. cbn beta.
  pose proof (block_ok fb' fi V' m (din <| d_addrs := A' |>) ((off + tot) / BSIZE) MD FL Hf) as B.
  change (d_addrs (din <| d_addrs := A' |>)) with A' in B.
  tx_step B as r m1 E; [lia|].
  destruct r as [din1 x]. destruct E as (V1 & A1 & E1 & MD1 & MP & Hs). cbn [fst snd] in *. subst din1.
  change (d_addrs (din <| d_addrs := A' |>)) with A' in *.
  change (din <| d_addrs := A' |> <| d_addrs := A1 |>) with (din <| d_addrs := A1 |>).
  pose proof (mp_at _ _ _ _ _ _ _ _ MP) as Ex. assert (Hx : datab x /\ used V1 x = true).
  { rewrite <- Ex. apply (fl_blk _ _ _ (mp_file _ _ _ _ _ _ _ _ MP)); [done|]. rewrite Ex. apply MP. }
  destruct (datab_sect x (proj1 Hx)) as [Hx1 Hx2]. destruct (used_lt _ _ _ _ _ MD1 (proj1 Hx) (proj2 Hx)) as [Hx3 _].
  assert (Ec : Z.min (n - tot) (u32 (((off + tot) / BSIZE + 1) * BSIZE - (off + tot))) = c).
  { rewrite u32_id by blocks_lia. unfold c, chunk. blocks_lia. }
  rewrite Ec. tx_step (made_rsect _ fi V1 m1 MD1 x) as l m2 E. destruct E as [-> ->].
  replace (off + tot - (off + tot) / BSIZE * BSIZE) with ((off + tot) mod BSIZE) by blocks_lia.
  assert (Esl : slice (drop (Z.to_nat tot) src) 0 c = slice src tot c) by (unfold slice; by rewrite drop_0).
  assert (Hsl : Z.of_nat (length (slice src tot c)) = c) by (rewrite slice_length; lia). rewrite Esl.
  assert (WR := wrote_mapped blank mksb 2 30 mksb_layout (off + tot) (off + n) (slice src tot c) V' A' V1 A1 x Hr Hf Hsl MP Hs).
  set (l := splice (V1 x) _ _) in *.
  assert (Hl : length l = Z.to_nat BSIZE).
  { pose proof (fo_len _ _ _ (wr_fs _ _ _ _ _ _ _ _ _ WR) x) as Hl. rewrite fn_lookup_insert in Hl. apply Hl.
    rewrite blank_length. exact Hx1. }
  tx_step (made_wsect _ fi V1 m1 MD1 x l) as u m3 MD3. apply returns_ret.
  eexists _, _, A1. split; [split; [exact MD3|..]|].
  - eapply written_turn; try done. change (MAXFILE * BSIZE) with 71680 in *. lia.
  - rewrite Z.add_assoc. lia.
  - intros bn Hbn Hge. rewrite <- Ex. rewrite (put_faddr mksb V1 A1) by (done || apply MP).
    rewrite (mp_rest _ _ _ _ _ _ _ _ MP); [apply Hbey; [done|lia]|done|]. blocks_lia.
  - change (MAXFILE * BSIZE) with 71680 in Hend. rewrite u32_id by lia.
    by rewrite drop_drop, <- Z2Nat.inj_add, Z.sub_add_distr, Z.add_assoc by lia.
Qed.

Lemma append_loop fb m : made fb fi V m -> file_ok V A -> fb + fblocks (off + n) - fblocks off <= FSSIZE ->
  returns (loop (io_fuel n) (iappend_turn room) (n, off, src, din)) m
    (fun r m' => exists fb' V' A', appending fb n m' fb' V' A' /\ r = (off + n, din <| d_addrs := A' |>)).
Proof using Hroom Hcov Hoff Hend.
  intros MD FL Hfit.
  eapply (returns_loop (fun '(k, o, p, d) m => exists tot fb' V' A', 0 <= tot <= n /\ appending fb tot m fb' V' A' /\
            (k, o, p, d) = (n - tot, off + tot, drop (Z.to_nat tot) src, din <| d_addrs := A' |>))
            (fun '(k, o, p, d) => Z.to_nat (turns o (off + n)))).
  - exists 0, fb, V, A. split; [lia|]. rewrite Z.sub_0_r, Z.add_0_r. split; [split; try done; [|rewrite Z.add_0_r; lia]|].
    + apply written_start; [done|lia|apply (md_fs _ _ _ _ MD)|done].
    + by rewrite <- (din_self din).
  - unfold io_fuel. pose proof (turns_bound off n ltac:(lia) ltac:(lia)). lia.
  - clear m MD. intros [[[k o] p] d] m (tot & fb' & V' & A' & Ht & AP & [= -> -> -> ->]).
    destruct (Z.eq_dec tot n) as [->|Hne].
    + unfold iappend_turn. rewrite Z.sub_diag. apply returns_ret. exists fb', V', A'. done.
    + eapply returns_mono; [apply (turn_ok fb tot m fb' V' A' AP); [lia|done]|].
      assert (Hr : 0 <= off + tot < off + n) by lia. pose proof (chunk_pos _ _ Hr). pose proof (turns_next _ _ Hr).
      intros r m' (fb2 & V2 & A2 & AP2 & ->). split.
      * exists (tot + chunk (off + tot) (off + n)), fb2, V2, A2. split; [lia|done].
      * rewrite (Z.add_assoc off). lia.
Qed.
End Append.
(** * Inodes *)

Section Inode.
Context (fb fi : Z) (V : Z -> list Z) (m : mkfs) (MD : made fb fi V m) (inum : Z) (Hin : 0 <= inum < sb_ninodes mksb).

Lemma inode_sect : 0 <= IBLOCK inum mksb < fb /\ 0 <= IBLOCK inum mksb < FSSIZE /\ IBLOCK inum mksb <> bmapb.
Proof using MD Hin.
  pose proof (IBLOCK_range blank mksb 2 30 mksb_layout inum Hin) as Hr. pose proof (md_range _ _ _ _ MD).
  change nmeta with 59 in *. change FSSIZE with 1000 in *. cbn in *. lia.
Qed.

Lemma made_sb : returns (gets m_sb) m (fun sb m' => sb = mksb /\ m' = m).
Proof using MD. exists mksb, m. split; [|done]. unfold gets. by rewrite (md_sb _ _ _ _ MD). Qed.

Lemma rinode_ok : returns (rinode inum) m (fun d m' => d = dinode_at V inum /\ m' = m).
Proof using MD Hin.
  destruct inode_sect as (_ & H1 & H2). unfold rinode. tx_step made_sb as sb m0 E. destruct E as [-> ->].
  tx_step (made_rsect fb fi V m MD (IBLOCK inum mksb)) as l m1 E. destruct E as [-> ->]. by apply returns_ret.
Qed.

Lemma winode_ok ip d : dinode_of ip = d -> i_inum ip = inum -> dinode_ok d ->
  returns (winode room inum d) m (fun _ => made fb fi (stored mksb V ip)).
Proof using MD Hin Hroom.
  intros <- Ei OK. destruct inode_sect as (H0 & H1 & H2). unfold winode. tx_step made_sb as sb m0 E. destruct E as [-> ->].
  tx_step (made_rsect fb fi V m MD (IBLOCK inum mksb)) as l m1 E. destruct E as [-> ->].
  unfold stored. rewrite Ei. apply made_wsect; [done..|].
  pose proof (dinode_off_range blank mksb 2 30 mksb_layout inum Hin). pose proof (encode_length _ (di_len _ OK)) as Hl.
  assert (HV : length (V (IBLOCK inum mksb)) = Z.to_nat BSIZE) by (apply (fo_len _ _ _ (md_fs _ _ _ _ MD)); by rewrite blank_length).
  rewrite length_splice; [done|lia|]. rewrite Hl, HV. change BSIZE with 512 in *. lia.
Qed.
End Inode.

(** * Files *)

(** Nothing of the file lies behind its end: no blocks, and only zeros in the
    last one. *)
Record trim (V : Z -> list Z) (A : list Z) (size : Z) : Prop := mkTrim {
  tr_map : forall bn, fblock bn -> size <= bn * BSIZE -> faddr V A bn = 0;
  tr_zero : forall x, fblock (x / BSIZE) -> size <= x -> fbyte V A x = 0;
}.

(** File [inum] of the view holds [bytes]. *)
Record file_at (V : Z -> list Z) (inum type : Z) (bytes : list Z) : Prop := mkFileAt {
  fa_inum : 0 <= inum < sb_ninodes mksb;
  fa_inode : inode_ok V (inode_at V inum);
  fa_type : i_type (inode_at V inum) = type;
  fa_nlink : i_nlink (inode_at V inum) = 1;
  fa_content : content V (inode_at V inum) = bytes;
  fa_trim : trim V (i_addrs (inode_at V inum)) (i_size (inode_at V inum));
}.

Lemma file_at_size V inum type bytes : file_at V inum type bytes ->
  i_size (inode_at V inum) = Z.of_nat (length bytes) /\ Z.of_nat (length bytes) <= MAXFILE * BSIZE.
Proof.
  intros [_ IO _ _ <- _]. pose proof (in_size _ _ _ IO). unfold content. rewrite bytes_of_length by lia. lia.
Qed.
(** What changing file [inum] leaves alone: the blocks before the inodes, the
    other inodes, and the files with blocks of their own. *)
Record leaves (inum : Z) (V V' : Z -> list Z) : Prop := mkLeaves {
  lv_meta : forall n, n < sb_inodestart mksb -> V' n = V n;
  lv_dinode : forall j, 0 <= j < sb_ninodes mksb -> j <> inum -> dinode_at V' j = dinode_at V j;
  lv_file : forall j type bytes, j <> inum -> file_at V j type bytes -> apart V (inode_at V inum) (inode_at V j) ->
    file_at V' j type bytes /\ apart V' (inode_at V' inum) (inode_at V' j) /\
    forall n, owns V' (i_addrs (inode_at V' j)) n <-> owns V (i_addrs (inode_at V j)) n;
}.

Section Iappend.
Context (V : Z -> list Z) (inum type : Z) (bytes src : list Z) (FA : file_at V inum type bytes).
#[local] Abbreviation ip := (inode_at V inum).
#[local] Abbreviation n := (Z.of_nat (length src)).
#[local] Abbreviation size := (i_size (inode_at V inum)).
Context (Hend : size + n <= MAXFILE * BSIZE).
Context (V1 : Z -> list Z) (A1 : list Z) (W : written blank mksb V (i_addrs ip) size size src n V1 A1).
Context (Hbey : forall bn, fblock bn -> size + n <= bn * BSIZE -> faddr V1 A1 bn = faddr V (i_addrs ip) bn).
#[local] Abbreviation ip' := (ip <| i_addrs := A1 |> <| i_size := size + n |>).
#[local] Abbreviation V' := (stored mksb V1 (ip <| i_addrs := A1 |> <| i_size := size + n |>)).

Lemma ext_written : inode_ok V1 ip' /\ file_written blank mksb size src V ip V' ip'.
Proof using FA Hend W.
  pose proof (fa_inode _ _ _ _ FA) as IO. pose proof (in_size _ _ _ IO) as Hs.
  pose proof (written_inode_ok blank mksb 2 30 mksb_layout V ip size src IO ltac:(lia) Hend V1 A1 W) as IO'.
  pose proof (written_grown blank mksb 2 30 mksb_layout V ip size src IO ltac:(lia) Hend V1 A1 W) as FW.
  rewrite Z.max_r in IO', FW by lia. done.
Qed.

Lemma ext_node : inode_at V' inum = ip'.
Proof using FA Hend W.
  destruct ext_written as [_ FW]. apply inode_at_of; try done.
  apply (fw_synced _ _ _ _ _ _ _ _ FW). symmetry. apply inode_at_dinode.
Qed.

Lemma ext_view k : bmapb <= k -> V' k = V1 k.
Proof using FA Hend W.
  destruct ext_written as [IO' _]. apply (stored_ne blank mksb 2 30 mksb_layout V1 ip').
  - apply W.
  - apply IO'.
  - exact (inode_dinode_ok _ _ _ _ mksb_layout _ _ IO').
Qed.

Lemma ext_file : file_at V' inum type (bytes ++ src).
Proof using FA Hend W Hbey.
  destruct ext_written as [IO' FW]. pose proof (wn_file _ _ _ _ _ _ _ _ _ _ W) as FL1.
  pose proof (file_at_size _ _ _ _ FA) as [Hs _]. destruct FA as [f1 f2 f3 f4 f5 [t1 t2]].
  assert (Hs0 := in_size _ _ _ f2). split; rewrite ?ext_node; try done.
  - apply FW.
  - rewrite (fw_content _ _ _ _ _ _ _ _ FW), f5. unfold splice. rewrite Hs, Nat2Z.id.
    rewrite firstn_all, drop_ge, app_nil_r by lia. done.
  - change (i_addrs ip') with A1. change (i_size ip') with (size + n). split.
    + intros bn Hbn Hge. rewrite (agree_faddr blank mksb 2 30 mksb_layout V1 _ ext_view A1 FL1), Hbey by done.
      apply t1; [done|lia].
    + intros x Hx Hge. rewrite (agree_fbyte blank mksb 2 30 mksb_layout V1 _ ext_view A1 FL1) by done.
      rewrite (wn_bytes _ _ _ _ _ _ _ _ _ _ W) by done. rewrite (proj2 (Z.ltb_ge _ _)), andb_false_r by lia. apply t2; [done|lia].
Qed.

Lemma ext_leaves : leaves inum V V'.
Proof using FA Hend W.
  destruct ext_written as [IO' FW]. pose proof (wn_grows _ _ _ _ _ _ _ _ _ _ W) as GR. split.
  - intros k Hk. unfold stored. rewrite fn_lookup_insert_ne.
    + apply (gr_meta _ _ _ _ _ GR). cbn in *. lia.
    + pose proof (IBLOCK_range blank mksb 2 30 mksb_layout inum (fa_inum _ _ _ _ FA)) as Hr.
      change (i_inum ip') with inum. cbn in *. lia.
  - apply FW.
  - intros j t b Hne [f1 f2 f3 f4 f5 [t1 t2]] Hap.
    assert (Ej : inode_at V' j = inode_at V j) by (unfold FsInode.inode_at; by rewrite (fw_dinodes _ _ _ _ _ _ _ _ FW)).
    destruct (fw_others _ _ _ _ _ _ _ _ FW _ f2 Hap) as (g1 & g2 & g3). pose proof (in_file _ _ _ f2) as FB.
    assert (Hf1 : forall k, faddr V1 (i_addrs (inode_at V j)) k = faddr V (i_addrs (inode_at V j)) k)
      by (intros k; exact (other_faddr mksb V (i_addrs ip) V1 A1 _ GR FB Hap k)).
    pose proof (other_ok mksb V (i_addrs ip) V1 A1 _ GR FB Hap) as FB1.
    assert (Hf : forall k, faddr V' (i_addrs (inode_at V j)) k = faddr V (i_addrs (inode_at V j)) k).
    { intros k. by rewrite (agree_faddr blank mksb 2 30 mksb_layout V1 _ ext_view). }
    split; [|split; rewrite Ej; [by rewrite ext_node|intros k; unfold owns; by setoid_rewrite Hf]].
    split; rewrite ?Ej; try done; [congruence|]. split.
    + intros bn Hbn Hge. rewrite Hf. by apply t1.
    + intros x Hx Hge. rewrite <- (t2 x Hx Hge).
      rewrite (agree_fbyte blank mksb 2 30 mksb_layout V1 _ ext_view) by done. unfold fbyte. rewrite Hf1.
      destruct (Z.eqb_spec (faddr V (i_addrs (inode_at V j)) (x / BSIZE)) 0) as [|Hz]; [done|].
      rewrite (other_block mksb V (i_addrs ip) V1 A1 (i_addrs (inode_at V j)) GR FB Hap); [done|].
      split; [done|right; eauto].
Qed.
End Iappend.

Lemma iappend_ok fb fi V m inum type bytes src :
  made fb fi V m -> file_at V inum type bytes ->
  let sz := Z.of_nat (length bytes) in let sz' := Z.of_nat (length (bytes ++ src)) in
  sz' <= MAXFILE * BSIZE -> fb + fblocks sz' - fblocks sz <= FSSIZE ->
  returns (iappend room inum src) m (fun _ m' => exists fb' V', made fb' fi V' m' /\
    fb' + fblocks sz <= fb + fblocks sz' /\ file_at V' inum type (bytes ++ src) /\ leaves inum V V').
Proof using Hroom.
  intros MD FA sz sz' Hend Hfit. destruct (file_at_size _ _ _ _ FA) as [Hs _]. fold sz in Hs.
  assert (Es' : sz' = sz + Z.of_nat (length src)) by (unfold sz', sz; rewrite length_app; lia).
  pose proof (fa_inode _ _ _ _ FA) as IO. pose proof (in_size _ _ _ IO) as Hsz. pose proof (fa_inum _ _ _ _ FA) as Hin.
  change (MAXFILE * BSIZE) with 71680 in *.
  unfold iappend. tx_step (rinode_ok fb fi V m MD inum Hin) as d m0 E. destruct E as [-> ->].
  change (d_size (dinode_at V inum)) with (i_size (inode_at V inum)). rewrite xint_id, Hs by lia.
  change (d_addrs (dinode_at V inum)) with (i_addrs (inode_at V inum)).
  tx_step (append_loop fi V (dinode_at V inum) sz src) as r m1 E.
  { rewrite <- Hs. apply IO. }
  { lia. }
  { change (MAXFILE * BSIZE) with 71680. lia. }
  { apply IO. }
  { by rewrite <- Es'. }
  destruct E as (fb' & V1 & A1 & [MD1 W Hfb Hbey] & ->). rewrite xint_id by lia. rewrite <- Es' in Hfb.
  rewrite <- Hs in W, Hbey.
  assert (Hend' : i_size (inode_at V inum) + Z.of_nat (length src) <= MAXFILE * BSIZE) by (change (MAXFILE * BSIZE) with 71680; lia).
  destruct (ext_written V inum type bytes src FA Hend' V1 A1 W) as [IO' _].
  eapply returns_mono.
  { eapply (winode_ok fb' fi V1 m1 MD1 inum Hin ((inode_at V inum) <| i_addrs := A1 |> <| i_size := i_size (inode_at V inum) + Z.of_nat (length src) |>)).
    - rewrite Hs. by destruct (dinode_at V inum) eqn:Ed; unfold FsInode.inode_at; rewrite Ed.
    - done.
    - rewrite <- Hs. exact (inode_dinode_ok _ _ _ _ mksb_layout _ _ IO'). }
  intros u m2 MD2. cbn beta in MD2. eexists fb', _. split; [exact MD2|]. split; [done|].
  split; [by apply ext_file|by apply (ext_leaves V inum type bytes)].
Qed.
End Made.
