(* ===== verification/MkfsImage.v ===== *)
(** The image as a list of files.  [archive] says that the image under
    construction holds a list of files, each of a type and with its bytes, in
    inodes 1, 2, ..., with no block in common; [ialloc] adds an empty file to
    the list and [iappend] bytes to one of its files. *)
From stdpp Require Import functions.
From S2P Require Import Prelude Kstate Mem MemSpec Log Inode Dir FsBlock FsMap FsFile FsInode FsSpec Mkfs MkfsSpec.

#[local] Abbreviation file_ok := (file_ok mksb).
#[local] Abbreviation inode_ok := (inode_ok mksb).
#[local] Abbreviation dinode_at := (dinode_at mksb).
#[local] Abbreviation inode_at := (inode_at mksb).
#[local] Abbreviation ninodes := (sb_ninodes mksb).

(** The number of blocks that the files take. *)
Fixpoint blocks (L : list (Z * list Z)) : Z :=
  match L with
  | [] => 0
  | (_, b) :: L => fblocks (Z.of_nat (length b)) + blocks L
  end.

Lemma blocks_app L T : blocks (L ++ T) = blocks L + blocks T.
Proof. induction L as [|[t b] L IH]; cbn; lia. Qed.
Lemma blocks_insert L (k : nat) t b t' b' : L !! k = Some (t, b) ->
  blocks (<[k := (t', b')]> L) = blocks L - fblocks (Z.of_nat (length b)) + fblocks (Z.of_nat (length b')).
Proof.
  revert k. induction L as [|[u c] L IH]; intros [|k] Hk; [done..| |].
  - injection Hk as -> ->. cbn. lia.
  - change (<[S k := (t', b')]> ((u, c) :: L)) with ((u, c) :: <[k := (t', b')]> L). cbn [blocks]. rewrite (IH k Hk). lia.
Qed.

Record archive (fb : Z) (V : Z -> list Z) (m : mkfs) (L : list (Z * list Z)) : Prop := mkArchive {
  ar_made : made fb (1 + Z.of_nat (length L)) V m;
  ar_blocks : fb <= nmeta + blocks L;
  ar_count : 1 + Z.of_nat (length L) <= ninodes;
  ar_file : forall k t b, L !! k = Some (t, b) -> file_at V (1 + Z.of_nat k) t b;
  ar_apart : forall j k, (j < length L)%nat -> (k < length L)%nat -> j <> k ->
    apart V (inode_at V (1 + Z.of_nat j)) (inode_at V (1 + Z.of_nat k));
  ar_free : forall j, j = 0 \/ 1 + Z.of_nat (length L) <= j < ninodes -> dinode_at V j = dinode_zero;
  ar_meta : forall n, n < sb_inodestart mksb -> V n = if n =? 1 then splice zero_block 0 (encode_sb mksb) else zero_block;
}.

(** * Changing one file *)

Section Update.
Context (fb : Z) (V : Z -> list Z) (m : mkfs) (L : list (Z * list Z)) (AR : archive fb V m L).
Context (fb' fi' : Z) (V' : Z -> list Z) (m' : mkfs) (MD : made fb' fi' V' m').

(** The others, in pairs. *)
Lemma leaves_others inum : leaves inum V V' ->
  (forall j, (j < length L)%nat -> 1 + Z.of_nat j <> inum -> apart V (inode_at V inum) (inode_at V (1 + Z.of_nat j))) ->
  (forall k t b, L !! k = Some (t, b) -> 1 + Z.of_nat k <> inum -> file_at V' (1 + Z.of_nat k) t b) /\
  (forall j k, (j < length L)%nat -> (k < length L)%nat -> j <> k -> 1 + Z.of_nat k <> inum ->
    apart V' (inode_at V' (1 + Z.of_nat j)) (inode_at V' (1 + Z.of_nat k))) /\
  (forall k, (k < length L)%nat -> 1 + Z.of_nat k <> inum -> apart V' (inode_at V' inum) (inode_at V' (1 + Z.of_nat k))).
Proof using AR.
  intros LV Hap.
  assert (Hf : forall k, (k < length L)%nat -> exists t b, L !! k = Some (t, b)).
  { intros k Hk. destruct (lookup_lt_is_Some_2 L k Hk) as [[t b] E]. eauto. }
  assert (HL : forall k, (k < length L)%nat -> 1 + Z.of_nat k <> inum ->
            apart V' (inode_at V' inum) (inode_at V' (1 + Z.of_nat k)) /\
            forall n, owns V' (i_addrs (inode_at V' (1 + Z.of_nat k))) n <-> owns V (i_addrs (inode_at V (1 + Z.of_nat k))) n).
  { intros k Hk Hne. destruct (Hf k Hk) as (t & b & E).
    destruct (lv_file _ _ _ LV _ _ _ Hne (ar_file _ _ _ _ AR _ _ _ E) (Hap k Hk Hne)) as (_ & H1 & H2). done. }
  split; [|split].
  - intros k t b E Hne. apply (lv_file _ _ _ LV); [done|by apply (ar_file _ _ _ _ AR)|].
    apply Hap; [by eapply lookup_lt_Some|done].
  - intros j k Hj Hk Hne Hk'. destruct (Z.eq_dec (1 + Z.of_nat j) inum) as [<-|Hj']; [by apply HL|].
    intros n. rewrite (proj2 (HL j Hj Hj')), (proj2 (HL k Hk Hk')). by apply (ar_apart _ _ _ _ AR).
  - intros k Hk Hne. by apply HL.
Qed.

Lemma apart_sym W ip jp : apart W ip jp -> apart W jp ip.
Proof. intros H n Hj Hi. by apply (H n). Qed.

Lemma archive_update (k : nat) t b b' : L !! k = Some (t, b) -> fi' = 1 + Z.of_nat (length L) ->
  fb' + fblocks (Z.of_nat (length b)) <= fb + fblocks (Z.of_nat (length b')) ->
  file_at V' (1 + Z.of_nat k) t b' -> leaves (1 + Z.of_nat k) V V' -> archive fb' V' m' (<[k := (t, b')]> L).
Proof using AR MD.
  intros Hk -> Hfb FA LV. pose proof (lookup_lt_Some _ _ _ Hk) as Hlt.
  destruct (leaves_others _ LV) as (L1 & L2 & L3).
  { intros j Hj Hne. apply (ar_apart _ _ _ _ AR); [done..|lia]. }
  pose proof (ar_blocks _ _ _ _ AR). split; rewrite ?length_insert.
  - done.
  - rewrite (blocks_insert _ _ _ _ _ _ Hk). lia.
  - apply (ar_count _ _ _ _ AR).
  - intros j t1 b1 Hj. destruct (decide (k = j)) as [<-|Hne].
    + rewrite list_lookup_insert_eq in Hj by done. by injection Hj as <- <-.
    + rewrite list_lookup_insert_ne in Hj by done. apply L1; [done|lia].
  - intros i j Hi Hj Hne. destruct (decide (k = j)) as [<-|Hkj].
    + apply apart_sym, L3; [done|lia].
    + apply L2; [done..|lia].
  - intros j Hj. rewrite (lv_dinode _ _ _ LV); [by apply (ar_free _ _ _ _ AR)| |].
    + pose proof (ar_count _ _ _ _ AR). cbn in *. lia.
    + lia.
  - intros n Hn. rewrite (lv_meta _ _ _ LV) by done. by apply (ar_meta _ _ _ _ AR).
Qed.

Lemma archive_add t : fi' = 2 + Z.of_nat (length L) -> fb' = fb -> 2 + Z.of_nat (length L) <= ninodes ->
  (forall n, ~ owns V (i_addrs (inode_at V (1 + Z.of_nat (length L)))) n) ->
  file_at V' (1 + Z.of_nat (length L)) t [] -> leaves (1 + Z.of_nat (length L)) V V' -> archive fb V' m' (L ++ [(t, [])]).
Proof using AR MD.
  intros -> -> Hc Hno FA LV. destruct (leaves_others _ LV) as (L1 & L2 & L3).
  { intros j Hj Hne n Hn. by destruct (Hno n). }
  assert (El : length (L ++ [(t, [])]) = S (length L)) by (rewrite length_app; cbn; lia).
  pose proof (ar_blocks _ _ _ _ AR). split; rewrite ?El.
  - by replace (1 + Z.of_nat (S (length L))) with (2 + Z.of_nat (length L)) by lia.
  - rewrite blocks_app. change (blocks [(t, [])]) with 0. lia.
  - lia.
  - intros k t1 b1 Hk. apply lookup_app_Some in Hk as [Hk|[Hge Hk]].
    + apply L1; [done|]. apply lookup_lt_Some in Hk. lia.
    + destruct (k - length L)%nat as [|i] eqn:E; [|by destruct i]. injection Hk as <- <-. by replace k with (length L) by lia.
  - intros i j Hi Hj Hne. destruct (decide (j = length L)) as [->|Hkj]; [|destruct (decide (i = length L)) as [->|Hki]].
    + apply apart_sym, L3; lia.
    + apply L3; lia.
    + apply L2; lia.
  - intros j Hj. rewrite (lv_dinode _ _ _ LV).
    + apply (ar_free _ _ _ _ AR). lia.
    + cbn in *. lia.
    + lia.
  - intros n Hn. rewrite (lv_meta _ _ _ LV) by done. by apply (ar_meta _ _ _ _ AR).
Qed.
End Update.

(** * Writing an inode *)

Section Store.
Context (V : Z -> list Z) (ip : inode) (FO : fs_ok blank mksb V) (FL : file_ok V (i_addrs ip)).
Context (Hin : 0 <= i_inum ip < ninodes) (OK : dinode_ok (dinode_of ip)).
Context (Hdev : i_dev ip = 1) (Href : i_ref ip = 1) (Hlock : i_lock ip = mkSl 0 0) (Hval : i_valid ip = 1).
#[local] Abbreviation V' := (stored mksb V ip).
#[local] Abbreviation G := mksb_layout.

Lemma store_view n : sb_bmapstart mksb <= n -> V' n = V n.
Proof using FO Hin OK. by apply (stored_ne blank mksb 2 30 G V ip). Qed.

Lemma store_self : inode_at V' (i_inum ip) = ip.
Proof using FO Hin OK Hdev Href Hlock Hval.
  apply inode_at_of; try done. exact (stored_self blank mksb 2 30 G V ip FO Hin OK).
Qed.

Lemma store_leaves : (forall n, owns V (i_addrs ip) n -> owns V (i_addrs (inode_at V (i_inum ip))) n) ->
  leaves (i_inum ip) V V'.
Proof using FO FL Hin OK Hdev Href Hlock Hval.
  intros Ho. assert (HV := store_view). split.
  - intros n Hn. unfold stored. rewrite fn_lookup_insert_ne; [done|].
    pose proof (IBLOCK_range blank mksb 2 30 G _ Hin) as Hr. cbn in *. lia.
  - intros j Hj Hne. exact (stored_other blank mksb 2 30 G V ip FO Hin OK j Hj Hne).
  - intros j t b Hne [f1 f2 f3 f4 f5 [t1 t2]] Hap.
    assert (Ej : inode_at V' j = inode_at V j).
    { unfold FsInode.inode_at. by rewrite (stored_other blank mksb 2 30 G V ip FO Hin OK j f1 Hne). }
    pose proof (in_file _ _ _ f2) as FB. split; [|split; rewrite Ej].
    + split; rewrite ?Ej; try done.
      * by apply (agree_inode_ok blank mksb 2 30 G V).
      * by rewrite (agree_content blank mksb 2 30 G V _ HV).
      * split; [intros bn|intros x]; rewrite ?(agree_faddr blank mksb 2 30 G V _ HV) by done; [apply t1|].
        intros Hx. rewrite (agree_fbyte blank mksb 2 30 G V _ HV) by done. by apply t2.
    + rewrite store_self. intros n. rewrite !(agree_owns blank mksb 2 30 G V _ HV) by done. intros Hn. by apply Hap, Ho.
    + intros n. by apply (agree_owns blank mksb 2 30 G V _ HV).
Qed.
End Store.

(** * [ialloc] *)

Lemma s16_id v : short v -> s16 v = v.
Proof. unfold short, s16. intros H. rewrite Z.mod_small; lia. Qed.

Lemma faddr_zeros V n : faddr V (replicate (Z.to_nat (NDIRECT + 1)) 0) n = 0.
Proof.
  assert (Hia : forall k, ia (replicate (Z.to_nat (NDIRECT + 1)) 0) k = 0).
  { intros k. unfold ia. destruct (replicate _ 0 !! Z.to_nat k) eqn:E; [|done]. by apply lookup_replicate in E as [-> _]. }
  unfold faddr. rewrite !Hia. by destruct (_ <? _).
Qed.
Lemma owns_zeros V n : ~ owns V (replicate (Z.to_nat (NDIRECT + 1)) 0) n.
Proof. intros [Hn [->|(bn & _ & <-)]]; [done|]. by rewrite faddr_zeros in Hn. Qed.
Lemma file_ok_zeros V : file_ok V (replicate (Z.to_nat (NDIRECT + 1)) 0).
Proof. split; try setoid_rewrite faddr_zeros; done. Qed.

(** The inode that [ialloc] makes. *)
Definition fresh (inum type : Z) : inode :=
  mkInode 1 inum 1 (mkSl 0 0) 1 type 0 0 1 0 (replicate (Z.to_nat (NDIRECT + 1)) 0).

Lemma fresh_dinode_ok inum type : short type -> dinode_ok (dinode_of (fresh inum type)).
Proof. intros Ht. split; try done. cbn. intros k a Hk%list_elem_of_lookup_2. set_solver. Qed.

Lemma fresh_file_at V inum type : short type -> type <> T_DEV -> 0 <= inum < ninodes -> inode_at V inum = fresh inum type ->
  file_at V inum type [].
Proof.
  intros Ht Hdev Hin E. split; rewrite ?E; try done.
  - split; try done; [apply file_ok_zeros|]. intros bn Hbn Hlt.
    change (i_size (fresh inum type)) with 0 in Hlt. blocks_lia.
  - split; intros; [apply faddr_zeros|]. unfold fbyte. by rewrite faddr_zeros.
Qed.

Section Ops.
Context (room : Z -> bool) (Hroom : forall n, 0 <= n < FSSIZE -> room (n * BSIZE) = true).

Lemma ialloc_ok fb V m L type : archive fb V m L -> 2 + Z.of_nat (length L) <= ninodes -> 0 <= type < T_DEV ->
  returns (ialloc room type) m (fun r m' => r = 1 + Z.of_nat (length L) /\ exists V', archive fb V' m' (L ++ [(type, [])])).
Proof using Hroom.
  intros AR Hc Ht. change T_DEV with 3 in Ht. pose proof (ar_made _ _ _ _ AR) as MD. set (inum := 1 + Z.of_nat (length L)) in *.
  assert (Hin : 0 <= inum < ninodes) by (cbn in *; lia). assert (Hsh : short type) by (unfold short; lia).
  unfold ialloc. eapply returns_bind; [apply returns_gets|]. intros i m0 [-> ->]. rewrite (md_fi _ _ _ _ MD).
  assert (MD1 : made fb (inum + 1) V (m <| m_freeinode := u32 (inum + 1) |>)).
  { rewrite u32_id by (cbn in *; lia). by destruct MD. }
  eapply returns_bind; [apply returns_modify|]. intros [] m1 ->.
  assert (OK := fresh_dinode_ok inum type Hsh). rewrite (xshort_id type), (s16_id type) by (done || lia).
  tx_step (winode_ok room Hroom fb (inum + 1) V _ MD1 inum Hin (fresh inum type)) as u m2 MD2.
  apply returns_ret. split; [done|]. exists (stored mksb V (fresh inum type)).
  assert (Ez : inode_at V inum = (inode_at V inum) <| i_addrs := replicate (Z.to_nat (NDIRECT + 1)) 0 |>).
  { unfold FsInode.inode_at. by rewrite (ar_free _ _ _ _ AR) by (cbn in *; lia). }
  assert (Hno : forall n, ~ owns V (i_addrs (inode_at V inum)) n) by (rewrite Ez; apply owns_zeros).
  assert (FO := md_fs _ _ _ _ MD).
  eapply (archive_add fb V m L AR fb (inum + 1) _ m2 MD2); [subst inum; lia|done..| |].
  - apply fresh_file_at; [done|change T_DEV with 3; lia|done|]. by apply (store_self V (fresh inum type)).
  - apply (store_leaves V (fresh inum type)); try done; [apply file_ok_zeros|]. intros n Hn. by destruct (owns_zeros V n).
Qed.

Lemma iappend_archive fb V m L (k : nat) t b src : archive fb V m L -> L !! k = Some (t, b) ->
  Z.of_nat (length (b ++ src)) <= MAXFILE * BSIZE -> nmeta + blocks (<[k := (t, b ++ src)]> L) <= FSSIZE ->
  returns (iappend room (1 + Z.of_nat k) src) m (fun _ m' => exists fb' V', archive fb' V' m' (<[k := (t, b ++ src)]> L)).
Proof using Hroom.
  intros AR Hk Hsz Hfit. rewrite (blocks_insert _ _ _ _ _ _ Hk) in Hfit. pose proof (ar_blocks _ _ _ _ AR).
  eapply returns_mono.
  - apply (iappend_ok room Hroom fb _ V m _ t b src (ar_made _ _ _ _ AR) (ar_file _ _ _ _ AR _ _ _ Hk) Hsz). lia.
  - intros u m' (fb' & V' & MD & Hfb & FA & LV). exists fb', V'. by eapply (archive_update fb V m L AR).
Qed.
End Ops.
