(* ===== verification/MkfsMain.v ===== *)
(** [mkfs] as a whole: the image holds the root directory, with an entry for
    every file of the command line, and these files with their bytes. *)
From stdpp Require Import functions.
From S2P Require Import Prelude Kstate Mem MemSpec Log Inode Dir FsBlock FsMap FsFile FsInode FsSpec Mkfs MkfsSpec MkfsImage.

#[local] Abbreviation inode_at := (inode_at mksb).

(** * What the image is to hold *)

(** A directory entry: the inode, and the name cut or padded to 14 bytes. *)
Definition dentry (inum : Z) (name : list Z) : list Z :=
  le16 inum ++ take (Z.to_nat DIRSIZ) (name ++ replicate (Z.to_nat DIRSIZ) 0).

(** Of files, each a name and its bytes: the root directory, and the inodes
    in order. *)
Definition root_bytes (files : list (list Z * list Z)) : list Z :=
  dentry 1 [46] ++ dentry 1 [46; 46] ++ mjoin (imap (fun k f => dentry (2 + Z.of_nat k) (fst f)) files).
Definition tree (files : list (list Z * list Z)) : list (Z * list Z) :=
  (T_DIR, root_bytes files) :: ((fun f => (T_FILE, snd f)) <$> files).

Lemma dentry_length inum name : length (dentry inum name) = 16%nat.
Proof.
  unfold dentry. rewrite length_app, length_take, length_app, length_replicate.
  change (length (le16 inum)) with 2%nat. change (Z.to_nat DIRSIZ) with 14%nat. lia.
Qed.

Lemma root_snoc files f :
  root_bytes (files ++ [f]) = root_bytes files ++ dentry (2 + Z.of_nat (length files)) (fst f).
Proof.
  unfold root_bytes. rewrite imap_app, join_app, <- !app_assoc. do 3 f_equal.
  cbn. by rewrite Nat.add_0_r, app_nil_r.
Qed.

Lemma root_length files : Z.of_nat (length (root_bytes files)) = 16 * (2 + Z.of_nat (length files)).
Proof.
  induction files as [|f files IH] using rev_ind; [done|]. rewrite root_snoc, !length_app, dentry_length.
  change (length [f]) with 1%nat. lia.
Qed.

Lemma tree_length files : length (tree files) = S (length files).
Proof. unfold tree. cbn. by rewrite length_fmap. Qed.

Lemma tree_snoc files f :
  tree (files ++ [f]) =
  <[O := (T_DIR, root_bytes files ++ dentry (1 + Z.of_nat (length (tree files))) (fst f))]> (tree files) ++ [(T_FILE, snd f)].
Proof.
  rewrite tree_length. unfold tree. rewrite root_snoc, fmap_app.
  by replace (1 + Z.of_nat (S (length files))) with (2 + Z.of_nat (length files)) by lia.
Qed.

(** A prefix of the files takes no more blocks. *)
Lemma blocks_nonneg L : 0 <= blocks L.
Proof. induction L as [|[t b] L IH]; cbn [blocks]; [done|]. pose proof (fblocks_mono 0 (Z.of_nat (length b)) ltac:(lia)). change (fblocks 0) with 0 in *. lia. Qed.
Lemma tree_mono files more : blocks (tree files) <= blocks (tree (files ++ more)).
Proof.
  unfold tree. cbn [blocks]. rewrite !root_length, fmap_app, blocks_app, length_app.
  pose proof (blocks_nonneg ((fun f => (T_FILE, snd f)) <$> more)).
  pose proof (fblocks_mono (16 * (2 + Z.of_nat (length files))) (16 * (2 + Z.of_nat (length files + length more))) ltac:(lia)). lia.
Qed.

(** * Entries *)

Lemma strncpy_name name n : 0 ∉ name -> strncpy_bytes (name ++ [0]) n = Some (take n (name ++ replicate n 0)).
Proof.
  revert n. induction name as [|c name IH]; intros [|n] Hn; [done| |done|].
  - cbn. f_equal. f_equal. symmetry. apply take_ge. by rewrite length_replicate.
  - assert (Hc : c <> 0) by set_solver. cbn [app strncpy_bytes take]. rewrite IH by set_solver.
    assert (E : take n (name ++ replicate n 0) = take n (name ++ replicate (S n) 0)).
    { rewrite replicate_S_end, (app_assoc name). symmetry. apply take_app_le. rewrite length_app, length_replicate. lia. }
    rewrite E. by destruct c.
Qed.

Lemma mkdirent_ok inum name m : 0 ∉ name -> 0 <= inum < 2 ^ 16 ->
  returns (mkdirent inum (name ++ [0])) m (fun de m' => encode_dirent de = dentry inum name /\ m' = m).
Proof.
  intros Hn Hi. unfold mkdirent, strncpy. rewrite strncpy_name by done. cbn [mbind option_bind]. unfold write_prefix.
  set (w := take _ _). assert (Hw : length w = 14%nat) by (unfold w; rewrite length_take, length_app, length_replicate; change (Z.to_nat DIRSIZ) with 14%nat; lia).
  rewrite Hw, length_replicate. cbn [Nat.leb]. change (14 <=? Z.to_nat DIRSIZ)%nat with true. cbn iota.
  rewrite drop_ge, app_nil_r by (by rewrite length_replicate). apply returns_ret_bind, returns_ret.
  split; [|done]. unfold encode_dirent. cbn. by rewrite xshort_id.
Qed.

(** * Files *)

Lemma existsb_slash arg : slash ∉ arg -> existsb (Z.eqb slash) arg = false.
Proof.
  intros Hs. induction arg as [|c arg IH]; [done|]. cbn [existsb]. rewrite IH by set_solver.
  by rewrite (proj2 (Z.eqb_neq _ _)) by set_solver.
Qed.
Lemma skip_zero arg : 0 ∉ arg -> 0 ∉ skip_underscore arg.
Proof. destruct arg as [|c arg]; [done|]. cbn. destruct (c =? 95); set_solver. Qed.

Section Copy.
Context (room : Z -> bool) (Hroom : forall n, 0 <= n < FSSIZE -> room (n * BSIZE) = true).

Lemma copy_file_ok fb V m L (k : nat) t data : archive fb V m L -> L !! k = Some (t, []) ->
  Z.of_nat (length data) <= MAXFILE * BSIZE -> nmeta + blocks (<[k := (t, data)]> L) <= FSSIZE ->
  returns (copy_file room (1 + Z.of_nat k) data) m (fun _ m' => exists fb' V', archive fb' V' m' (<[k := (t, data)]> L)).
Proof using Hroom.
  intros AR Hk Hsz Hfit. unfold copy_file.
  eapply (returns_loop (fun rest m => exists pre fb V, data = pre ++ rest /\ archive fb V m (<[k := (t, pre)]> L))
            (fun rest => Z.to_nat ((Z.of_nat (length rest) + BSIZE - 1) / BSIZE))).
  - exists [], fb, V. split; [done|]. by rewrite list_insert_id.
  - blocks_lia.
  - clear fb V m AR. intros rest m (pre & fb & V & -> & AR). cbv zeta. rewrite length_take. change (Z.to_nat BSIZE) with 512%nat.
    destruct (Z.ltb_spec 0 (Z.of_nat (512 `min` length rest))) as [Hpos|Hz].
    + assert (Ef : length (pre ++ take 512 rest) = (length pre + (512 `min` length rest))%nat) by (by rewrite length_app, length_take).
      rewrite length_app in Hsz. pose proof (lookup_lt_Some _ _ _ Hk) as Hlt.
      eapply returns_bind.
      { apply (iappend_archive room Hroom fb V m _ k t pre (take 512 rest) AR).
        - by apply list_lookup_insert_eq.
        - rewrite Ef. lia.
        - rewrite list_insert_insert_eq. rewrite (blocks_insert _ _ _ _ _ _ Hk) in Hfit. rewrite (blocks_insert _ _ _ _ _ _ Hk), Ef.
          pose proof (fblocks_mono (Z.of_nat (length pre + 512 `min` length rest)) (Z.of_nat (length (pre ++ rest)))) as Hm.
          rewrite length_app in *. lia. }
      intros u m' (fb' & V' & AR'). rewrite list_insert_insert_eq in AR'. apply returns_ret. split.
      * exists (pre ++ take 512 rest), fb', V'. split; [|done]. by rewrite <- app_assoc, take_drop.
      * rewrite length_drop. blocks_lia.
    + apply returns_ret. exists fb, V. assert (rest = []) as -> by (destruct rest; [done|cbn in Hz; lia]).
      by rewrite app_nil_r.
Qed.

(** * The command line *)

Context (open : list Z -> option (list Z)).

(** An argument, and the file it stands for. *)
Definition valid (arg : list Z) : Prop :=
  (0 ∉ arg) /\ (slash ∉ arg) /\ exists data, open arg = Some data /\ Z.of_nat (length data) <= MAXFILE * BSIZE.
Definition argfile (arg : list Z) : list Z * list Z := (skip_underscore arg, default [] (open arg)).

Lemma add_file_ok fb V m files arg : archive fb V m (tree files) -> valid arg ->
  Z.of_nat (length files) + 3 <= NINODES -> nmeta + blocks (tree (files ++ [argfile arg])) <= FSSIZE ->
  returns (add_file room open 1 arg) m (fun _ m' => exists fb' V', archive fb' V' m' (tree (files ++ [argfile arg]))).
Proof using Hroom.
  intros AR (H0 & Hs & data & Ho & Hd) Hc Hfit. unfold add_file, assert. rewrite existsb_slash, Ho by done. cbn [negb].
  apply returns_ret_bind. cbv zeta. assert (Ei : argfile arg = (skip_underscore arg, data)) by (unfold argfile; by rewrite Ho).
  rewrite Ei in *. assert (Ht := tree_snoc files (skip_underscore arg, data)). cbn [fst snd] in Ht. rewrite Ht in *.
  set (inum := 1 + Z.of_nat (length (tree files))) in *. set (root := root_bytes files ++ dentry inum (skip_underscore arg)) in *.
  assert (Hl := tree_length files). change NINODES with 200 in Hc.
  tx_step (ialloc_ok room Hroom fb V m (tree files) T_FILE AR) as r m1 E; [rewrite Hl; cbn; lia|].
  destruct E as (-> & V1 & AR1). fold inum.
  tx_step (mkdirent_ok inum (skip_underscore arg) m1) as de m2 E; [by apply skip_zero|subst inum; lia|]. destruct E as [-> ->].
  assert (E1 : tree files ++ [(T_FILE, [])] = (T_DIR, root_bytes files) :: ((fun f => (T_FILE, snd f)) <$> files) ++ [(T_FILE, [])]) by done.
  assert (Hbl : blocks (<[O := (T_DIR, root)]> (tree files) ++ [(T_FILE, [])]) <= blocks (<[O := (T_DIR, root)]> (tree files) ++ [(T_FILE, data)])).
  { rewrite !blocks_app. pose proof (blocks_nonneg [(T_FILE, data)]). change (blocks [(T_FILE, [])]) with 0. lia. }
  tx_step (iappend_archive room Hroom fb V1 m1 (tree files ++ [(T_FILE, [])]) 0 T_DIR (root_bytes files) (dentry inum (skip_underscore arg)) AR1) as u m3 E.
  { rewrite length_app, Nat2Z.inj_add, root_length, dentry_length. change (MAXFILE * BSIZE) with 71680. lia. }
  { rewrite insert_app_l by (rewrite Hl; lia). fold root. lia. }
  destruct E as (fb2 & V2 & AR2). rewrite insert_app_l in AR2 by (rewrite Hl; lia). fold root in AR2.
  assert (Hli : length (<[O := (T_DIR, root)]> (tree files)) = length (tree files)) by apply length_insert.
  eapply returns_mono.
  - unfold inum. apply (copy_file_ok fb2 V2 m3 _ (length (tree files)) T_FILE data AR2).
    + rewrite lookup_app_r by lia. by rewrite Hli, Nat.sub_diag.
    + done.
    + rewrite insert_app_r_alt, Hli, Nat.sub_diag by lia. done.
  - intros u' m4 (fb3 & V3 & AR3). exists fb3, V3. by rewrite insert_app_r_alt, Hli, Nat.sub_diag in AR3 by lia.
Qed.

Lemma add_files_ok fb V m args : archive fb V m (tree []) -> Forall valid args ->
  Z.of_nat (length args) + 2 <= NINODES -> nmeta + blocks (tree (argfile <$> args)) <= FSSIZE ->
  returns (forM args (add_file room open 1)) m (fun _ m' => exists fb' V', archive fb' V' m' (tree (argfile <$> args))).
Proof using Hroom.
  intros AR Hv Hc Hfit. apply (returns_forM_list (fun pre m => exists fb V, archive fb V m (tree (argfile <$> pre)))); [eauto|].
  clear fb V m AR. intros pre arg post m -> (fb & V & AR). rewrite fmap_app. apply (add_file_ok fb V).
  - done.
  - rewrite Forall_app, Forall_cons in Hv. tauto.
  - rewrite length_fmap, length_app in *. cbn in Hc. lia.
  - rewrite fmap_app in Hfit. cbn [fmap list_fmap] in Hfit |- *.
    pose proof (tree_mono ((argfile <$> pre) ++ [argfile arg]) (argfile <$> post)) as Hm. rewrite <- app_assoc in Hm. cbn [app] in Hm. lia.
Qed.

(** * An empty file system *)

Definition empty_view : Z -> list Z := <[sb_bmapstart mksb := bitmap nmeta]> (fun _ => zero_block).

Lemma zero_loop : returns (forM (seq 0 (Z.to_nat FSSIZE)) (fun i => wsect room (Z.of_nat i) zero_block)) (mkMkfs [] mksb 1 nmeta)
  (fun _ m => m = mkMkfs blank mksb 1 nmeta).
Proof using Hroom.
  apply (returns_forM (fun i m => m = mkMkfs (replicate i zero_block) mksb 1 nmeta)); [done|].
  intros i m Hi ->. destruct (sect_of (Z.of_nat i)) as [E1 E2]; [lia|]. unfold wsect. rewrite E1, E2, Hroom by lia.
  eexists _, _. split; [reflexivity|]. unfold upd. cbn [m_img m_sb m_freeinode m_freeblock]. f_equal.
  cbn. f_equal. unfold put_sect. rewrite Nat2Z.id, length_replicate, decide_False, Nat.sub_diag by lia. symmetry. apply replicate_S_end.
Qed.

Lemma empty_made : made nmeta 1 empty_view (mkMkfs blank mksb 1 nmeta).
Proof.
  assert (Hb := bitmap_spec nmeta ltac:(done)). split; try done.
  - intros n Hn Hne. unfold empty_view. rewrite fn_lookup_insert_ne by done. apply lookup_replicate. split; [done|].
    change FSSIZE with 1000 in *. lia.
  - intros n Hn. unfold empty_view. rewrite fn_lookup_insert_ne; [done|]. change nmeta with 59 in *. cbn. lia.
  - split.
    + intros n Hn. unfold empty_view. destruct (Z.eq_dec n (sb_bmapstart mksb)) as [->|Hne].
      * rewrite fn_lookup_insert. apply Hb.
      * by rewrite fn_lookup_insert_ne.
    + intros b Hb'. change (dstart mksb) with 59 in Hb'. unfold used. rewrite BBLOCK_mk by (change FSSIZE with 1000; lia).
      unfold empty_view. rewrite fn_lookup_insert, (proj2 Hb) by (apply Z.mod_pos_bound; done).
      rewrite Z.mod_small by (change BPB with 4096; lia). apply Z.ltb_lt. change nmeta with 59. lia.
Qed.

Lemma decode_zero o : decode_dinode zero_block o = dinode_zero.
Proof.
  assert (H16 : forall k, get16 zero_block k = 0) by (intros k; unfold get16; by rewrite !byte_zero).
  unfold decode_dinode. rewrite !H16, get32_zero. change (s16 0) with 0. unfold dinode_zero. f_equal.
  apply list_eq. intros k. rewrite list_lookup_fmap. destruct (decide (k < 13)%nat).
  - rewrite lookup_seq_lt, lookup_replicate_2 by (change (Z.to_nat (NDIRECT + 1)) with 13%nat; lia). cbn. by rewrite get32_zero.
  - rewrite lookup_seq_ge by (change (Z.to_nat (NDIRECT + 1)) with 13%nat; lia). symmetry. apply lookup_replicate_None.
    change (Z.to_nat (NDIRECT + 1)) with 13%nat. lia.
Qed.

Definition sb_block : list Z := splice zero_block 0 (encode_sb mksb).

Lemma start_ok : returns (wsect room 1 sb_block) (mkMkfs blank mksb 1 nmeta) (fun _ m => exists V, archive nmeta V m []).
Proof using Hroom.
  eapply returns_mono; [apply (made_wsect room Hroom nmeta 1 empty_view _ empty_made 1); done|].
  intros u m MD. cbn beta in MD. eexists. split; [exact MD|done|done|done|intros j k Hj; cbn in Hj; lia| |].
  - intros j Hj. unfold dinode_at. assert (Hj' : 0 <= j < sb_ninodes mksb) by (cbn in *; lia).
    pose proof (IBLOCK_range blank mksb 2 30 mksb_layout j Hj') as Hr. cbn [sb_bmapstart mksb] in Hr.
    unfold empty_view. rewrite !fn_lookup_insert_ne by (cbn; lia). apply decode_zero.
  - intros n Hn. destruct (Z.eqb_spec n 1) as [->|Hne]; [by rewrite fn_lookup_insert|].
    unfold empty_view. rewrite !fn_lookup_insert_ne; [done|cbn in *; lia|done].
Qed.

Lemma mk_balloc_ok fb fi V m : made fb fi V m -> returns (balloc room fb) m (fun _ m' =>
  m_freeblock m' = fb /\ length (m_img m') = Z.to_nat FSSIZE /\ forall n, 0 <= n < FSSIZE -> m_img m' !! Z.to_nat n = Some (V n)).
Proof using Hroom.
  intros MD. pose proof (md_range _ _ _ _ MD) as Hr. change nmeta with 59 in Hr. change FSSIZE with 1000 in *.
  unfold balloc, assert. rewrite (proj2 (Z.ltb_lt _ _)) by (change (BSIZE * 8) with 4096; lia). apply returns_ret_bind.
  tx_step (made_sb fb fi V m MD) as sb m0 E. destruct E as [-> ->].
  destruct (sect_of (sb_bmapstart mksb)) as [E1 E2]; [done|]. unfold wsect. rewrite E1, E2, Hroom by done.
  eexists _, _. split; [reflexivity|]. destruct MD as [h1 h2 h3 h4 h5 h6 h7 h8 h9]. unfold upd, put_sect. cbn [m_img m_freeblock].
  assert (Hlt : (Z.to_nat (sb_bmapstart mksb) < length (m_img m))%nat) by (rewrite h4; change (sb_bmapstart mksb) with 58; lia).
  rewrite decide_True by done. split; [done|]. split; [by rewrite length_insert|].
  intros n Hn. destruct (Z.eq_dec n (sb_bmapstart mksb)) as [->|Hne].
  - rewrite list_lookup_insert_eq by done. by rewrite h7.
  - rewrite list_lookup_insert_ne by (cbn in *; lia). by apply h5.
Qed.
End Copy.

(** * The size of the root directory *)

Section Root.
Context (V : Z -> list Z) (files : list (list Z * list Z)) (FA : file_at V 1 T_DIR (root_bytes files)).
Context (Hn : Z.of_nat (length files) + 2 <= NINODES).
#[local] Abbreviation sz := (16 * (2 + Z.of_nat (length files))).
#[local] Abbreviation root := (inode_at V 1).

(** Rounded up to blocks, and one more if it was a multiple. *)
Definition root_size (k : Z) : Z := (16 * (2 + k) / BSIZE + 1) * BSIZE.
#[local] Abbreviation sz' := (root_size (Z.of_nat (length files))).
#[local] Abbreviation root' := ((inode_at V 1) <| i_size := sz' |>).

Lemma root_sizes : i_size root = sz /\ 0 < sz < sz' /\ sz' <= 3584.
Proof using FA Hn.
  destruct (file_at_size _ _ _ _ FA) as [Hs _]. rewrite root_length in Hs. split; [done|].
  unfold root_size. change NINODES with 200 in Hn. blocks_lia.
Qed.

Lemma root_content : content V root' = root_bytes files ++ replicate (Z.to_nat (sz' - sz)) 0.
Proof using FA Hn.
  destruct root_sizes as (Hs & Hsz & Hsz'). rewrite <- (fa_content _ _ _ _ FA). unfold content, bytes_of.
  change (i_addrs root') with (i_addrs root). change (i_size root') with sz'. rewrite Hs.
  replace sz' with (sz + (sz' - sz)) at 1 by lia. rewrite seqZ_app, fmap_app by lia. f_equal.
  apply list_eq. intros j. rewrite list_lookup_fmap. destruct (decide (j < Z.to_nat (sz' - sz))%nat) as [Hj|Hj].
  - rewrite lookup_seqZ_lt, lookup_replicate_2 by lia. cbn. f_equal. apply (tr_zero _ _ _ (fa_trim _ _ _ _ FA)); [|lia].
    eapply (fblock_at _ sz'); [lia|]. change (MAXFILE * BSIZE) with 71680. lia.
  - rewrite lookup_seqZ_ge by lia. symmetry. apply lookup_replicate_None. lia.
Qed.

Lemma root_whole : (2 + Z.of_nat (length files)) mod 32 <> 0 -> inode_ok mksb V root'.
Proof using FA Hn.
  intros Hm. destruct root_sizes as (Hs & Hsz & Hsz'). destruct (fa_inode _ _ _ _ FA) as [h1 h2 h3 h4 h5 h6 h7].
  split; try done.
  - intros bn Hbn Hlt. apply h2; [done|]. rewrite Hs. change (i_size root') with sz' in Hlt. unfold root_size in Hlt. blocks_lia.
  - change (i_size root') with sz'. change (MAXFILE * BSIZE) with 71680. lia.
Qed.

Lemma root_hole : (2 + Z.of_nat (length files)) mod 32 = 0 -> faddr V (i_addrs root) (sz' / BSIZE - 1) = 0.
Proof using FA Hn.
  intros Hm. destruct root_sizes as (Hs & Hsz & Hsz'). apply (tr_map _ _ _ (fa_trim _ _ _ _ FA)); unfold root_size in *.
  - unfold fblock. change MAXFILE with 140. blocks_lia.
  - rewrite Hs. blocks_lia.
Qed.

Lemma root_dinode_ok : dinode_ok (dinode_of root').
Proof using FA Hn.
  destruct root_sizes as (_ & Hsz & Hsz').
  destruct (inode_dinode_ok _ _ _ _ mksb_layout _ _ (fa_inode _ _ _ _ FA)) as [h1 h2 h3 h4 h5 h6 h7]. split; try done.
  change (d_size (dinode_of root')) with sz'. lia.
Qed.
End Root.

(** * The image *)

(** The disk [m_img m] is a file system that holds [files], with view [V]. *)
Record image_ok (files : list (list Z * list Z)) (m : mkfs) (V : Z -> list Z) : Prop := mkImage {
  im_len : length (m_img m) = Z.to_nat FSSIZE;
  im_disk : forall n, 0 <= n < FSSIZE -> m_img m !! Z.to_nat n = Some (V n);
  im_layout : layout (m_img m) mksb 2 30;
  im_fs : fs_ok (m_img m) mksb V;
  im_sb : decode_sb (V 1) = mksb;
  im_log : V 2 = zero_block;
  im_used : forall b, 0 <= b < FSSIZE -> used mksb V b = (b <? m_freeblock m);
  im_blocks : m_freeblock m <= nmeta + blocks (tree files);
  im_file : forall k name data, files !! k = Some (name, data) -> file_at V (2 + Z.of_nat k) T_FILE data;
  im_apart : forall j k, (j <= length files)%nat -> (k <= length files)%nat -> j <> k ->
    apart V (inode_at V (1 + Z.of_nat j)) (inode_at V (1 + Z.of_nat k));
  im_free : forall j, j = 0 \/ 2 + Z.of_nat (length files) <= j < NINODES -> dinode_at mksb V j = dinode_zero;
  im_root : i_type (inode_at V 1) = T_DIR /\ i_nlink (inode_at V 1) = 1 /\
    i_size (inode_at V 1) = root_size (Z.of_nat (length files)) /\
    exists zeros, content V (inode_at V 1) = root_bytes files ++ replicate zeros 0;
  im_whole : (2 + Z.of_nat (length files)) mod 32 <> 0 -> inode_ok mksb V (inode_at V 1);
  im_hole : (2 + Z.of_nat (length files)) mod 32 = 0 ->
    faddr V (i_addrs (inode_at V 1)) (i_size (inode_at V 1) / BSIZE - 1) = 0;
}.

Lemma sb_decode : decode_sb sb_block = mksb.
Proof. vm_compute. reflexivity. Qed.

(** The root's inode with its final size, and the bitmap. *)
Section Finish.
Context (room : Z -> bool) (Hroom : forall n, 0 <= n < FSSIZE -> room (n * BSIZE) = true).
Context (fb : Z) (V : Z -> list Z) (m : mkfs) (files : list (list Z * list Z)).
Context (AR : archive fb V m (tree files)) (Hn : Z.of_nat (length files) + 2 <= NINODES).
#[local] Abbreviation root' := ((inode_at V 1) <| i_size := root_size (Z.of_nat (length files)) |>).
#[local] Abbreviation V' := (stored mksb V root').

Lemma finish_root : file_at V 1 T_DIR (root_bytes files).
Proof using AR. exact (ar_file _ _ _ _ AR 0%nat _ _ eq_refl). Qed.

Lemma finish_ok : fs_ok blank mksb V /\ dinode_ok (dinode_of root').
Proof using AR Hn. split; [apply (md_fs _ _ _ _ (ar_made _ _ _ _ AR))|]. by apply root_dinode_ok; [apply finish_root|]. Qed.

Lemma finish_self : inode_at V' 1 = root'.
Proof using AR Hn. destruct finish_ok as [FO OK]. by apply (store_self V root' FO (ltac:(done)) OK). Qed.

Lemma finish_view n : sb_bmapstart mksb <= n -> V' n = V n.
Proof using AR Hn. destruct finish_ok as [FO OK]. by apply (store_view V root' FO (ltac:(done)) OK). Qed.

Lemma finish_leaves : leaves 1 V V'.
Proof using AR Hn.
  destruct finish_ok as [FO OK]. change (leaves (i_inum root') V V').
  apply (store_leaves V root' FO); try done. apply (fa_inode _ _ _ _ finish_root).
Qed.

Lemma finish_content : content V' root' = content V root'.
Proof using AR Hn.
  unfold content, bytes_of. apply list_fmap_ext. intros j x Hx. apply lookup_seqZ in Hx as [-> Hj].
  apply (agree_fbyte blank mksb 2 30 mksb_layout V _ finish_view); [apply (fa_inode _ _ _ _ finish_root)|].
  destruct (root_sizes V files finish_root Hn) as (_ & _ & Hs). change (i_size root') with (root_size (Z.of_nat (length files))) in Hj.
  eapply (fblock_at _ (root_size (Z.of_nat (length files)))); [lia|]. change (MAXFILE * BSIZE) with 71680. lia.
Qed.

Lemma finish_image m1 m' fi : made fb fi V' m1 ->
  m_freeblock m' = fb -> length (m_img m') = Z.to_nat FSSIZE ->
  (forall n, 0 <= n < FSSIZE -> m_img m' !! Z.to_nat n = Some (V' n)) -> image_ok files m' V'.
Proof using AR Hn.
  intros MD Hfb Hlen Himg. assert (RF := finish_root). assert (Hv := finish_view). assert (LV := finish_leaves).
  assert (Htl := tree_length files). assert (El : length blank = length (m_img m')) by done.
  destruct (leaves_others fb V m (tree files) AR V' 1 LV) as (L1 & L2 & L3).
  { intros j Hj Hne. apply (ar_apart _ _ _ _ AR 0%nat j); lia. }
  assert (Hmeta : forall n, n < sb_inodestart mksb -> V' n = if n =? 1 then sb_block else zero_block).
  { intros n Hlt. rewrite (lv_meta _ _ _ LV) by done. by apply (ar_meta _ _ _ _ AR). }
  split; rewrite ?finish_self.
  - done.
  - done.
  - destruct mksb_layout as [g1 g2 g3 g4 g5 g6 g7 g8]. split; try done; by rewrite <- El.
  - destruct (md_fs _ _ _ _ MD) as [g1 g2]. split; [|done]. by rewrite <- El.
  - rewrite Hmeta by done. apply sb_decode.
  - by rewrite Hmeta.
  - intros b Hb. rewrite Hfb. by apply (made_used fb fi V' m1 MD).
  - rewrite Hfb. apply (ar_blocks _ _ _ _ AR).
  - intros k name data Hk. replace (2 + Z.of_nat k) with (1 + Z.of_nat (S k)) by lia. apply L1; [|lia].
    change (tree files !! S k) with (((fun f => (T_FILE, snd f)) <$> files) !! k). by rewrite list_lookup_fmap, Hk.
  - intros j k Hj Hk Hne. destruct (decide (k = 0%nat)) as [->|Hk0]; [apply apart_sym|]; apply L2; lia.
  - intros j Hj. change NINODES with 200 in *. rewrite (lv_dinode _ _ _ LV) by (cbn; lia). apply (ar_free _ _ _ _ AR). rewrite Htl. cbn. lia.
  - split; [exact (fa_type _ _ _ _ RF)|]. split; [exact (fa_nlink _ _ _ _ RF)|]. split; [done|]. rewrite finish_content.
    eexists. by apply root_content.
  - intros Hm. apply (agree_inode_ok blank mksb 2 30 mksb_layout V _ Hv). by apply root_whole.
  - intros Hm. change (i_addrs root') with (i_addrs (inode_at V 1)).
    rewrite (agree_faddr blank mksb 2 30 mksb_layout V _ Hv) by apply (fa_inode _ _ _ _ RF). by apply root_hole.
Qed.
End Finish.

Lemma mkfs_ok (room : Z -> bool) (creat : list Z -> bool) (open : list Z -> option (list Z)) prog img args :
  (forall n, 0 <= n < FSSIZE -> room (n * BSIZE) = true) -> creat img = true -> Forall (valid open) args ->
  Z.of_nat (length args) + 2 <= NINODES -> nmeta + blocks (tree (argfile open <$> args)) <= FSSIZE ->
  returns (main room creat open (prog :: img :: args)) mkfs_start
    (fun _ m => exists V, image_ok (argfile open <$> args) m V).
Proof.
  intros Hroom Hcreat Hv Hn Hfit. unfold main. apply returns_ret_bind, returns_ret_bind. rewrite Hcreat. cbn [negb].
  eapply returns_bind; [apply returns_modify|]. intros [] m ->.
  change (mkfs_start <| m_img := [] |> <| m_sb := _ |> <| m_freeblock := nmeta |>) with (mkMkfs [] mksb 1 nmeta).
  tx_step (zero_loop room Hroom) as u m E. subst m. tx_step (start_ok room Hroom) as u1 m E. destruct E as [V AR].
  tx_step (ialloc_ok room Hroom nmeta V m [] T_DIR AR) as r m1 E. destruct E as (-> & V1 & AR1).
  apply returns_ret_bind. cbn beta.
  tx_step (mkdirent_ok 1 [46] m1) as de m2 E; [set_solver|]. destruct E as [-> ->].
  tx_step (iappend_archive room Hroom nmeta V1 m1 [(T_DIR, [])] 0 T_DIR [] (dentry 1 [46]) AR1) as u2 m2 E.
  destruct E as (fb2 & V2 & AR2).
  tx_step (mkdirent_ok 1 [46; 46] m2) as de2 m3 E; [set_solver|]. destruct E as [-> ->].
  tx_step (iappend_archive room Hroom fb2 V2 m2 _ 0 T_DIR (dentry 1 [46]) (dentry 1 [46; 46]) AR2) as u3 m3 E.
  destruct E as (fb3 & V3 & AR3).
  tx_step (add_files_ok room Hroom open fb3 V3 m3 args AR3) as u4 m4 E. destruct E as (fb & V4 & AR4).
  set (files := argfile open <$> args) in *. assert (Hn' : Z.of_nat (length files) + 2 <= NINODES) by (unfold files; by rewrite length_fmap).
  pose proof (ar_made _ _ _ _ AR4) as MD. assert (RF := finish_root fb V4 m4 files AR4).
  tx_step (rinode_ok fb _ V4 m4 MD 1) as d m5 E. destruct E as [-> ->].
  destruct (root_sizes V4 files RF Hn') as (Hs & Hsz & Hsz'). cbv zeta.
  change (d_size (dinode_at mksb V4 1)) with (i_size (inode_at V4 1)). rewrite Hs, (xint_id (16 * _)) by lia. fold (root_size (Z.of_nat (length files))).
  rewrite u32_id, (xint_id (root_size _)) by lia.
  tx_step (winode_ok room Hroom fb _ V4 m4 MD 1 (ltac:(done)) ((inode_at V4 1) <| i_size := root_size (Z.of_nat (length files)) |>)) as u5 m6 MD6.
  { by apply root_dinode_ok. }
  eapply returns_bind; [apply returns_gets|]. intros x m7 [-> ->]. rewrite (md_fb _ _ _ _ MD6), s32_id by (pose proof (md_range _ _ _ _ MD6); change FSSIZE with 1000 in *; change nmeta with 59 in *; lia).
  eapply returns_mono; [apply (mk_balloc_ok room Hroom fb _ _ m6 MD6)|]. intros u6 m8 (E1 & E2 & E3).
  eexists. by apply (finish_image fb V4 m4 files AR4 Hn' m6 m8 _ MD6).
Qed.

(** C5: [mkfs] on a command line whose files exist, have no slash or zero in
    their names, fit the largest file, and together fit the inodes and the
    blocks, builds a file system: the super block the kernel will read, an
    empty log, a bitmap that marks exactly the blocks handed out, every file
    in its own inode with its own blocks and exactly its bytes, the other
    inodes free, and a root directory that starts with the entries of the
    files and goes on with free ones up to its rounded size.  The root
    directory has all its blocks unless its entries fill whole blocks: then
    the rounding adds a block that does not exist. *)
Theorem mkfs_spec (room : Z -> bool) (creat : list Z -> bool) (open : list Z -> option (list Z)) prog img args :
  (forall n, 0 <= n < FSSIZE -> room (n * BSIZE) = true) -> creat img = true -> Forall (valid open) args ->
  Z.of_nat (length args) + 2 <= NINODES -> nmeta + blocks (tree (argfile open <$> args)) <= FSSIZE ->
  returns (main room creat open (prog :: img :: args)) mkfs_start
    (fun _ m => exists V, image_ok (argfile open <$> args) m V).
Proof. apply mkfs_ok. Qed.

(** Two files of two bytes, [a] and [b], the first given as [_a]. *)
Definition two_open (name : list Z) : option (list Z) := Some [104; 105].
Definition two_args : list (list Z) := [[95; 97]; [98]].

Lemma two_valid : Forall (valid two_open) two_args.
Proof.
  apply Forall_cons; split; [|apply Forall_singleton].
  all: split; [apply (bool_decide_unpack _); by vm_compute|]; split; [apply (bool_decide_unpack _); by vm_compute|by exists [104; 105]].
Qed.

Lemma mkfs_spec_witness :
  returns (main (fun _ => true) (fun _ => true) two_open ([109] :: [105] :: two_args)) mkfs_start
    (fun _ m => exists V, image_ok [([97], [104; 105]); ([98], [104; 105])] m V).
Proof.
  apply (mkfs_spec (fun _ => true) (fun _ => true) two_open [109] [105] two_args); [done|done|apply two_valid|by vm_compute..].
Defined.
