(* ===== verification/FsBoot.v ===== *)
(** Booting from an image.  The first process runs [forkret], which reads the
    super block and recovers the log; on an image that [mkfs] made this ends
    between transactions, with the kernel seeing the file system that [mkfs]
    built. *)
From stdpp Require Import functions.
From S2P Require Import Prelude Kstate Mem MemSpec Cprintf Sched ProcSpec Sleeplock Bio BioSpec Log LogSpec LogOps Inode Proc FsTx FsBlock FsMap FsFile FsInode FsSpec FsOp FsSys Mkfs MkfsSpec MkfsImage MkfsMain.

(** * [iinit] *)

Lemma fsys_icache pid H P V D T L s IC : fsys pid H P V D T L s -> fsys pid H P V D T L (s <| k_icache := IC |>).
Proof. intros [C HD HT HL]. split; try done. by destruct C. Qed.
Lemma fsys_sb pid H P V D T L s sb : fsys pid H P V D T L s -> fsys pid H P V D T L (s <| k_sb := sb |>).
Proof. intros [C HD HT HL]. split; try done. by destruct C. Qed.
Lemma fsys_out pid H P V D T L s f : fsys pid H P V D T L s -> fsys pid H P V D T L (s <| k_out ::= f |>).
Proof. intros [C HD HT HL]. split; try done. by destruct C. Qed.

(** The sleep locks of all inodes of the cache are free. *)
Definition unlocked (IC : list inode) : list inode := (fun ip => ip <| i_lock := mkSl 0 0 |>) <$> IC.

Lemma init_locks s : length (k_icache s) = NINODE ->
  returns (forM (seq 0 NINODE) (fun i => initsleeplock (SL_inode i))) s (fun _ s' => s' = s <| k_icache := unlocked (k_icache s) |>).
Proof.
  intros Hlen. set (IC := k_icache s) in *.
  eapply returns_mono.
  - apply (returns_forM (fun i s' => s' = s <| k_icache := unlocked (take i IC) ++ drop i IC |>)).
    + by destruct s.
    + intros i s' Hi ->. destruct (lookup_lt_is_Some_2 IC i) as [x Hx]; [lia|].
      eexists tt, _. split; [reflexivity|]. unfold upd. cbn. f_equal.
      rewrite (drop_S _ _ _ Hx), (take_S_r _ _ _ Hx). unfold unlocked. rewrite fmap_app, <- app_assoc.
      rewrite alter_app_r_alt by (rewrite length_fmap, length_take; lia).
      rewrite length_fmap, length_take_le, Nat.sub_diag by lia. done.
  - intros u s' ->. by rewrite take_ge, drop_ge, app_nil_r by lia.
Qed.

Lemma cprintf_ok fmt args out s : k_held s = [] -> format (str_bytes fmt) args = Some out ->
  cprintf fmt args s = Ret tt (s <| k_out ::= fun o => o ++ out |>).
Proof.
  intros Hh Hf. unfold cprintf, bind at 1. rewrite acquire_ok by (rewrite Hh; apply not_elem_of_nil). rewrite Hf. mrun.
  unfold emit. mrun. rewrite (release_ok _ []); [|by cbn; rewrite Hh|apply not_elem_of_nil].
  f_equal. rewrite <- Hh. by destruct s.
Qed.

(** The line that [iinit] prints. *)
Lemma iinit_line sb : exists out,
  format (str_bytes ("sb: size %d nblocks %d ninodes %d nlog %d logstart %d" +:+ " inodestart %d bmap start %d" +:+ nl))
    (A_int <$> [sb_size sb; sb_nblocks sb; sb_ninodes sb; sb_nlog sb; sb_logstart sb; sb_inodestart sb; sb_bmapstart sb]) = Some out.
Proof. eexists. lazy -[printint arg_int]. reflexivity. Qed.

(** ** What reading the log leaves alone *)

Definition file_frame (s s' : kstate) : Prop :=
  k_icache s' = k_icache s /\ k_sb s' = k_sb s /\ k_ftable s' = k_ftable s.
#[local] Abbreviation FileKeeps := (Keeps file_frame anything).

#[export] Instance file_frame_Frame : Frame file_frame anything.
Proof. split; unfold file_frame; naive_solver congruence. Qed.

Lemma file_of_log {A} (m : K A) : LogKeeps m -> FileKeeps m.
Proof. apply keeps_weaken; unfold log_frame, file_frame; tauto. Qed.

#[export] Instance readsb_log d : LogKeeps (readsb d).
Proof. unfold readsb. solve_keeps. Qed.
#[export] Instance readsb_file d : FileKeeps (readsb d).
Proof. apply file_of_log, _. Qed.
#[export] Instance upd_log_file f : FileKeeps (upd_log f).
Proof. intros s. repeat split. Qed.
#[export] Instance gets_file {A} (f : kstate -> A) : FileKeeps (gets f).
Proof. intros s. repeat split. Qed.
#[export] Instance bread_file d n : FileKeeps (bread d n).
Proof. apply file_of_log, _. Qed.
#[export] Instance brelse_file b : FileKeeps (brelse b).
Proof. apply file_of_log, _. Qed.
#[export] Instance buf_data_file b : FileKeeps (buf_data b).
Proof. apply file_of_log, _. Qed.
#[export] Instance set_log_block_file i b : FileKeeps (set_log_block i b).
Proof. unfold set_log_block. apply keeps_bind; [apply _|apply file_of_log, _|intros x; apply _]. Qed.
#[export] Instance read_head_file : FileKeeps read_head.
Proof. unfold read_head. solve_keeps. Qed.
#[export] Instance recover_file : FileKeeps recover_from_log.
Proof.
  unfold recover_from_log. apply keeps_bind; [apply _..|]. intros _. apply keeps_bind; [apply _|apply file_of_log, _|].
  intros _. apply keeps_bind; [apply _..|]. intros _. apply file_of_log, _.
Qed.
#[export] Instance initlog_file d : FileKeeps (initlog d).
Proof. unfold initlog. solve_keeps. Qed.

(** ** [iinit] and [initlog] *)

Lemma iinit_ok pid V D T L s : fsys pid [] ∅ V D T L s -> 1 < Z.of_nat (length D) -> length (k_icache s) = NINODE ->
  returns (iinit 1) s (fun _ s' => fsys pid [] ∅ V D T L s' /\ k_sb s' = decode_sb (V 1) /\
    k_icache s' = unlocked (k_icache s) /\ k_ftable s' = k_ftable s).
Proof.
  intros F Hd Hl. unfold iinit. tx_step (init_locks s Hl) as u s0 E. subst s0.
  destruct (fs_readsb pid V D T L _ (fsys_icache _ _ _ _ _ _ _ _ (unlocked (k_icache s)) F) Hd) as (sb & s1 & E1 & -> & F1).
  destruct (keeps_Ret file_frame anything (readsb 1) _ _ _ E1) as (K1 & K2 & K3).
  apply (returns_run _ _ _ _ _ _ E1). eapply returns_bind; [apply returns_modify|]. intros [] s2 ->.
  destruct (iinit_line (decode_sb (V 1))) as [out Eo]. eexists tt, _. split.
  - apply (cprintf_ok _ _ out); [|exact Eo]. apply (c_spin _ _ _ _ _ (f_cache _ _ _ _ _ _ _ _ F1)).
  - split; [by apply fsys_out, fsys_sb|]. done.
Qed.

(** A log whose header announces nothing is left as it is. *)
Lemma initlog_ok pid D V T s sb FT IC : layout D sb (sb_logstart sb) (sb_nlog sb) -> 1 < sb_nlog sb <= LOGSIZE ->
  fsys pid [] ∅ V D T log_zero s -> decode_sb (V 1) = sb -> V (sb_logstart sb) = zero_block ->
  k_sb s = sb -> k_icache s = IC -> k_ftable s = FT ->
  returns (initlog 1) s (fun _ => tx pid D sb (sb_logstart sb) (sb_nlog sb) 0 FT [] [] V IC).
Proof.
  intros G Hsz F Esb Ez HS HI HF. set (st := sb_logstart sb) in *. set (n := sb_nlog sb) in *.
  pose proof (size_pos _ _ _ _ G) as [Hs1 Hs2]. destruct G as [g1 g2 g3 g4 g5 g6 g7 g8]. unfold dstart in g6.
  assert (Hst : 0 <= st < Z.of_nat (length D) /\ st + n <= Z.of_nat (length D)).
  { change IPB with 8 in g5. assert (0 <= sb_ninodes sb / 8) by (apply Z.div_pos; lia). lia. }
  set (L := log_zero <| lg_start := st |> <| lg_size := n |> <| lg_dev := 1 |>).
  assert (HL : log_ok L (length D) []).
  { split; try done; [apply Hst|apply Hsz|change (0 <= n - 1); lia|constructor|by intros b ?%elem_of_nil]. }
  assert (HD : D !! Z.to_nat st = Some (V st)).
  { pose proof (c_clean _ _ _ _ _ (f_cache _ _ _ _ _ _ _ _ F) st) as Hc. rewrite (f_disk _ _ _ _ _ _ _ _ F) in Hc.
    apply Hc; set_solver by lia. }
  destruct (fs_initlog pid V D T L [] [] s F HL) as ([] & s' & E & T' & F').
  - by left.
  - rewrite Esb. apply s32_id. change (lg_start L) with st. lia.
  - rewrite Esb. apply s32_id. change LOGSIZE with 30 in Hsz. change (lg_size L) with n. lia.
  - change (lg_start L) with st. rewrite Ez. split; [apply get32_zero|]. split; [done|]. by intros i b.
  - exists tt, s'. split; [done|].
    destruct (keeps_Ret file_frame anything (initlog 1) _ _ _ E) as (K1 & K2 & K3).
    unfold recovered in F'. cbv zeta in F'. change (installs L V []) with (@nil (Z * list Z)) in F'. cbn [app] in F'.
    change (lg_start L) with st in F'. change (view_writes V []) with V in F'. rewrite Ez in F'.
    change (head_block zero_block []) with zero_block in F'.
    assert (ED : apply_writes D [(st, zero_block)] = D).
    { unfold apply_writes. cbn. rewrite <- Ez. by apply list_insert_id. }
    rewrite ED in F'. split.
    + change (list_to_set [] : gset Z) with (∅ : gset Z).
      apply (cache_view _ _ _ _ _ (f_cache _ _ _ _ _ _ _ _ F')). intros m. unfold view_writes. cbn.
      destruct (Z.eq_dec m st) as [->|Hne]; [by rewrite fn_lookup_insert|by rewrite fn_lookup_insert_ne].
    + apply F'.
    + rewrite (f_log _ _ _ _ _ _ _ _ F'). by destruct HL.
    + by rewrite (f_log _ _ _ _ _ _ _ _ F').
    + by rewrite (f_log _ _ _ _ _ _ _ _ F').
    + by rewrite (f_log _ _ _ _ _ _ _ _ F').
    + by rewrite (f_log _ _ _ _ _ _ _ _ F').
    + congruence.
    + congruence.
    + congruence.
Qed.

(** * [forkret] *)

(** The first process starts in [forkret], which the scheduler calls with
    [ptable.lock] held; nothing was read from the disk [D]. *)
Record starting (pid : Z) (D : list (list Z)) (s : kstate) : Prop := mkStarting {
  sg_disk : k_disk s = D;
  sg_first : k_first s = 1;
  sg_held : k_held s = [L_ptable];
  sg_booted : booted pid (s <| k_held := [] |>);
  sg_inodes : k_icache s = replicate NINODE inode_zero;
}.

Lemma forkret_boot pid files m V s : image_ok files m V -> starting pid (m_img m) s ->
  returns forkret s (fun _ s' => quiet pid mksb 2 30 (m_img m) (k_ftable s) V (replicate NINODE inode_zero) s').
Proof.
  intros IM [HD H1 Hh HB HI]. pose proof (im_layout _ _ _ IM) as G. pose proof (im_len _ _ _ IM) as Hlen.
  set (s0 := s <| k_held := [] |> <| k_first := 0 |>).
  assert (F : fsys pid [] ∅ V (m_img m) (k_dwrites s) log_zero s0).
  { apply (fs_view _ _ _ (disk_view (m_img m))).
    - pose proof (booted_cache _ _ HB) as C. change (k_disk (s <| k_held := [] |>)) with (k_disk s) in C. rewrite HD in C.
      split; [by destruct C|done|done|apply HB].
    - intros n Hn. unfold disk_view. rewrite (im_disk _ _ _ IM n); [done|]. rewrite Hlen in Hn. change FSSIZE with 1000 in *. lia. }
  assert (E0 : forkret s = (iinit 1;;; initlog 1) s0).
  { unfold forkret. unfold bind at 1. rewrite (release_ok _ [] s Hh) by apply not_elem_of_nil. mrun.
    change (k_first (s <| k_held := [] |>)) with (k_first s). by rewrite H1. }
  unfold returns. rewrite E0. fold (returns (iinit 1;;; initlog 1) s0 (fun _ s' => quiet pid mksb 2 30 (m_img m) (k_ftable s) V (replicate NINODE inode_zero) s')).
  tx_step (iinit_ok pid V (m_img m) (k_dwrites s) log_zero s0 F) as u s1 E.
  { rewrite Hlen. done. }
  { change (k_icache s0) with (k_icache s). by rewrite HI. }
  destruct E as (F1 & K1 & K2 & K3). rewrite (im_sb _ _ _ IM) in K1. change (k_icache s0) with (k_icache s) in K2. rewrite HI in K2.
  eapply returns_mono.
  - apply (initlog_ok pid (m_img m) V (k_dwrites s) s1 mksb (k_ftable s) (replicate NINODE inode_zero)); try done.
    + by rewrite (im_sb _ _ _ IM).
    + apply (im_log _ _ _ IM).
  - intros u' s2 X. split; [done|done|apply (im_fs _ _ _ IM)|exact X].
Qed.
