(* ===== verification/FsCache.v ===== *)
(** The inode cache.  [icache_ok] says that the entries in use are of distinct
    inodes, unlocked (all but at most one), and in step with the disk once
    loaded; [refs] counts the references to an inode.  [iget] adds a reference
    and [iput] takes one away, [ilock] loads an inode from the disk, and none
    of them changes anything else. *)
From stdpp Require Import functions.
From S2P Require Import Prelude Kstate Mem MemSpec Sched ProcSpec Sleeplock Bio BioSpec Log LogSpec LogOps Inode Dir FsTx FsBlock FsMap FsFile FsInode FsOp.

(** * Sums over a list *)

Definition sumZ {A} (f : A -> Z) (l : list A) : Z := foldr (fun x a => f x + a) 0 l.

Lemma sumZ_insert {A} (f : A -> Z) l (i : nat) x y : l !! i = Some x -> sumZ f (<[i := y]> l) = sumZ f l - f x + f y.
Proof.
  revert i. induction l as [|z l IH]; intros [|i] Hi; [done..| |]; cbn in *.
  - injection Hi as ->. lia.
  - change (foldr (fun x a => f x + a) 0 (<[i := y]> l)) with (sumZ f (<[i := y]> l)). rewrite (IH i Hi). unfold sumZ. lia.
Qed.
Lemma sumZ_nonneg {A} (f : A -> Z) l : (forall i x, l !! i = Some x -> 0 <= f x) -> 0 <= sumZ f l.
Proof.
  induction l as [|z l IH]; intros H; [done|]. cbn. pose proof (H 0%nat z eq_refl).
  assert (0 <= sumZ f l) by (apply IH; intros i x Hi; by apply (H (S i))). unfold sumZ in *. lia.
Qed.
Lemma sumZ_ge {A} (f : A -> Z) l i x : (forall j y, l !! j = Some y -> 0 <= f y) -> l !! i = Some x -> f x <= sumZ f l.
Proof.
  revert i. induction l as [|z l IH]; intros [|i] H Hi; [done..| |].
  - injection Hi as ->. cbn. pose proof (sumZ_nonneg f l ltac:(intros j y Hj; by apply (H (S j)))). unfold sumZ in *. lia.
  - pose proof (H 0%nat z eq_refl). pose proof (IH i ltac:(intros j y Hj; by apply (H (S j))) Hi). cbn. unfold sumZ in *. lia.
Qed.
Lemma sumZ_zero {A} (f : A -> Z) l : (forall i x, l !! i = Some x -> f x = 0) -> sumZ f l = 0.
Proof.
  induction l as [|z l IH]; intros H; [done|]. cbn. rewrite (H 0%nat z eq_refl). apply IH. intros i x Hi. by apply (H (S i)).
Qed.
Lemma sumZ_one {A} (f : A -> Z) l : (forall i x, l !! i = Some x -> f x = 1) -> sumZ f l = Z.of_nat (length l).
Proof.
  induction l as [|z l IH]; intros H; [done|]. cbn [length]. rewrite Nat2Z.inj_succ. cbn. rewrite (H 0%nat z eq_refl).
  change (1 + sumZ f l = Z.succ (Z.of_nat (length l))). rewrite IH; [lia|]. intros i x Hi. by apply (H (S i)).
Qed.

(** * The cache *)

Definition refs (IC : list inode) (n : Z) : Z := sumZ (fun ip => if i_inum ip =? n then i_ref ip else 0) IC.
Definition in_use (IC : list inode) : Z := sumZ (fun ip => if i_ref ip =? 0 then 0 else 1) IC.

Section Cache.
Context (pid : Z) (D : list (list Z)) (sb : superblock) (lstart lsize outs : Z) (FT : list file).
#[local] Abbreviation tx := (tx pid D sb lstart lsize outs FT).
#[local] Abbreviation dinode_at := (dinode_at sb).

(** At most the entry [held] is locked, by process [pid]. *)
Record icache_ok (V : Z -> list Z) (held : option nat) (IC : list inode) : Prop := mkIcacheOk {
  ic_len : length IC = NINODE;
  ic_lock : forall i ip, IC !! i = Some ip -> i_lock ip = if decide (held = Some i) then mkSl 1 pid else mkSl 0 0;
  ic_ref : forall i ip, IC !! i = Some ip -> 0 <= i_ref ip;
  ic_used : forall i ip, IC !! i = Some ip -> 1 <= i_ref ip ->
    i_dev ip = 1 /\ 0 <= i_inum ip < sb_ninodes sb /\
    (i_valid ip = 0 \/ i_valid ip = 1 /\ dinode_of ip = dinode_at V (i_inum ip));
  ic_uniq : forall i j ip jp, IC !! i = Some ip -> IC !! j = Some jp -> 1 <= i_ref ip -> 1 <= i_ref jp ->
    i_inum ip = i_inum jp -> i = j;
}.

(** An entry changes; the locks of the others stay. *)
Section Update.
Context (V : Z -> list Z) (held held' : option nat) (IC : list inode) (i : nat) (x y : inode).
Context (OK : icache_ok V held IC) (Hi : IC !! i = Some x).
Context (Hh : forall j, j <> i -> held' = Some j <-> held = Some j).
Context (Hl : i_lock y = if decide (held' = Some i) then mkSl 1 pid else mkSl 0 0) (Hr : 0 <= i_ref y).
Context (Hu : 1 <= i_ref y -> i_dev y = 1 /\ 0 <= i_inum y < sb_ninodes sb /\
  (i_valid y = 0 \/ i_valid y = 1 /\ dinode_of y = dinode_at V (i_inum y))).

Lemma icache_update :
  (1 <= i_ref y -> forall j jp, j <> i -> IC !! j = Some jp -> 1 <= i_ref jp -> i_inum jp <> i_inum y) ->
  icache_ok V held' (<[i := y]> IC).
Proof using OK Hi Hh Hl Hr Hu.
  intros Hn. pose proof (lookup_lt_Some _ _ _ Hi) as Hlt.
  assert (Hlk : forall j jp, <[i := y]> IC !! j = Some jp -> j = i /\ jp = y \/ j <> i /\ IC !! j = Some jp).
  { intros j jp Hj. destruct (decide (j = i)) as [->|Hne].
    - rewrite list_lookup_insert_eq in Hj by done. injection Hj as ->. by left.
    - rewrite list_lookup_insert_ne in Hj by done. by right. }
  destruct OK as [h1 h2 h3 h4 h5]. split.
  - by rewrite length_insert.
  - intros j jp [[-> ->]|[Hne Hj]]%Hlk; [done|]. rewrite (h2 _ _ Hj). pose proof (Hh j Hne). repeat case_decide; done || (exfalso; tauto).
  - intros j jp [[-> ->]|[Hne Hj]]%Hlk; eauto.
  - intros j jp [[-> ->]|[Hne Hj]]%Hlk; eauto.
  - intros j k jp kp [[-> ->]|[Hj Ej]]%Hlk [[-> ->]|[Hk Ek]]%Hlk R1 R2 E; [done| | |by eapply h5].
    + by destruct (Hn R1 k kp).
    + by destruct (Hn R2 j jp).
Qed.

Lemma icache_same : i_inum y = i_inum x -> (1 <= i_ref y -> 1 <= i_ref x) -> icache_ok V held' (<[i := y]> IC).
Proof using OK Hi Hh Hl Hr Hu.
  intros En Hx. apply icache_update. intros R j jp Hne Hj Rj E. apply Hne.
  apply (ic_uniq _ _ _ OK j i jp x); auto. congruence.
Qed.
End Update.

(** ** Counting *)

Section Count.
Context (V : Z -> list Z) (held : option nat) (IC : list inode) (OK : icache_ok V held IC).

Lemma refs_nonneg n : 0 <= refs IC n.
Proof using OK. apply sumZ_nonneg. intros i x Hi. pose proof (ic_ref _ _ _ OK _ _ Hi). case_match; lia. Qed.
Lemma refs_ge i x : IC !! i = Some x -> i_ref x <= refs IC (i_inum x).
Proof using OK.
  intros Hi. pose proof (sumZ_ge (fun ip => if i_inum ip =? i_inum x then i_ref ip else 0) IC i x) as H. cbn beta in H.
  rewrite Z.eqb_refl in H. apply H; [|done]. intros j y Hj. pose proof (ic_ref _ _ _ OK _ _ Hj). case_match; lia.
Qed.

Lemma not_cached n : find_index (inode_cached 1 n) IC = None ->
  refs IC n = 0 /\ forall j jp, IC !! j = Some jp -> 1 <= i_ref jp -> i_inum jp <> n.
Proof using OK.
  rewrite find_index_None. intros Hn.
  assert (H : forall j jp, IC !! j = Some jp -> 1 <= i_ref jp -> i_inum jp <> n).
  { intros j jp Hj Hr <-. destruct (ic_used _ _ _ OK _ _ Hj Hr) as (Hd & _). specialize (Hn _ _ Hj).
    unfold inode_cached in Hn. rewrite Hd, !Z.eqb_refl, !andb_true_r in Hn. apply Z.ltb_ge in Hn. lia. }
  split; [|done]. apply sumZ_zero. intros j jp Hj. destruct (Z.eqb_spec (i_inum jp) n) as [E|]; [|done].
  pose proof (ic_ref _ _ _ OK _ _ Hj). destruct (Z.eq_dec (i_ref jp) 0); [done|]. by destruct (H j jp Hj); [lia|].
Qed.

Lemma free_entry : in_use IC < Z.of_nat NINODE -> exists i, find_index (fun ip => i_ref ip =? 0) IC = Some i.
Proof using OK.
  intros Hu. destruct (find_index _ IC) as [i|] eqn:E; [by exists i|]. exfalso. rewrite find_index_None in E.
  unfold in_use in Hu. rewrite sumZ_one in Hu; [rewrite (ic_len _ _ _ OK) in Hu; lia|]. intros j x Hj. by rewrite (E j x).
Qed.

Lemma in_use_bound : 0 <= in_use IC.
Proof. apply sumZ_nonneg. intros i x _. case_match; lia. Qed.
End Count.

Lemma refs_insert IC i x y n : IC !! i = Some x -> i_inum y = i_inum x ->
  refs (<[i := y]> IC) n = refs IC n + if i_inum x =? n then i_ref y - i_ref x else 0.
Proof. intros Hi E. unfold refs. rewrite (sumZ_insert _ _ _ _ _ Hi), E. destruct (i_inum x =? n); lia. Qed.
Lemma in_use_insert IC i x y : IC !! i = Some x ->
  in_use (<[i := y]> IC) = in_use IC - (if i_ref x =? 0 then 0 else 1) + (if i_ref y =? 0 then 0 else 1).
Proof. intros Hi. unfold in_use. by rewrite (sumZ_insert _ _ _ _ _ Hi). Qed.

(** One entry has all the references to its inode. *)
Lemma refs_entry V held IC i x : icache_ok V held IC -> IC !! i = Some x -> 1 <= i_ref x -> refs IC (i_inum x) = i_ref x.
Proof.
  intros OK Hi Hr. pose proof (lookup_lt_Some _ _ _ Hi) as Hlt. set (y0 := x <| i_ref := 0 |>).
  assert (E := refs_insert IC i x y0 (i_inum x) Hi eq_refl). rewrite Z.eqb_refl in E.
  assert (E0 : refs (<[i := y0]> IC) (i_inum x) = 0).
  { apply sumZ_zero. intros j jp Hj. destruct (decide (j = i)) as [->|Hne].
    - rewrite list_lookup_insert_eq in Hj by done. injection Hj as <-. by destruct (_ =? _).
    - rewrite list_lookup_insert_ne in Hj by done. destruct (Z.eqb_spec (i_inum jp) (i_inum x)) as [En|]; [|done].
      pose proof (ic_ref _ _ _ OK _ _ Hj). destruct (Z.eq_dec (i_ref jp) 0); [done|].
      destruct Hne. apply (ic_uniq _ _ _ OK j i jp x); (done || lia). }
  change (i_ref y0) with 0 in E. lia.
Qed.

(** * Operations *)

(** From [IC] to [IC'] the references to inode [n] changed by [d]; entries in
    use stay in use and keep all but their count, other than [n]'s when it
    loses its last reference. *)
Record recount (n d : Z) (IC IC' : list inode) : Prop := mkRecount {
  rc_refs : forall m, refs IC' m = refs IC m + if n =? m then d else 0;
  rc_use : in_use IC' = in_use IC + ((if refs IC' n =? 0 then 0 else 1) - (if refs IC n =? 0 then 0 else 1));
  rc_kept : forall j jp, IC !! j = Some jp -> 1 <= i_ref jp -> i_inum jp <> n \/ 1 <= i_ref jp + d ->
    exists r, 1 <= r /\ IC' !! j = Some (jp <| i_ref := r |>);
}.

Lemma run_icache_lock {B} (f : kstate -> kstate) (k : K B) s : k_held s = [] -> (forall h, f (s <| k_held := h |>) = (f s) <| k_held := h |>) ->
  k_held (f s) = [] ->
  bind (acquire L_icache) (fun _ => bind (modify f) (fun _ => bind (release L_icache) (fun _ => k))) s = k (f s).
Proof.
  intros Hh Hf Hfh. unfold bind at 1. rewrite acquire_ok by (rewrite Hh; apply not_elem_of_nil). rewrite bind_modify.
  unfold bind at 1. rewrite Hf, Hh. rewrite (release_ok _ []); [|done|apply not_elem_of_nil]. f_equal.
  rewrite <- Hfh. by destruct (f s).
Qed.

Section Ops.
Context (bs : list Z) (V : Z -> list Z).

(** Adding to the count of an entry. *)
Lemma tx_recount IC s held i x d : tx [] bs V IC s -> icache_ok V held IC -> IC !! i = Some x -> 1 <= i_ref x -> 0 <= i_ref x + d ->
  let IC' := <[i := x <| i_ref := i_ref x + d |>]> IC in
  icache_ok V held IC' /\ recount (i_inum x) d IC IC'.
Proof.
  intros X OK Hi Hr Hd IC'. set (y := x <| i_ref := i_ref x + d |>) in *. pose proof (lookup_lt_Some _ _ _ Hi) as Hlt.
  pose proof (refs_entry V held IC i x OK Hi Hr) as Hrf.
  assert (Hrs : forall m, refs IC' m = refs IC m + if i_inum x =? m then d else 0).
  { intros m. unfold IC'. rewrite (refs_insert IC i x y m Hi eq_refl). change (i_ref y) with (i_ref x + d).
    destruct (i_inum x =? m); lia. }
  split.
  - apply (icache_same V held held IC i x y OK Hi); try done.
    + exact (ic_lock _ _ _ OK _ _ Hi).
    + intros _. apply (ic_used _ _ _ OK _ _ Hi Hr).
  - split; [done| |].
    + unfold IC' at 1. rewrite (in_use_insert IC i x y Hi), Hrs, Z.eqb_refl, Hrf. change (i_ref y) with (i_ref x + d).
      rewrite (proj2 (Z.eqb_neq (i_ref x) 0)) by lia. lia.
    + intros j jp Hj Rj Hk. destruct (decide (j = i)) as [->|Hne].
      * rewrite Hi in Hj. injection Hj as <-. exists (i_ref x + d). split; [destruct Hk; [done|lia]|]. unfold IC'. by apply list_lookup_insert_eq.
      * exists (i_ref jp). split; [done|]. unfold IC'. rewrite list_lookup_insert_ne, Hj by done. by destruct jp.
Qed.

(** Entry [i] is of inode [n] and in use. *)
Definition entry (IC : list inode) (i : nat) (n : Z) : Prop :=
  exists ip, IC !! i = Some ip /\ i_inum ip = n /\ 1 <= i_ref ip.

Lemma tx_icache IC s f i x : tx [] bs V IC s -> IC !! i = Some x ->
  tx [] bs V (<[i := f x]> IC) (s <| k_icache ::= alter f i |>).
Proof.
  intros X Hi. destruct (tx_upd_inode _ _ _ _ _ _ _ _ _ _ _ s X i x f Hi) as ([] & s' & E & X').
  by injection E as <-.
Qed.

Lemma run_upd_icache {B} (k : K B) s i f : k_held s = [] ->
  bind (acquire L_icache) (fun _ => bind (upd_inode i f) (fun _ => bind (release L_icache) (fun _ => k))) s =
  k (s <| k_icache ::= alter f i |>).
Proof. intros Hh. by apply (run_icache_lock (fun s => s <| k_icache ::= alter f i |>)). Qed.

Lemma iget_ok IC s held n : tx [] bs V IC s -> icache_ok V held IC -> 0 <= n < sb_ninodes sb ->
  1 <= refs IC n \/ in_use IC < Z.of_nat NINODE ->
  returns (iget 1 n) s (fun i s' => exists IC', tx [] bs V IC' s' /\ icache_ok V held IC' /\ entry IC' i n /\ recount n 1 IC IC').
Proof.
  intros X OK Hn Hroom. pose proof (c_spin _ _ _ _ _ (x_cache _ _ _ _ _ _ _ _ _ _ _ _ X)) as Hh.
  pose proof (x_icache _ _ _ _ _ _ _ _ _ _ _ _ X) as HI.
  assert (E0 : forall k : list inode -> K nat, bind (acquire L_icache) (fun _ => bind (gets k_icache) k) s =
            bind (acquire L_icache) (fun _ => k IC) s).
  { intros k. unfold bind. rewrite acquire_ok by (rewrite Hh; apply not_elem_of_nil). unfold gets.
    change (k_icache (s <| k_held := L_icache :: k_held s |>)) with (k_icache s). by rewrite HI. }
  unfold iget, returns. rewrite E0. destruct (find_index (inode_cached 1 n) IC) as [i|] eqn:Ei.
  - apply find_index_Some in Ei as (x & Hi & Hc & _). unfold inode_cached in Hc.
    apply andb_prop in Hc as [[Hr Hd]%andb_prop En]. apply Z.ltb_lt in Hr. apply Z.eqb_eq in En. subst n.
    rewrite run_upd_icache by done. eexists i, _. split; [reflexivity|].
    destruct (tx_recount IC s held i x 1 X OK Hi ltac:(lia) ltac:(lia)) as [OK' RC].
    eexists. split; [exact (tx_icache IC s _ i x X Hi)|]. split; [exact OK'|]. split; [|exact RC].
    eexists. split; [apply list_lookup_insert_eq; by eapply lookup_lt_Some|]. split; [done|]. cbn. lia.
  - destruct (not_cached V held IC OK n Ei) as [Hz Hnone]. destruct Hroom as [|Hroom]; [lia|].
    destruct (free_entry V held IC OK Hroom) as [i Ef]. rewrite Ef.
    apply find_index_Some in Ef as (x & Hi & Hr & _). apply Z.eqb_eq in Hr. pose proof (lookup_lt_Some _ _ _ Hi) as Hlt.
    rewrite run_upd_icache by done. eexists i, _. split; [reflexivity|].
    set (f := fun ip : inode => ip <| i_dev := 1 |> <| i_inum := n |> <| i_ref := 1 |> <| i_valid := 0 |>).
    exists (<[i := f x]> IC). split; [exact (tx_icache IC s f i x X Hi)|]. split; [|split; [|split]].
    + apply (icache_update V held held IC i x (f x) OK Hi); try done.
      * exact (ic_lock _ _ _ OK _ _ Hi).
      * intros _. split; [done|]. split; [done|]. by left.
      * intros _ j jp _ Hj Rj. by apply (Hnone j).
    + exists (f x). split; [by apply list_lookup_insert_eq|]. done.
    + intros m. unfold refs. rewrite (sumZ_insert _ _ _ _ _ Hi). change (i_inum (f x)) with n. change (i_ref (f x)) with 1.
      rewrite Hr. destruct (i_inum x =? m); lia.
    + assert (Hrn : refs (<[i := f x]> IC) n = 1).
      { unfold refs. rewrite (sumZ_insert _ _ _ _ _ Hi). change (i_inum (f x)) with n. change (i_ref (f x)) with 1.
        rewrite Hr, Z.eqb_refl. unfold refs in Hz. rewrite Hz. destruct (i_inum x =? n); lia. }
      rewrite Hrn, Hz, (in_use_insert IC i x (f x) Hi), Hr. change (i_ref (f x)) with 1. cbn. lia.
    + intros j jp Hj Rj _. exists (i_ref jp). split; [done|]. rewrite list_lookup_insert_ne, Hj; [by destruct jp|].
      intros <-. rewrite Hi in Hj. injection Hj as <-. lia.
Qed.

Lemma idup_ok IC s held i n : tx [] bs V IC s -> icache_ok V held IC -> entry IC i n ->
  returns (idup (Some i)) s (fun r s' => r = Some i /\ exists IC', tx [] bs V IC' s' /\ icache_ok V held IC' /\ entry IC' i n /\ recount n 1 IC IC').
Proof.
  intros X OK (x & Hi & <- & Hr). pose proof (c_spin _ _ _ _ _ (x_cache _ _ _ _ _ _ _ _ _ _ _ _ X)) as Hh.
  pose proof (x_icache _ _ _ _ _ _ _ _ _ _ _ _ X) as HI.
  assert (E0 : idup (Some i) s = Ret (Some i) (s <| k_icache ::= alter (fun ip => ip <| i_ref ::= fun n => n + 1 |>) i |>)).
  { rewrite <- (run_upd_icache (ret (Some i)) s i (fun ip => ip <| i_ref ::= fun n => n + 1 |>) Hh). unfold idup, bind.
    rewrite acquire_ok by (rewrite Hh; apply not_elem_of_nil). cbn [deref ret]. unfold get_inode, bind, gets.
    change (k_icache (s <| k_held := L_icache :: k_held s |>)) with (k_icache s). by rewrite HI, Hi. }
  eexists _, _. split; [exact E0|]. split; [done|].
  destruct (tx_recount IC s held i x 1 X OK Hi ltac:(lia) ltac:(lia)) as [OK' RC].
  eexists. split; [exact (tx_icache IC s _ i x X Hi)|]. split; [exact OK'|]. split; [|exact RC].
  eexists. split; [apply list_lookup_insert_eq; by eapply lookup_lt_Some|]. split; [done|]. cbn. lia.
Qed.

(** ** Locks *)

Lemma tx_acquiresleep IC s i x : tx [] bs V IC s -> IC !! i = Some x -> sl_locked (i_lock x) = 0 ->
  returns (acquiresleep (SL_inode i)) s (fun _ => tx [] bs V (<[i := x <| i_lock := mkSl 1 pid |>]> IC)).
Proof.
  intros [C HD HL Hst Hsz Hout Hcm HI HF HS] Hi Hl. rewrite <- HI in *. eexists tt, _. split.
  - exact (acquiresleep_inode i x s (c_spin _ _ _ _ _ C) Hi pid (c_me _ _ _ _ _ C) Hl).
  - split; try done. by destruct C.
Qed.
Lemma tx_releasesleep IC s i x : tx [] bs V IC s -> IC !! i = Some x ->
  returns (releasesleep (SL_inode i)) s (fun _ => tx [] bs V (<[i := x <| i_lock := mkSl 0 0 |>]> IC)).
Proof.
  intros [C HD HL Hst Hsz Hout Hcm HI HF HS] Hi. rewrite <- HI in *. eexists tt, _. split.
  - exact (releasesleep_inode i x s (c_spin _ _ _ _ _ C) Hi).
  - split; try done. apply cache_wake. by destruct C.
Qed.

(** Entry [i] is loaded: it agrees with inode [n] of the disk. *)
Record loaded (IC : list inode) (i : nat) (n : Z) (ip : inode) : Prop := mkLoaded {
  ld_entry : IC !! i = Some ip;
  ld_inum : i_inum ip = n;
  ld_ref : 1 <= i_ref ip;
  ld_dev : i_dev ip = 1;
  ld_valid : i_valid ip = 1;
  ld_dinode : dinode_of ip = dinode_at V n;
}.

(** No count changed. *)
Definition same_refs (IC IC' : list inode) : Prop := (forall m, refs IC' m = refs IC m) /\ in_use IC' = in_use IC.

Lemma same_insert IC i x y : IC !! i = Some x -> i_ref y = i_ref x -> i_inum y = i_inum x -> same_refs IC (<[i := y]> IC).
Proof.
  intros Hi Er En. split.
  - intros m. rewrite (refs_insert IC i x y m Hi En), Er. destruct (i_inum x =? m); lia.
  - rewrite (in_use_insert IC i x y Hi), Er. lia.
Qed.

Lemma ilock_entry IC i x y : icache_ok V None IC -> IC !! i = Some x -> 1 <= i_ref x -> i_ref y = i_ref x -> i_inum y = i_inum x ->
  i_dev y = i_dev x -> i_lock y = mkSl 1 pid -> i_valid y = 1 -> dinode_of y = dinode_at V (i_inum x) ->
  icache_ok V (Some i) (<[i := y]> IC) /\ same_refs IC (<[i := y]> IC) /\ loaded (<[i := y]> IC) i (i_inum x) y.
Proof.
  intros OK Hi Hr Er En Ed El Ev Edn. pose proof (lookup_lt_Some _ _ _ Hi) as Hlt.
  destruct (ic_used _ _ _ OK _ _ Hi Hr) as (Hd & Hn & _). split; [|split].
  - apply (icache_same V None (Some i) IC i x y OK Hi).
    + intros j Hne. split; [by intros [= ->]|done].
    + by rewrite decide_True.
    + lia.
    + intros _. rewrite Ed, En. split; [done|]. split; [done|]. by right.
    + done.
    + lia.
  - by apply (same_insert IC i x).
  - split; try done; [by apply list_lookup_insert_eq|lia|congruence].
Qed.

Context (G : layout D sb lstart lsize).

Lemma ilock_load IC s i n : tx [] bs V IC s -> icache_ok V None IC -> entry IC i n -> d_type (dinode_at V n) <> 0 ->
  returns (ilock (Some i)) s (fun _ s' => exists IC' ip, tx [] bs V IC' s' /\ icache_ok V (Some i) IC' /\
    same_refs IC IC' /\ loaded IC' i n ip).
Proof using G.
  intros X OK (x & Hi & <- & Hr) Hty. pose proof (lookup_lt_Some _ _ _ Hi) as Hlt.
  destruct (ic_used _ _ _ OK _ _ Hi Hr) as (Hd & Hn & Hv). pose proof (ic_lock _ _ _ OK _ _ Hi) as Hl. rewrite decide_False in Hl by done.
  cbn [ilock]. tx_step (tx_get_inode pid D sb lstart lsize outs FT [] bs V IC s X i x) as x0 s0 E. destruct E as [-> ->].
  rewrite (proj2 (Z.ltb_ge _ _)) by done.
  tx_step (tx_acquiresleep IC s i x X Hi) as u s1 X1; [by rewrite Hl|]. set (x1 := x <| i_lock := mkSl 1 pid |>) in *.
  assert (Hi1 : <[i := x1]> IC !! i = Some x1) by (by apply list_lookup_insert_eq).
  tx_step (tx_get_inode pid D sb lstart lsize outs FT [] bs V _ s1 X1 i x1) as x2 s0 E. destruct E as [-> ->].
  change (i_valid x1) with (i_valid x). destruct Hv as [Hv|[Hv Edn]]; rewrite Hv.
  2: { cbn. apply returns_ret. exists (<[i := x1]> IC), x1. split; [done|]. by apply (ilock_entry IC i x x1). }
  change (0 =? 0) with true. cbn [whenM]. destruct (IBLOCK_disk D sb lstart lsize G _ Hn) as [Hdk _].
  tx_step (tx_get_sb pid D sb lstart lsize outs FT [] bs V _ s1 X1) as b s0 E. destruct E as [-> ->].
  change (i_dev x1) with (i_dev x). rewrite Hd. change (i_inum x1) with (i_inum x).
  tx_step (tx_bread pid D sb lstart lsize outs FT [] bs V _ s1 X1) as bp s2 X2; [apply not_elem_of_nil|auto|].
  tx_step (tx_buf_data pid D sb lstart lsize outs FT _ bs V _ s2 X2) as l s0 E. destruct E as [-> ->].
  tx_step (tx_upd_inode pid D sb lstart lsize outs FT _ bs V _ s2 X2 i x1) as u' s3 X3. rewrite list_insert_insert_eq in X3.
  tx_step (tx_brelse pid D sb lstart lsize outs FT _ bs V _ s3 X3 bp (IBLOCK (i_inum x) sb) []) as u'' s4 X4.
  { eapply tx_clean; [exact X1|done|apply not_elem_of_nil]. }
  fold (dinode_at V (i_inum x)) in X4. set (x3 := load_inode (dinode_at V (i_inum x)) x1) in *.
  assert (Hi3 : <[i := x3]> IC !! i = Some x3) by (by apply list_lookup_insert_eq).
  tx_step (tx_upd_inode pid D sb lstart lsize outs FT _ bs V _ s4 X4 i x3) as v s5 X5. rewrite list_insert_insert_eq in X5.
  set (y := x3 <| i_valid := 1 |>) in *.
  assert (Hi5 : <[i := y]> IC !! i = Some y) by (by apply list_lookup_insert_eq).
  tx_step (tx_get_inode pid D sb lstart lsize outs FT [] bs V _ s5 X5 i y) as x4 s0 E. destruct E as [-> ->].
  change (i_type y) with (d_type (dinode_at V (i_inum x))). rewrite (proj2 (Z.eqb_neq _ _)) by done. apply returns_ret.
  exists (<[i := y]> IC), y. split; [done|]. apply (ilock_entry IC i x y); try done.
Qed.

Lemma iunlock_any IC s i n ip : tx [] bs V IC s -> icache_ok V (Some i) IC -> loaded IC i n ip ->
  returns (iunlock (Some i)) s (fun _ s' => exists IC' ip', tx [] bs V IC' s' /\ icache_ok V None IC' /\
    same_refs IC IC' /\ loaded IC' i n ip' /\ forall j m, entry IC j m -> entry IC' j m).
Proof.
  intros X OK [Hi <- Hr Hd Hv Edn]. pose proof (lookup_lt_Some _ _ _ Hi) as Hlt.
  pose proof (ic_lock _ _ _ OK _ _ Hi) as Hl. rewrite decide_True in Hl by done.
  eapply returns_mono; [by apply (iunlock_ok pid sb lstart lsize D outs FT bs V IC s i ip)|].
  intros u s' X'. cbn beta in X'. set (y := ip <| i_lock := mkSl 0 0 |>) in *. exists (<[i := y]> IC), y. split; [done|].
  split; [|split; [|split]].
  - apply (icache_same V (Some i) None IC i ip y OK Hi); try done.
    + intros j Hne. split; [done|by intros [= ->]].
    + change (i_ref y) with (i_ref ip). lia.
    + intros _. split; [done|]. split; [by apply (ic_used _ _ _ OK _ _ Hi)|]. by right.
  - by apply (same_insert IC i ip).
  - split; try done. by apply list_lookup_insert_eq.
  - intros j m (jp & Hj & En & Rj). destruct (decide (j = i)) as [->|Hne].
    + rewrite Hi in Hj. injection Hj as <-. exists y. split; [by apply list_lookup_insert_eq|]. done.
    + exists jp. by rewrite list_lookup_insert_ne.
Qed.

(** [iput] of an inode that is not to be deleted. *)
Lemma iput_ok IC s i n : tx [] bs V IC s -> icache_ok V None IC -> entry IC i n -> d_nlink (dinode_at V n) <> 0 ->
  returns (iput (Some i)) s (fun _ s' => exists IC', tx [] bs V IC' s' /\ icache_ok V None IC' /\ recount n (-1) IC IC').
Proof.
  intros X OK (x & Hi & <- & Hr) Hnl. pose proof (lookup_lt_Some _ _ _ Hi) as Hlt.
  destruct (ic_used _ _ _ OK _ _ Hi Hr) as (Hd & Hn & Hv). pose proof (ic_lock _ _ _ OK _ _ Hi) as Hl. rewrite decide_False in Hl by done.
  unfold iput. cbn [deref]. apply returns_ret_bind.
  tx_step (tx_acquiresleep IC s i x X Hi) as u s1 X1; [by rewrite Hl|]. set (x1 := x <| i_lock := mkSl 1 pid |>) in *.
  assert (Hi1 : <[i := x1]> IC !! i = Some x1) by (by apply list_lookup_insert_eq).
  tx_step (tx_get_inode pid D sb lstart lsize outs FT [] bs V _ s1 X1 i x1) as x2 s0 E. destruct E as [-> ->].
  assert (Hcond : ctrue (i_valid x1) && (i_nlink x1 =? 0) = false).
  { destruct Hv as [Hv|[Hv Edn]].
    - change (i_valid x1) with (i_valid x). by rewrite Hv.
    - change (i_nlink x1) with (d_nlink (dinode_of x)). rewrite Edn, (proj2 (Z.eqb_neq _ _)) by done. apply andb_false_r. }
  rewrite Hcond. cbn [whenM]. apply returns_ret_bind.
  tx_step (tx_releasesleep _ s1 i x1 X1 Hi1) as v s2 X2. rewrite list_insert_insert_eq in X2.
  replace (x1 <| i_lock := mkSl 0 0 |>) with x in X2 by (unfold x1; rewrite <- Hl; by destruct x). rewrite list_insert_id in X2 by done.
  pose proof (c_spin _ _ _ _ _ (x_cache _ _ _ _ _ _ _ _ _ _ _ _ X2)) as Hh.
  destruct (tx_recount IC s2 None i x (-1) X2 OK Hi Hr ltac:(lia)) as [OK' RC].
  eexists tt, _. split.
  - etransitivity; [|exact (run_upd_icache (ret tt) s2 i (fun ip => ip <| i_ref ::= fun n => n - 1 |>) Hh)].
    unfold bind at 1 3. rewrite acquire_ok by (rewrite Hh; apply not_elem_of_nil). unfold upd_inode. rewrite !bind_modify.
    unfold bind. by destruct (release _ _) as [[]| | | |].
  - eexists. split; [exact (tx_icache IC s2 _ i x X2 Hi)|]. split; [exact OK'|exact RC].
Qed.
End Ops.
End Cache.
