(* ===== verification/FsPath.v ===== *)
(** Directories and paths.  A directory is its list of entries; [dirlookup]
    finds the first entry of a name, and [namex] walks a path from the root or
    the current directory, element by element.  It gives back every reference
    it takes but the one to its result. *)
From stdpp Require Import functions.
From S2P Require Import Prelude Kstate Mem MemSpec Sched ProcSpec Sleeplock Bio BioSpec Log LogSpec LogOps Inode Dir FsTx FsBlock FsMap FsFile FsInode FsSpec FsOp FsCache.

(** * Names *)

(** The characters of a name in a field: those before the first zero. *)
Fixpoint cname (l : list Z) : list Z :=
  match l with
  | [] => []
  | c :: l => if c =? 0 then [] else c :: cname l
  end.

Lemma cname_id l : 0 ∉ l -> cname l = l.
Proof.
  induction l as [|c l IH]; [done|]. intros Hn. cbn. rewrite (proj2 (Z.eqb_neq c 0)) by set_solver. f_equal. apply IH. set_solver.
Qed.
Lemma cname_app l r : 0 ∉ l -> cname (l ++ 0 :: r) = l.
Proof.
  induction l as [|c l IH]; [done|]. intros Hn. cbn. rewrite (proj2 (Z.eqb_neq c 0)) by set_solver. f_equal. apply IH. set_solver.
Qed.

Lemma strncmp_spec n p q : (n <= length p)%nat -> (n <= length q)%nat ->
  exists r, strncmp p q n = Some r /\ (r = 0 <-> cname (take n p) = cname (take n q)).
Proof.
  revert p q. induction n as [|n IH]; intros [|a p] [|b q] Hp Hq; cbn in Hp, Hq; try lia; [by exists 0..|].
  cbn [strncmp take cname]. unfold ctrue. destruct (Z.eq_dec a b) as [<-|Hab].
  - rewrite Z.eqb_refl, andb_true_r. destruct (Z.eqb_spec a 0) as [->|Ha]; cbn [negb].
    + exists 0. done.
    + destruct (IH p q ltac:(lia) ltac:(lia)) as (r & E & Hr). exists r. split; [done|]. rewrite Hr.
      split; [by intros ->|by intros [= ?]].
  - rewrite (proj2 (Z.eqb_neq a b)), andb_false_r by done. exists (a - b). split; [done|]. split; [lia|].
    destruct (Z.eqb_spec a 0), (Z.eqb_spec b 0); intros E; [lia|discriminate..|congruence].
Qed.

(** The field [namex] compares with: the element, cut to 14 bytes. *)
Definition dname (e : list Z) : list Z := take (Z.to_nat DIRSIZ) e.

Lemma store_elem_spec e name : 0 ∉ e -> length name = Z.to_nat DIRSIZ ->
  length (store_elem e name) = Z.to_nat DIRSIZ /\ cname (store_elem e name) = dname e.
Proof.
  intros He Hn. unfold store_elem, dname. destruct (Z.leb_spec DIRSIZ (Z.of_nat (length e))) as [Hle|Hgt].
  - split; [rewrite length_take; lia|]. apply cname_id. intros Hin. apply He. by eapply subseteq_take.
  - split; [rewrite length_app; cbn; rewrite length_drop; lia|]. rewrite cname_app by done. symmetry. apply take_ge. lia.
Qed.

(** ** Elements of a path *)

Fixpoint split_path (path : list Z) : list (list Z) :=
  match path with
  | [] => [[]]
  | c :: path =>
      if c =? slash then [] :: split_path path
      else match split_path path with
           | e :: r => (c :: e) :: r
           | [] => [[c]]
           end
  end.
Definition elements (path : list Z) : list (list Z) := filter (.≠ []) (split_path path).

Lemma elements_slash path : elements (slash :: path) = elements path.
Proof. unfold elements. cbn [split_path]. rewrite Z.eqb_refl. done. Qed.
Lemma elements_skip path : elements (skip_slashes path) = elements path.
Proof.
  induction path as [|c path IH]; [done|]. cbn [skip_slashes]. destruct (Z.eqb_spec c slash) as [->|]; [|done].
  by rewrite elements_slash.
Qed.
Lemma split_span path e rest : span_elem path = (e, rest) ->
  split_path path = match rest with [] => [e] | _ :: r => e :: split_path r end /\ (rest = [] \/ exists r, rest = slash :: r).
Proof.
  revert e rest. induction path as [|c path IH]; intros e rest; cbn [span_elem split_path].
  - intros [= <- <-]. by split; [|left].
  - destruct (Z.eqb_spec c slash) as [->|Hc].
    + intros [= <- <-]. split; [done|right; by exists path].
    + destruct (span_elem path) as [e1 r1]. intros [= <- <-]. destruct (IH e1 r1 eq_refl) as [E Hr].
      rewrite E. split; [by destruct r1|done].
Qed.
Lemma span_zero path e rest : span_elem path = (e, rest) -> 0 ∉ path -> (0 ∉ e) /\ (0 ∉ rest).
Proof.
  revert e rest. induction path as [|c path IH]; intros e rest; cbn [span_elem].
  - intros [= <- <-]. done.
  - destruct (c =? slash); [intros [= <- <-]; split; [set_solver|done]|].
    destruct (span_elem path) as [e1 r1]. intros [= <- <-] Hn. destruct (IH e1 r1 eq_refl); set_solver.
Qed.
Lemma skip_sub path : 0 ∉ path -> 0 ∉ skip_slashes path.
Proof. induction path as [|c path IH]; [done|]. cbn. destruct (c =? slash); set_solver. Qed.
Lemma skip_length path : (length (skip_slashes path) <= length path)%nat.
Proof. induction path as [|c path IH]; [done|]. cbn. destruct (c =? slash); cbn; lia. Qed.
Lemma span_length path e rest : span_elem path = (e, rest) -> (length path = length e + length rest)%nat.
Proof.
  revert e rest. induction path as [|c path IH]; intros e rest; cbn [span_elem].
  - by intros [= <- <-].
  - destruct (c =? slash); [by intros [= <- <-]|]. destruct (span_elem path) as [e1 r1]. intros [= <- <-].
    cbn. rewrite (IH e1 r1 eq_refl). lia.
Qed.
Lemma skip_head path c r : skip_slashes path = c :: r -> c <> slash.
Proof.
  induction path as [|d path IH]; [done|]. cbn. destruct (Z.eqb_spec d slash); [done|]. by intros [= <- _].
Qed.

(** [skipelem] takes off the first element. *)
Lemma skipelem_spec path name : 0 ∉ path -> length name = Z.to_nat DIRSIZ ->
  match skipelem path name with
  | None => elements path = []
  | Some (rest, nm) => exists e, elements path = e :: elements rest /\ nm = store_elem e name /\
      (0 ∉ e) /\ (0 ∉ rest) /\ (length rest < length path)%nat /\ (rest = [] <-> elements rest = [])
  end.
Proof.
  intros H0 Hn. unfold skipelem. rewrite <- elements_skip. pose proof (skip_sub path H0) as H1. pose proof (skip_length path) as Hl.
  destruct (skip_slashes path) as [|c p] eqn:Es; [done|]. pose proof (skip_head _ _ _ Es) as Hc.
  destruct (span_elem (c :: p)) as [e rest] eqn:E. exists e. destruct (split_span _ _ _ E) as [Esp Hr].
  destruct (span_zero _ _ _ E H1) as [He Hrest].
  assert (Hne : e <> []).
  { cbn [span_elem] in E. rewrite (proj2 (Z.eqb_neq _ _)) in E by done. destruct (span_elem p). by injection E as <- _. }
  split.
  - rewrite elements_skip. unfold elements at 1. rewrite Esp. destruct Hr as [->|[r ->]].
    + by rewrite filter_cons_True.
    + rewrite filter_cons_True by done. by rewrite elements_slash.
  - split; [done|]. split; [done|]. split; [by apply skip_sub|]. split.
    + pose proof (skip_length rest). pose proof (span_length _ _ _ E). destruct e; [done|]. cbn in *. lia.
    + split; [by intros ->|]. destruct (skip_slashes rest) as [|d q] eqn:Ed; [done|]. pose proof (skip_head _ _ _ Ed) as Hd.
      unfold elements. cbn [split_path]. rewrite (proj2 (Z.eqb_neq _ _)) by done.
      destruct (split_path q); by rewrite filter_cons_True.
Qed.

(** * Directories *)

(** The entries in the bytes of a directory, and the inode of the first one
    with the name of [e]. *)
Definition dents (bytes : list Z) : list dirent :=
  (fun k => decode_dirent (slice bytes (sizeof_dirent * Z.of_nat k) sizeof_dirent)) <$>
    seq 0 (Z.to_nat (Z.of_nat (length bytes) / sizeof_dirent)).
Definition named (e : list Z) (de : dirent) : bool :=
  negb (de_inum de =? 0) && bool_decide (cname (de_name de) = dname e).
Definition dir_find (bytes e : list Z) : option Z :=
  k ← find_index (named e) (dents bytes); de_inum <$> dents bytes !! k.

Lemma dents_lookup bytes (k : nat) : Z.of_nat k < Z.of_nat (length bytes) / sizeof_dirent ->
  dents bytes !! k = Some (decode_dirent (slice bytes (sizeof_dirent * Z.of_nat k) sizeof_dirent)).
Proof. intros Hk. unfold dents. rewrite list_lookup_fmap, lookup_seq_lt by lia. done. Qed.

Lemma dents_bound bytes (k : nat) de : dents bytes !! k = Some de -> Z.of_nat k < Z.of_nat (length bytes) / sizeof_dirent.
Proof. intros Hk%lookup_lt_Some. unfold dents in Hk. rewrite length_fmap, length_seq in Hk. lia. Qed.

(** None of the first [k] entries has the name. *)
Definition scanned (bytes e : list Z) (k : nat) : Prop :=
  forall j de, (j < k)%nat -> dents bytes !! j = Some de -> named e de = false.

Lemma scanned_next bytes e k de : dents bytes !! k = Some de -> scanned bytes e k -> named e de = false -> scanned bytes e (S k).
Proof.
  intros Hk Hno Hde j d Hj Ej. destruct (decide (j = k)) as [->|]; [congruence|]. apply (Hno j); [lia|done].
Qed.
Lemma find_here bytes e k de : dents bytes !! k = Some de -> scanned bytes e k -> named e de = true ->
  dir_find bytes e = Some (de_inum de).
Proof.
  intros Hk Hno Hde. unfold dir_find. assert (find_index (named e) (dents bytes) = Some k) as ->; [|cbn; by rewrite Hk].
  apply find_index_Some. exists de. split; [done|]. split; [done|]. intros j b Hj. by apply Hno.
Qed.
Lemma find_none bytes e k : scanned bytes e k -> Z.of_nat (length bytes) / sizeof_dirent <= Z.of_nat k -> dir_find bytes e = None.
Proof.
  intros Hno Hk. unfold dir_find. assert (find_index (named e) (dents bytes) = None) as ->; [|done]. apply find_index_None.
  intros j de Hj. pose proof (dents_bound _ _ _ Hj). apply (Hno j); [lia|done].
Qed.

Section Path.
Context (pid : Z) (D : list (list Z)) (sb : superblock) (lstart lsize outs : Z) (FT : list file).
#[local] Abbreviation tx := (tx pid D sb lstart lsize outs FT).
#[local] Abbreviation dinode_at := (dinode_at sb).
#[local] Abbreviation icache_ok := (icache_ok pid sb).
#[local] Abbreviation loaded := (loaded sb).
Context (G : layout D sb lstart lsize) (bs : list Z) (V : Z -> list Z) (FO : fs_ok D sb V).

(** A directory: an inode whose entries, whole, lead to inodes in use. *)
Definition live (n : Z) : Prop := 0 <= n < sb_ninodes sb /\ d_type (dinode_at V n) <> 0 /\ d_nlink (dinode_at V n) <> 0.
Definition dir_bytes (n : Z) : list Z := content V (inode_at sb V n).
Record dir_ok (n : Z) : Prop := mkDirOk {
  dr_inode : inode_ok sb V (inode_at sb V n);
  dr_size : d_size (dinode_at V n) mod sizeof_dirent = 0;
  dr_live : forall de, de ∈ dents (dir_bytes n) -> de_inum de <> 0 -> live (de_inum de);
}.

Lemma loaded_inode IC i n ip : loaded V IC i n ip -> inode_ok sb V (inode_at sb V n) ->
  inode_ok sb V ip /\ content V ip = content V (inode_at sb V n) /\ i_size ip = i_size (inode_at sb V n).
Proof.
  intros [h1 h2 h3 h4 h5 h6] d1.
  assert (Ed : forall f : dinode -> Z, f (dinode_of ip) = f (dinode_at V n)) by (intros f; by rewrite h6).
  assert (Ea : i_addrs ip = i_addrs (inode_at sb V n)) by exact (f_equal d_addrs h6).
  assert (Es : i_size ip = i_size (inode_at sb V n)) by exact (Ed d_size).
  split; [|split; [unfold content; by rewrite Ea, Es|done]].
  destruct d1 as [g1 g2 g3 g4 g5 g6 g7]. split; rewrite ?Ea, ?Es; try done.
  - intros Et. apply g5. rewrite <- Et. symmetry. exact (Ed d_type).
  - by rewrite h2.
  - assert (i_type ip = i_type (inode_at sb V n)) as -> by exact (Ed d_type).
    assert (i_major ip = i_major (inode_at sb V n)) as -> by exact (Ed d_major).
    assert (i_minor ip = i_minor (inode_at sb V n)) as -> by exact (Ed d_minor).
    assert (i_nlink ip = i_nlink (inode_at sb V n)) as -> by exact (Ed d_nlink). done.
Qed.

Section Dir.
Context (IC : list inode) (dp : nat) (n : Z) (ip : inode) (LD : loaded V IC dp n ip) (DK : dir_ok n).
#[local] Abbreviation bytes := (dir_bytes n).

(** The cached inode is the one on disk. *)
Lemma loaded_ok : inode_ok sb V ip /\ content V ip = bytes /\ i_size ip = Z.of_nat (length bytes) /\ i_size ip mod sizeof_dirent = 0 /\
  i_size ip <= MAXFILE * BSIZE.
Proof using LD DK.
  destruct DK as [d1 d2 d3]. destruct (loaded_inode IC dp n ip LD d1) as (IO & Ec & Es). assert (Hl := in_size _ _ _ IO).
  split; [done|]. split; [done|]. split; [|split; [by rewrite Es|lia]].
  unfold dir_bytes. rewrite <- Ec. unfold content. rewrite bytes_of_length; lia.
Qed.

Lemma read_dirent_ok s msg (k : nat) : tx [] bs V IC s -> Z.of_nat k < Z.of_nat (length bytes) / sizeof_dirent ->
  returns (read_dirent msg dp (sizeof_dirent * Z.of_nat k)) s (fun de s' => dents bytes !! k = Some de /\
    length (de_name de) = Z.to_nat DIRSIZ /\ tx [] bs V IC s').
Proof using G FO LD DK.
  intros X Hk. destruct loaded_ok as (IO & Ec & Es & Em & Hmax). change (MAXFILE * BSIZE) with 71680 in Hmax.
  change sizeof_dirent with 16 in *.
  assert (Hr : 16 * Z.of_nat k + 16 <= i_size ip) by (rewrite Es in *; Z.to_euclidean_division_equations; lia).
  unfold read_dirent.
  tx_step (readi_ok D sb lstart lsize outs pid FT G bs V IC dp ip FO (ld_entry _ _ _ _ _ _ LD) IO s (16 * Z.of_nat k) 16 X) as r s1 E; [lia|].
  destruct E as [-> X1]. unfold read_result. rewrite u32_id, Ec by lia.
  rewrite (proj2 (Z.ltb_ge _ (16 * Z.of_nat k))), (proj2 (Z.ltb_ge _ (16 * Z.of_nat k))) by lia. cbn [orb]. cbv zeta.
  assert (Hl : Z.of_nat (length (slice bytes (16 * Z.of_nat k) 16)) = 16) by (rewrite slice_length by lia; lia).
  rewrite Hl. change (negb (16 =? 16)) with false. cbn iota. apply returns_ret. split; [by apply dents_lookup|].
  split; [|done]. unfold decode_dirent. cbn [de_name]. unfold slice at 1. rewrite length_take, length_drop.
  change (Z.to_nat DIRSIZ) with 14%nat. change (Z.to_nat 2) with 2%nat. lia.
Qed.

(** [dirlookup] with the directory locked. *)
Definition lookup_result (e : list Z) (r : option (nat * Z)) (s : kstate) : Prop :=
  match dir_find bytes e with
  | None => r = None /\ tx [] bs V IC s
  | Some t => exists i off IC', r = Some (i, off) /\ tx [] bs V IC' s /\ icache_ok V (Some dp) IC' /\ entry IC' i t /\ recount t 1 IC IC'
  end.

(** The loop at the byte [off]: no entry before it has the name. *)
Definition looking (e : list Z) (off : Z) (s : kstate) : Prop :=
  tx [] bs V IC s /\ exists k : nat, off = sizeof_dirent * Z.of_nat k /\ Z.of_nat k <= Z.of_nat (length bytes) / sizeof_dirent /\
    scanned bytes e k.

Lemma looking_next e (k : nat) de s : tx [] bs V IC s -> dents bytes !! k = Some de -> scanned bytes e k -> named e de = false ->
  looking e (sizeof_dirent * Z.of_nat k + sizeof_dirent) s /\
  (Z.to_nat ((i_size ip - (sizeof_dirent * Z.of_nat k + sizeof_dirent)) / sizeof_dirent) <
   Z.to_nat ((i_size ip - sizeof_dirent * Z.of_nat k) / sizeof_dirent))%nat.
Proof using LD DK.
  intros X Hk Hno Hde. destruct loaded_ok as (_ & _ & Es & _ & _). pose proof (dents_bound _ _ _ Hk) as Hb. split.
  - split; [done|]. exists (S k). split; [lia|]. split; [lia|]. by eapply scanned_next.
  - rewrite Es. change sizeof_dirent with 16 in *. Z.to_euclidean_division_equations. lia.
Qed.

Lemma dirlookup_ok s e name : tx [] bs V IC s -> icache_ok V (Some dp) IC -> d_type (dinode_at V n) = T_DIR ->
  length name = Z.to_nat DIRSIZ -> cname name = dname e -> in_use IC < Z.of_nat NINODE ->
  returns (dirlookup dp name) s (lookup_result e).
Proof using G FO LD DK.
  intros X OK Hty Hname Hcn Hroom. destruct loaded_ok as (IO & _ & Es & _ & _). pose proof LD as [h1 h2 h3 h4 h5 h6]. unfold dirlookup.
  tx_step (tx_get_inode pid D sb lstart lsize outs FT [] bs V IC s X dp ip) as x s0 E. destruct E as [-> ->].
  assert (i_type ip = T_DIR) as -> by (rewrite <- Hty; exact (f_equal d_type h6)). change (negb (T_DIR =? T_DIR)) with false. cbn iota.
  eapply (returns_loop (looking e) (fun off => Z.to_nat ((i_size ip - off) / sizeof_dirent))).
  - split; [done|]. exists 0%nat. split; [done|]. split; [change sizeof_dirent with 16; Z.to_euclidean_division_equations; lia|].
    intros j de Hj. lia.
  - unfold dir_fuel. rewrite Z.sub_0_r. lia.
  - clear s X. intros off s (X & k & -> & Hk & Hno). destruct (Z.ltb_spec (sizeof_dirent * Z.of_nat k) (i_size ip)) as [Hlt|Hge].
    + tx_step (read_dirent_ok s "dirlookup read" k X) as de s1 E.
      { rewrite Es in Hlt. destruct loaded_ok as (_ & _ & _ & Em & _). rewrite Es in Em. change sizeof_dirent with 16 in *.
        Z.to_euclidean_division_equations. lia. }
      destruct E as (Ede & Hln & X1). destruct (Z.eqb_spec (de_inum de) 0) as [Hz|Hnz].
      { apply returns_ret, (looking_next e k de); try done. unfold named. by rewrite Hz. }
      destruct (strncmp_spec (Z.to_nat DIRSIZ) name (de_name de)) as (c & Ecmp & Hc); [lia..|].
      unfold namecmp. rewrite Ecmp. apply returns_ret_bind. rewrite (take_ge name), (take_ge (de_name de)), Hcn in Hc by lia.
      assert (Hnm : named e de = (c =? 0)).
      { unfold named. rewrite (proj2 (Z.eqb_neq _ _)) by done. cbn [negb andb]. apply eq_bool_prop_intro.
        rewrite bool_decide_spec, Is_true_true, Z.eqb_eq, Hc. done. }
      destruct (Z.eqb_spec c 0) as [Hc0|Hc0]; [|by apply returns_ret, (looking_next e k de)].
      rewrite h4. assert (Hlive : live (de_inum de)) by (apply (dr_live _ DK); [by eapply list_elem_of_lookup_2|done]).
      tx_step (iget_ok pid D sb lstart lsize outs FT bs V IC s1 (Some dp) (de_inum de) X1 OK) as i s2 E; [apply Hlive|by right|].
      destruct E as (IC' & X2 & OK2 & EN & RC). apply returns_ret. unfold lookup_result. rewrite (find_here _ _ _ _ Ede Hno Hnm). eauto 10.
    + apply returns_ret. unfold lookup_result. rewrite (find_none _ _ k Hno); [done|].
      rewrite Es in Hge. change sizeof_dirent with 16 in *. Z.to_euclidean_division_equations. lia.
Qed.
End Dir.
(** * Paths *)

Fixpoint walk (np : bool) (n : Z) (elems : list (list Z)) : option Z :=
  match elems with
  | [] => if np then None else Some n
  | e :: rest =>
      if negb (d_type (dinode_at V n) =? T_DIR) then None
      else if np && bool_decide (rest = []) then Some n
      else t ← dir_find (dir_bytes n) e; walk np t rest
  end.

(** The references to [n] changed by [d]. *)
Definition counted (n d : Z) (IC IC' : list inode) : Prop :=
  (forall m, refs IC' m = refs IC m + if n =? m then d else 0) /\
  in_use IC' = in_use IC + ((if refs IC' n =? 0 then 0 else 1) - (if refs IC n =? 0 then 0 else 1)).

Lemma recount_counted n d IC IC' : recount n d IC IC' -> counted n d IC IC'.
Proof. by intros [h1 h2 _]. Qed.
Lemma counted_same n d IC IC1 IC2 : counted n d IC IC1 -> same_refs IC1 IC2 -> counted n d IC IC2.
Proof. intros [h1 h2] [g1 g2]. split; [intros m; by rewrite g1|]. by rewrite g2, g1. Qed.
Lemma counted_undo n IC IC1 IC2 : counted n 1 IC IC1 -> counted n (-1) IC1 IC2 -> same_refs IC IC2.
Proof.
  intros [h1 h2] [g1 g2].
  assert (E : forall m, refs IC2 m = refs IC m) by (intros m; rewrite g1, h1; destruct (n =? m); lia).
  split; [done|]. rewrite g2, h2, E. lia.
Qed.
Lemma counted_move n t IC IC1 IC2 IC3 : (forall m, 0 <= refs IC m) -> counted n 1 IC IC1 -> counted t 1 IC1 IC2 -> counted n (-1) IC2 IC3 ->
  counted t 1 IC IC3.
Proof.
  intros H0 [h1 h2] [g1 g2] [k1 k2].
  assert (E : forall m, refs IC3 m = refs IC m + if t =? m then 1 else 0).
  { intros m. rewrite k1, g1, h1. destruct (n =? m), (t =? m); lia. }
  split; [done|]. rewrite k2, g2, h2, !E, !g1, !h1, !Z.eqb_refl. pose proof (H0 n). pose proof (H0 t).
  destruct (Z.eqb_spec n t) as [->|Hne]; [rewrite !Z.eqb_refl|rewrite (proj2 (Z.eqb_neq t n)) by done];
    repeat (match goal with |- context [if ?a =? ?b then _ else _] => destruct (Z.eqb_spec a b) end); lia.
Qed.

Lemma kept_loaded IC IC' i n ip t : loaded V IC i n ip -> recount t 1 IC IC' -> exists ip', loaded V IC' i n ip'.
Proof.
  intros [h1 h2 h3 h4 h5 h6] [_ _ Hk]. destruct (Hk i ip h1 h3) as (r & Hr & E); [right; lia|].
  exists (ip <| i_ref := r |>). by split.
Qed.
Lemma loaded_entry IC i n ip : loaded V IC i n ip -> entry IC i n.
Proof. intros [h1 h2 h3 _ _ _]. by exists ip. Qed.

Lemma iunlockput_ok IC s i n ip : tx [] bs V IC s -> icache_ok V (Some i) IC -> loaded V IC i n ip -> live n ->
  returns (iunlockput (Some i)) s (fun _ s' => exists IC', tx [] bs V IC' s' /\ icache_ok V None IC' /\ counted n (-1) IC IC' /\
    forall j m, entry IC j m -> m <> n \/ 2 <= refs IC n -> entry IC' j m).
Proof.
  intros X OK LD Hl. unfold iunlockput.
  tx_step (iunlock_any pid D sb lstart lsize outs FT bs V IC s i n ip X OK LD) as u s1 E. destruct E as (IC1 & ip1 & X1 & OK1 & Hs & LD1 & Hk1).
  eapply returns_mono; [apply (iput_ok pid D sb lstart lsize outs FT bs V IC1 s1 i n X1 OK1 (loaded_entry _ _ _ _ LD1)); apply Hl|].
  intros u' s2 (IC2 & X2 & OK2 & RC). exists IC2. split; [done|]. split; [done|]. destruct Hs as [g1 g2]. split.
  - apply recount_counted in RC as [h1 h2]. split; [intros m; by rewrite h1, g1|]. by rewrite h2, g2, g1.
  - intros j m EN Hm. destruct (Hk1 j m EN) as (jp & Hj & <- & Rj). destruct (rc_kept _ _ _ _ RC j jp Hj Rj) as (r & Hr & E).
    + destruct Hm as [|Hm]; [by left|]. destruct (Z.eq_dec (i_inum jp) n) as [En|]; [right|by left].
      rewrite <- En, <- g1 in Hm. rewrite (refs_entry pid sb V None IC1 j jp OK1 Hj Rj) in Hm. lia.
    + by exists (jp <| i_ref := r |>).
Qed.

Context (Hdirs : forall n, live n -> d_type (dinode_at V n) = T_DIR -> dir_ok n).

Lemma dir_find_live n e t : live n -> d_type (dinode_at V n) = T_DIR -> dir_find (dir_bytes n) e = Some t -> live t.
Proof using Hdirs.
  intros Hl Ht Hf. unfold dir_find in Hf. apply bind_Some in Hf as (k & Hk & (de & Hde & ->)%fmap_Some).
  apply find_index_Some in Hk as (d & Ed & Hn & _). rewrite Ed in Hde. injection Hde as ->.
  apply (dr_live n (Hdirs n Hl Ht)); [by eapply list_elem_of_lookup_2|]. unfold named in Hn.
  intros Hz. by rewrite Hz in Hn.
Qed.

(** ** The loop of [namex] *)

Section Namex.
Context (np : bool) (IC0 : list inode) (OK0 : icache_ok V None IC0) (Hroom : in_use IC0 + 1 < Z.of_nat NINODE).

(** What [namex] returns when the walk ends at [r]. *)
Definition found_at (r : option Z) (last : option (list Z)) (x : option nat * list Z) (s : kstate) : Prop :=
  exists IC, tx [] bs V IC s /\ icache_ok V None IC /\
  match r with
  | Some t => exists i, fst x = Some i /\ entry IC i t /\ counted t 1 IC0 IC /\
      (np = true -> exists e, last = Some e /\ length (snd x) = Z.to_nat DIRSIZ /\ cname (snd x) = dname e)
  | None => fst x = None /\ same_refs IC0 IC
  end.

(** At inode [n], in entry [i], with [path] to go. *)
Record at_inode (n : Z) (i : nat) (path name : list Z) (s : kstate) (IC : list inode) : Prop := mkAt {
  at_tx : tx [] bs V IC s;
  at_ok : icache_ok V None IC;
  at_entry : entry IC i n;
  at_live : live n;
  at_refs : counted n 1 IC0 IC;
  at_path : 0 ∉ path;
  at_name : length name = Z.to_nat DIRSIZ;
}.

(** One element. *)
Definition namex_body : option nat * list Z * list Z -> K (option nat * list Z * list Z + option nat * list Z) :=
  fun '(ip, path, name) =>
    match skipelem path name with
    | None => if np then iput ip;;; ret (inr (None, name)) else ret (inr (ip, name))
    | Some (path, name) =>
        ilock ip;;;
        i <- deref ip;;
        d <- get_inode i;;
        if negb (i_type d =? T_DIR) then iunlockput ip;;; ret (inr (None, name))
        else if np && bool_decide (path = []) then iunlock ip;;; ret (inr (ip, name))
        else
          next <- dirlookup i name;;
          match next with
          | None => iunlockput ip;;; ret (inr (None, name))
          | Some (next, _) => iunlockput ip;;; ret (inl (Some next, path, name))
          end
    end.

Definition stepped (n : Z) (path : list Z) (x : option nat * list Z * list Z + option nat * list Z) (s : kstate) : Prop :=
  match x with
  | inl (ip, path', name') => exists i' n' IC', ip = Some i' /\ at_inode n' i' path' name' s IC' /\
      (length path' < length path)%nat /\ walk np n (elements path) = walk np n' (elements path') /\
      (elements path' <> [] -> list.last (elements path) = list.last (elements path'))
  | inr r => found_at (walk np n (elements path)) (list.last (elements path)) r s
  end.

Lemma found_none n i nm path name s IC s1 IC1 :
  at_inode n i path name s IC -> walk np n (elements path) = None ->
  tx [] bs V IC1 s1 -> icache_ok V None IC1 -> same_refs IC0 IC1 -> stepped n path (inr (None, nm)) s1.
Proof. intros _ Ew X OK Hs. cbn. rewrite Ew. exists IC1. by split; [|split]. Qed.

(** The path is at its end. *)
Lemma namex_end n i path name s IC : at_inode n i path name s IC -> elements path = [] ->
  returns (if np then iput (Some i);;; ret (inr (None, name)) else ret (inr (Some i, name))) s (stepped n path).
Proof using G FO OK0.
  intros A Hsk. pose proof A as [X OK EN Hl HC H0 Hn]. destruct np eqn:Enp.
  - tx_step (iput_ok pid D sb lstart lsize outs FT bs V IC s i n X OK EN) as u s1 E; [apply Hl|].
    destruct E as (IC1 & X1 & OK1 & RC%recount_counted). apply returns_ret. eapply (found_none n i name path); try done.
    + rewrite Hsk. cbn. by rewrite Enp.
    + by eapply counted_undo.
  - apply returns_ret. cbn. rewrite Hsk, Enp. exists IC. split; [done|]. split; [done|]. exists i.
    split; [done|]. split; [done|]. split; [done|]. by rewrite Enp.
Qed.

(** The element is missing, or its directory is none. *)
Lemma namex_miss n i path name s0 IC0' nm IC s ip : at_inode n i path name s0 IC0' ->
  tx [] bs V IC s -> icache_ok V (Some i) IC -> loaded V IC i n ip -> counted n 1 IC0 IC -> walk np n (elements path) = None ->
  returns (iunlockput (Some i);;; ret (inr (None, nm))) s (stepped n path).
Proof using G FO OK0.
  intros A X OK LD HC Hw. tx_step (iunlockput_ok IC s i n ip X OK LD (at_live _ _ _ _ _ _ A)) as v s3 E.
  destruct E as (IC3 & X3 & OK3 & RC & _). apply returns_ret. eapply (found_none n i _ path); try done. by eapply counted_undo.
Qed.

(** The element is found: the directory is given up for it. *)
Lemma namex_down n i path name s0 IC0' t j rest e nm IC1 ip1 IC2 s2 : at_inode n i path name s0 IC0' ->
  loaded V IC1 i n ip1 -> counted n 1 IC0 IC1 -> recount t 1 IC1 IC2 -> tx [] bs V IC2 s2 -> icache_ok V (Some i) IC2 -> entry IC2 j t ->
  live t -> (0 ∉ rest) -> length nm = Z.to_nat DIRSIZ ->
  elements path = e :: elements rest -> (length rest < length path)%nat -> walk np n (elements path) = walk np t (elements rest) ->
  returns (iunlockput (Some i);;; ret (inl (Some j, rest, nm))) s2 (stepped n path).
Proof using G FO OK0.
  intros A LD HC1 RC2 X2 OK2 EN2 Hlt' Hr Hnl Ee Hlt Ew. pose proof (at_live _ _ _ _ _ _ A) as Hl.
  destruct (kept_loaded _ _ _ _ _ _ LD RC2) as [ip2 LD2].
  tx_step (iunlockput_ok IC2 s2 i n ip2 X2 OK2 LD2 Hl) as v s3 E. destruct E as (IC3 & X3 & OK3 & RC3 & Hk3).
  apply returns_ret. cbn. exists j, t, IC3. split; [done|]. split; [|split; [done|split]].
  - apply recount_counted in RC2. split; try done.
    + apply Hk3; [done|]. destruct (Z.eq_dec t n) as [->|]; [right|by left]. destruct RC2 as [g _], HC1 as [h _].
      rewrite g, h, !Z.eqb_refl. pose proof (refs_nonneg pid sb V None IC0 OK0 n). lia.
    + eapply (counted_move n t); try done. intros k. apply (refs_nonneg pid sb V None IC0 OK0).
  - done.
  - intros Hne. rewrite Ee. by destruct (elements rest).
Qed.

Lemma namex_step n i path name s IC : at_inode n i path name s IC ->
  returns (namex_body (Some i, path, name)) s (stepped n path).
Proof using G FO Hdirs OK0 Hroom.
  intros A. pose proof A as [X OK EN Hl HC H0 Hn]. pose proof (skipelem_spec path name H0 Hn) as Hsk. unfold namex_body.
  destruct (skipelem path name) as [[rest nm]|]; [|by eapply namex_end].
  destruct Hsk as (e & Ee & -> & He & Hr & Hlt & Hnil). destruct (store_elem_spec e name He Hn) as [Hnl Hcn].
  tx_step (ilock_load pid D sb lstart lsize outs FT bs V G IC s i n X OK EN) as u s1 E; [apply Hl|].
  destruct E as (IC1 & ip & X1 & OK1 & Hs1 & LD). pose proof (counted_same _ _ _ _ _ HC Hs1) as HC1.
  cbn [deref]. apply returns_ret_bind.
  tx_step (tx_get_inode pid D sb lstart lsize outs FT [] bs V IC1 s1 X1 i ip) as d s0 E; [apply LD|]. destruct E as [-> ->].
  assert (i_type ip = d_type (dinode_at V n)) as -> by exact (f_equal d_type (ld_dinode _ _ _ _ _ _ LD)).
  assert (Ew : walk np n (elements path) =
            if negb (d_type (dinode_at V n) =? T_DIR) then None
            else if np && bool_decide (rest = []) then Some n else t ← dir_find (dir_bytes n) e; walk np t (elements rest)).
  { rewrite Ee. cbn [walk]. by rewrite (bool_decide_ext _ _ Hnil). }
  destruct (Z.eqb_spec (d_type (dinode_at V n)) T_DIR) as [Ht|Ht]; cbn [negb] in *; [|by eapply namex_miss].
  destruct (np && bool_decide (rest = [])) eqn:Enp.
  { tx_step (iunlock_any pid D sb lstart lsize outs FT bs V IC1 s1 i n ip X1 OK1 LD) as v s2 E. destruct E as (IC2 & ip2 & X2 & OK2 & Hs2 & LD2 & _).
    apply returns_ret. cbn. rewrite Ew. exists IC2. split; [done|]. split; [done|]. exists i. split; [done|].
    split; [by eapply loaded_entry|]. split; [by eapply counted_same|]. intros _. exists e. split; [|done].
    apply andb_prop in Enp as [_ Hre%bool_decide_eq_true]. rewrite Ee, (proj1 Hnil Hre). done. }
  pose proof (Hdirs n Hl Ht) as DK.
  tx_step (dirlookup_ok IC1 i n ip LD DK s1 e (store_elem e name) X1 OK1 Ht Hnl Hcn) as r s2 E.
  { destruct HC1 as [_ ->]. repeat case_match; lia. }
  unfold lookup_result in E. destruct (dir_find (dir_bytes n) e) as [t|] eqn:Ef.
  - destruct E as (j & off & IC2 & -> & X2 & OK2 & EN2 & RC2). eapply (namex_down n i path name s IC t j rest e); try done. by eapply dir_find_live.
  - destruct E as [-> X2]. by eapply namex_miss.
Qed.

Lemma found_last r l1 l2 x s : found_at r l1 x s -> (r <> None -> np = true -> l1 = l2) -> found_at r l2 x s.
Proof.
  intros (IC & X & OK & H) Hl. exists IC. split; [done|]. split; [done|]. destruct r as [t|]; [|done].
  destruct H as (i & E & EN & HC & Hnp). exists i. split; [done|]. split; [done|]. split; [done|]. intros En.
  destruct (Hnp En) as (e & Ee & Hr). exists e. split; [|done]. by rewrite <- Hl.
Qed.

Lemma namex_loop n0 i path name s IC : at_inode n0 i path name s IC ->
  returns (loop (length path + 1) namex_body (Some i, path, name)) s
    (found_at (walk np n0 (elements path)) (list.last (elements path))).
Proof using G FO Hdirs OK0 Hroom.
  intros A.
  eapply (returns_loop (fun '(ip, p, nm) s => exists i n IC, ip = Some i /\ at_inode n i p nm s IC /\
            walk np n0 (elements path) = walk np n (elements p) /\
            (elements p <> [] -> list.last (elements path) = list.last (elements p)))
            (fun '(ip, p, nm) => length p)).
  - exists i, n0, IC. done.
  - lia.
  - clear i IC s A. intros [[ip p] nm] s (i & n & IC & -> & A & Ew & El).
    eapply returns_mono; [by apply (namex_step n i p nm s IC)|]. intros [[[ip p'] nm']|r] s'; cbn [stepped].
    + intros (i' & n' & IC' & -> & A' & Hlt & Ew' & El'). split; [|done]. exists i', n', IC'. split; [done|]. split; [done|].
      split; [congruence|]. intros Hne. rewrite <- (El' Hne). apply El. intros Hp. rewrite Hp in El'.
      specialize (El' Hne). destruct (elements p') as [|e es]; [done|]. symmetry in El'. by apply last_None in El'.
    + intros F. rewrite Ew. eapply found_last; [exact F|]. intros Hw Hnp. symmetry. apply El.
      intros Hp. rewrite Hp in Hw. cbn in Hw. by rewrite Hnp in Hw.
Qed.
End Namex.
End Path.

(** The inode a path starts from: the root, or the process' directory. *)
Definition cwd_at (s : kstate) (IC : list inode) (n : Z) : Prop :=
  exists c p j, k_cur s = Some c /\ k_procs s !! c = Some p /\ p_cwd p = Some j /\ entry IC j n.
Definition start_at (s : kstate) (IC : list inode) (path : list Z) (n : Z) : Prop :=
  match path with
  | c :: _ => if c =? slash then n = ROOTINO else cwd_at s IC n
  | [] => cwd_at s IC n
  end.

Lemma namex_start pid D sb lstart lsize outs FT bs V IC s path n :
  tx pid D sb lstart lsize outs FT [] bs V IC s -> icache_ok pid sb V None IC -> start_at s IC path n -> live sb V n ->
  in_use IC < Z.of_nat NINODE ->
  returns (match path with
           | c :: _ => if c =? slash then i <- iget ROOTDEV ROOTINO;; ret (Some i)
                       else j <- myproc;; p <- get_proc j;; idup (p_cwd p)
           | [] => j <- myproc;; p <- get_proc j;; idup (p_cwd p)
           end) s
    (fun r s' => exists i IC', r = Some i /\ tx pid D sb lstart lsize outs FT [] bs V IC' s' /\ icache_ok pid sb V None IC' /\
       entry IC' i n /\ counted n 1 IC IC').
Proof.
  intros X OK Hst Hl Hroom.
  assert (Hcwd : cwd_at s IC n -> returns (j <- myproc;; p <- get_proc j;; idup (p_cwd p)) s
            (fun r s' => exists i IC', r = Some i /\ tx pid D sb lstart lsize outs FT [] bs V IC' s' /\ icache_ok pid sb V None IC' /\
               entry IC' i n /\ counted n 1 IC IC')).
  { intros (c & p & j & Hc & Hp & Hj & EN).
    assert (E : (j <- myproc;; p <- get_proc j;; idup (p_cwd p)) s = idup (Some j) s).
    { unfold myproc. mrun. rewrite Hc. mrun. unfold bind. by rewrite (get_proc_eq c p), Hj. }
    unfold returns. rewrite E. eapply returns_mono; [by eapply (idup_ok pid D sb lstart lsize outs FT bs V IC s None j n)|].
    intros r s' (-> & IC' & X' & OK' & EN' & RC%recount_counted). by exists j, IC'. }
  assert (Hroot : n = ROOTINO -> returns (i <- iget ROOTDEV ROOTINO;; ret (Some i)) s
            (fun r s' => exists i IC', r = Some i /\ tx pid D sb lstart lsize outs FT [] bs V IC' s' /\ icache_ok pid sb V None IC' /\
               entry IC' i n /\ counted n 1 IC IC')).
  { intros ->. tx_step (iget_ok pid D sb lstart lsize outs FT bs V IC s None ROOTINO X OK) as i s1 E; [apply Hl|by right|].
    destruct E as (IC' & X' & OK' & EN & RC%recount_counted). apply returns_ret. by exists i, IC'. }
  unfold start_at in Hst. destruct path as [|c path]; [by apply Hcwd|]. destruct (c =? slash); [by apply Hroot|by apply Hcwd].
Qed.

Lemma namex_ok pid D sb lstart lsize outs FT bs V IC s path np name n :
  layout D sb lstart lsize -> fs_ok D sb V -> tx pid D sb lstart lsize outs FT [] bs V IC s -> icache_ok pid sb V None IC ->
  (forall d, live sb V d -> d_type (dinode_at sb V d) = T_DIR -> dir_ok sb V d) ->
  start_at s IC path n -> live sb V n -> in_use IC + 1 < Z.of_nat NINODE -> 0 ∉ path -> length name = Z.to_nat DIRSIZ ->
  returns (namex path np name) s
    (found_at pid D sb lstart lsize outs FT bs V np IC (walk sb V np n (elements path)) (list.last (elements path))).
Proof.
  intros G FO X OK Hdirs Hst Hl Hroom H0 Hn. unfold namex.
  tx_step (namex_start pid D sb lstart lsize outs FT bs V IC s path n X OK Hst Hl) as r s1 E; [lia|].
  destruct E as (i & IC1 & -> & X1 & OK1 & EN & HC).
  by apply (namex_loop pid D sb lstart lsize outs FT G bs V FO Hdirs np IC OK Hroom n i path name s1 IC1).
Qed.

(** C6: [namex] resolves a path.  It starts at the root or, for a relative
    path, at the current directory of the process, and follows the elements
    of the path through the first directory entries that have their names,
    cut to 14 bytes.  It returns the inode it ends at (for [nameiparent] the
    directory of the last element, and that element), or none when an element
    is missing or leads through a file, and then it holds no reference that
    it did not hold before; of the references taken on the way only the one
    to its result remains. *)
Theorem namex_spec pid D sb lstart lsize outs FT bs V IC s path np name n :
  layout D sb lstart lsize -> fs_ok D sb V -> tx pid D sb lstart lsize outs FT [] bs V IC s -> icache_ok pid sb V None IC ->
  (forall d, live sb V d -> d_type (dinode_at sb V d) = T_DIR -> dir_ok sb V d) ->
  start_at s IC path n -> live sb V n -> in_use IC + 1 < Z.of_nat NINODE -> 0 ∉ path -> length name = Z.to_nat DIRSIZ ->
  returns (namex path np name) s
    (found_at pid D sb lstart lsize outs FT bs V np IC (walk sb V np n (elements path)) (list.last (elements path))).
Proof. apply namex_ok. Qed.
