(* ===== verification/FsImage.v ===== *)
(** From the image to the running system: the directories of an image that
    [mkfs] made are in order, and after booting from it the kernel finds every
    file of the command line under its name and reads its bytes. *)
From stdpp Require Import functions.
From S2P Require Import Prelude Kstate Demo Mem MemSpec Sched ProcSpec Sleeplock Bio BioSpec Log LogSpec LogOps Inode Dir Proc FsTx FsBlock FsMap FsFile FsInode FsSpec FsOp FsSys FsCache FsPath Mkfs MkfsSpec MkfsImage MkfsMain FsBoot.

#[local] Abbreviation inode_at := (inode_at mksb).
#[local] Abbreviation dinode_at := (dinode_at mksb).
#[local] Abbreviation live := (live mksb).
#[local] Abbreviation dir_ok := (dir_ok mksb).

(** * The entries of the root directory *)

Lemma slice_chunks (L : list (list Z)) (k : nat) l : Forall (fun c => length c = 16%nat) L -> L !! k = Some l ->
  slice (mjoin L) (16 * Z.of_nat k) 16 = l.
Proof.
  revert k. induction L as [|c L IH]; intros [|k] HF Hk; [done..| |]; apply Forall_cons in HF as [Hc HF].
  - injection Hk as ->. unfold slice. cbn [mjoin list_join]. rewrite drop_0. change (Z.to_nat 16) with 16%nat. rewrite <- Hc. apply take_app_length.
  - rewrite <- (IH k HF Hk). unfold slice. cbn [mjoin list_join]. f_equal.
    replace (Z.to_nat (16 * Z.of_nat (S k))) with (length c + Z.to_nat (16 * Z.of_nat k))%nat by lia.
    by rewrite <- drop_drop, drop_app_length.
Qed.
Lemma chunks_length (L : list (list Z)) : Forall (fun c => length c = 16%nat) L -> length (mjoin L) = (16 * length L)%nat.
Proof.
  induction 1 as [|c L Hc _ IH]; [done|]. change (mjoin (c :: L)) with (c ++ mjoin L). rewrite length_app, Hc, IH.
  cbn [length]. lia.
Qed.

Lemma dents_chunks (L : list (list Z)) : Forall (fun c => length c = 16%nat) L -> dents (mjoin L) = decode_dirent <$> L.
Proof.
  intros HF. apply list_eq. intros k. rewrite list_lookup_fmap. pose proof (chunks_length L HF) as Hl.
  destruct (L !! k) as [l|] eqn:Ek.
  - pose proof (lookup_lt_Some _ _ _ Ek). rewrite dents_lookup.
    + cbn. change sizeof_dirent with 16. by rewrite (slice_chunks L k l).
    + rewrite Hl. change sizeof_dirent with 16. Z.to_euclidean_division_equations. lia.
  - apply lookup_ge_None in Ek. unfold dents. rewrite list_lookup_fmap, lookup_seq_ge; [done|].
    rewrite Hl. change sizeof_dirent with 16. Z.to_euclidean_division_equations. lia.
Qed.

Definition padded (name : list Z) : list Z := take (Z.to_nat DIRSIZ) (name ++ replicate (Z.to_nat DIRSIZ) 0).
Lemma decode_dentry inum name : 0 <= inum < 2 ^ 16 -> decode_dirent (dentry inum name) = mkDirent inum (padded name).
Proof.
  intros Hi. unfold decode_dirent, dentry. fold (padded name). f_equal.
  - rewrite get16_le16_app. unfold u16. by apply Z.mod_small.
  - unfold slice. change (drop (Z.to_nat 2) (le16 inum ++ padded name)) with (padded name). apply take_ge.
    unfold padded. rewrite length_take. lia.
Qed.
Lemma cname_padded name : 0 ∉ name -> cname (padded name) = dname name.
Proof.
  intros H0. unfold padded, dname. set (n := Z.to_nat DIRSIZ). destruct (decide (n <= length name)%nat) as [Hle|Hgt].
  - rewrite take_app_le by done. apply cname_id. intros Hin. apply H0. by eapply subseteq_take.
  - rewrite take_app_ge, (take_ge name) by lia. destruct (n - length name)%nat as [|j] eqn:E; [lia|].
    destruct n as [|n']; [lia|]. cbn [replicate take]. by apply cname_app.
Qed.

(** The root directory in entries: the files, and free entries to the end. *)
Definition root_chunks (files : list (list Z * list Z)) (free : nat) : list (list Z) :=
  [dentry 1 [46]; dentry 1 [46; 46]] ++ imap (fun k f => dentry (2 + Z.of_nat k) (fst f)) files ++ replicate free (replicate 16 0).

Lemma root_chunks_length files free : Forall (fun c => length c = 16%nat) (root_chunks files free).
Proof.
  unfold root_chunks. rewrite !Forall_app. split; [|split].
  - repeat constructor; apply dentry_length.
  - apply Forall_lookup. intros k c Hk. rewrite list_lookup_imap in Hk. apply fmap_Some in Hk as (f & _ & ->). apply dentry_length.
  - apply Forall_replicate. apply length_replicate.
Qed.
Lemma join_zeros free : mjoin (replicate free (replicate 16 0)) = replicate (16 * free) 0.
Proof.
  induction free as [|n IH]; [done|].
  transitivity (replicate 16 0 ++ mjoin (replicate n (replicate 16 0))); [done|]. rewrite IH, <- replicate_add. f_equal. lia.
Qed.
Lemma root_chunks_join files free : mjoin (root_chunks files free) = root_bytes files ++ replicate (16 * free) 0.
Proof.
  unfold root_chunks, root_bytes. rewrite join_app, join_app, join_zeros, <- !app_assoc. done.
Qed.

Section Image.
Context (files : list (list Z * list Z)) (m : mkfs) (V : Z -> list Z) (IM : image_ok files m V).
Context (Hnames : Forall (fun f => 0 ∉ fst f) files) (Hn : Z.of_nat (length files) + 2 <= NINODES).

Definition root_dents (free : nat) : list dirent :=
  [mkDirent 1 (padded [46]); mkDirent 1 (padded [46; 46])] ++
  imap (fun k f => mkDirent (2 + Z.of_nat k) (padded (fst f))) files ++ replicate free (mkDirent 0 (replicate 14 0)).

Lemma dents_root : exists free, dents (dir_bytes mksb V 1) = root_dents free.
Proof using IM Hn.
  destruct (im_root _ _ _ IM) as (_ & _ & Hs & zeros & Ec). unfold dir_bytes. rewrite Ec. change NINODES with 200 in Hn.
  assert (Hz : Z.of_nat zeros mod 16 = 0).
  { assert (Hl : Z.of_nat (length (content V (inode_at V 1))) = root_size (Z.of_nat (length files))).
    { unfold content. rewrite bytes_of_length, Hs; [done|]. rewrite Hs. unfold root_size. blocks_lia. }
    rewrite Ec, length_app, length_replicate, Nat2Z.inj_add, root_length in Hl. unfold root_size in Hl. blocks_lia. }
  exists (Z.to_nat (Z.of_nat zeros / 16)). replace zeros with (16 * Z.to_nat (Z.of_nat zeros / 16))%nat at 1 by (Z.to_euclidean_division_equations; lia).
  rewrite <- root_chunks_join, dents_chunks by apply root_chunks_length. unfold root_chunks, root_dents.
  rewrite !fmap_app. apply (f_equal2 app); [|apply (f_equal2 app)].
  - cbn [fmap list_fmap]. by rewrite !decode_dentry.
  - apply list_eq. intros k. rewrite list_lookup_fmap, !list_lookup_imap. destruct (files !! k) as [f|] eqn:Ef; [|done].
    apply lookup_lt_Some in Ef.
    change (Some (decode_dirent (dentry (2 + Z.of_nat k) (fst f))) = Some (mkDirent (2 + Z.of_nat k) (padded (fst f)))).
    by rewrite decode_dentry by lia.
  - by rewrite fmap_replicate.
Qed.

Lemma root_live : live V 1.
Proof using IM.
  destruct (im_root _ _ _ IM) as (Ht & Hl & _). split; [done|]. split.
  - change (d_type (dinode_at V 1)) with (i_type (inode_at V 1)). by rewrite Ht.
  - change (d_nlink (dinode_at V 1)) with (i_nlink (inode_at V 1)). by rewrite Hl.
Qed.
Lemma file_live k name data : files !! k = Some (name, data) -> live V (2 + Z.of_nat k).
Proof using IM.
  intros Hk. pose proof (im_file _ _ _ IM k name data Hk) as [f1 f2 f3 f4 f5 f6]. split; [done|]. split.
  - change (d_type (dinode_at V (2 + Z.of_nat k))) with (i_type (inode_at V (2 + Z.of_nat k))). by rewrite f3.
  - change (d_nlink (dinode_at V (2 + Z.of_nat k))) with (i_nlink (inode_at V (2 + Z.of_nat k))). by rewrite f4.
Qed.

Lemma root_dents_live free de : de ∈ root_dents free -> de_inum de <> 0 -> live V (de_inum de).
Proof using IM.
  unfold root_dents. rewrite !elem_of_app. intros [Hd|[Hd|Hd]] Hnz.
  - rewrite !elem_of_cons, elem_of_nil in Hd. destruct Hd as [->|[->|[]]]; apply root_live.
  - apply list_elem_of_lookup in Hd as (k & Hk). rewrite list_lookup_imap in Hk. apply fmap_Some in Hk as ([name data] & Hk & ->).
    by eapply file_live.
  - apply elem_of_replicate in Hd as [-> _]. done.
Qed.

(** The root is the only directory. *)
Lemma image_dirs : (2 + Z.of_nat (length files)) mod 32 <> 0 ->
  forall d, live V d -> d_type (dinode_at V d) = T_DIR -> dir_ok V d.
Proof using IM Hn.
  intros Hm d (Hd & Hnz & _) Ht. destruct (Z.eq_dec d 1) as [->|Hne].
  - split.
    + by apply (im_whole _ _ _ IM).
    + destruct (im_root _ _ _ IM) as (_ & _ & Hs & _). change (d_size (dinode_at V 1)) with (i_size (inode_at V 1)).
      rewrite Hs. unfold root_size. change sizeof_dirent with 16. blocks_lia.
    + intros de Hde. destruct dents_root as [free E]. rewrite E in Hde. by eapply root_dents_live.
  - exfalso. change (sb_ninodes mksb) with 200 in Hd. destruct (decide (d = 0 \/ 2 + Z.of_nat (length files) <= d)) as [Hf|Hf].
    + rewrite (im_free _ _ _ IM) in Hnz; [done|]. change NINODES with 200. lia.
    + destruct (lookup_lt_is_Some_2 files (Z.to_nat (d - 2))) as [[name data] Hk]; [lia|].
      pose proof (fa_type _ _ _ _ (im_file _ _ _ IM _ _ _ Hk)) as E. replace (2 + Z.of_nat (Z.to_nat (d - 2))) with d in E by lia.
      change (i_type (inode_at V d)) with (d_type (dinode_at V d)) in E. by rewrite Ht in E.
Qed.

Lemma named_padded e inum nm : 0 ∉ nm -> named e (mkDirent inum (padded nm)) = negb (inum =? 0) && bool_decide (dname nm = dname e).
Proof. intros H0. unfold named. cbn [de_inum de_name]. by rewrite cname_padded. Qed.

(** A name that no entry before it has is found. *)
Definition fresh_name (k : nat) (name : list Z) : Prop :=
  dname name <> dname [46] /\ dname name <> dname [46; 46] /\
  forall j f, (j < k)%nat -> files !! j = Some f -> dname (fst f) <> dname name.

Lemma root_find k name data : files !! k = Some (name, data) -> fresh_name k name ->
  dir_find (dir_bytes mksb V 1) name = Some (2 + Z.of_nat k).
Proof using IM Hnames Hn.
  intros Hk (Hd1 & Hd2 & Hj). destruct dents_root as [free E]. unfold dir_find. rewrite E.
  rewrite Forall_lookup in Hnames. pose proof (Hnames _ _ Hk) as H0. cbn in H0. pose proof (lookup_lt_Some _ _ _ Hk) as Hlt.
  assert (Hat : forall j f, files !! j = Some f -> root_dents free !! S (S j) = Some (mkDirent (2 + Z.of_nat j) (padded (fst f)))).
  { intros j f Hf. unfold root_dents. rewrite lookup_app_r by (cbn; lia).
    change (S (S j) - _)%nat with (j - 0)%nat. rewrite Nat.sub_0_r, lookup_app_l by (rewrite length_imap; by eapply lookup_lt_Some).
    by rewrite list_lookup_imap, Hf. }
  assert (find_index (named name) (root_dents free) = Some (S (S k))) as ->; [|cbn [mbind option_bind]; by rewrite (Hat _ _ Hk)].
  apply find_index_Some. exists (mkDirent (2 + Z.of_nat k) (padded name)). split; [by apply (Hat _ _ Hk)|]. split.
  - rewrite named_padded by done. rewrite (proj2 (Z.eqb_neq _ _)) by lia. by rewrite bool_decide_true.
  - intros [|[|j]] de Hlt' Hde.
    + injection Hde as <-. rewrite named_padded by set_solver. by rewrite bool_decide_false, andb_false_r by congruence.
    + injection Hde as <-. rewrite named_padded by set_solver. by rewrite bool_decide_false, andb_false_r by congruence.
    + destruct (lookup_lt_is_Some_2 files j) as [f Hf]; [lia|]. rewrite (Hat _ _ Hf) in Hde. injection Hde as <-.
      rewrite named_padded by (by apply (Hnames _ _ Hf)). rewrite bool_decide_false, andb_false_r; [done|]. apply (Hj j f); [lia|done].
Qed.
End Image.

(** * Booting and reading *)

Lemma elements_one name : slash ∉ name -> name <> [] -> elements (slash :: name) = [name].
Proof.
  intros Hs Hne. rewrite elements_slash. unfold elements.
  assert (E : split_path name = [name]).
  { clear Hne. induction name as [|c name IH]; [done|]. cbn [split_path]. rewrite (proj2 (Z.eqb_neq c slash)) by set_solver.
    by rewrite IH by set_solver. }
  rewrite E. by rewrite filter_cons_True.
Qed.

Lemma fresh_icache pid V : icache_ok pid mksb V None (replicate NINODE inode_zero) /\ in_use (replicate NINODE inode_zero) = 0.
Proof.
  split; [|done]. assert (Hz : forall i ip, replicate NINODE inode_zero !! i = Some ip -> ip = inode_zero).
  { by intros i ip [-> _]%lookup_replicate. }
  split; [done|..].
  - intros i ip ->%Hz. by rewrite decide_False.
  - by intros i ip ->%Hz.
  - intros i ip ->%Hz Hr. cbn in Hr. lia.
  - intros i j ip jp ->%Hz _ Hr. cbn in Hr. lia.
Qed.

Lemma boot_read_file files m V pid s (k : nat) name data n : image_ok files m V -> Forall (fun f => 0 ∉ fst f) files ->
  Z.of_nat (length files) + 2 <= NINODES -> (2 + Z.of_nat (length files)) mod 32 <> 0 ->
  starting pid (m_img m) s -> files !! k = Some (name, data) -> fresh_name files k name -> slash ∉ name -> name <> [] -> 0 <= n < 2 ^ 31 ->
  returns (forkret;;; r <- namei (slash :: name);; i <- deref r;; ilock (Some i);;; readi i 0 n) s
    (fun x _ => x = (Z.of_nat (length (take (Z.to_nat n) data)), take (Z.to_nat n) data)).
Proof.
  intros IM Hnames Hn Hm ST Hk Hf Hs Hne Hr. pose proof (image_dirs files m V IM Hn Hm) as Hdirs.
  tx_step (forkret_boot pid files m V s IM ST) as u s1 Q. destruct Q as [G Hfit FO X]. destruct (fresh_icache pid V) as [OK Hu].
  assert (H0 : 0 ∉ name) by (rewrite Forall_lookup in Hnames; exact (Hnames _ _ Hk)).
  unfold namei. apply returns_assoc. eapply returns_bind.
  { apply (namex_ok pid (m_img m) mksb 2 30 0 (k_ftable s) [] V _ s1 (slash :: name) false name_init 1 G FO X OK Hdirs); try done.
    - by apply (root_live files m).
    - rewrite elem_of_cons. intros [?|?]; done. }
  intros [r nm] s2 (IC & X2 & OK2 & Hw). rewrite elements_one in Hw by done. cbn [walk] in Hw.
  destruct (im_root _ _ _ IM) as (Ht & _). change (i_type (inode_at V 1)) with (d_type (dinode_at V 1)) in Ht. rewrite Ht in Hw.
  change (negb (T_DIR =? T_DIR)) with false in Hw. cbn [andb] in Hw.
  rewrite (root_find files m V IM Hnames Hn k name data Hk Hf) in Hw. cbn [mbind option_bind] in Hw.
  destruct Hw as (i & Er & EN & _). cbn [fst] in Er. subst r. apply returns_ret_bind. cbn [deref]. apply returns_ret_bind.
  destruct (file_live files m V IM k name data Hk) as (_ & Hty & _). pose proof (im_file _ _ _ IM _ _ _ Hk) as FA.
  tx_step (ilock_load pid (m_img m) mksb 2 30 0 (k_ftable s) [] V G IC s2 i (2 + Z.of_nat k) X2 OK2 EN Hty) as v s3 E.
  destruct E as (IC3 & ip & X3 & OK3 & _ & LD). destruct (loaded_inode mksb V IC3 i _ ip LD (fa_inode _ _ _ _ FA)) as (IO & Ec & Es).
  eapply returns_mono.
  { apply (readi_ok (m_img m) mksb 2 30 0 pid (k_ftable s) G [] V IC3 i ip FO (ld_entry _ _ _ _ _ _ LD) IO s3 0 n X3); lia. }
  intros x s4 [-> _]. unfold read_result. pose proof (in_size _ _ _ IO) as Hsz. rewrite u32_id by lia.
  rewrite (proj2 (Z.ltb_ge (i_size ip) 0)), (proj2 (Z.ltb_ge (0 + n) 0)) by lia. cbn [orb]. cbv zeta.
  rewrite Ec, (fa_content _ _ _ _ FA). unfold slice. by rewrite drop_0.
Qed.

(** C4: from [mkfs] to the running kernel.  Whatever files the image was made
    of, a machine that boots from it finds, after the file system code of
    [forkret] has run, each of them in the root directory under its name and
    reads its bytes, for every length of read, provided no earlier file has
    the same first 14 characters and the root directory does not end exactly
    at the end of a block. *)
Theorem boot_read (room : Z -> bool) (creat : list Z -> bool) (open : list Z -> option (list Z)) prog img args :
  (forall n, 0 <= n < FSSIZE -> room (n * BSIZE) = true) -> creat img = true -> Forall (valid open) args ->
  Z.of_nat (length args) + 2 <= NINODES -> nmeta + blocks (tree (argfile open <$> args)) <= FSSIZE ->
  (2 + Z.of_nat (length args)) mod 32 <> 0 ->
  returns (main room creat open (prog :: img :: args)) mkfs_start (fun _ m =>
    forall pid s k arg data n, starting pid (m_img m) s -> args !! k = Some arg -> open arg = Some data ->
      fresh_name (argfile open <$> args) k (skip_underscore arg) -> skip_underscore arg <> [] -> 0 <= n < 2 ^ 31 ->
      returns (forkret;;; r <- namei (slash :: skip_underscore arg);; i <- deref r;; ilock (Some i);;; readi i 0 n) s
        (fun x _ => x = (Z.of_nat (length (take (Z.to_nat n) data)), take (Z.to_nat n) data))).
Proof.
  intros Hroom Hcreat Hv Hn Hfit Hm. eapply returns_mono; [by apply (mkfs_ok room creat open)|].
  intros u m [V IM] pid s k arg data n ST Hk Ho Hf Hne Hr.
  assert (Hk' : (argfile open <$> args) !! k = Some (skip_underscore arg, data)).
  { rewrite list_lookup_fmap, Hk. cbn. unfold argfile. by rewrite Ho. }
  rewrite Forall_lookup in Hv. destruct (Hv _ _ Hk) as (H0 & Hs & _).
  apply (boot_read_file (argfile open <$> args) m V pid s k (skip_underscore arg) data n); rewrite ?length_fmap; try done.
  - apply Forall_fmap, Forall_lookup. intros j a Hj. apply skip_zero. by apply (Hv _ _ Hj).
  - destruct arg as [|c arg]; [done|]. cbn. destruct (c =? 95); set_solver.
Qed.

(** The machine of [Demo], about to boot from a disk. *)
Definition demo_starting (D : list (list Z)) : kstate :=
  demo2 <| k_disk := D |> <| k_bcache := mkBc (replicate NBUF buf_zero) (seq 0 NBUF) |>
    <| k_log := log_zero |> <| k_icache := replicate NINODE inode_zero |> <| k_first := 1 |> <| k_held := [L_ptable] |>.

Lemma demo_starting_ok D : starting 1 D (demo_starting D).
Proof.
  split; try done. split; [done|]. split; [done|]. split; [done|]. split; [|done]. by exists 0%nat, (demo_proc 1 RUNNING None).
Qed.

(** The second of two files, with a read that asks for more than it has. *)
Lemma boot_read_witness :
  returns (main (fun _ => true) (fun _ => true) two_open ([109] :: [105] :: two_args)) mkfs_start (fun _ m =>
    returns (forkret;;; r <- namei [slash; 98];; i <- deref r;; ilock (Some i);;; readi i 0 100) (demo_starting (m_img m))
      (fun x _ => x = (2, [104; 105]))).
Proof.
  eapply returns_mono.
  - apply (boot_read (fun _ => true) (fun _ => true) two_open [109] [105] two_args); [done|done|apply two_valid|by vm_compute..].
  - intros u m H. apply (H 1 (demo_starting (m_img m)) 1%nat [98] [104; 105] 100); try done; [apply demo_starting_ok|].
    split; [done|]. split; [done|]. intros j f Hj. destruct j as [|j]; [|lia]. by intros [= <-].
Defined.

(** The path [//b/x] on the booted machine: [nameiparent] ends at the file
    [b], which is not a directory, and finds nothing. *)
Lemma namex_spec_witness :
  returns (main (fun _ => true) (fun _ => true) two_open ([109] :: [105] :: two_args)) mkfs_start (fun _ m =>
    exists V, returns forkret (demo_starting (m_img m)) (fun _ s => returns (namex [slash; slash; 98; slash; 120] true name_init) s
      (found_at 1 (m_img m) mksb 2 30 0 (k_ftable demo2) [] V true (replicate NINODE inode_zero)
         (walk mksb V true 1 [[98]; [120]]) (Some [120])))).
Proof.
  eapply returns_mono; [apply (mkfs_ok (fun _ => true) (fun _ => true) two_open [109] [105] two_args); [done|done|apply two_valid|by vm_compute..]|].
  intros u m [V IM]. exists V. eapply returns_mono; [apply (forkret_boot 1 _ m V _ IM), demo_starting_ok|].
  intros u1 s [G Hfit FO X]. destruct (fresh_icache 1 V) as [OK Hu].
  apply (namex_spec 1 (m_img m) mksb 2 30 0 (k_ftable demo2) [] V _ s [slash; slash; 98; slash; 120] true name_init 1 G FO X OK); try done.
  - by apply (image_dirs _ m V IM).
  - by apply (root_live _ m V IM).
  - apply (bool_decide_unpack _). by vm_compute.
Defined.
