(* ===== verification/FsHole.v ===== *)
(** An image whose root directory ends at the end of a block.  [mkfs] rounds
    the size of the root directory up to a whole number of blocks, always to
    the next one; when the entries fill their last block exactly the new size
    includes a block that the directory does not have.  The kernel allocates
    such a block when it reads it, which outside a transaction is a panic. *)
From stdpp Require Import functions.
From S2P Require Import Prelude Kstate Demo Mem MemSpec Sched ProcSpec Sleeplock Bio BioSpec Log LogSpec LogOps Inode Dir Proc FsTx FsBlock FsMap FsFile FsInode FsSpec FsOp FsSys FsCache FsPath Mkfs MkfsSpec MkfsImage MkfsMain FsBoot FsImage.

#[local] Abbreviation inode_at := (inode_at mksb).

Lemma namei_root pid D sb lstart lsize outs FT bs V IC s :
  tx pid D sb lstart lsize outs FT [] bs V IC s -> icache_ok pid sb V None IC -> FsPath.live sb V ROOTINO -> in_use IC < Z.of_nat NINODE ->
  returns (namei [slash]) s (fun r s' => exists i IC', r = Some i /\ tx pid D sb lstart lsize outs FT [] bs V IC' s' /\
    icache_ok pid sb V None IC' /\ entry IC' i ROOTINO).
Proof.
  intros X OK Hl Hu. unfold namei, namex. apply returns_assoc.
  tx_step (namex_start pid D sb lstart lsize outs FT bs V IC s [slash] ROOTINO X OK) as r s1 E.
  destruct E as (i & IC1 & -> & X1 & OK1 & EN & _). apply returns_ret. by exists i, IC1.
Qed.

(** Reading at a hole of a file, with no transaction open. *)
Lemma readi_hole pid D sb lstart lsize FT V IC s i ip off n :
  layout D sb lstart lsize -> rooms sb lsize [] 2 -> tx pid D sb lstart lsize 0 FT [] [] V IC s -> IC !! i = Some ip ->
  (0 < nfree sb V)%nat -> i_dev ip = 1 -> i_type ip <> T_DEV -> 0 <= off < i_size ip -> 0 < n -> off + n < 2 ^ 31 -> i_size ip < 2 ^ 31 ->
  off / BSIZE < NDIRECT -> addr_at ip (off / BSIZE) = 0 ->
  readi i off n s = Panic "log_write outside of trans".
Proof.
  intros G Hls X Hi Hf Hdev Hty Hoff Hn Hw Hsz Hd Ha. unfold readi.
  panic_step (tx_get_inode pid D sb lstart lsize 0 FT [] [] V IC s X i ip) as x s0 E. destruct E as [-> ->].
  rewrite (proj2 (Z.eqb_neq _ _)) by done. rewrite !u32_id by lia.
  rewrite (proj2 (Z.ltb_ge (i_size ip) off)), (proj2 (Z.ltb_ge (off + n) off)) by lia. cbn [orb]. cbv zeta.
  set (n' := if i_size ip <? off + n then i_size ip - off else n).
  assert (Hn' : 0 < n') by (unfold n'; destruct (Z.ltb_spec (i_size ip) (off + n)); lia).
  unfold io_fuel. rewrite Nat.add_comm. cbn [Nat.add loop]. rewrite (proj2 (Z.ltb_lt 0 n')) by done.
  do 2 eapply panics_first. unfold bmap.
  panic_step (tx_get_inode pid D sb lstart lsize 0 FT [] [] V IC s X i ip) as x s1 E. destruct E as [-> ->].
  rewrite (proj2 (Z.ltb_lt _ _)) by done. cbv zeta. rewrite Ha, Hdev, Z.eqb_refl. apply panics_first.
  eapply (balloc_outside pid D sb lstart lsize 0 FT G [] [] V IC s X); [by left|done|lia|done].
Qed.

Lemma rooms_small : rooms mksb 30 [] 2.
Proof. by vm_compute. Qed.

Lemma boot_hole_file files m V pid s off n : image_ok files m V -> Z.of_nat (length files) + 2 <= NINODES ->
  (2 + Z.of_nat (length files)) mod 32 = 0 -> m_freeblock m < FSSIZE -> starting pid (m_img m) s ->
  16 * (2 + Z.of_nat (length files)) <= off < root_size (Z.of_nat (length files)) -> 0 < n < 2 ^ 20 ->
  (forkret;;; r <- namei [slash];; i <- deref r;; ilock (Some i);;; readi i off n) s = Panic "log_write outside of trans".
Proof.
  intros IM Hn Hm Hfb ST Hoff Hr. panic_step (forkret_boot pid files m V s IM ST) as u s1 Q. destruct Q as [G Hfit FO X].
  destruct (fresh_icache pid V) as [OK Hu]. pose proof (root_live files m V IM) as Hl.
  panic_step (namei_root pid (m_img m) mksb 2 30 0 (k_ftable s) [] V _ s1 X OK Hl) as r s2 E.
  destruct E as (i & IC & -> & X2 & OK2 & EN). cbn [deref]. unfold bind at 1. cbn [ret].
  panic_step (ilock_load pid (m_img m) mksb 2 30 0 (k_ftable s) [] V G IC s2 i ROOTINO X2 OK2 EN) as v s3 E; [apply Hl|].
  destruct E as (IC3 & ip & X3 & OK3 & _ & LD). destruct (im_root _ _ _ IM) as (Ht & _ & Hs & _). pose proof (im_hole _ _ _ IM Hm) as Hh.
  assert (Es : i_size ip = root_size (Z.of_nat (length files))) by (rewrite <- Hs; exact (f_equal d_size (ld_dinode _ _ _ _ _ _ LD))).
  assert (Ea : i_addrs ip = i_addrs (inode_at V 1)) by exact (f_equal d_addrs (ld_dinode _ _ _ _ _ _ LD)).
  assert (Et : i_type ip = T_DIR) by (rewrite <- Ht; exact (f_equal d_type (ld_dinode _ _ _ _ _ _ LD))).
  unfold root_size in *. rewrite Hs in Hh. change BSIZE with 512 in *. change NINODES with 200 in Hn.
  assert (Eo : off / 512 = 16 * (2 + Z.of_nat (length files)) / 512) by (Z.to_euclidean_division_equations; lia).
  assert (Hd : off / 512 < 12) by (rewrite Eo; Z.to_euclidean_division_equations; lia).
  apply (readi_hole pid (m_img m) mksb 2 30 (k_ftable s) V IC3 s3 i ip off n G (rooms_small)); [exact X3|apply LD| |apply LD|rewrite Et|..].
  - apply (proj2 (nfree_pos (m_img m) mksb 2 30 G V)). exists 999. split; [done|]. rewrite (im_used _ _ _ IM) by done. apply Z.ltb_ge. change FSSIZE with 1000 in Hfb. lia.
  - done.
  - rewrite Es. split; lia.
  - lia.
  - Z.to_euclidean_division_equations. lia.
  - rewrite Es. Z.to_euclidean_division_equations. lia.
  - exact Hd.
  - change BSIZE with 512. rewrite Z.div_mul, Z.add_simpl_r in Hh by done. rewrite <- Eo in Hh. unfold faddr in Hh.
    rewrite (proj2 (Z.ltb_lt _ _)) in Hh by done. unfold addr_at. rewrite Ea. exact Hh.
Qed.

(** C7: when the entries of the root directory fill their blocks exactly, as
    with thirty files on the command line, reading the directory to its end
    as [ls] does panics: the last block of the size that [mkfs] gave it does
    not exist, [bmap] allocates it, and [fileread] has no transaction open. *)
Theorem boot_hole (room : Z -> bool) (creat : list Z -> bool) (open : list Z -> option (list Z)) prog img args :
  (forall n, 0 <= n < FSSIZE -> room (n * BSIZE) = true) -> creat img = true -> Forall (valid open) args ->
  Z.of_nat (length args) + 2 <= NINODES -> nmeta + blocks (tree (argfile open <$> args)) < FSSIZE ->
  (2 + Z.of_nat (length args)) mod 32 = 0 ->
  returns (main room creat open (prog :: img :: args)) mkfs_start (fun _ m =>
    forall pid s off n, starting pid (m_img m) s ->
      16 * (2 + Z.of_nat (length args)) <= off < root_size (Z.of_nat (length args)) -> 0 < n < 2 ^ 20 ->
      (forkret;;; r <- namei [slash];; i <- deref r;; ilock (Some i);;; readi i off n) s = Panic "log_write outside of trans").
Proof.
  intros Hroom Hcreat Hv Hn Hfit Hm. eapply returns_mono; [apply (mkfs_ok room creat open); try done; lia|].
  intros u m [V IM] pid s off n ST Hoff Hr. pose proof (im_blocks _ _ _ IM).
  apply (boot_hole_file (argfile open <$> args) m V pid); rewrite ?length_fmap; try done. lia.
Qed.

(** Thirty files, and the read of sixteen bytes with which [ls] goes past the
    last of them. *)
Lemma boot_hole_witness :
  returns (main (fun _ => true) (fun _ => true) two_open ([109] :: [105] :: replicate 30 [98])) mkfs_start (fun _ m =>
    (forkret;;; r <- namei [slash];; i <- deref r;; ilock (Some i);;; readi i 512 16) (demo_starting (m_img m))
    = Panic "log_write outside of trans").
Proof.
  eapply returns_mono.
  - apply (boot_hole (fun _ => true) (fun _ => true) two_open [109] [105] (replicate 30 [98])); [done|done| |by vm_compute..].
    apply Forall_replicate, (Forall_inv (Forall_inv_tail two_valid)).
  - intros u m H. apply (H 1 (demo_starting (m_img m)) 512 16); [apply demo_starting_ok|by vm_compute|done].
Defined.
