(* ===== verification/ConsoleSpec.v ===== *)
(** Console input.  The ring buffer of [console.c] stands for the characters
    that readers may take and the line that is being typed; [consoleintr] is a
    line editor on them, and [consoleread] takes lines from the front. *)
From S2P Require Import Prelude Kstate Demo MemSpec Cprintf Sched ProcSpec Sleeplock Bio Log Inode Console.

Definition EOF : Z := C_key 68.
Definition newline : Z := 10.

(** * The ring buffer *)

(** The input holds [ready], from the read to the write index, and [line],
    from there to the edit index. *)
Record typed (ready line : list Z) (inp : input) : Prop := mkTyped {
  ty_buf : length (in_buf inp) = Z.to_nat INPUT_BUF;
  ty_r : 0 <= in_r inp < 2 ^ 32;
  ty_w : in_w inp = u32 (in_r inp + Z.of_nat (length ready));
  ty_e : in_e inp = u32 (in_r inp + Z.of_nat (length (ready ++ line)));
  ty_len : (length (ready ++ line) <= Z.to_nat INPUT_BUF)%nat;
  ty_at : forall k c, (ready ++ line) !! k = Some c -> in_buf inp !! Z.to_nat ((in_r inp + Z.of_nat k) mod INPUT_BUF) = Some c;
}.

(** * The line editor *)

(** The character [c] typed, when [ready] and [line] are in the buffer. *)
Definition edit (c : Z) (st : list Z * list Z) : list Z * list Z :=
  let '(ready, line) := st in
  if c =? C_key 80 then st
  else if c =? C_key 85 then (ready, [])
  else if (c =? C_key 72) || (c =? 0x7f) then (ready, take (length line - 1) line)
  else if (c =? 0) || (INPUT_BUF <=? Z.of_nat (length (ready ++ line))) then st
  else
    let c := if c =? 13 then newline else c in
    let line := line ++ [c] in
    if (c =? newline) || (c =? EOF) || (Z.of_nat (length (ready ++ line)) =? INPUT_BUF) then (ready ++ line, []) else (ready, line).

(** What is echoed. *)
Definition echo (c : Z) (st : list Z * list Z) : list Z :=
  let '(ready, line) := st in
  if c =? C_key 80 then []
  else if c =? C_key 85 then replicate (length line) BACKSPACE
  else if (c =? C_key 72) || (c =? 0x7f) then match line with [] => [] | _ => [BACKSPACE] end
  else if (c =? 0) || (INPUT_BUF <=? Z.of_nat (length (ready ++ line))) then []
  else [if c =? 13 then newline else c].

Lemma u32_mod v : u32 v mod INPUT_BUF = v mod INPUT_BUF.
Proof. unfold u32. change INPUT_BUF with 128. Z.to_euclidean_division_equations. lia. Qed.
Lemma u32_add v w : u32 (u32 v + w) = u32 (v + w).
Proof. unfold u32. rewrite Z.add_mod_idemp_l by done. done. Qed.

Lemma u32_back v : 0 <= v < 2 ^ 32 -> u32 (u32 (v + 1) - 1) = v.
Proof. intros Hv. unfold u32. Z.to_euclidean_division_equations. lia. Qed.

Lemma typed_empty ready line inp : typed ready line inp -> (in_e inp =? in_w inp) = bool_decide (line = []).
Proof.
  intros [Hb Hr Hw He Hl _]. rewrite He, Hw, length_app in *. change (Z.to_nat INPUT_BUF) with 128%nat in Hl.
  destruct line as [|c line].
  - rewrite Nat.add_0_r, Z.eqb_refl. done.
  - cbn [length] in *. rewrite bool_decide_false by done. apply Z.eqb_neq. unfold u32. Z.to_euclidean_division_equations. lia.
Qed.
Lemma typed_used ready line inp : typed ready line inp -> u32 (in_e inp - in_r inp) = Z.of_nat (length (ready ++ line)).
Proof.
  intros [Hb Hr Hw He Hl _]. rewrite He. change (Z.to_nat INPUT_BUF) with 128%nat in Hl. unfold u32. Z.to_euclidean_division_equations. lia.
Qed.
Lemma typed_last ready line c inp : typed ready (line ++ [c]) inp -> in_at inp (in_e inp - 1) = c.
Proof.
  intros [Hb Hr Hw He Hl Ha]. unfold in_at. rewrite u32_mod, He.
  assert (E : (u32 (in_r inp + Z.of_nat (length (ready ++ line ++ [c]))) - 1) mod INPUT_BUF = (in_r inp + Z.of_nat (length (ready ++ line))) mod INPUT_BUF).
  { rewrite !length_app. cbn [length]. unfold u32. change INPUT_BUF with 128. Z.to_euclidean_division_equations. lia. }
  rewrite E, (Ha _ c); [done|]. by rewrite app_assoc, list_lookup_middle.
Qed.

Lemma typed_backspace ready line c inp : typed ready (line ++ [c]) inp -> typed ready line (inp <| in_e ::= fun e => u32 (e - 1) |>).
Proof.
  intros [Hb Hr Hw He Hl Ha]. split; try done.
  - change (u32 (in_e inp - 1) = u32 (in_r inp + Z.of_nat (length (ready ++ line)))). rewrite He, !length_app. cbn [length].
    unfold u32. Z.to_euclidean_division_equations. lia.
  - rewrite !length_app in *. cbn [length] in Hl. lia.
  - intros k d Hk. apply (Ha k d). rewrite app_assoc. by apply lookup_app_l_Some.
Qed.

Lemma typed_put ready line c inp : typed ready line inp -> Z.of_nat (length (ready ++ line)) < INPUT_BUF ->
  typed ready (line ++ [c]) (inp <| in_buf ::= <[Z.to_nat (in_e inp mod INPUT_BUF) := c]> |> <| in_e ::= fun e => u32 (e + 1) |>).
Proof.
  intros [Hb Hr Hw He Hl Ha] Hlt. change INPUT_BUF with 128 in *. change (Z.to_nat 128) with 128%nat in *.
  assert (Em : in_e inp mod 128 = (in_r inp + Z.of_nat (length (ready ++ line))) mod 128) by (rewrite He; apply u32_mod).
  split; try done.
  - change (length (<[Z.to_nat (in_e inp mod 128) := c]> (in_buf inp)) = 128%nat). by rewrite length_insert.
  - change (u32 (in_e inp + 1) = u32 (in_r inp + Z.of_nat (length (ready ++ line ++ [c])))). rewrite He, u32_add, !length_app. cbn [length]. f_equal. lia.
  - rewrite app_assoc, length_app. cbn [length]. change (Z.to_nat INPUT_BUF) with 128%nat. lia.
  - intros k d Hk. change (<[Z.to_nat (in_e inp mod 128) := c]> (in_buf inp) !! Z.to_nat ((in_r inp + Z.of_nat k) mod 128) = Some d).
    rewrite app_assoc in Hk. assert (Hk' : (k < length (ready ++ line) + 1)%nat) by (apply lookup_lt_Some in Hk; rewrite length_app in Hk; cbn in Hk; lia).
    destruct (decide (k = length (ready ++ line))) as [->|Hne].
    + rewrite list_lookup_middle in Hk by done. injection Hk as <-. rewrite <- Em. apply list_lookup_insert_eq. rewrite Hb.
      pose proof (Z.mod_pos_bound (in_e inp) 128). lia.
    + rewrite lookup_app_l in Hk by lia. rewrite list_lookup_insert_ne; [by apply Ha|]. rewrite Em.
      Z.to_euclidean_division_equations. lia.
Qed.

Lemma typed_commit ready line inp : typed ready line inp -> typed (ready ++ line) [] (inp <| in_w := in_e inp |>).
Proof. intros [Hb Hr Hw He Hl Ha]. split; rewrite ?app_nil_r; done. Qed.

Lemma typed_take c ready line inp : typed (c :: ready) line inp ->
  in_at inp (in_r inp) = c /\ typed ready line (inp <| in_r ::= fun r => u32 (r + 1) |>).
Proof.
  intros [Hb Hr Hw He Hl Ha]. split.
  { unfold in_at. rewrite u32_mod. assert (E := Ha 0%nat c eq_refl). rewrite Z.add_0_r in E. by rewrite E. }
  split; try done.
  - change (0 <= u32 (in_r inp + 1) < 2 ^ 32). unfold u32. apply Z.mod_pos_bound. done.
  - change (in_w inp = u32 (u32 (in_r inp + 1) + Z.of_nat (length ready))). rewrite u32_add, Hw. f_equal. cbn [length]. lia.
  - change (in_e inp = u32 (u32 (in_r inp + 1) + Z.of_nat (length (ready ++ line)))). rewrite u32_add, He. f_equal. cbn [length app]. lia.
  - cbn [app length] in Hl. lia.
  - intros k d Hk. change (in_buf inp !! Z.to_nat ((u32 (in_r inp + 1) + Z.of_nat k) mod INPUT_BUF) = Some d).
    rewrite <- (Ha (S k) d Hk). do 2 f_equal. rewrite Z.add_mod, u32_mod, <- Z.add_mod by done. f_equal. lia.
Qed.

(** * consoleintr *)

(** The state with another input, with [out] echoed. *)
Definition echoed (inp : input) (out : list Z) (s : kstate) : kstate := s <| k_input := inp |> <| k_out ::= fun o => o ++ out |>.

Lemma echoed_echoed inp inp' o o' s : echoed inp' o' (echoed inp o s) = echoed inp' (o ++ o') s.
Proof.
  change (s <| k_input := inp' |> <| k_out := (k_out s ++ o) ++ o' |> = s <| k_input := inp' |> <| k_out := k_out s ++ (o ++ o') |>).
  by rewrite app_assoc.
Qed.
Lemma echoed_nil s : echoed (k_input s) [] s = s.
Proof. change (s <| k_out := k_out s ++ [] |> = s). rewrite app_nil_r. by destruct s. Qed.

Lemma rubout_run s : (upd_input (fun i => i <| in_e ::= fun e => u32 (e - 1) |>);;; emit [BACKSPACE]) s =
  Ret tt (echoed ((k_input s) <| in_e ::= fun e => u32 (e - 1) |>) [BACKSPACE] s).
Proof. done. Qed.

Lemma kill_line_ok ready line s : typed ready line (k_input s) -> newline ∉ line ->
  returns kill_line s (fun _ s' => exists inp, s' = echoed inp (replicate (length line) BACKSPACE) s /\ typed ready [] inp).
Proof.
  intros T Hnl. unfold kill_line. eapply returns_bind; [apply returns_gets|]. intros i0 s0 [-> ->].
  assert (Hfuel : (length line < Z.to_nat (u32 (in_e (k_input s) - in_w (k_input s))) + 1)%nat).
  { destruct T as [_ Hr Hw He Hl _]. rewrite He, Hw, length_app in *. change (Z.to_nat INPUT_BUF) with 128%nat in Hl.
    unfold u32. Z.to_euclidean_division_equations. lia. }
  revert Hfuel. generalize (Z.to_nat (u32 (in_e (k_input s) - in_w (k_input s))) + 1)%nat as n. revert s T.
  induction line as [|c line IH] using rev_ind; intros s T n Hn; (destruct n as [|n]; [lia|]); cbn [loop]; apply returns_assoc;
    (eapply returns_bind; [apply returns_gets|]); intros i0 s0 [-> ->]; rewrite (typed_empty _ _ _ T).
  - rewrite bool_decide_true by done. cbn [negb andb]. apply returns_ret_bind. apply returns_ret. exists (k_input s). by rewrite echoed_nil.
  - rewrite bool_decide_false by (by destruct line). rewrite (typed_last _ _ _ _ T). rewrite (proj2 (Z.eqb_neq c 10)) by (intros ->; set_solver). cbn [negb andb].
    pose proof (typed_backspace _ _ _ _ T) as T'. set (s1 := echoed ((k_input s) <| in_e ::= fun e => u32 (e - 1) |>) [BACKSPACE] s).
    apply (returns_mono _ _ (fun _ s' => exists inp, s' = echoed inp (replicate (length line) BACKSPACE) s1 /\ typed ready [] inp)).
    + rewrite length_app in Hn. cbn in Hn. apply (IH ltac:(set_solver) s1 T' n). lia.
    + intros u s' (inp & -> & Ti). exists inp. split; [|done]. unfold s1. rewrite echoed_echoed, length_app, replicate_add. cbn [length replicate].
      f_equal. by rewrite <- replicate_cons_app.
Qed.

(** [s'] is [s] after typing that turned [st] into [st'] with [out] echoed:
    the readers are woken when there is more to read. *)
Definition typing (st st' : list Z * list Z) (out : list Z) (s s' : kstate) : Prop :=
  exists inp, s' = (echoed inp out s) <| k_procs := if decide (fst st' = fst st) then k_procs s else wake (Some C_input) <$> k_procs s |> /\
    typed (fst st') (snd st') inp /\ newline ∉ snd st'.

Lemma typing_same ready line inp out s : typed ready line inp -> newline ∉ line -> forall line0,
  typing (ready, line0) (ready, line) out s (echoed inp out s).
Proof. intros T Hn line0. exists inp. split; [|done]. cbn [fst]. by rewrite decide_True. Qed.

Lemma typed_full ready line inp : typed ready line inp ->
  (in_e inp =? u32 (in_r inp + INPUT_BUF)) = (Z.of_nat (length (ready ++ line)) =? INPUT_BUF).
Proof.
  intros [Hb Hr Hw He Hl _]. rewrite He. change (Z.to_nat INPUT_BUF) with 128%nat in Hl. change INPUT_BUF with 128.
  apply eq_bool_prop_intro. rewrite !Is_true_true, !Z.eqb_eq. unfold u32. Z.to_euclidean_division_equations. lia.
Qed.

(** A character that is accepted. *)
Lemma accept_ok c ready line s : typed ready line (k_input s) -> newline ∉ line -> L_ptable ∉ k_held s ->
  Z.of_nat (length (ready ++ line)) < INPUT_BUF ->
  returns (upd_input (fun i => i <| in_buf ::= <[Z.to_nat (in_e i mod INPUT_BUF) := c]> |> <| in_e ::= fun e => u32 (e + 1) |>);;;
       emit [c];;;
       inp <- gets k_input;;
       whenM ((c =? 10) || (c =? C_key 68) || (in_e inp =? u32 (in_r inp + INPUT_BUF)))
         (upd_input (fun i => i <| in_w := in_e i |>);;; wakeup C_input)) s
    (fun _ s' => typing (ready, line)
       (if (c =? newline) || (c =? EOF) || (Z.of_nat (length (ready ++ line ++ [c])) =? INPUT_BUF) then (ready ++ line ++ [c], []) else (ready, line ++ [c])) [c] s s').
Proof.
  intros T Hn Hh Hlt. pose proof (typed_put ready line c _ T Hlt) as T'. set (inp := (k_input s) <| in_buf ::= _ |> <| in_e ::= _ |>) in T'.
  eapply returns_bind; [apply returns_modify|]. intros [] s1 ->. eapply returns_bind; [apply returns_modify|]. intros [] s1 ->.
  eapply returns_bind; [apply returns_gets|]. intros i1 s1 [-> ->].
  set (s1 := echoed inp [c] s). change (_ <| k_out ::= _ |>) with s1. change (k_input s1) with inp. rewrite (typed_full _ _ _ T').
  change newline with 10 in *. change EOF with (C_key 68). destruct ((c =? 10) || (c =? C_key 68) || _) eqn:E; cbn [whenM].
  - pose proof (typed_commit _ _ _ T') as TC. eapply returns_bind; [apply returns_modify|]. intros [] s2 ->.
    eexists _, _. split; [by apply wakeup_ok|]. exists (inp <| in_w := in_e inp |>). split; [|split; [done|apply not_elem_of_nil]].
    cbn [fst]. rewrite decide_False; [done|]. intros Hl%(f_equal length). rewrite !length_app in Hl. cbn in Hl. lia.
  - apply returns_ret. apply typing_same; [done|]. apply orb_false_iff in E as [[E _]%orb_false_iff _]. apply Z.eqb_neq in E. set_solver.
Qed.

Lemma consoleintr_char_ok c ready line s : typed ready line (k_input s) -> newline ∉ line -> L_ptable ∉ k_held s ->
  returns (consoleintr_char c) s (fun d s' => d = (c =? C_key 80) /\ typing (ready, line) (edit c (ready, line)) (echo c (ready, line)) s s').
Proof.
  intros T Hn Hh. unfold consoleintr_char, edit, echo. destruct (Z.eqb_spec c (C_key 80)) as [->|Hp].
  { apply returns_ret. split; [done|]. rewrite <- (echoed_nil s) at 2. by apply typing_same. }
  destruct (Z.eqb_spec c (C_key 85)) as [->|Hu].
  { tx_step (kill_line_ok ready line s T Hn) as u s1 E. destruct E as (inp & -> & T1). apply returns_ret. split; [done|].
    apply typing_same; [done|apply not_elem_of_nil]. }
  destruct ((c =? C_key 72) || (c =? 0x7f)) eqn:Eh.
  { eapply returns_bind; [apply returns_gets|]. intros i0 s0 [-> ->]. rewrite (typed_empty _ _ _ T). destruct line as [|x line _] using rev_ind.
    - rewrite bool_decide_true by done. cbn [negb whenM]. apply returns_ret_bind, returns_ret. split; [done|].
      rewrite <- (echoed_nil s) at 2. by apply typing_same.
    - rewrite bool_decide_false by (by destruct line). cbn [negb whenM]. apply returns_assoc. eexists _, _. split; [done|]. split; [done|].
      rewrite length_app, Nat.add_sub, take_app_length. pose proof (typed_backspace _ _ _ _ T) as T'.
      replace (match line ++ [x] with [] => [] | _ => [BACKSPACE] end) with [BACKSPACE] by (by destruct line).
      apply typing_same; [done|set_solver]. }
  eapply returns_bind; [apply returns_gets|]. intros i0 s0 [-> ->]. rewrite (typed_used _ _ _ T).
  assert (Ec : ctrue c && (Z.of_nat (length (ready ++ line)) <? INPUT_BUF) = negb ((c =? 0) || (INPUT_BUF <=? Z.of_nat (length (ready ++ line))))).
  { unfold ctrue. rewrite negb_orb, Z.leb_antisym. f_equal. by rewrite negb_involutive. }
  rewrite Ec. destruct ((c =? 0) || (INPUT_BUF <=? Z.of_nat (length (ready ++ line)))) eqn:Ef; cbn [negb whenM].
  { apply returns_ret_bind, returns_ret. split; [done|]. rewrite <- (echoed_nil s) at 2. by apply typing_same. }
  apply orb_false_iff in Ef as [_ Hlt%Z.leb_gt]. cbv zeta. set (c' := if c =? 13 then newline else c).
  tx_step (accept_ok c' ready line s T Hn Hh Hlt) as u s1 E. apply returns_ret. by split.
Qed.

(** A sequence of characters. *)
Fixpoint edits (cs : list Z) (st : list Z * list Z) : list Z * list Z :=
  match cs with [] => st | c :: cs => edits cs (edit c st) end.
Fixpoint echoes (cs : list Z) (st : list Z * list Z) : list Z :=
  match cs with [] => [] | c :: cs => echo c st ++ echoes cs (edit c st) end.

Lemma edit_ready c st : fst st `prefix_of` fst (edit c st).
Proof.
  destruct st as [ready line]. unfold edit. cbn [fst].
  repeat (match goal with |- context [if ?b then _ else _] => destruct b end); cbn [fst]; try done; by apply prefix_app_r.
Qed.
Lemma edits_ready cs : forall st, fst st `prefix_of` fst (edits cs st).
Proof. induction cs as [|c cs IH]; intros st; [done|]. cbn. trans (fst (edit c st)); [apply edit_ready|apply IH]. Qed.

Lemma typing_trans st st1 st2 o o' s s1 s2 : typing st st1 o s s1 -> typing st1 st2 o' s1 s2 ->
  fst st `prefix_of` fst st1 -> fst st1 `prefix_of` fst st2 -> typing st st2 (o ++ o') s s2.
Proof.
  intros (i1 & -> & T1 & N1) (i2 & -> & T2 & N2) P1 P2. exists i2. split; [|done].
  set (ps1 := if decide (fst st1 = fst st) then k_procs s else wake (Some C_input) <$> k_procs s).
  change ((s <| k_input := i2 |> <| k_out := (k_out s ++ o) ++ o' |> <| k_procs := if decide (fst st2 = fst st1) then ps1 else wake (Some C_input) <$> ps1 |>) =
          s <| k_input := i2 |> <| k_out := k_out s ++ (o ++ o') |> <| k_procs := if decide (fst st2 = fst st) then k_procs s else wake (Some C_input) <$> k_procs s |>).
  assert (EP : (if decide (fst st2 = fst st1) then ps1 else wake (Some C_input) <$> ps1) =
               if decide (fst st2 = fst st) then k_procs s else wake (Some C_input) <$> k_procs s); [|by rewrite EP, app_assoc].
  unfold ps1. clear ps1. destruct (decide (fst st1 = fst st)) as [E1|E1].
  - by rewrite E1.
  - rewrite (decide_False (P := fst st2 = fst st)) by (intros E2; rewrite E2 in P2; apply E1; by apply (anti_symm prefix)).
    destruct (decide (fst st2 = fst st1)); [done|]. rewrite <- list_fmap_compose. apply list_fmap_ext. intros j p _. apply wake_wake.
Qed.

Lemma consoleintr_loop_ok cs : forall d st s, typed (fst st) (snd st) (k_input s) -> newline ∉ snd st -> L_ptable ∉ k_held s ->
  returns (consoleintr_loop cs d) s (fun r s' => r = d || existsb (Z.eqb (C_key 80)) cs /\ typing st (edits cs st) (echoes cs st) s s').
Proof.
  induction cs as [|c cs IH]; intros d [ready line] s T Hn Hh; cbn [consoleintr_loop].
  - apply returns_ret. cbn [existsb]. rewrite orb_false_r. split; [done|]. rewrite <- (echoed_nil s) at 2. by apply typing_same.
  - tx_step (consoleintr_char_ok c ready line s T Hn Hh) as r s1 E. destruct E as [-> HT]. pose proof HT as (inp & Es & T1 & N1).
    eapply returns_mono; [apply (IH _ (edit c (ready, line)) s1); rewrite ?Es; done|]. intros r s2 [-> HT2]. split.
    + cbn [existsb]. rewrite orb_assoc. do 2 f_equal. apply Z.eqb_sym.
    + cbn [edits echoes]. apply (typing_trans _ (edit c (ready, line)) _ _ _ _ s1); [done|done|apply edit_ready|apply edits_ready].
Qed.

Lemma consoleintr_ok cs ready line s : typed ready line (k_input s) -> newline ∉ line -> k_held s = [] ->
  returns (consoleintr cs) s (fun d s' => d = existsb (Z.eqb (C_key 80)) cs /\
    typing (ready, line) (edits cs (ready, line)) (echoes cs (ready, line)) s s').
Proof.
  intros T Hn Hh. unfold consoleintr. set (s1 := s <| k_held := [L_cons] |>).
  assert (E1 : acquire L_cons s = Ret tt s1) by (rewrite acquire_ok; rewrite Hh; [done|set_solver]).
  apply (returns_run _ _ _ _ _ _ E1).
  tx_step (consoleintr_loop_ok cs false (ready, line) s1 T Hn) as r s2 E; [set_solver|]. destruct E as [-> (inp & -> & T2 & N2)].
  set (s2 := _ <| k_procs := _ |>). assert (E2 : release L_cons s2 = Ret tt (s2 <| k_held := [] |>)) by (apply release_ok; [done|set_solver]).
  apply (returns_run _ _ _ _ _ _ E2). apply returns_ret. split; [done|]. exists inp. split; [|done].
  change (s <| k_held := [] |> <| k_input := inp |> <| k_out := k_out s ++ echoes cs (ready, line) |> <| k_procs := k_procs s2 |> = (echoed inp (echoes cs (ready, line)) s) <| k_procs := k_procs s2 |>).
  rewrite <- Hh, held_id. done.
Qed.

(** C23: [consoleintr] is a line editor.  Whatever characters arrive, the
    buffer, whose indices may wrap around, holds what the editor makes of
    them: Control-U deletes the line, backspace its last character, a full
    buffer ignores more, and a line is handed to the readers, who are woken,
    when it ends in a newline or an end of file or fills the buffer; what is
    shown is the editing of the line, and Control-P alone asks for a listing. *)
Theorem consoleintr_spec cs ready line s : typed ready line (k_input s) -> newline ∉ line -> k_held s = [] ->
  returns (consoleintr cs) s (fun d s' => d = existsb (Z.eqb (C_key 80)) cs /\
    typing (ready, line) (edits cs (ready, line)) (echoes cs (ready, line)) s s').
Proof. apply consoleintr_ok. Qed.

(** * consoleread *)

(** Reading at most [n] of the characters that are [ready]: those read, those
    left, and whether the read is over.  An end of file is consumed only by a
    read that got nothing before it, as [fresh] says. *)
Fixpoint read_line (n : nat) (fresh : bool) (ready : list Z) : list Z * list Z * bool :=
  match n, ready with
  | O, _ => ([], ready, true)
  | S _, [] => ([], [], false)
  | S n, c :: rest =>
      if c =? EOF then ([], if fresh then rest else ready, true)
      else if c =? newline then ([c], rest, true)
      else let '(l, rest, over) := read_line n false rest in (c :: l, rest, over)
  end.

(** The end of [consoleread]. *)
Definition read_end (ip : option nat) (r : Z) (dst : list Z) : K (Z * list Z) :=
  release L_cons;;; ilock ip;;; ret (r, dst).

(** The reader found nothing more. *)
Definition read_wait (ip : option nat) (dst : list Z) : K (Z * list Z) :=
  i <- myproc;;
  p <- get_proc i;;
  if ctrue (p_killed p) then read_end ip (-1) dst else sleep C_input L_cons.

Lemma bind_cong {St A B} (m : M St A) (f g : A -> M St B) s : (forall a s', f a s' = g a s') -> bind m f s = bind m g s.
Proof. intros E. unfold bind. by destruct (m s). Qed.
Lemma end_inr {A} (ip : option nat) (r : Z * list Z) (k : A + Z * list Z -> K (Z * list Z)) s :
  (forall x, k (inr x) = ret x) -> bind (release L_cons;;; ilock ip;;; ret (inr r)) k s = read_end ip (fst r) (snd r) s.
Proof.
  intros Hk. unfold read_end. rewrite bind_assoc. apply bind_cong. intros u s1. rewrite bind_assoc. apply bind_cong. intros v s2.
  rewrite bind_ret_l, Hk. by destruct r.
Qed.

Lemma typed_nothing ready line inp : typed ready line inp -> (in_r inp =? in_w inp) = bool_decide (ready = []).
Proof.
  intros [Hb Hr Hw He Hl _]. rewrite Hw, length_app in *. change (Z.to_nat INPUT_BUF) with 128%nat in Hl. destruct ready as [|c ready].
  - rewrite bool_decide_true by done. apply Z.eqb_eq. cbn. rewrite Z.add_0_r, u32_id; done.
  - cbn [length] in *. rewrite bool_decide_false by done. apply Z.eqb_neq. unfold u32. Z.to_euclidean_division_equations. lia.
Qed.

Lemma sched_bind {A B} (k : A -> K B) s : bind sched k s = sched s.
Proof. unfold sched, myproc, get_proc. munfold. repeat case_match; simplify_eq; done. Qed.
Lemma sleep_bind {A B} ch lk (k : A -> K B) s : bind (sleep ch lk) k s = sleep ch lk s.
Proof.
  unfold sleep. rewrite bind_assoc. apply bind_cong. intros [i|] s1; [|done]. rewrite bind_assoc. apply bind_cong. intros u s2.
  rewrite bind_assoc. apply bind_cong. intros v s3. apply sched_bind.
Qed.

Definition read_turn (ip : option nat) (target : Z) : Z * list Z -> K (Z * list Z + Z * list Z) :=
  fun '(n, dst) =>
       let done n dst := release L_cons;;; ilock ip;;; ret (inr (target - n, dst)) in
       if 0 <? n then
         inp <- gets k_input;;
         if in_r inp =? in_w inp then
           i <- myproc;;
           p <- get_proc i;;
           if ctrue (p_killed p) then
             release L_cons;;; ilock ip;;; ret (inr (-1, dst))
           else sleep C_input L_cons
         else
           let c := in_at inp (in_r inp) in
           upd_input (fun i => i <| in_r ::= fun r => u32 (r + 1) |>);;;
           if c =? C_key 68 then
             whenM (n <? target)
               (upd_input (fun i => i <| in_r ::= fun r => u32 (r - 1) |>));;;
             done n dst
           else if c =? 10 then done (n - 1) (dst ++ [c])
           else ret (inl (n - 1, dst ++ [c]))
       else done n dst.

Lemma wait_inr (ip : option nat) dst (k : Z * list Z + Z * list Z -> K (Z * list Z)) s : (forall x, k (inr x) = ret x) ->
  bind (i <- myproc;; p <- get_proc i;;
        if ctrue (p_killed p) then release L_cons;;; ilock ip;;; ret (inr (-1, dst)) else sleep C_input L_cons) k s = read_wait ip dst s.
Proof.
  intros Hk. unfold read_wait. rewrite bind_assoc. apply bind_cong. intros i s1. rewrite bind_assoc. apply bind_cong. intros p s2.
  destruct (ctrue (p_killed p)); [by apply (end_inr ip (-1, dst))|apply sleep_bind].
Qed.

Lemma read_loop ip target line ready : forall n dst s fuel, typed ready line (k_input s) -> 0 <= n <= target -> (Z.to_nat n < fuel)%nat ->
  let '(l, rest, over) := read_line (Z.to_nat n) (n =? target) ready in
  exists inp, typed rest line inp /\ loop fuel (read_turn ip target) (n, dst) s =
    (if over then read_end ip (target - (n - Z.of_nat (length l))) (dst ++ l) else read_wait ip (dst ++ l)) (s <| k_input := inp |>).
Proof.
  induction ready as [|c ready IH]; intros n dst s fuel T Hn Hf; (destruct fuel as [|fuel]; [lia|]); cbn [loop]; unfold read_turn at 1;
    (destruct (Z.ltb_spec 0 n) as [Hpos|Hz];
     [replace (Z.to_nat n) with (S (Z.to_nat (n - 1))) by lia; cbn [read_line]; mrun; rewrite (typed_nothing _ _ _ T)
     |replace (Z.to_nat n) with 0%nat by lia; cbn [read_line]; exists (k_input s); split; [done|]; rewrite app_nil_r;
      replace (s <| k_input := k_input s |>) with s by (by destruct s); rewrite end_inr by done; cbn; f_equal; lia]).
  - rewrite bool_decide_true by done. exists (k_input s). split; [done|]. rewrite app_nil_r.
    replace (s <| k_input := k_input s |>) with s by (by destruct s). by rewrite wait_inr.
  - rewrite bool_decide_false by done. destruct (typed_take _ _ _ _ T) as [-> T']. rewrite bind_assoc. unfold upd_input at 1. mrun.
    set (s1 := s <| k_input ::= _ |>). change (C_key 68) with EOF. destruct (Z.eqb_spec c EOF) as [->|Hc].
    + destruct (Z.eqb_spec n target) as [->|Hne].
      * rewrite Z.ltb_irrefl. cbn [whenM]. rewrite bind_assoc, bind_ret_l. exists (k_input s1). split; [done|]. rewrite end_inr by done. cbn [fst snd length].
        rewrite app_nil_r. f_equal. lia.
      * rewrite (proj2 (Z.ltb_lt n target)) by lia. cbn [whenM]. unfold upd_input. rewrite bind_assoc, bind_modify. exists (k_input s). split; [done|].
        rewrite end_inr by done. cbn [fst snd length]. rewrite app_nil_r.
        transitivity (read_end ip (target - n) dst (s <| k_input := (k_input s) <| in_r := u32 (u32 (in_r (k_input s) + 1) - 1) |> |>)); [done|].
        rewrite u32_back by apply T. replace ((k_input s) <| in_r := in_r (k_input s) |>) with (k_input s) by (by destruct (k_input s)). f_equal; lia.
    + change newline with 10. destruct (Z.eqb_spec c 10) as [->|Hc'].
      * exists (k_input s1). split; [done|]. rewrite end_inr by done. cbn [fst snd length]. f_equal; lia.
      * mrun. specialize (IH (n - 1) (dst ++ [c]) s1 fuel T' ltac:(lia) ltac:(lia)). rewrite (proj2 (Z.eqb_neq (n - 1) target)) in IH by lia.
        destruct (read_line (Z.to_nat (n - 1)) false ready) as [[l rest] over]. destruct IH as (inp & Ti & ->). exists inp. split; [done|].
        rewrite <- app_assoc. cbn [app length]. by replace (target - (n - Z.of_nat (S (length l)))) with (target - (n - 1 - Z.of_nat (length l))) by lia.
Qed.

Lemma read_locked ip target n dst : consoleread_locked ip target n dst = loop (Z.to_nat n + 1) (read_turn ip target) (n, dst).
Proof. done. Qed.

(** [consoleread] takes a line.  With characters ready it returns them up
    to the wanted number, a newline, which it includes, or an end of file,
    which it consumes only if it read nothing before; the line that is being
    typed stays.  When the characters run out it sleeps until more come, or
    fails if the process was killed. *)
Lemma consoleread_run ip n ready line s s1 : iunlock ip s = Ret tt s1 -> k_held s1 = [] -> typed ready line (k_input s1) -> 0 <= n ->
  let '(l, rest, over) := read_line (Z.to_nat n) true ready in
  exists inp, typed rest line inp /\
    consoleread ip n s = (if over then read_end ip (Z.of_nat (length l)) l else read_wait ip l) (s1 <| k_held := [L_cons] |> <| k_input := inp |>).
Proof.
  intros E1 Hh T Hn. set (s2 := s1 <| k_held := [L_cons] |>).
  assert (E2 : acquire L_cons s1 = Ret tt s2) by (rewrite acquire_ok, Hh by (rewrite Hh; set_solver); done).
  pose proof (read_loop ip n line ready n [] s2 (Z.to_nat n + 1) T ltac:(lia) ltac:(lia)) as HL.
  rewrite Z.eqb_refl in HL. destruct (read_line (Z.to_nat n) true ready) as [[l rest] over]. destruct HL as (inp & Ti & E). exists inp. split; [done|].
  unfold consoleread. rewrite (bind_eq _ _ _ _ _ E1), (bind_eq _ _ _ _ _ E2), read_locked, E.
  by replace (n - (n - Z.of_nat (length l))) with (Z.of_nat (length l)) by lia.
Qed.

(** * The screen *)

(** The cursor is on one of the first 24 rows. *)
Definition screen_ok (sc : screen) : Prop := length (crt sc) = Z.to_nat (25 * 80) /\ 0 <= pos sc < 24 * 80.

(** No character moves the cursor off the screen. *)
Lemma cgaputc_total c sc : screen_ok sc -> exists sc', cgaputc c sc = Some sc' /\ screen_ok sc'.
Proof.
  intros [Hl Hp]. destruct sc as [cr po]. cbn [crt pos] in *. unfold cgaputc.
  set (q := if c =? 10 then (cr, po + (80 - po mod 80)) else if c =? BACKSPACE then (cr, if 0 <? po then po - 1 else po)
            else (<[Z.to_nat po := Z.lor (Z.land c 0xff) 0x0700]> cr, po + 1)).
  assert (Hq : length (fst q) = Z.to_nat (25 * 80) /\ 0 <= snd q <= 24 * 80).
  { unfold q. destruct (c =? 10); [|destruct (c =? BACKSPACE)]; cbn [fst snd]; rewrite ?length_insert; (split; [done|]).
    - Z.to_euclidean_division_equations. lia.
    - destruct (Z.ltb_spec 0 po); lia.
    - lia. }
  destruct q as [cr1 p1]. cbn [fst snd] in Hq. destruct Hq as [Hl1 Hp1].
  rewrite (proj2 (Z.ltb_ge p1 0)), (proj2 (Z.ltb_ge (25 * 80) p1)) by lia. cbn [orb].
  assert (Hdiv : 24 <= p1 / 80 -> p1 = 24 * 80) by (Z.to_euclidean_division_equations; lia).
  assert (Hdiv' : p1 / 80 < 24 -> p1 < 24 * 80) by (Z.to_euclidean_division_equations; lia).
  destruct (Z.leb_spec 24 (p1 / 80)) as [Hs|Hs]; eexists; (split; [done|]); split; cbn [crt pos]; rewrite ?length_insert; try done; [|lia..].
  rewrite length_splice; rewrite ?length_app, ?length_take, ?length_drop, ?length_replicate; lia.
Qed.

(** * An example *)

(** The user types [hx], corrects it to [hi] and presses the return key. *)
Definition typed_zero : input := mkInput (replicate 128 0) (2 ^ 32 - 2) (2 ^ 32 - 2) (2 ^ 32 - 2).
Lemma typed_start : typed [] [] typed_zero.
Proof. split; try done. vm_compute. lia. Qed.

Lemma consoleintr_spec_witness : returns (consoleintr [104; 120; 127; 105; 13]) (demo2 <| k_input := typed_zero |>) (fun d s' => d = false /\
  typing ([], []) ([104; 105; 10], []) [104; 120; BACKSPACE; 105; 10] (demo2 <| k_input := typed_zero |>) s').
Proof. by apply (consoleintr_spec [104; 120; 127; 105; 13] [] [] (demo2 <| k_input := typed_zero |>)); [apply typed_start|apply not_elem_of_nil|]. Defined.

(** The process that reads holds the lock of the console's inode. *)
Definition reading : kstate :=
  demo2 <| k_input := mkInput (104 :: 105 :: 10 :: 120 :: replicate 124 0) 0 3 4 |>
    <| k_icache := (inode_zero <| i_ref := 1 |> <| i_lock := mkSl 1 1 |>) :: replicate 49 inode_zero |>.

Lemma typed_reading : typed [104; 105; 10] [120] (k_input reading).
Proof.
  split; try done; [vm_compute; lia|]. intros k c Hk. assert (k < 4)%nat by (by apply lookup_lt_Some in Hk).
  destruct k as [|[|[|[|]]]]; [by injection Hk as <-..|lia].
Qed.

Lemma consoleread_example : exists s1 inp, typed [] [120] inp /\
  consoleread (Some 0%nat) 10 reading = read_end (Some 0%nat) 3 [104; 105; 10] (s1 <| k_held := [L_cons] |> <| k_input := inp |>).
Proof.
  exists (end_state demo2 (iunlock (Some 0%nat) reading)).
  apply (consoleread_run (Some 0%nat) 10 [104; 105; 10] [120] reading (end_state demo2 (iunlock (Some 0%nat) reading))).
  - apply (result_eq demo2). by vm_compute.
  - by vm_compute.
  - apply typed_reading.
  - done.
Qed.
