(* ===== verification/Kbd.v ===== *)
(** The keyboard ([kbd.c], [kbd.h]): scan codes become characters, which go to
    the console and from there to the process that reads. *)
From S2P Require Import Prelude Kstate Demo MemSpec Cprintf Sched Sleeplock BioSpec Inode FsOp Console ConsoleSpec.

(** * kbd.h *)

Definition KBS_DIB : Z := 0x01.
Definition NO : Z := 0.
Definition SHIFT : Z := Z.shiftl 1 0.
Definition CTL : Z := Z.shiftl 1 1.
Definition ALT : Z := Z.shiftl 1 2.
Definition CAPSLOCK : Z := Z.shiftl 1 3.
Definition NUMLOCK : Z := Z.shiftl 1 4.
Definition SCROLLLOCK : Z := Z.shiftl 1 5.
Definition E0ESC : Z := Z.shiftl 1 6.

Definition KEY_HOME : Z := 0xE0.
Definition KEY_END : Z := 0xE1.
Definition KEY_UP : Z := 0xE2.
Definition KEY_DN : Z := 0xE3.
Definition KEY_LF : Z := 0xE4.
Definition KEY_RT : Z := 0xE5.
Definition KEY_PGUP : Z := 0xE6.
Definition KEY_PGDN : Z := 0xE7.
Definition KEY_INS : Z := 0xE8.
Definition KEY_DEL : Z := 0xE9.

(** An array initialised from its start and at given places. *)
Definition table (start : list Z) (at_ : list (Z * Z)) : list Z :=
  foldl (fun t '(i, v) => <[Z.to_nat i := v]> t) (start ++ replicate (256 - length start) 0) at_.

Definition shiftcode : list Z :=
  table [] [(0x1D, CTL); (0x2A, SHIFT); (0x36, SHIFT); (0x38, ALT); (0x9D, CTL); (0xB8, ALT)].
Definition togglecode : list Z := table [] [(0x3A, CAPSLOCK); (0x45, NUMLOCK); (0x46, SCROLLLOCK)].

(** The keys with the prefix 0xE0, except the two of the keypad. *)
Definition special : list (Z * Z) :=
  [(0xC8, KEY_UP); (0xD0, KEY_DN); (0xC9, KEY_PGUP); (0xD1, KEY_PGDN); (0xCB, KEY_LF); (0xCD, KEY_RT);
   (0x97, KEY_HOME); (0xCF, KEY_END); (0xD2, KEY_INS); (0xD3, KEY_DEL)].

Definition normalmap : list Z := table
  ([NO; 0x1B; 49; 50; 51; 52; 53; 54] ++ [55; 56; 57; 48; 45; 61; 8; 9] ++
   [113; 119; 101; 114; 116; 121; 117; 105] ++ [111; 112; 91; 93; 10; NO; 97; 115] ++
   [100; 102; 103; 104; 106; 107; 108; 59] ++ [39; 96; NO; 92; 122; 120; 99; 118] ++
   [98; 110; 109; 44; 46; 47; NO; 42] ++ [NO; 32; NO; NO; NO; NO; NO; NO] ++
   [NO; NO; NO; NO; NO; NO; NO; 55] ++ [56; 57; 45; 52; 53; 54; 43; 49] ++
   [50; 51; 48; 46; NO; NO; NO; NO]) ([(0x9C, 10); (0xB5, 47)] ++ special).
Definition shiftmap : list Z := table
  ([NO; 27; 33; 64; 35; 36; 37; 94] ++ [38; 42; 40; 41; 95; 43; 8; 9] ++
   [81; 87; 69; 82; 84; 89; 85; 73] ++ [79; 80; 123; 125; 10; NO; 65; 83] ++
   [68; 70; 71; 72; 74; 75; 76; 58] ++ [34; 126; NO; 124; 90; 88; 67; 86] ++
   [66; 78; 77; 60; 62; 63; NO; 42] ++ [NO; 32; NO; NO; NO; NO; NO; NO] ++
   [NO; NO; NO; NO; NO; NO; NO; 55] ++ [56; 57; 45; 52; 53; 54; 43; 49] ++
   [50; 51; 48; 46; NO; NO; NO; NO]) ([(0x9C, 10); (0xB5, 47)] ++ special).
Definition ctlmap : list Z :=
  let C := C_key in table
  (replicate 16 NO ++
   [C 81; C 87; C 69; C 82; C 84; C 89; C 85; C 73] ++ [C 79; C 80; NO; NO; 13; NO; C 65; C 83] ++
   [C 68; C 70; C 71; C 72; C 74; C 75; C 76; NO] ++ [NO; NO; NO; C 92; C 90; C 88; C 67; C 86] ++
   [C 66; C 78; C 77; NO; NO; C 47; NO; NO])
  ([(0x9C, 13); (0xB5, C 47)] ++ special).

(** * kbd.c *)

(** An element of one of the tables, as a [uchar]. *)
Definition code (t : list Z) (i : Z) : Z := u8 (default 0 (t !! Z.to_nat i)).

Definition charcode : list (list Z) := [normalmap; shiftmap; ctlmap; ctlmap].

(** [kbdgetc] with its static variable [shift], when the controller's status
    is [st] and its data register holds [data]. *)
Definition kbdgetc (shift st data : Z) : Z * Z :=
  if Z.land st KBS_DIB =? 0 then (-1, shift)
  else if data =? 0xE0 then (0, Z.lor shift E0ESC)
  else if ctrue (Z.land data 0x80) then
    let data := if ctrue (Z.land shift E0ESC) then data else Z.land data 0x7F in
    (0, Z.land shift (Z.lnot (Z.lor (code shiftcode data) E0ESC)))
  else
    let '(data, shift) :=
      if ctrue (Z.land shift E0ESC) then (Z.lor data 0x80, Z.land shift (Z.lnot E0ESC)) else (data, shift) in
    let shift := Z.lor shift (code shiftcode data) in
    let shift := Z.lxor shift (code togglecode data) in
    let c := code (default [] (charcode !! Z.to_nat (Z.land shift (Z.lor CTL SHIFT)))) data in
    let c :=
      if ctrue (Z.land shift CAPSLOCK) then
        if (97 <=? c) && (c <=? 122) then c + (65 - 97)
        else if (65 <=? c) && (c <=? 90) then c + (97 - 65)
        else c
      else c in
    (c, shift).

(** The characters of [kbdgetc] while the controller has the scan codes
    [codes]: one for each, before it returns -1. *)
Fixpoint kbdchars (shift : Z) (codes : list Z) : list Z * Z :=
  match codes with
  | [] => ([], shift)
  | data :: codes =>
      let '(c, shift) := kbdgetc shift KBS_DIB data in
      let '(cs, shift) := kbdchars shift codes in
      (c :: cs, shift)
  end.

(** The result says whether a process listing was asked for. *)
Definition kbdintr (shift : Z) (codes : list Z) : K (bool * Z) :=
  let '(cs, shift) := kbdchars shift codes in
  d <- consoleintr cs;; ret (d, shift).

(** * Ranges *)

(** The indices of the tables are in range, the state keeps its seven bits and
    the result is a byte. *)
Definition kbd_in_range (shift data : Z) : bool :=
  let '(c, shift') := kbdgetc shift KBS_DIB data in (0 <=? c) && (c <? 256) && (0 <=? shift') && (shift' <? 128).

Lemma kbdgetc_range shift data : 0 <= shift < 128 -> 0 <= data < 256 ->
  let '(c, shift') := kbdgetc shift KBS_DIB data in 0 <= c < 256 /\ 0 <= shift' < 128.
Proof.
  intros Hs Hd. assert (Hall : forallb (fun shift => forallb (kbd_in_range shift) (seqZ 0 256)) (seqZ 0 128) = true) by by vm_compute.
  rewrite forallb_forall in Hall. specialize (Hall shift ltac:(apply list_elem_of_In, elem_of_seqZ; lia)).
  rewrite forallb_forall in Hall. specialize (Hall data ltac:(apply list_elem_of_In, elem_of_seqZ; lia)).
  unfold kbd_in_range in Hall. destruct (kbdgetc shift KBS_DIB data) as [c shift']. rewrite !andb_true_iff in Hall. lia.
Qed.

(** * Typing a text *)

(** The scan codes of pressing and releasing the key of [c], with the left
    shift key held where it is needed. *)
Definition key (c : Z) : list Z :=
  match find_index (Z.eqb c) normalmap with
  | Some i => [Z.of_nat i; Z.of_nat i + 0x80]
  | None =>
      match find_index (Z.eqb c) shiftmap with
      | Some i => [0x2A; Z.of_nat i; Z.of_nat i + 0x80; 0x2A + 0x80]
      | None => []
      end
  end.

Definition printable (c : Z) : Prop := 32 <= c <= 126.

(** The characters that mean something. *)
Definition sent (cs : list Z) : list Z := filter (.≠ 0) cs.

Lemma kbdchars_app a : forall shift b, kbdchars shift (a ++ b) =
  (fst (kbdchars shift a) ++ fst (kbdchars (snd (kbdchars shift a)) b), snd (kbdchars (snd (kbdchars shift a)) b)).
Proof.
  induction a as [|x a IH]; intros shift b; cbn [app kbdchars].
  - cbn [fst snd app]. by destruct (kbdchars shift b).
  - destruct (kbdgetc shift KBS_DIB x) as [c sh]. rewrite IH. destruct (kbdchars sh a) as [cs sh']. cbn [fst snd]. by destruct (kbdchars sh' b).
Qed.

Definition types (c : Z) : bool := let '(cs, shift) := kbdchars 0 (key c) in (shift =? 0) && bool_decide (sent cs = [c]).

Lemma key_types c : printable c \/ c = 10 -> exists cs, kbdchars 0 (key c) = (cs, 0) /\ sent cs = [c].
Proof.
  intros Hc. assert (Hall : forallb types (10 :: seqZ 32 95) = true) by by vm_compute. rewrite forallb_forall in Hall.
  assert (Ht : types c = true) by (apply Hall, list_elem_of_In, elem_of_cons; rewrite elem_of_seqZ; unfold printable in Hc; lia).
  unfold types in Ht. destruct (kbdchars 0 (key c)) as [cs sh]. apply andb_prop in Ht as [->%Z.eqb_eq Hs%bool_decide_eq_true]. eauto.
Qed.

Lemma text_types text : Forall (fun c => printable c \/ c = 10) text ->
  exists cs, kbdchars 0 (flat_map key text) = (cs, 0) /\ sent cs = text.
Proof.
  induction 1 as [|c text Hc _ (cs & E & Hs)]; [by exists []|]. destruct (key_types c Hc) as (cs0 & E0 & Hs0).
  exists (cs0 ++ cs). cbn [flat_map]. rewrite kbdchars_app, E0. cbn [fst snd]. rewrite E. split; [done|].
  unfold sent. rewrite filter_app. fold (sent cs0) (sent cs). by rewrite Hs0, Hs.
Qed.

(** The editor sees only what was sent, *)
Lemma edits_sent cs : forall st, edits cs st = edits (sent cs) st.
Proof.
  induction cs as [|c cs IH]; intros st; [done|]. unfold sent. destruct (decide (c = 0)) as [->|Hc].
  - rewrite filter_cons_False by auto. cbn [edits]. rewrite IH. by destruct st.
  - rewrite filter_cons_True by done. cbn [edits]. apply IH.
Qed.

(** and collects a text in the line. *)
Lemma edits_text text : forall ready line, Forall printable text -> Z.of_nat (length (ready ++ line ++ text)) < INPUT_BUF ->
  edits text (ready, line) = (ready, line ++ text).
Proof.
  induction text as [|c text IH]; intros ready line Hp Hl; [by rewrite app_nil_r|]. inversion Hp as [|? ? Hc Hp']; subst. unfold printable in Hc.
  cbn [edits]. assert (E : edit c (ready, line) = (ready, line ++ [c])).
  { unfold edit. change (C_key 80) with 16. change (C_key 85) with 21. change (C_key 72) with 8. change EOF with 4. change newline with 10.
    rewrite !length_app in *. cbn [length] in *. change INPUT_BUF with 128 in *.
    repeat (match goal with |- context [?x =? ?y] => rewrite (proj2 (Z.eqb_neq x y)) by (cbn; lia) end). cbn [orb].
    rewrite (proj2 (Z.leb_gt _ _)) by lia. done. }
  rewrite E, IH; [by rewrite <- app_assoc|done|]. by rewrite <- app_assoc.
Qed.

(** * Reading what was typed *)

(** The process [pid] holds the lock of the console's inode [i], as in
    [fileread]. *)
Record console_inode (pid : Z) (i : nat) (ip : inode) (s : kstate) : Prop := mkConsoleInode {
  ci_held : k_held s = [];
  ci_me : me pid s;
  ci_inode : k_icache s !! i = Some ip;
  ci_ref : 1 <= i_ref ip;
  ci_valid : i_valid ip <> 0;
  ci_lock : i_lock ip = mkSl 1 pid;
}.

Lemma consoleread_ok pid i ip n ready line l rest s : console_inode pid i ip s -> typed ready line (k_input s) -> 0 <= n ->
  read_line (Z.to_nat n) true ready = (l, rest, true) ->
  returns (consoleread (Some i) n) s (fun r s' => r = (Z.of_nat (length l), l) /\ typed rest line (k_input s')).
Proof.
  intros [Hh Hme Hi Hr Hv Hl] T Hn ER.
  set (s1 := (puti i (ip <| i_lock := mkSl 0 0 |>) s) <| k_procs ::= fmap (wake (Some (C_inodesleep i))) |>).
  assert (E1 : iunlock (Some i) s = Ret tt s1).
  { cbn [iunlock]. rewrite (bind_eq _ _ _ _ _ (holdingsleep_inode i ip s Hh Hi pid Hme)), (bind_get_inode i ip) by done.
    rewrite Hl. cbn [sl_locked sl_pid]. rewrite Z.eqb_refl. change (ctrue 1) with true. cbn [andb negb orb].
    rewrite (proj2 (Z.ltb_ge _ _)) by done. exact (releasesleep_inode i ip s Hh Hi). }
  pose proof (consoleread_run (Some i) n ready line s s1 E1 Hh T Hn) as HC. rewrite ER in HC. destruct HC as (inp & Ti & E).
  unfold returns. rewrite E. unfold read_end. set (s2 := s1 <| k_held := [L_cons] |> <| k_input := inp |>). set (s3 := s2 <| k_held := [] |>).
  assert (E3 : release L_cons s2 = Ret tt s3) by (apply release_ok; [done|set_solver]). rewrite (bind_eq _ _ _ _ _ E3).
  assert (Hi3 : k_icache s3 !! i = Some (ip <| i_lock := mkSl 0 0 |>)) by (apply list_lookup_insert_eq; by eapply lookup_lt_Some).
  assert (Hme3 : me pid s3) by (exact (me_wake pid s (Some (C_inodesleep i)) Hme)).
  set (ip4 := ip <| i_lock := mkSl 0 0 |> <| i_lock := mkSl 1 pid |>). set (s4 := puti i ip4 s3).
  assert (E4 : ilock (Some i) s3 = Ret tt s4).
  { cbn [ilock]. rewrite (bind_get_inode i (ip <| i_lock := mkSl 0 0 |>)) by done. change (i_ref (ip <| i_lock := mkSl 0 0 |>)) with (i_ref ip).
    rewrite (proj2 (Z.ltb_ge _ _)) by done. rewrite (bind_eq _ _ _ _ _ (acquiresleep_inode i _ s3 eq_refl Hi3 pid Hme3 eq_refl)).
    rewrite (bind_get_inode i ip4) by (apply list_lookup_insert_eq; by eapply lookup_lt_Some).
    change (i_valid ip4) with (i_valid ip). by rewrite (proj2 (Z.eqb_neq _ _)). }
  rewrite (bind_eq _ _ _ _ _ E4). by eexists _, _.
Qed.

Lemma edits_app a : forall st b, edits (a ++ b) st = edits b (edits a st).
Proof. induction a as [|c a IH]; intros st b; [done|]. cbn. apply IH. Qed.

Lemma edits_line text : Forall printable text -> Z.of_nat (length text) < INPUT_BUF -> edits (text ++ [newline]) ([], []) = (text ++ [newline], []).
Proof.
  intros Hp Hl. rewrite edits_app, edits_text by done. cbn [edits app]. unfold edit. change INPUT_BUF with 128 in *.
  rewrite (proj2 (Z.leb_gt _ _)) by done. done.
Qed.

Lemma read_text text : forall n fresh, Forall printable text -> (length text < n)%nat -> read_line n fresh (text ++ [newline]) = (text ++ [newline], [], true).
Proof.
  induction text as [|c text IH]; intros n fresh Hp Hn; (destruct n as [|n]; [cbn in Hn; lia|]); [done|].
  inversion Hp as [|? ? Hc Hp']; subst. unfold printable in Hc. cbn [app read_line].
  rewrite (proj2 (Z.eqb_neq c EOF)), (proj2 (Z.eqb_neq c newline)) by (unfold EOF, C_key, newline; lia). rewrite IH; [done|done|cbn in Hn; lia].
Qed.


