(* ===== verification/PipeSpec.v ===== *)
(** A pipe is a bounded FIFO queue of bytes.  [contents] reads the queue off
    the ring buffer and its two free-running 32-bit counters; the operations
    are specified on it, with the counters allowed to wrap around. *)
From S2P Require Import Prelude Kstate Demo Mem Kalloc Sched Pipe ProcSpec.

(** * The queue in the ring buffer *)

Record pipe_ok (p : pipe) : Prop := mkPipeOk {
  po_data : length (pi_data p) = Z.to_nat PIPESIZE;
  po_nread : 0 <= pi_nread p < 2 ^ 32;
  po_nwrite : 0 <= pi_nwrite p < 2 ^ 32;
  po_count : u32 (pi_nwrite p - pi_nread p) <= PIPESIZE;
}.

Definition pipe_count (p : pipe) : nat := Z.to_nat (u32 (pi_nwrite p - pi_nread p)).
Definition pipe_byte (p : pipe) (i : nat) : Z :=
  default 0 (pi_data p !! Z.to_nat ((pi_nread p + Z.of_nat i) mod PIPESIZE)).
(** The bytes written and not yet read, oldest first. *)
Definition contents (p : pipe) : list Z := pipe_byte p <$> seq 0 (pipe_count p).

Lemma length_contents p : length (contents p) = pipe_count p.
Proof. unfold contents. by rewrite length_fmap, length_seq. Qed.

(** The counters index the buffer alike before and after they wrap. *)
Lemma wrap_index x : (u32 x) mod PIPESIZE = x mod PIPESIZE.
Proof.
  unfold u32. apply Z.mod_mod_divide. by exists 8388608.
Qed.

Lemma pipe_full_iff p :
  pipe_ok p -> pipe_full p = true <-> pipe_count p = Z.to_nat PIPESIZE.
Proof.
  intros [_ Hr Hw Hc]. unfold pipe_full, pipe_count. rewrite Z.eqb_eq.
  change PIPESIZE with 512 in *. split; intros H.
  - rewrite H. f_equal. width_lia.
  - apply (f_equal Z.of_nat) in H. rewrite !Z2Nat.id in H by width_lia. width_lia.
Qed.
Lemma pipe_empty_iff p : pipe_ok p -> pipe_empty p = true <-> pipe_count p = 0%nat.
Proof.
  intros [_ Hr Hw Hc]. unfold pipe_empty, pipe_count. rewrite Z.eqb_eq. split; intros H.
  - rewrite H. by rewrite Z.sub_diag.
  - apply (f_equal Z.of_nat) in H. rewrite Z2Nat.id in H by width_lia. width_lia.
Qed.

(** Writing appends a byte. *)
Lemma pipe_put_spec c p :
  pipe_ok p -> pipe_full p = false ->
  pipe_ok (pipe_put c p) /\ contents (pipe_put c p) = contents p ++ [c].
Proof.
  intros Hok Hf. pose proof Hok as [Hd Hr Hw Hc].
  assert (Hlt : u32 (pi_nwrite p - pi_nread p) < 512).
  { destruct (decide (u32 (pi_nwrite p - pi_nread p) = 512)) as [E|]; [|change PIPESIZE with 512 in *; lia].
    exfalso. assert (pipe_full p = true); [|congruence]. apply pipe_full_iff; [done|].
    unfold pipe_count. by rewrite E. }
  assert (Hcnt : pipe_count (pipe_put c p) = S (pipe_count p)).
  { unfold pipe_count, pipe_put, upd. cbn. width_lia. }
  assert (Hpos : (pi_nread p + Z.of_nat (pipe_count p)) mod 512 = pi_nwrite p mod 512).
  { unfold pipe_count. rewrite Z2Nat.id by width_lia. rewrite <- (wrap_index (_ + _)).
    change PIPESIZE with 512. f_equal. width_lia. }
  split.
  - split; unfold pipe_put, upd; cbn; [by rewrite length_insert|done|width_lia|].
    change PIPESIZE with 512. width_lia.
  - unfold contents. rewrite Hcnt, seq_S, fmap_app. cbn. f_equal.
    + apply list_fmap_ext. intros k j Hj. apply lookup_seq in Hj as [-> Hj].
      unfold pipe_byte, pipe_put, upd. cbn. f_equal. apply list_lookup_insert_ne.
      intros E. apply (f_equal Z.of_nat) in E. change PIPESIZE with 512 in E.
      rewrite !Z2Nat.id in E by (apply Z.mod_pos_bound; lia). rewrite <- Hpos in E.
      assert (Hk : (pipe_count p < 512)%nat) by (unfold pipe_count; lia).
      Z.to_euclidean_division_equations. lia.
    + f_equal. unfold pipe_byte, pipe_put, upd. cbn. change PIPESIZE with 512.
      rewrite Hpos. rewrite list_lookup_insert_eq; [done|]. rewrite Hd.
      change PIPESIZE with 512. pose proof (Z.mod_pos_bound (pi_nwrite p) 512). lia.
Qed.

(** Reading takes the oldest byte. *)
Lemma pipe_get_spec p :
  pipe_ok p -> pipe_empty p = false ->
  pipe_ok (pipe_get p).2 /\ contents p = (pipe_get p).1 :: contents (pipe_get p).2.
Proof.
  intros Hok Hf. pose proof Hok as [Hd Hr Hw Hc].
  assert (Hpos : pipe_count p <> 0%nat).
  { intros E%pipe_empty_iff; [|done]. congruence. }
  assert (Hcnt : pipe_count p = S (pipe_count (pipe_get p).2)).
  { unfold pipe_count, pipe_get, upd in *. cbn. change PIPESIZE with 512 in *. width_lia. }
  split.
  - split; unfold pipe_get, upd; cbn; [done|width_lia|done|].
    unfold pipe_count in Hpos. change PIPESIZE with 512 in *. width_lia.
  - unfold contents. rewrite Hcnt at 1. cbn [seq fmap list_fmap]. f_equal.
    + unfold pipe_byte, pipe_get. cbn. by rewrite Z.add_0_r.
    + rewrite <- fmap_S_seq, <- list_fmap_compose. apply list_fmap_ext. intros k j _. cbn.
      unfold pipe_byte, pipe_get, upd. cbn. do 3 f_equal.
      rewrite <- (wrap_index (u32 _ + _)), <- (wrap_index (_ + Z.of_nat (S j))). f_equal. width_lia.
Qed.

(** * The loops *)

(** [s] with the pipe at [a] replaced. *)
Definition set_pipe (a : Z) (p : pipe) (s : kstate) : kstate :=
  s <| k_pipes ::= <[a := p]> |>.

Lemma bind_get_pipe {B} a p (k : pipe -> K B) s :
  k_pipes s !! a = Some p -> bind (get_pipe a) k s = k p s.
Proof. intros H. unfold get_pipe. mrun. by rewrite H. Qed.
Lemma bind_upd_pipe {B} a p f (k : unit -> K B) s :
  k_pipes s !! a = Some p -> bind (upd_pipe a f) k s = k tt (set_pipe a (f p) s).
Proof.
  intros H. unfold upd_pipe. mrun. f_equal. unfold set_pipe. apply kstate_ext; try reflexivity.
  apply map_eq. intros b. cbn. destruct (decide (b = a)) as [->|Hb].
  - by rewrite lookup_alter_eq, lookup_insert_eq, H.
  - by rewrite lookup_alter_ne, lookup_insert_ne.
Qed.
Lemma set_pipe_set_pipe a p q s : set_pipe a q (set_pipe a p s) = set_pipe a q s.
Proof.
  unfold set_pipe. apply kstate_ext; try reflexivity. cbn. by rewrite insert_insert_eq.
Qed.
Lemma set_pipe_id a p s : k_pipes s !! a = Some p -> set_pipe a p s = s.
Proof. intros H. unfold set_pipe. apply kstate_ext; try reflexivity. cbn. by rewrite insert_id. Qed.
Lemma set_pipe_lookup a p s : k_pipes (set_pipe a p s) !! a = Some p.
Proof. cbn. apply lookup_insert_eq. Qed.

Section PipeSpec.
Context `{KL : KernelLayout}.
Context (a : Z).

(** What a writer does when the pipe is full. *)
Definition write_blocked (p : pipe) : K Z :=
  k <- my_killed;;
  if (pi_readopen p =? 0) || k then release (L_pipe a);;; ret (-1)
  else wakeup (C_nread a);;; sleep (C_nwrite a) (L_pipe a).

Lemma pipewrite_loop n addr p s :
  pipe_ok p -> k_pipes s !! a = Some p ->
  let room := (Z.to_nat PIPESIZE - pipe_count p)%nat in
  exists p', pipe_ok p' /\ contents p' = contents p ++ take room addr /\
    pi_readopen p' = pi_readopen p /\ pi_writeopen p' = pi_writeopen p /\
    pipewrite_locked a n addr s =
      (if (length addr <=? room)%nat then wakeup (C_nread a);;; release (L_pipe a);;; ret n
       else write_blocked p') (set_pipe a p' s).
Proof.
  revert p s. induction addr as [|c rest IH]; intros p s Hok Hp; cbv zeta.
  - exists p. rewrite take_nil, app_nil_r, set_pipe_id by done. done.
  - cbn [pipewrite_locked length]. rewrite (bind_get_pipe a p) by done.
    destruct (pipe_full p) eqn:Hf.
    + apply pipe_full_iff in Hf as Hcnt; [|done]. rewrite Hcnt, Nat.sub_diag.
      exists p. cbn [take Nat.leb]. rewrite app_nil_r, set_pipe_id by done. done.
    + rewrite (bind_upd_pipe a p) by done.
      destruct (pipe_put_spec c p Hok Hf) as [Hok' Hcont].
      assert (Hcnt : pipe_count (pipe_put c p) = S (pipe_count p)).
      { rewrite <- !length_contents, Hcont, length_app. cbn. lia. }
      assert (Hlt : (pipe_count p < Z.to_nat PIPESIZE)%nat).
      { destruct (decide (pipe_count p = Z.to_nat PIPESIZE)) as [E|].
        - apply pipe_full_iff in E; [congruence|done].
        - pose proof (po_count p Hok). unfold pipe_count in *. lia. }
      destruct (IH (pipe_put c p) (set_pipe a (pipe_put c p) s) Hok') as (p' & H1 & H2 & H3 & H4 & H5);
        [apply set_pipe_lookup|].
      exists p'. rewrite Hcnt in H2, H5. rewrite set_pipe_set_pipe in H5.
      replace (Z.to_nat PIPESIZE - pipe_count p)%nat
        with (S (Z.to_nat PIPESIZE - S (pipe_count p)))%nat by lia.
      cbn [take Nat.leb]. rewrite H2, Hcont, <- app_assoc. done.
Qed.

Lemma piperead_loop n p s :
  pipe_ok p -> k_pipes s !! a = Some p ->
  exists p', pipe_ok p' /\ contents p' = drop n (contents p) /\
    piperead_copy a n s = Ret (take n (contents p)) (set_pipe a p' s).
Proof.
  revert p s. induction n as [|n IH]; intros p s Hok Hp.
  - exists p. by rewrite set_pipe_id.
  - cbn [piperead_copy]. rewrite (bind_get_pipe a p) by done.
    destruct (pipe_empty p) eqn:Hf.
    + apply pipe_empty_iff in Hf as Hcnt; [|done].
      assert (contents p = []) as ->.
      { apply nil_length_inv. by rewrite length_contents. }
      exists p. split; [done|]. split; [|by rewrite set_pipe_id].
      apply nil_length_inv. by rewrite length_contents.
    + destruct (pipe_get_spec p Hok Hf) as [Hok' Hcont].
      destruct (pipe_get p) as [c q] eqn:Eg. cbn [fst snd] in *.
      rewrite (bind_upd_pipe a p) by done.
      destruct (IH q (set_pipe a q s) Hok') as (p' & H1 & H2 & H3); [apply set_pipe_lookup|].
      exists p'. rewrite set_pipe_set_pipe in H3. rewrite Hcont. cbn [take drop].
      split; [done|]. split; [done|]. by rewrite (bind_eq _ _ _ _ _ H3).
Qed.

(** * The operations *)

Definition woken_on (ch : chan) (s : kstate) : kstate :=
  s <| k_procs ::= fmap (wake (Some ch)) |>.
(** [s] as the scheduler finds it when process [i] has gone to sleep. *)
Definition slept_on (ch : chan) (i : nat) (s : kstate) : kstate :=
  s <| k_held := [L_ptable] |> <| k_procs ::= alter (asleep ch) i |>.

Lemma my_killed_run i q s :
  k_cur s = Some i -> k_procs s !! i = Some q -> my_killed s = Ret (ctrue (p_killed q)) s.
Proof.
  intros Hc Hq. unfold my_killed, myproc. mrun. rewrite Hc. mrun.
  by rewrite (bind_eq _ _ _ _ _ (get_proc_eq i q s Hq)).
Qed.

Lemma wakeup_run ch s : L_ptable ∉ k_held s -> wakeup ch s = Ret tt (woken_on ch s).
Proof. apply wakeup_ok. Qed.

Lemma unlock_run {B} (k : unit -> K B) p s s0 :
  k_held s0 = [] -> s = set_pipe a p (s0 <| k_held := [L_pipe a] |>) ->
  bind (release (L_pipe a)) k s = k tt (set_pipe a p s0).
Proof.
  intros Hh ->. rewrite (release_head _ []) by (done || apply not_elem_of_nil).
  f_equal. apply kstate_ext; try reflexivity. done.
Qed.

Lemma woken_held s ch h : woken_on ch (s <| k_held := h |>) = (woken_on ch s) <| k_held := h |>.
Proof. done. Qed.


(** C21: [piperead] takes bytes from the front of the queue, as many as it
    has up to [n]; on an empty queue it waits while the write end is open,
    unless the reader was killed.  A waiting writer is woken. *)
Theorem piperead_spec n p s i q :
  pipe_ok p -> k_pipes s !! a = Some p -> k_held s = [] ->
  k_cur s = Some i -> k_procs s !! i = Some q ->
  if bool_decide (contents p = []) && ctrue (pi_writeopen p) then
    piperead a n s = if ctrue (p_killed q) then Ret (-1, []) s
                     else Switch (slept_on (C_nread a) i s)
  else
    let l := take (Z.to_nat n) (contents p) in
    exists p', pipe_ok p' /\ contents p = l ++ contents p' /\
      piperead a n s =
        Ret (Z.of_nat (length l), l) (woken_on (C_nwrite a) (set_pipe a p' s)).
Proof.
  intros Hok Hp Hh Hc Hq.
  assert (Hemp : bool_decide (contents p = []) = pipe_empty p).
  { apply eq_bool_prop_intro. rewrite bool_decide_spec, Is_true_true, pipe_empty_iff by done.
    rewrite <- length_contents. split; [by intros ->|apply nil_length_inv]. }
  rewrite Hemp. unfold piperead. rewrite locked_bind by (rewrite Hh; apply not_elem_of_nil).
  rewrite Hh. unfold piperead_locked. set (s0 := s <| k_held := [L_pipe a] |>).
  assert (E0 : s0 = set_pipe a p s0) by by rewrite set_pipe_id.
  rewrite (bind_get_pipe a p) by done. destruct (_ && _).
  - rewrite (bind_eq _ _ _ _ _ (my_killed_run i q s0 Hc Hq)). destruct (ctrue (p_killed q)).
    + rewrite (unlock_run _ p s0 s) by done. by rewrite set_pipe_id.
    + rewrite (sleep_ok _ _ i q) by done. reflexivity.
  - cbv zeta. destruct (piperead_loop (Z.to_nat n) p s0 Hok Hp) as (p' & H1 & H2 & H3).
    exists p'. split; [done|]. split; [by rewrite H2, take_drop|].
    rewrite (bind_eq _ _ _ _ _ H3).
    rewrite (bind_eq _ _ _ _ _ (wakeup_run (C_nwrite a) (set_pipe a p' s0)
      ltac:(by intros ?%list_elem_of_singleton))).
    rewrite (release_head _ []) by (done || apply not_elem_of_nil).
    unfold ret. f_equal. apply kstate_ext; try reflexivity. done.
Qed.
End PipeSpec.

(** ** Instances *)

(** A pipe whose counters are about to wrap, holding one byte. *)
Definition demo_pipe : pipe := mkPipe (replicate 512 7) (2 ^ 32 - 2) (2 ^ 32 - 1) 1 1.
Definition pipe_demo : kstate := demo2 <| k_pipes := {[0x80200000 := demo_pipe]} |>.

Lemma demo_pipe_ok : pipe_ok demo_pipe.
Proof. by split; vm_compute. Qed.


Lemma piperead_spec_witness :
  exists p', contents p' = [] /\
    piperead 0x80200000 5 pipe_demo =
      Ret (1, [7]) (woken_on (C_nwrite 0x80200000) (set_pipe 0x80200000 p' pipe_demo)).
Proof.
  destruct (piperead_spec 0x80200000 5 demo_pipe pipe_demo 0 (demo_proc 1 RUNNING None)
    demo_pipe_ok eq_refl eq_refl eq_refl eq_refl) as (p' & _ & Hc & E).
  exists p'. split; [|exact E]. change (contents demo_pipe) with [7] in Hc. by injection Hc.
Defined.
