(* ===== verification/Spinlock.v ===== *)
(** Spin locks ([spinlock.c]) on several CPUs.  The routines are translated
    over the lock words, the owner fields, the [pushcli] depths and the
    interrupt flags of the CPUs; a step relation interleaves the CPUs at the
    points where another CPU can see what happens.  The last part relates the
    locks to the list of held locks that the rest of the kernel model uses. *)
From S2P Require Import Prelude Kstate Demo Mem Sched.

(** * State *)

(** spinlock.h: [struct spinlock] *)
Record spinlock : Type := mkSpin {
  lk_locked : Z;
  lk_name : string;
  lk_cpu : option nat;
  lk_pcs : list Z;
}.
#[export] Instance eta_spinlock : Eta spinlock := fun r =>
  mkSpin (lk_locked r) (lk_name r) (lk_cpu r) (lk_pcs r).

(** proc.h: the fields of [struct cpu] that locks use, and the CPU's EFLAGS *)
Record cpu : Type := mkCpu {
  c_eflags : Z;
  c_ncli : Z;
  c_intena : Z;
}.
#[export] Instance eta_cpu : Eta cpu := fun r => mkCpu (c_eflags r) (c_ncli r) (c_intena r).

Record machine : Type := mkM { m_locks : list spinlock; m_cpus : list cpu }.
#[export] Instance eta_machine : Eta machine := fun r => mkM (m_locks r) (m_cpus r).

Definition get_cpu (c : nat) : M machine cpu := l <- gets m_cpus;; deref (l !! c).
Definition upd_cpu (c : nat) (f : cpu -> cpu) : M machine unit :=
  modify (fun m => m <| m_cpus ::= alter f c |>).
Definition get_lock (l : nat) : M machine spinlock := x <- gets m_locks;; deref (x !! l).
Definition upd_lock (l : nat) (f : spinlock -> spinlock) : M machine unit :=
  modify (fun m => m <| m_locks ::= alter f l |>).

(** * The routines; [c] is [mycpu()] *)

Definition initlock (l : nat) (name : string) : M machine unit :=
  upd_lock l (fun lk => lk <| lk_name := name |> <| lk_locked := 0 |> <| lk_cpu := None |>).

Definition readeflags (c : nat) : M machine Z := x <- get_cpu c;; ret (c_eflags x).
Definition cli (c : nat) : M machine unit :=
  upd_cpu c (fun x => x <| c_eflags ::= fun f => Z.land f (Z.lnot FL_IF) |>).
Definition sti (c : nat) : M machine unit :=
  upd_cpu c (fun x => x <| c_eflags ::= fun f => Z.lor f FL_IF |>).

Definition pushcli (c : nat) : M machine unit :=
  eflags <- readeflags c;;
  cli c;;;
  x <- get_cpu c;;
  whenM (c_ncli x =? 0) (upd_cpu c (fun x => x <| c_intena := Z.land eflags FL_IF |>));;;
  upd_cpu c (fun x => x <| c_ncli ::= fun n => n + 1 |>).

Definition popcli (c : nat) : M machine unit :=
  eflags <- readeflags c;;
  if ctrue (Z.land eflags FL_IF) then panic "popcli - interruptible"
  else
    upd_cpu c (fun x => x <| c_ncli ::= fun n => n - 1 |>);;;
    x <- get_cpu c;;
    if c_ncli x <? 0 then panic "popcli"
    else whenM ((c_ncli x =? 0) && ctrue (c_intena x)) (sti c).

Definition holding (c l : nat) : M machine bool :=
  pushcli c;;;
  lk <- get_lock l;;
  popcli c;;;
  ret (ctrue (lk_locked lk) && bool_decide (lk_cpu lk = Some c)).

(** [xchg(&lk->locked, v)], an atomic exchange *)
Definition xchg (l : nat) (v : Z) : M machine Z :=
  lk <- get_lock l;; upd_lock l (fun lk => lk <| lk_locked := v |>);;; ret (lk_locked lk).

(** [acquire] up to its loop, one turn of the loop, and what follows; [pcs]
    is what [getcallerpcs] finds. *)
Definition acquire_enter (c l : nat) : M machine unit :=
  pushcli c;;;
  h <- holding c l;;
  if (h : bool) then panic "acquire" else ret tt.
Definition acquire_spin (l : nat) : M machine bool :=
  r <- xchg l 1;; ret (r =? 0).
Definition acquire_end (c l : nat) (pcs : list Z) : M machine unit :=
  upd_lock l (fun lk => lk <| lk_cpu := Some c |> <| lk_pcs := pcs |>).

(** [acquire] by a CPU that is alone: at most [n] turns of the loop. *)
Definition acquire_lock (n c l : nat) (pcs : list Z) : M machine unit :=
  acquire_enter c l;;;
  loop n (fun _ => b <- acquire_spin l;; ret (if (b : bool) then inr tt else inl tt)) tt;;;
  acquire_end c l pcs.

(** [release] before and after the lock word is cleared. *)
Definition release_enter (c l : nat) : M machine unit :=
  h <- holding c l;;
  if negb h then panic "release"
  else upd_lock l (fun lk => lk <| lk_pcs ::= <[0%nat := 0]> |> <| lk_cpu := None |>).
Definition release_end (c l : nat) : M machine unit :=
  upd_lock l (fun lk => lk <| lk_locked := 0 |>);;; popcli c.
Definition release_lock (c l : nat) : M machine unit :=
  release_enter c l;;; release_end c l.

(** * What the routines compute *)

Definition set_cpu (c : nat) (x : cpu) (m : machine) : machine :=
  m <| m_cpus ::= <[c := x]> |>.
Definition set_lock (l : nat) (lk : spinlock) (m : machine) : machine :=
  m <| m_locks ::= <[l := lk]> |>.

Lemma bind_get_cpu {B} c x (k : cpu -> M machine B) m :
  m_cpus m !! c = Some x -> bind (get_cpu c) k m = k x m.
Proof. intros H. unfold get_cpu. mrun. by rewrite H. Qed.
Lemma upd_cpu_run c x f m :
  m_cpus m !! c = Some x -> upd_cpu c f m = Ret tt (set_cpu c (f x) m).
Proof.
  intros H. unfold upd_cpu, set_cpu, modify. destruct m. unfold upd. cbn in *.
  by rewrite (list_alter_at f c x).
Qed.
Lemma bind_upd_cpu {B} c x f (k : unit -> M machine B) m :
  m_cpus m !! c = Some x -> bind (upd_cpu c f) k m = k tt (set_cpu c (f x) m).
Proof. intros H. unfold bind. by rewrite (upd_cpu_run c x). Qed.
Lemma bind_get_lock {B} l x (k : spinlock -> M machine B) m :
  m_locks m !! l = Some x -> bind (get_lock l) k m = k x m.
Proof. intros H. unfold get_lock. mrun. by rewrite H. Qed.
Lemma upd_lock_run l x f m :
  m_locks m !! l = Some x -> upd_lock l f m = Ret tt (set_lock l (f x) m).
Proof.
  intros H. unfold upd_lock, set_lock, modify. destruct m. unfold upd. cbn in *.
  by rewrite (list_alter_at f l x).
Qed.
Lemma set_cpu_set_cpu c x y m : set_cpu c y (set_cpu c x m) = set_cpu c y m.
Proof. destruct m. unfold set_cpu, upd. cbn. by rewrite list_insert_insert_eq. Qed.
Lemma set_cpu_lookup c x y m : m_cpus m !! c = Some x -> m_cpus (set_cpu c y m) !! c = Some y.
Proof. intros H. cbn. apply list_lookup_insert_eq. by eapply lookup_lt_Some. Qed.

Definition pushed (x : cpu) : cpu :=
  mkCpu (Z.land (c_eflags x) (Z.lnot FL_IF)) (c_ncli x + 1)
    (if c_ncli x =? 0 then Z.land (c_eflags x) FL_IF else c_intena x).
Definition popped (x : cpu) : cpu :=
  mkCpu (if (c_ncli x - 1 =? 0) && ctrue (c_intena x) then Z.lor (c_eflags x) FL_IF
         else c_eflags x) (c_ncli x - 1) (c_intena x).

Lemma pushcli_run c x m : m_cpus m !! c = Some x -> pushcli c m = Ret tt (set_cpu c (pushed x) m).
Proof.
  intros H. unfold pushcli, readeflags, cli. rewrite bind_assoc, (bind_get_cpu c x) by done. mrun.
  rewrite (bind_upd_cpu c x) by done.
  rewrite (bind_get_cpu c _) by by eapply set_cpu_lookup.
  set (x1 := x <| c_eflags ::= _ |>). change (c_ncli x1) with (c_ncli x).
  unfold pushed. destruct (c_ncli x =? 0) eqn:E; cbn [whenM]; mrun.
  - rewrite (bind_upd_cpu c x1) by by eapply set_cpu_lookup.
    erewrite upd_cpu_run by (eapply set_cpu_lookup, set_cpu_lookup; done).
    by rewrite !set_cpu_set_cpu.
  - erewrite upd_cpu_run by by eapply set_cpu_lookup.
    by rewrite !set_cpu_set_cpu.
Qed.

Lemma popcli_run c x m :
  m_cpus m !! c = Some x -> Z.land (c_eflags x) FL_IF = 0 -> 1 <= c_ncli x ->
  popcli c m = Ret tt (set_cpu c (popped x) m).
Proof.
  intros H Hif Hn. unfold popcli, readeflags. rewrite bind_assoc, (bind_get_cpu c x) by done. mrun.
  rewrite Hif. change (ctrue 0) with false. cbv iota. rewrite (bind_upd_cpu c x) by done.
  rewrite (bind_get_cpu c _) by by eapply set_cpu_lookup.
  set (x1 := x <| c_ncli ::= _ |>). change (c_ncli x1) with (c_ncli x - 1).
  change (c_intena x1) with (c_intena x). rewrite (proj2 (Z.ltb_ge _ _)) by lia.
  unfold popped, sti. destruct (_ && _) eqn:E; cbn [whenM].
  - erewrite upd_cpu_run by by eapply set_cpu_lookup. by rewrite set_cpu_set_cpu.
  - done.
Qed.

(** A CPU with interrupts off whenever a [pushcli] is outstanding. *)
Definition cpu_ok (x : cpu) : Prop :=
  0 <= c_ncli x /\ (0 < c_ncli x -> Z.land (c_eflags x) FL_IF = 0).

Lemma if_cleared f : Z.land (Z.land f (Z.lnot FL_IF)) FL_IF = 0.
Proof. rewrite <- Z.land_assoc. change (Z.land (Z.lnot FL_IF) FL_IF) with 0. apply Z.land_0_r. Qed.

Lemma if_restored f :
  (if ctrue (Z.land f FL_IF) then Z.lor (Z.land f (Z.lnot FL_IF)) FL_IF
   else Z.land f (Z.lnot FL_IF)) = f.
Proof.
  unfold ctrue. change FL_IF with (2 ^ 9).
  destruct (Z.eqb_spec (Z.land f (2 ^ 9)) 0) as [E|E]; cbn [negb]; apply Z.bits_inj'; intros i Hi;
    rewrite ?Z.lor_spec, !Z.land_spec, Z.lnot_spec, Z.pow2_bits_eqb by lia;
    destruct (Z.eqb_spec 9 i) as [<-|]; cbn [negb andb orb]; rewrite ?andb_true_r, ?orb_false_r;
    try done.
  - assert (H : Z.testbit (Z.land f (2 ^ 9)) 9 = false) by by rewrite E.
    rewrite Z.land_spec, Z.pow2_bits_true in H by lia. by destruct (Z.testbit f 9).
  - destruct (Z.testbit f 9) eqn:Hb; [done|]. exfalso. apply E. apply Z.bits_inj'. intros i Hi9.
    rewrite Z.land_spec, Z.pow2_bits_eqb, Z.bits_0 by lia.
    destruct (Z.eqb_spec 9 i) as [<-|]; [by rewrite Hb|by rewrite andb_false_r].
Qed.

Lemma pushed_ok x : cpu_ok x -> cpu_ok (pushed x) /\ 0 < c_ncli (pushed x).
Proof.
  intros [Hn Hif]. unfold cpu_ok, pushed. cbn. repeat split; try lia. intros _. apply if_cleared.
Qed.

Lemma if_cleared_id f : Z.land f FL_IF = 0 -> Z.land f (Z.lnot FL_IF) = f.
Proof. intros H. rewrite <- (if_restored f) at 2. by rewrite H. Qed.

(** A matched [pushcli] and [popcli] leave the depth and the flags alone. *)
Lemma popped_pushed x :
  cpu_ok x -> c_eflags (popped (pushed x)) = c_eflags x /\ c_ncli (popped (pushed x)) = c_ncli x.
Proof.
  intros [Hn Hif]. unfold popped, pushed. cbn.
  replace (c_ncli x + 1 - 1) with (c_ncli x) by lia. split; [|done].
  destruct (Z.eqb_spec (c_ncli x) 0) as [E|E]; cbn [andb].
  - apply if_restored.
  - apply if_cleared_id, Hif. lia.
Qed.

Lemma holding_run c l x lk m :
  m_cpus m !! c = Some x -> m_locks m !! l = Some lk -> cpu_ok x ->
  holding c l m =
    Ret (ctrue (lk_locked lk) && bool_decide (lk_cpu lk = Some c)) (set_cpu c (popped (pushed x)) m).
Proof.
  intros Hx Hl Hok. destruct (pushed_ok x Hok) as [[H1 H2] H3]. unfold holding, bind at 1.
  rewrite (pushcli_run c x) by done. rewrite (bind_get_lock l lk) by done. unfold bind at 1.
  rewrite (popcli_run c (pushed x)); [|by eapply set_cpu_lookup|auto|lia].
  by rewrite set_cpu_set_cpu.
Qed.

(** * Several CPUs *)

(** Where a CPU is: outside the lock routines, in the loop of [acquire], past
    it but not yet recorded as owner, or in [release] with the owner field
    cleared and the lock word still set. *)
Inductive pc : Type := Out | Spin (l : nat) | Got (l : nat) | Dropped (l : nat).
#[export] Instance pc_eq_dec : EqDecision pc.
Proof. solve_decision. Defined.

(** One CPU takes a step; a CPU outside the lock routines may enable
    interrupts when it has no [pushcli] outstanding, as [scheduler] does. *)
Inductive lock_step : machine * list pc -> machine * list pc -> Prop :=
| step_enter m ps c l m' :
    ps !! c = Some Out -> acquire_enter c l m = Ret tt m' ->
    lock_step (m, ps) (m', <[c := Spin l]> ps)
| step_spin m ps c l b m' :
    ps !! c = Some (Spin l) -> acquire_spin l m = Ret b m' ->
    lock_step (m, ps) (m', <[c := if (b : bool) then Got l else Spin l]> ps)
| step_own m ps c l pcs m' :
    ps !! c = Some (Got l) -> acquire_end c l pcs m = Ret tt m' ->
    lock_step (m, ps) (m', <[c := Out]> ps)
| step_drop m ps c l m' :
    ps !! c = Some Out -> release_enter c l m = Ret tt m' ->
    lock_step (m, ps) (m', <[c := Dropped l]> ps)
| step_free m ps c l m' :
    ps !! c = Some (Dropped l) -> release_end c l m = Ret tt m' ->
    lock_step (m, ps) (m', <[c := Out]> ps)
| step_sti m ps c x m' :
    ps !! c = Some Out -> m_cpus m !! c = Some x -> c_ncli x = 0 -> sti c m = Ret tt m' ->
    lock_step (m, ps) (m', ps).

(** CPU [c] is between the exchange that took lock [l] and the store that
    gives it back. *)
Definition inside (m : machine) (ps : list pc) (c l : nat) : Prop :=
  ps !! c = Some (Got l) \/ ps !! c = Some (Dropped l) \/
  exists lk, m_locks m !! l = Some lk /\ lk_cpu lk = Some c.

(** The number of locks whose owner field names [c]. *)
Definition owned (c : nat) (ls : list spinlock) : nat :=
  length (filter (fun lk => lk_cpu lk = Some c) ls).

Record lock_inv (m : machine) (ps : list pc) : Prop := mkLockInv {
  li_len : length ps = length (m_cpus m);
  li_free : forall l lk, m_locks m !! l = Some lk -> lk_locked lk = 0 ->
    forall c, ~ inside m ps c l;
  li_word : forall l lk, m_locks m !! l = Some lk -> lk_locked lk = 0 \/ lk_locked lk = 1;
  li_one : forall l c d, inside m ps c l -> inside m ps d l -> c = d;
  li_busy : forall l lk c, m_locks m !! l = Some lk -> lk_cpu lk = Some c ->
    ps !! c <> Some (Got l) /\ ps !! c <> Some (Dropped l);
  li_owner : forall l lk c, m_locks m !! l = Some lk -> lk_cpu lk = Some c -> is_Some (ps !! c);
  li_lock : forall c l, inside m ps c l -> is_Some (m_locks m !! l);
  li_cli : forall c x p, m_cpus m !! c = Some x -> ps !! c = Some p ->
    cpu_ok x /\
    c_ncli x = Z.of_nat (owned c (m_locks m) + if decide (p = Out) then 0 else 1);
}.

Lemma owned_insert c l lk lk' ls :
  ls !! l = Some lk ->
  (owned c (<[l := lk']> ls) + (if decide (lk_cpu lk = Some c) then 1 else 0) =
   owned c ls + (if decide (lk_cpu lk' = Some c) then 1 else 0))%nat.
Proof.
  revert l. unfold owned. induction ls as [|y ls IH]; intros [|l]; cbn [lookup list_lookup]; try done.
  - intros [= ->]. cbn [insert list_insert]. rewrite !filter_cons.
    destruct (decide (lk_cpu lk = Some c)), (decide (lk_cpu lk' = Some c)); cbn [length]; lia.
  - intros H%IH. change (<[S l := lk']> (y :: ls)) with (y :: <[l := lk']> ls).
    rewrite !filter_cons.
    destruct (decide (lk_cpu lk = Some c)), (decide (lk_cpu lk' = Some c)),
      (decide (lk_cpu y = Some c)); cbn [length]; lia.
Qed.

(** The effect of the steps. *)
Lemma popped_pushed_inner x : cpu_ok x -> 0 < c_ncli x -> popped (pushed x) = x.
Proof.
  intros [_ Hif] Hn. unfold popped, pushed. cbn.
  replace (c_ncli x + 1 - 1) with (c_ncli x) by lia. rewrite (proj2 (Z.eqb_neq _ _)) by lia.
  cbn [andb]. rewrite if_cleared_id by auto. by destruct x.
Qed.

Lemma acquire_enter_run c l x lk m :
  m_cpus m !! c = Some x -> m_locks m !! l = Some lk -> cpu_ok x ->
  acquire_enter c l m =
    if ctrue (lk_locked lk) && bool_decide (lk_cpu lk = Some c) then Panic "acquire"
    else Ret tt (set_cpu c (pushed x) m).
Proof.
  intros Hx Hl Hok. destruct (pushed_ok x Hok) as [H1 H2].
  unfold acquire_enter, bind at 1. rewrite (pushcli_run c x) by done. unfold bind at 1.
  rewrite (holding_run c l (pushed x) lk); [|by eapply set_cpu_lookup|done|done].
  rewrite popped_pushed_inner, set_cpu_set_cpu by done. by destruct (_ && _).
Qed.

Lemma acquire_spin_run l lk m :
  m_locks m !! l = Some lk ->
  acquire_spin l m = Ret (lk_locked lk =? 0) (set_lock l (lk <| lk_locked := 1 |>) m).
Proof.
  intros Hl. unfold acquire_spin, xchg. mrun. rewrite (bind_get_lock l lk) by done. unfold bind.
  by rewrite (upd_lock_run l lk).
Qed.

Lemma release_enter_run c l x lk m :
  m_cpus m !! c = Some x -> m_locks m !! l = Some lk -> cpu_ok x ->
  exists y, c_ncli y = c_ncli x /\ cpu_ok y /\
  release_enter c l m =
    if ctrue (lk_locked lk) && bool_decide (lk_cpu lk = Some c) then
      Ret tt (set_lock l (lk <| lk_pcs ::= <[0%nat := 0]> |> <| lk_cpu := None |>) (set_cpu c y m))
    else Panic "release".
Proof.
  intros Hx Hl Hok. destruct (popped_pushed x Hok) as [He Hn].
  exists (popped (pushed x)). split; [done|]. split.
  { unfold cpu_ok. by rewrite He, Hn. }
  unfold release_enter, bind at 1. rewrite (holding_run c l x lk) by done.
  destruct (_ && _); cbn [negb]; [|done]. by rewrite (upd_lock_run l lk).
Qed.

Lemma release_end_run c l x lk m :
  m_cpus m !! c = Some x -> m_locks m !! l = Some lk -> cpu_ok x -> 1 <= c_ncli x ->
  release_end c l m =
    Ret tt (set_cpu c (popped x) (set_lock l (lk <| lk_locked := 0 |>) m)).
Proof.
  intros Hx Hl [H0 Hif] Hn. unfold release_end, bind. rewrite (upd_lock_run l lk) by done.
  apply (popcli_run c x); [done|apply Hif; lia|lia].
Qed.

Lemma popped_ok x : cpu_ok x -> 1 <= c_ncli x -> cpu_ok (popped x).
Proof.
  intros [H0 Hif] Hn. unfold cpu_ok, popped. cbn. split; [lia|]. intros H.
  rewrite (proj2 (Z.eqb_neq _ _)) by lia. apply Hif. lia.
Qed.

(** ** The invariant *)

Lemma ps_insert (ps : list pc) c p0 p d q :
  ps !! c = Some p0 -> <[c := p]> ps !! d = Some q -> (d = c /\ q = p) \/ (d <> c /\ ps !! d = Some q).
Proof.
  intros Hc. destruct (decide (d = c)) as [->|Hd].
  - rewrite list_lookup_insert_eq by (by eapply lookup_lt_Some). intros [= ->]. by left.
  - rewrite list_lookup_insert_ne by done. by right.
Qed.
Lemma locks_insert (ls : list spinlock) l lk0 lk k x :
  ls !! l = Some lk0 -> <[l := lk]> ls !! k = Some x -> (k = l /\ x = lk) \/ (k <> l /\ ls !! k = Some x).
Proof.
  intros Hc. destruct (decide (k = l)) as [->|Hd].
  - rewrite list_lookup_insert_eq by (by eapply lookup_lt_Some). intros [= ->]. by left.
  - rewrite list_lookup_insert_ne by done. by right.
Qed.

Section Step.
Context (m : machine) (ps : list pc) (Inv : lock_inv m ps).
Context (c l : nat) (p : pc) (x : cpu) (lk : spinlock).
Context (Hp : ps !! c = Some p) (Hx : m_cpus m !! c = Some x) (Hlk : m_locks m !! l = Some lk).

(** A step of CPU [c] at lock [l] that changes at most its place, its CPU
    record and the lock, and lets nobody in but, possibly, itself into a free
    lock. *)
Context (p' : pc) (y : cpu) (lk' : spinlock).
Context (Hw : lk_locked lk' = 0 \/ lk_locked lk' = 1).
Context (Hown : forall d, lk_cpu lk' = Some d -> lk_cpu lk = Some d \/ (d = c /\ p = Got l)).
Context (Hin : forall k, p' = Got k \/ p' = Dropped k -> k = l /\
  (lk_locked lk = 0 \/ inside m ps c l) /\ lk_cpu lk' = None).
Context (Hfree : lk_locked lk' = 0 ->
  lk_locked lk = 0 /\ (forall d, lk_cpu lk' <> Some d) \/ p = Dropped l).
Context (Hfree' : lk_locked lk' = 0 -> p' = Out \/ exists k, p' = Spin k).
Context (Hy : cpu_ok y).
Context (Hcli : c_ncli y =
  c_ncli x + (if decide (p' = Out) then 0 else 1) - (if decide (p = Out) then 0 else 1)
    + (if decide (lk_cpu lk' = Some c) then 1 else 0)
    - (if decide (lk_cpu lk = Some c) then 1 else 0)).
Context (Hoth : forall d, d <> c -> lk_cpu lk' = Some d <-> lk_cpu lk = Some d).

Let m' := set_lock l lk' (set_cpu c y m).
Let ps' := <[c := p']> ps.

Lemma step_lock : m_locks m' !! l = Some lk'.
Proof. cbn. apply list_lookup_insert_eq. by eapply lookup_lt_Some. Qed.

Lemma step_inside d k :
  inside m' ps' d k -> inside m ps d k \/ (d = c /\ k = l /\ lk_locked lk = 0).
Proof.
  intros [Hd|[Hd|(z & Hz & Hzc)]].
  - apply (ps_insert _ _ _ _ _ _ Hp) in Hd as [[-> Hd]|[_ Hd]]; [|left; by left].
    destruct (Hin k (or_introl (eq_sym Hd))) as (-> & [?|?] & _); auto.
  - apply (ps_insert _ _ _ _ _ _ Hp) in Hd as [[-> Hd]|[_ Hd]]; [|left; right; by left].
    destruct (Hin k (or_intror (eq_sym Hd))) as (-> & [?|?] & _); auto.
  - apply (locks_insert _ _ _ _ _ _ Hlk) in Hz as [[-> ->]|[_ Hz]].
    + destruct (Hown d Hzc) as [Hold|[-> ->]]; left; [right; right; by exists lk|by left].
    + left. right. right. by exists z.
Qed.

(** A lock that is free after the step is not entered through the place of
    CPU [c]. *)
Lemma step_freed_place :
  lk_locked lk' = 0 -> ps' !! c <> Some (Got l) /\ ps' !! c <> Some (Dropped l).
Proof.
  intros H0. split; intros Hd; apply (ps_insert _ _ _ _ _ _ Hp) in Hd as [[_ Hd]|[? _]]; try done;
    destruct (Hfree' H0) as [?|[? ?]]; congruence.
Qed.

Lemma step_freed d : lk_locked lk' = 0 -> ~ inside m' ps' d l.
Proof.
  intros H0 Hd. destruct (step_freed_place H0) as [Hg Hdr].
  assert (d = c) as ->.
  { destruct (step_inside d l Hd) as [Hd'|(-> & _)]; [|done].
    destruct (Hfree H0) as [[Hl0 _]|Hpd]; [by destruct (li_free _ _ Inv l lk Hlk Hl0 d)|].
    apply (li_one _ _ Inv l); [done|]. right. left. by rewrite <- Hpd. }
  destruct Hd as [Hd|[Hd|(w & Hw' & Hwc)]]; [done|done|].
  rewrite step_lock in Hw'. injection Hw' as <-.
  destruct (Hfree H0) as [[_ Hnone]|Hpd]; [by apply (Hnone c)|].
  destruct (Hown c Hwc) as [Hold|[_ ?]]; [|congruence].
  destruct (li_busy _ _ Inv l lk c Hlk Hold) as [_ Hb]. apply Hb. by rewrite <- Hpd.
Qed.

Lemma step_one k d e : inside m' ps' d k -> inside m' ps' e k -> d = e.
Proof.
  intros Hd He.
  destruct (step_inside d k Hd) as [Hd'|(Ed & Ek & H0)], (step_inside e k He) as [He'|(Ee & Ek' & H0')].
  - by apply (li_one _ _ Inv k).
  - rewrite Ek' in Hd'. by destruct (li_free _ _ Inv l lk Hlk H0' d).
  - rewrite Ek in He'. by destruct (li_free _ _ Inv l lk Hlk H0 e).
  - congruence.
Qed.

Lemma step_busy k z d :
  m_locks m' !! k = Some z -> lk_cpu z = Some d ->
  ps' !! d <> Some (Got k) /\ ps' !! d <> Some (Dropped k).
Proof.
  intros Hz Hzc. apply (locks_insert _ _ _ _ _ _ Hlk) in Hz as [[-> ->]|[Hkl Hz]].
  - split; intros Hd; apply (ps_insert _ _ _ _ _ _ Hp) in Hd as [[-> Hd]|[Hdc Hd]].
    + destruct (Hin l (or_introl (eq_sym Hd))) as (_ & _ & ?). congruence.
    + apply Hoth in Hzc; [|done]. by destruct (li_busy _ _ Inv l lk d Hlk Hzc) as [? _].
    + destruct (Hin l (or_intror (eq_sym Hd))) as (_ & _ & ?). congruence.
    + apply Hoth in Hzc; [|done]. by destruct (li_busy _ _ Inv l lk d Hlk Hzc) as [_ ?].
  - split; intros Hd; apply (ps_insert _ _ _ _ _ _ Hp) in Hd as [[-> Hd]|[Hdc Hd]].
    + by destruct (Hin k (or_introl (eq_sym Hd))) as (? & _).
    + by destruct (li_busy _ _ Inv k z d Hz Hzc) as [? _].
    + by destruct (Hin k (or_intror (eq_sym Hd))) as (? & _).
    + by destruct (li_busy _ _ Inv k z d Hz Hzc) as [_ ?].
Qed.

Lemma step_owner k z d :
  m_locks m' !! k = Some z -> lk_cpu z = Some d -> is_Some (ps' !! d).
Proof.
  intros Hz Hzc. apply lookup_lt_is_Some. unfold ps'. rewrite length_insert. apply lookup_lt_is_Some.
  apply (locks_insert _ _ _ _ _ _ Hlk) in Hz as [[-> ->]|[Hkl Hz]].
  - destruct (Hown d Hzc) as [Hold|[-> _]]; [by apply (li_owner _ _ Inv l lk)|by exists p].
  - by apply (li_owner _ _ Inv k z).
Qed.

Lemma step_cli d z q :
  m_cpus m' !! d = Some z -> ps' !! d = Some q ->
  cpu_ok z /\ c_ncli z = Z.of_nat (owned d (m_locks m') + if decide (q = Out) then 0 else 1).
Proof.
  intros Hz Hq. cbn in Hz. assert (Ho := owned_insert d l lk lk' (m_locks m) Hlk).
  change (m_locks m') with (<[l := lk']> (m_locks m)). destruct (decide (d = c)) as [->|Hdc].
  - rewrite list_lookup_insert_eq in Hz by (by eapply lookup_lt_Some). injection Hz as <-.
    apply (ps_insert _ _ _ _ _ _ Hp) in Hq as [[_ ->]|[? _]]; [|done].
    split; [done|]. destruct (li_cli _ _ Inv c x p Hx Hp) as [_ Hn]. rewrite Hcli, Hn.
    repeat case_decide; lia.
  - rewrite list_lookup_insert_ne in Hz by done.
    apply (ps_insert _ _ _ _ _ _ Hp) in Hq as [[? _]|[_ Hq]]; [done|].
    destruct (li_cli _ _ Inv d z q Hz Hq) as [Hzo Hn]. split; [done|]. rewrite Hn.
    specialize (Hoth d Hdc). repeat case_decide; try lia; tauto.
Qed.

Lemma lock_inv_step : lock_inv m' ps'.
Proof.
  split.
  - unfold ps'. cbn. rewrite !length_insert. apply Inv.
  - intros k z Hz Hz0 d Hd. apply (locks_insert _ _ _ _ _ _ Hlk) in Hz as [[-> ->]|[Hkl Hz]].
    + by apply (step_freed d).
    + destruct (step_inside d k Hd) as [Hd'|(_ & -> & _)]; [|done].
      by apply (li_free _ _ Inv k z Hz Hz0 d).
  - intros k z Hz. apply (locks_insert _ _ _ _ _ _ Hlk) in Hz as [[-> ->]|[_ Hz]]; [done|].
    by apply (li_word _ _ Inv k).
  - exact step_one.
  - exact step_busy.
  - exact step_owner.
  - intros d k Hd. destruct (decide (k = l)) as [->|Hkl]; [exists lk'; apply step_lock|].
    destruct (step_inside d k Hd) as [Hd'|(_ & -> & _)]; [|done].
    destruct (li_lock _ _ Inv d k Hd') as [z Hz]. exists z. cbn. by rewrite list_lookup_insert_ne.
  - exact step_cli.
Qed.
End Step.

Lemma set_lock_id l lk m : m_locks m !! l = Some lk -> set_lock l lk m = m.
Proof. intros H. destruct m. unfold set_lock, upd. cbn in *. by rewrite list_insert_id. Qed.
Lemma set_cpu_id c x m : m_cpus m !! c = Some x -> set_cpu c x m = m.
Proof. intros H. destruct m. unfold set_cpu, upd. cbn in *. by rewrite list_insert_id. Qed.
Lemma set_comm c x l lk m : set_cpu c x (set_lock l lk m) = set_lock l lk (set_cpu c x m).
Proof. done. Qed.

Lemma get_lock_Some {B} l (k : spinlock -> M machine B) m b m' :
  bind (get_lock l) k m = Ret b m' -> exists lk, m_locks m !! l = Some lk.
Proof. unfold get_lock. mrun. destruct (m_locks m !! l); [eauto|done]. Qed.
Lemma holding_lock c l m b m' : holding c l m = Ret b m' -> exists lk, m_locks m !! l = Some lk.
Proof.
  unfold holding. intros ([] & m1 & H1 & H2)%bind_Ret. apply get_lock_Some in H2 as [lk Hlk].
  exists lk. revert Hlk. assert (E : m_locks m1 = m_locks m); [|by rewrite E].
  revert H1. unfold pushcli, readeflags, cli, get_cpu. mrun. destruct (m_cpus m !! c); [|done]. mrun.
  unfold upd_cpu. mrun. destruct (_ !! _); [|done]. mrun. destruct (c_ncli _ =? 0); cbn [whenM]; mrun;
    by intros [= <-].
Qed.

(** A free lock has no owner. *)
Lemma free_no_owner m ps l lk d :
  lock_inv m ps -> m_locks m !! l = Some lk -> lk_locked lk = 0 -> lk_cpu lk <> Some d.
Proof.
  intros Inv Hlk H0 Hd. apply (li_free _ _ Inv l lk Hlk H0 d). right. right. by exists lk.
Qed.
(** Nor does one that a CPU is about to own, or has just given up. *)
Lemma busy_no_owner m ps l lk c d :
  lock_inv m ps -> m_locks m !! l = Some lk ->
  ps !! c = Some (Got l) \/ ps !! c = Some (Dropped l) -> lk_cpu lk <> Some d.
Proof.
  intros Inv Hlk Hc Hd.
  assert (d = c) as ->.
  { apply (li_one _ _ Inv l); [right; right; by exists lk|]. destruct Hc; [by left|right; by left]. }
  destruct (li_busy _ _ Inv l lk c Hlk Hd) as [? ?]. naive_solver.
Qed.
Lemma inside_locked m ps l lk c :
  lock_inv m ps -> m_locks m !! l = Some lk -> inside m ps c l -> lk_locked lk = 1.
Proof.
  intros Inv Hlk Hc. destruct (li_word _ _ Inv l lk Hlk) as [H0|]; [|done].
  by destruct (li_free _ _ Inv l lk Hlk H0 c).
Qed.

Section Steps.
Context (m : machine) (ps : list pc) (Inv : lock_inv m ps) (c : nat) (x : cpu).
Context (Hx : m_cpus m !! c = Some x).

Lemma enter_inv l m' :
  ps !! c = Some Out -> acquire_enter c l m = Ret tt m' -> lock_inv m' (<[c := Spin l]> ps).
Proof.
  intros Hp Hr. destruct (li_cli _ _ Inv c x _ Hx Hp) as [Hok _].
  assert (Hl : exists lk, m_locks m !! l = Some lk).
  { unfold acquire_enter in Hr. apply bind_Ret in Hr as ([] & m1 & H1 & (h & m2 & H2 & _)%bind_Ret).
    rewrite (pushcli_run c x) in H1 by done. injection H1 as <-. by apply holding_lock in H2. }
  destruct Hl as [lk Hlk].
  rewrite (acquire_enter_run c l x lk m Hx Hlk Hok) in Hr. destruct (_ && _); [done|].
  injection Hr as <-. rewrite <- (set_lock_id l lk (set_cpu c (pushed x) m)) by done.
  eapply (lock_inv_step m ps Inv c l Out x lk); try done.
  - by apply (li_word _ _ Inv l).
  - auto.
  - intros k [|]; done.
  - intros H0. left. split; [done|]. intros d. by apply (free_no_owner m ps l).
  - intros _. right. by exists l.
  - by apply pushed_ok.
  - cbn. repeat case_decide; done || lia.
Qed.

Lemma spin_inv l b m' :
  ps !! c = Some (Spin l) -> acquire_spin l m = Ret b m' ->
  lock_inv m' (<[c := if b then Got l else Spin l]> ps).
Proof.
  intros Hp Hr. destruct (li_cli _ _ Inv c x _ Hx Hp) as [Hok _].
  assert (Hl : exists lk, m_locks m !! l = Some lk).
  { unfold acquire_spin, xchg in Hr. rewrite bind_assoc in Hr. by apply get_lock_Some in Hr. }
  destruct Hl as [lk Hlk]. rewrite (acquire_spin_run l lk) in Hr by done. injection Hr as <- <-.
  rewrite <- (set_cpu_id c x m) by done.
  eapply (lock_inv_step m ps Inv c l (Spin l) x lk); try done.
  - by right.
  - auto.
  - intros k. destruct (Z.eqb_spec (lk_locked lk) 0) as [H0|]; [|by intros [|]].
    intros [[= <-]|]; [|done]. split; [done|]. split; [by left|]. cbn.
    destruct (lk_cpu lk) as [d|] eqn:E; [|done]. by destruct (free_no_owner m ps l lk d Inv Hlk H0).
  - destruct (lk_locked lk =? 0); cbn; repeat case_decide; done || lia.
Qed.

Lemma own_inv l pcs m' :
  ps !! c = Some (Got l) -> acquire_end c l pcs m = Ret tt m' -> lock_inv m' (<[c := Out]> ps).
Proof.
  intros Hp Hr. destruct (li_cli _ _ Inv c x _ Hx Hp) as [Hok _].
  assert (Hc : inside m ps c l) by by left.
  destruct (li_lock _ _ Inv c l Hc) as [lk Hlk].
  unfold acquire_end in Hr. rewrite (upd_lock_run l lk) in Hr by done. injection Hr as <-.
  rewrite <- (set_cpu_id c x m) by done.
  assert (Hno : forall d, lk_cpu lk <> Some d) by (intros d; eapply busy_no_owner; eauto).
  eapply (lock_inv_step m ps Inv c l (Got l) x lk); try done.
  - right. by apply (inside_locked m ps l lk c).
  - intros d [= <-]. by right.
  - intros k [|]; done.
  - cbn. unfold upd. cbn. rewrite (inside_locked m ps l lk c) by done. done.
  - by left.
  - cbn. specialize (Hno c). repeat case_decide; done || lia.
  - intros d Hd. cbn. split; [by intros [= ->]|]. by intros ?%Hno.
Qed.

Lemma drop_inv l m' :
  ps !! c = Some Out -> release_enter c l m = Ret tt m' -> lock_inv m' (<[c := Dropped l]> ps).
Proof.
  intros Hp Hr. destruct (li_cli _ _ Inv c x _ Hx Hp) as [Hok _].
  assert (Hl : exists lk, m_locks m !! l = Some lk).
  { unfold release_enter in Hr. apply bind_Ret in Hr as (h & m1 & H1 & _). by apply holding_lock in H1. }
  destruct Hl as [lk Hlk].
  destruct (release_enter_run c l x lk m Hx Hlk Hok) as (y & Hy1 & Hy2 & E). rewrite E in Hr.
  destruct (_ && _) eqn:Eh; [|done]. injection Hr as <-.
  apply andb_true_iff in Eh as [_ Hcpu%bool_decide_eq_true].
  assert (Hc : inside m ps c l) by (right; right; by exists lk).
  eapply (lock_inv_step m ps Inv c l Out x lk); try done.
  - right. by apply (inside_locked m ps l lk c).
  - intros k [|[= <-]]; [done|]. auto.
  - cbn. unfold upd. cbn. rewrite (inside_locked m ps l lk c) by done. done.
  - cbn. unfold upd. cbn. rewrite (inside_locked m ps l lk c) by done. done.
  - rewrite Hy1. cbn. repeat case_decide; done || lia.
  - intros d Hd. cbn. split; [done|]. rewrite Hcpu. by intros [= ->].
Qed.

Lemma free_inv l m' :
  ps !! c = Some (Dropped l) -> release_end c l m = Ret tt m' -> lock_inv m' (<[c := Out]> ps).
Proof.
  intros Hp Hr. destruct (li_cli _ _ Inv c x _ Hx Hp) as [Hok Hcli].
  assert (Hc : inside m ps c l) by (right; by left).
  destruct (li_lock _ _ Inv c l Hc) as [lk Hlk].
  assert (Hn : 1 <= c_ncli x) by (rewrite Hcli; case_decide; [done|lia]).
  rewrite (release_end_run c l x lk) in Hr by done. injection Hr as <-. rewrite set_comm.
  assert (Hno : forall d, lk_cpu lk <> Some d) by (intros d; eapply busy_no_owner; eauto).
  eapply (lock_inv_step m ps Inv c l (Dropped l) x lk); try done.
  - by left.
  - intros d Hd. by left.
  - intros k [|]; done.
  - by right.
  - by left.
  - by apply popped_ok.
  - cbn. specialize (Hno c). repeat case_decide; done || lia.
Qed.
End Steps.

Lemma lock_step_inv g g' : lock_step g g' -> lock_inv g.1 g.2 -> lock_inv g'.1 g'.2.
Proof.
  intros Hs Inv. destruct Hs as [m ps c l m' Hp Hr|m ps c l b m' Hp Hr|m ps c l pcs m' Hp Hr
    |m ps c l m' Hp Hr|m ps c l m' Hp Hr|m ps c x m' Hp Hx Hn Hr]; cbn [fst snd] in *.
  1-5: assert (Hc : is_Some (m_cpus m !! c))
    by (apply lookup_lt_is_Some; rewrite <- (li_len _ _ Inv); by eapply lookup_lt_Some).
  1-5: destruct Hc as [x Hx]; eauto using enter_inv, spin_inv, own_inv, drop_inv, free_inv.
  unfold sti in Hr. rewrite (upd_cpu_run c x) in Hr by done. injection Hr as <-.
  destruct Inv as [i1 i2 i3 i4 i5 i6 i7 i8]. split; try done.
  - cbn. by rewrite length_insert.
  - intros d z q Hz Hq. cbn in Hz. destruct (decide (d = c)) as [->|Hdc].
    + rewrite list_lookup_insert_eq in Hz by (by eapply lookup_lt_Some). injection Hz as <-.
      destruct (i8 c x q Hx Hq) as [[? ?] ?]. split; [|done]. unfold cpu_ok, upd. cbn. lia.
    + rewrite list_lookup_insert_ne in Hz by done. by apply i8.
Qed.

(** * Mutual exclusion *)

(** The locks as [initlock] leaves them, and CPUs that hold nothing. *)
Definition unlocked (m : machine) (ps : list pc) : Prop :=
  Forall (fun lk => lk_locked lk = 0 /\ lk_cpu lk = None) (m_locks m) /\
  Forall (fun x => c_ncli x = 0) (m_cpus m) /\ ps = replicate (length (m_cpus m)) Out.

Lemma unlocked_inv m ps : unlocked m ps -> lock_inv m ps.
Proof.
  intros (Hl & Hc & ->). rewrite Forall_lookup in Hl. rewrite Forall_lookup in Hc.
  assert (Hp : forall c p, replicate (length (m_cpus m)) Out !! c = Some p -> p = Out).
  { by intros c p [-> _]%lookup_replicate. }
  assert (Hno : forall c l, ~ inside m (replicate (length (m_cpus m)) Out) c l).
  { intros c l [H%Hp|[H%Hp|(lk & Hlk & H)]]; [done|done|]. apply Hl in Hlk as [_ Hlk]. congruence. }
  split.
  - apply length_replicate.
  - intros l lk _ _ c. apply Hno.
  - intros l lk H%Hl. left. apply H.
  - intros l c d H. by apply Hno in H.
  - intros l lk c H%Hl. destruct H. congruence.
  - intros l lk c H%Hl. destruct H. congruence.
  - intros c l H. by apply Hno in H.
  - intros c x p H%Hc ->%Hp. unfold cpu_ok. cbn in H. rewrite H.
    assert (owned c (m_locks m) = 0%nat) as ->; [|by split].
    unfold owned. destruct (filter _ (m_locks m)) as [|lk r] eqn:E; [done|].
    assert (Hin : lk ∈ filter (fun lk => lk_cpu lk = Some c) (m_locks m)) by (rewrite E; left).
    apply list_elem_of_filter in Hin as [Hcpu (l & [_ Hlk]%Hl)%list_elem_of_lookup]. congruence.
Qed.

Lemma reachable_inv g g' : rtc lock_step g g' -> lock_inv g.1 g.2 -> lock_inv g'.1 g'.2.
Proof. induction 1; [done|]. eauto using lock_step_inv. Qed.

Lemma owned_pos c l lk ls : ls !! l = Some lk -> lk_cpu lk = Some c -> (0 < owned c ls)%nat.
Proof.
  intros Hl Hc. unfold owned.
  assert (Hin : lk ∈ filter (fun lk => lk_cpu lk = Some c) ls).
  { apply list_elem_of_filter. split; [done|]. by eapply list_elem_of_lookup_2. }
  destruct (filter _ ls); [by apply elem_of_nil in Hin|]. cbn. lia.
Qed.

(** Two CPUs with interrupts on, and one free lock. *)
Definition demo_machine : machine :=
  mkM [mkSpin 0 "ptable" None (replicate 10 0)] [mkCpu 0x202 0 0; mkCpu 0x202 0 0].
(** Both call [acquire], the first one gets the lock and the second one spins. *)
Lemma demo_contention :
  exists m, rtc lock_step (demo_machine, [Out; Out]) (m, [Out; Spin 0]) /\
    m_locks m = [mkSpin 1 "ptable" (Some 0%nat) [0x80103c5f]].
Proof.
  eexists. split.
  - eapply rtc_l; [eapply (step_enter _ _ 0%nat 0%nat); [reflexivity|vm_compute; reflexivity]|].
    eapply rtc_l; [eapply (step_enter _ _ 1%nat 0%nat); [reflexivity|vm_compute; reflexivity]|].
    eapply rtc_l; [eapply (step_spin _ _ 0%nat 0%nat); [reflexivity|vm_compute; reflexivity]|].
    eapply rtc_l; [eapply (step_spin _ _ 1%nat 0%nat); [reflexivity|vm_compute; reflexivity]|].
    eapply rtc_l; [eapply (step_own _ _ 0%nat 0%nat [0x80103c5f]); [reflexivity|vm_compute; reflexivity]|].
    apply rtc_refl.
  - reflexivity.
Qed.
Lemma demo_unlocked : unlocked demo_machine [Out; Out].
Proof. repeat split; repeat constructor. Qed.
Lemma demo_inside m :
  m_locks m = [mkSpin 1 "ptable" (Some 0%nat) [0x80103c5f]] -> inside m [Out; Spin 0%nat] 0 0.
Proof. intros H. right. right. rewrite H. by eexists. Qed.

(** C16: spin locks exclude.  In every state the CPUs can reach from unlocked
    locks, at most one CPU is between the exchange by which [acquire] takes a
    lock and the store by which [release] gives it back, and that CPU has
    interrupts disabled. *)
Theorem spin_mutual_exclusion m0 ps0 m ps c l :
  unlocked m0 ps0 -> rtc lock_step (m0, ps0) (m, ps) -> inside m ps c l ->
  (forall d, inside m ps d l -> d = c) /\
  exists x, m_cpus m !! c = Some x /\ Z.land (c_eflags x) FL_IF = 0.
Proof.
  intros H0 Hr Hc. assert (Inv : lock_inv m ps) by exact (reachable_inv _ _ Hr (unlocked_inv _ _ H0)).
  split; [intros d Hd; by apply (li_one _ _ Inv l)|].
  assert (Hp : exists p, ps !! c = Some p /\ (p <> Out \/ 0 < owned c (m_locks m))%nat).
  { destruct Hc as [Hc|[Hc|(lk & Hlk & Hcpu)]].
    - exists (Got l). split; [done|by left].
    - exists (Dropped l). split; [done|by left].
    - destruct (li_owner _ _ Inv l lk c Hlk Hcpu) as [p Hp]. exists p. split; [done|right].
      by eapply owned_pos. }
  destruct Hp as (p & Hp & Hpos).
  assert (Hx : is_Some (m_cpus m !! c))
    by (apply lookup_lt_is_Some; rewrite <- (li_len _ _ Inv); by eapply lookup_lt_Some).
  destruct Hx as [x Hx]. destruct (li_cli _ _ Inv c x p Hx Hp) as [[_ Hif] Hn].
  exists x. split; [done|]. apply Hif. rewrite Hn. case_decide; destruct Hpos; done || lia.
Qed.
Lemma spin_mutual_exclusion_witness :
  exists m, rtc lock_step (demo_machine, [Out; Out]) (m, [Out; Spin 0%nat]) /\
    (forall d, inside m [Out; Spin 0%nat] d 0 -> d = 0%nat).
Proof.
  destruct demo_contention as (m & Hr & Hm). exists m. split; [done|].
  apply (spin_mutual_exclusion demo_machine [Out; Out] m [Out; Spin 0%nat] 0 0 demo_unlocked Hr).
  by apply demo_inside.
Defined.

(** * Refinement *)

(** The locks as the rest of the kernel model sees them: which CPU holds
    which lock.  [acquire] and [release] of a lock are single steps, [acquire]
    is possible when no CPU holds the lock, and a step of one CPU leaves what
    the others hold alone. *)
Inductive abs_step (H H' : nat -> nat -> Prop) : Prop :=
| abs_acquire c l :
    (forall d, ~ H d l) -> (forall d k, H' d k <-> H d k \/ (d = c /\ k = l)) -> abs_step H H'
| abs_release c l :
    H c l -> (forall d k, H' d k <-> H d k /\ ~ (d = c /\ k = l)) -> abs_step H H'
| abs_stutter : (forall d k, H' d k <-> H d k) -> abs_step H H'.

Definition holds (m : machine) (c l : nat) : Prop :=
  exists lk, m_locks m !! l = Some lk /\ lk_cpu lk = Some c.

Lemma holds_set_cpu c x m d k : holds (set_cpu c x m) d k <-> holds m d k.
Proof. done. Qed.
Lemma holds_set_lock l lk lk' m d k :
  m_locks m !! l = Some lk ->
  holds (set_lock l lk' m) d k <-> (k = l /\ lk_cpu lk' = Some d) \/ (k <> l /\ holds m d k).
Proof.
  intros Hl. unfold holds. split.
  - intros (z & Hz & Hzd). apply (locks_insert _ _ _ _ _ _ Hl) in Hz as [[-> ->]|[? ?]]; eauto.
  - intros [[-> Hd]|[Hk (z & Hz & Hzd)]].
    + exists lk'. split; [|done]. cbn. apply list_lookup_insert_eq. by eapply lookup_lt_Some.
    + exists z. split; [|done]. cbn. by rewrite list_lookup_insert_ne.
Qed.
Lemma holds_set_same l lk lk' m d k :
  m_locks m !! l = Some lk -> lk_cpu lk' = lk_cpu lk ->
  holds (set_lock l lk' m) d k <-> holds m d k.
Proof.
  intros Hl He. rewrite (holds_set_lock l lk) by done. unfold holds. rewrite He. split.
  - intros [[-> ?]|[_ ?]]; eauto.
  - intros (z & Hz & Hzd). destruct (decide (k = l)) as [->|]; [left|right; eauto].
    split; [done|]. congruence.
Qed.

Section Refines.
Context (m : machine) (ps : list pc) (Inv : lock_inv m ps) (c : nat) (x : cpu).
Context (Hx : m_cpus m !! c = Some x).

Lemma enter_holds l m' :
  ps !! c = Some Out -> acquire_enter c l m = Ret tt m' -> abs_step (holds m) (holds m').
Proof.
  intros Hp Hr. destruct (li_cli _ _ Inv c x _ Hx Hp) as [Hok Hcli]. apply abs_stutter. intros d k.
  unfold acquire_enter in Hr. apply bind_Ret in Hr as ([] & m1 & H1 & (h & m2 & H2 & H3)%bind_Ret).
  rewrite (pushcli_run c x) in H1 by done. injection H1 as <-.
  destruct (holding_lock _ _ _ _ _ H2) as [lk Hlk].
  rewrite (holding_run c l (pushed x) lk) in H2;
    [|by eapply set_cpu_lookup|done|by apply pushed_ok].
  injection H2 as <- <-. destruct (_ && _); [done|]. by injection H3 as <-.
Qed.

Lemma spin_holds l b m' : acquire_spin l m = Ret b m' -> abs_step (holds m) (holds m').
Proof.
  intros Hr. apply abs_stutter. intros d k. unfold acquire_spin, xchg in Hr. rewrite bind_assoc in Hr.
  destruct (get_lock_Some _ _ _ _ _ Hr) as [lk Hlk].
  rewrite (bind_get_lock l lk), bind_assoc in Hr by done. unfold bind in Hr.
  rewrite (upd_lock_run l lk) in Hr by done. injection Hr as _ <-. by rewrite (holds_set_same l lk).
Qed.

Lemma own_holds l pcs m' :
  ps !! c = Some (Got l) -> acquire_end c l pcs m = Ret tt m' -> abs_step (holds m) (holds m').
Proof.
  intros Hp Hr. destruct (li_lock _ _ Inv c l ltac:(by left)) as [lk Hlk].
  unfold acquire_end in Hr. rewrite (upd_lock_run l lk) in Hr by done. injection Hr as <-.
  assert (Hno : forall d, lk_cpu lk <> Some d) by (intros d; eapply busy_no_owner; eauto).
  apply (abs_acquire _ _ c l).
  - intros d (z & Hz & Hzd). simplify_eq. by apply (Hno d).
  - intros d k. rewrite (holds_set_lock l lk) by done. cbn. unfold holds. split.
    + intros [[-> [= ->]]|[? ?]]; auto.
    + intros [(z & Hz & Hzd)|[-> ->]]; [|by left]. right. split; [|eauto]. intros ->.
      simplify_eq. by apply (Hno d).
Qed.

Lemma drop_holds l m' :
  ps !! c = Some Out -> release_enter c l m = Ret tt m' -> abs_step (holds m) (holds m').
Proof.
  intros Hp Hr. destruct (li_cli _ _ Inv c x _ Hx Hp) as [Hok _].
  assert (Hl : exists lk, m_locks m !! l = Some lk).
  { unfold release_enter in Hr. apply bind_Ret in Hr as (h & m1 & H1 & _). by apply holding_lock in H1. }
  destruct Hl as [lk Hlk].
  destruct (release_enter_run c l x lk m Hx Hlk Hok) as (y & _ & _ & E). rewrite E in Hr.
  destruct (_ && _) eqn:Eh; [|done]. injection Hr as <-.
  apply andb_true_iff in Eh as [_ Hcpu%bool_decide_eq_true].
  apply (abs_release _ _ c l); [by exists lk|].
  intros d k. rewrite (holds_set_lock l lk) by done. cbn. split.
  - intros [[_ ?]|[Hk Hh]]; [done|]. split; [done|]. by intros [_ ->].
  - intros [(z & Hz & Hzd) Hne]. right. split; [|by exists z]. intros ->. simplify_eq.
    apply Hne. split; [congruence|done].
Qed.

Lemma free_holds l m' :
  ps !! c = Some (Dropped l) -> release_end c l m = Ret tt m' -> abs_step (holds m) (holds m').
Proof.
  intros Hp Hr. destruct (li_cli _ _ Inv c x _ Hx Hp) as [Hok Hcli].
  destruct (li_lock _ _ Inv c l ltac:(right; by left)) as [lk Hlk].
  assert (Hn : 1 <= c_ncli x) by (rewrite Hcli; case_decide; [done|lia]).
  rewrite (release_end_run c l x lk) in Hr by done. injection Hr as <-.
  apply abs_stutter. intros d k. rewrite holds_set_cpu. by apply (holds_set_same l lk).
Qed.
End Refines.

(** C28: the routines implement atomic locks.  Every step of the lock
    routines is, on the relation of which CPU holds which lock, either no
    change, or one CPU taking a lock nobody holds, or one CPU giving back a
    lock it holds. *)
Theorem lock_refinement m ps m' ps' :
  lock_inv m ps -> lock_step (m, ps) (m', ps') -> abs_step (holds m) (holds m').
Proof.
  intros Inv Hs. inversion Hs as [? ? c l ? Hp Hr|? ? c l b ? Hp Hr|? ? c l pcs ? Hp Hr
    |? ? c l ? Hp Hr|? ? c l ? Hp Hr|? ? c x ? Hp Hx Hn Hr]; simplify_eq.
  1-5: assert (Hc : is_Some (m_cpus m !! c))
    by (apply lookup_lt_is_Some; rewrite <- (li_len _ _ Inv); by eapply lookup_lt_Some).
  1-5: destruct Hc as [x Hx].
  1-5: eauto using enter_holds, spin_holds, own_holds, drop_holds, free_holds.
  unfold sti in Hr. rewrite (upd_cpu_run c x) in Hr by done. injection Hr as <-.
  by apply abs_stutter.
Qed.
Lemma lock_refinement_witness :
  exists m', lock_step (demo_machine, [Out; Out]) (m', [Out; Spin 0%nat]) /\
    abs_step (holds demo_machine) (holds m').
Proof.
  eexists. assert (Hs : lock_step (demo_machine, [Out; Out])
    (set_cpu 1 (mkCpu 0x2 1 0x200) demo_machine, [Out; Spin 0%nat]))
    by (apply (step_enter demo_machine [Out; Out] 1%nat 0%nat); [reflexivity|vm_compute; reflexivity]).
  split; [exact Hs|].
  apply (lock_refinement _ [Out; Out] _ _ (unlocked_inv _ _ demo_unlocked) Hs).
Defined.

(** * Nesting *)

(** An uncontended [acquire] enters its loop once, and [acquire] followed
    by [release] leaves the lock free and the CPU's interrupt flag and
    [pushcli] depth as they were, at any depth.  Between the two, a second
    [acquire] by the same CPU panics and so does a [release] by another. *)
Theorem acquire_release n c l pcs m x lk :
  m_cpus m !! c = Some x -> cpu_ok x -> m_locks m !! l = Some lk -> lk_locked lk = 0 ->
  exists m1 m2 y,
    acquire_lock (S n) c l pcs m = Ret tt m1 /\ release_lock c l m1 = Ret tt m2 /\
    m_cpus m2 !! c = Some y /\ c_eflags y = c_eflags x /\ c_ncli y = c_ncli x /\
    (lk_locked <$> m_locks m2 !! l) = Some 0 /\
    acquire_lock (S n) c l pcs m1 = Panic "acquire" /\
    (forall d z, m_cpus m !! d = Some z -> cpu_ok z -> d <> c -> release_lock d l m1 = Panic "release").
Proof.
  intros Hx Hok Hlk H0. destruct (pushed_ok x Hok) as [Hok1 Hn1].
  set (m0 := set_cpu c (pushed x) m).
  set (lk1 := lk <| lk_locked := 1 |> <| lk_cpu := Some c |> <| lk_pcs := pcs |>).
  assert (Hx1 : forall k, m_cpus (set_lock l k m0) !! c = Some (pushed x))
    by (intros; by eapply (set_cpu_lookup c x)).
  assert (Hl1 : forall k, m_locks (set_lock l k m0) !! l = Some k).
  { intros k. cbn. apply list_lookup_insert_eq. by eapply lookup_lt_Some. }
  assert (Hss : forall k k', set_lock l k' (set_lock l k m0) = set_lock l k' m0).
  { intros k k'. destruct m0. unfold set_lock, upd. cbn. by rewrite list_insert_insert_eq. }
  assert (Eacq : acquire_lock (S n) c l pcs m = Ret tt (set_lock l lk1 m0)).
  { unfold acquire_lock, bind at 1. rewrite (acquire_enter_run c l x lk), H0 by done.
    cbn [ctrue Z.eqb negb andb]. fold m0. cbn [loop]. mrun. unfold bind at 1.
    rewrite (acquire_spin_run l lk), H0 by done. cbn [Z.eqb]. mrun. unfold acquire_end.
    rewrite (upd_lock_run l _ _ _ (Hl1 _)), Hss. done. }
  exists (set_lock l lk1 m0),
    (set_cpu c (popped (pushed x)) (set_lock l (lk1 <| lk_pcs ::= <[0%nat := 0]> |> <| lk_cpu := None |>
       <| lk_locked := 0 |>) m0)), (popped (pushed x)).
  destruct (popped_pushed x Hok) as [He Hn].
  split; [done|]. split; [|split; [by eapply set_cpu_lookup|split; [done|split; [done|split]]]].
  - unfold release_lock, release_enter. mrun. unfold bind at 1.
    rewrite (holding_run c l (pushed x) lk1) by done.
    rewrite popped_pushed_inner, set_cpu_id by (done || apply Hx1).
    change (ctrue (lk_locked lk1)) with true. rewrite bool_decide_true by done. cbn [andb negb].
    unfold bind at 1. rewrite (upd_lock_run l lk1), Hss by apply Hl1.
    rewrite (release_end_run c l (pushed x) _ _ (Hx1 _) (Hl1 _)) by (done || lia). by rewrite Hss.
  - change (m_locks (set_cpu c (popped (pushed x)) ?k)) with (m_locks k). rewrite Hl1. done.
  - split.
    + unfold acquire_lock, bind at 1. rewrite (acquire_enter_run c l (pushed x) lk1) by done.
      change (ctrue (lk_locked lk1)) with true. by rewrite bool_decide_true.
    + intros d z Hz Hzok Hd. unfold release_lock, release_enter. mrun. unfold bind at 1.
      rewrite (holding_run d l z lk1); [| |apply Hl1|done].
      * change (ctrue (lk_locked lk1)) with true. rewrite bool_decide_false; [done|]. by intros [= ->].
      * cbn. by rewrite list_lookup_insert_ne.
Qed.
Lemma acquire_release_witness :
  exists m1 m2,
    acquire_lock 1 0 0 [] demo_machine = Ret tt m1 /\ release_lock 0 0 m1 = Ret tt m2 /\
    (lk_locked <$> m_locks m2 !! 0%nat) = Some 0 /\ release_lock 1 0 m1 = Panic "release".
Proof.
  assert (Hok : cpu_ok (mkCpu 0x202 0 0)) by (split; cbn; [lia|lia]).
  destruct (acquire_release 0 0 0 [] demo_machine (mkCpu 0x202 0 0) (mkSpin 0 "ptable" None (replicate 10 0))
    eq_refl Hok eq_refl eq_refl) as (m1 & m2 & y & Ha & Hr & _ & _ & _ & Hl & _ & Ho).
  exists m1, m2. repeat (split; [assumption|]). by apply (Ho 1%nat (mkCpu 0x202 0 0)).
Defined.
