(* ===== verification/Ulib.v ===== *)
(** The C library of user programs ([ulib.c], [printf.c]): string functions
    on character arrays, input of a line, numbers and formatted output.
    Characters are bytes; an array is a list, and running off its end is
    [None]. *)
From S2P Require Import Prelude Kstate Sched Mem MemSpec Cprintf.

(** * ulib.c *)

(** The bytes of a string up to and including its terminating zero. *)
Fixpoint through_zero (t : list Z) : option (list Z) :=
  match t with
  | [] => None
  | c :: t => if c =? 0 then Some [0] else w ← through_zero t; Some (c :: w)
  end.

Definition strcpy (s t : list Z) : option (list Z) :=
  w ← through_zero t; write_prefix s w.

Fixpoint strcmp (p q : list Z) : option Z :=
  match p, q with
  | a :: p', b :: q' => if ctrue a && (a =? b) then strcmp p' q' else Some (a - b)
  | _, _ => None
  end.

Fixpoint strlen (s : list Z) : option Z :=
  match s with
  | [] => None
  | c :: s => if c =? 0 then Some 0 else n ← strlen s; Some (n + 1)
  end.

Definition memset (m : mem) (dst c : Z) (n : nat) : mem := stosb m dst c n.

(** The index of the first [c], or [-1] for a null pointer. *)
Fixpoint strchr (s : list Z) (c : Z) : option Z :=
  match s with
  | [] => None
  | x :: s =>
      if x =? 0 then Some (-1)
      else if x =? c then Some 0
      else i ← strchr s c; Some (if i <? 0 then i else i + 1)
  end.

(** [inp] is what standard input still has to deliver; the result is what
    [gets] stores in its buffer, and the rest of the input. *)
Fixpoint gets_loop (room : nat) (inp : list Z) : list Z * list Z :=
  match room, inp with
  | O, _ => ([], inp)
  | _, [] => ([], [])
  | S room, c :: inp =>
      if (c =? 10) || (c =? 13) then ([c], inp)
      else let '(l, rest) := gets_loop room inp in (c :: l, rest)
  end.
Definition gets (max : Z) (inp : list Z) : list Z * list Z :=
  let '(l, rest) := gets_loop (Z.to_nat (max - 1)) inp in (l ++ [0], rest).

(** [int] arithmetic wraps around as the machine's does. *)
Fixpoint atoi_loop (n : Z) (s : list Z) : option Z :=
  match s with
  | [] => None
  | c :: s =>
      if (48 <=? c) && (c <=? 57) then atoi_loop (s32 (n * 10 + c - 48)) s else Some n
  end.
Definition atoi (s : list Z) : option Z := atoi_loop 0 s.

(** [while(n-- > 0) *dst++ = *src++]: always upwards. *)
Definition memmove (m : mem) (vdst vsrc n : Z) : mem := copy_up m vdst vsrc (Z.to_nat n).

(** * printf.c *)

(** [digits[x % base]], from "0123456789ABCDEF". *)
Definition udigit (d : Z) : Z := if d <? 10 then 48 + d else 55 + d.

Fixpoint udigits (fuel : nat) (x base : Z) : list Z :=
  match fuel with
  | O => []
  | S fuel =>
      udigit (x mod base) :: if x / base =? 0 then [] else udigits fuel (x / base) base
  end.

(** The characters printed, in order; 32 turns are enough for any base. *)
Definition printint (xx base : Z) (sgn : bool) : list Z :=
  let neg := sgn && (xx <? 0) in
  let x := if neg then u32 (- xx) else u32 xx in
  rev (udigits 32 x base ++ (if neg then [45] else [])).

(** The loop of [printf]; [state] is whether the last character was an
    unanswered percent sign.  A missing argument is [None]. *)
Fixpoint printf_loop (state : bool) (fmt : list Z) (ap : list arg) : option (list Z) :=
  match fmt with
  | [] => Some []
  | c :: fmt =>
      if negb state then
        if c =? 37 then printf_loop true fmt ap
        else rest ← printf_loop false fmt ap; Some (c :: rest)
      else if c =? 100 then
        match ap with
        | a :: ap => rest ← printf_loop false fmt ap; Some (printint (arg_int a) 10 true ++ rest)
        | [] => None
        end
      else if (c =? 120) || (c =? 112) then
        match ap with
        | a :: ap => rest ← printf_loop false fmt ap; Some (printint (arg_int a) 16 false ++ rest)
        | [] => None
        end
      else if c =? 115 then
        match ap with
        | a :: ap => rest ← printf_loop false fmt ap; Some (arg_str a ++ rest)
        | [] => None
        end
      else if c =? 99 then
        match ap with
        | a :: ap => rest ← printf_loop false fmt ap; Some (u8 (arg_int a) :: rest)
        | [] => None
        end
      else if c =? 37 then rest ← printf_loop false fmt ap; Some (c :: rest)
      else rest ← printf_loop false fmt ap; Some (37 :: c :: rest)
  end.
Definition printf (fmt : list Z) (ap : list arg) : option (list Z) := printf_loop false fmt ap.

(** * Numbers *)

(** The value of decimal digits, the least significant first. *)
Fixpoint dec_value (l : list Z) : Z :=
  match l with
  | [] => 0
  | c :: l => (c - 48) + 10 * dec_value l
  end.

Lemma udigits_value fuel x :
  0 <= x < 10 ^ Z.of_nat fuel ->
  dec_value (udigits fuel x 10) = x /\ Forall (fun c => 48 <= c <= 57) (udigits fuel x 10).
Proof.
  revert x. induction fuel as [|fuel IH]; intros x Hx; [split; [cbn in *; lia|constructor]|]. cbn [udigits].
  assert (Hd : udigit (x mod 10) = 48 + x mod 10).
  { unfold udigit. rewrite (proj2 (Z.ltb_lt _ _)) by width_lia. done. }
  rewrite Hd. destruct (Z.eqb_spec (x / 10) 0) as [E|E]; cbn [dec_value].
  - split; [width_lia|]. constructor; [width_lia|constructor].
  - rewrite Nat2Z.inj_succ, Z.pow_succ_r in Hx by lia.
    destruct (IH (x / 10)) as [Ev Hf]; [width_lia|]. rewrite Ev. split; [width_lia|].
    constructor; [width_lia|done].
Qed.

Lemma dec_value_nonneg l : Forall (fun c => 48 <= c <= 57) l -> 0 <= dec_value l.
Proof. induction 1; cbn [dec_value]; lia. Qed.

Lemma dec_value_snoc l c : dec_value (l ++ [c]) = dec_value l + 10 ^ Z.of_nat (length l) * (c - 48).
Proof.
  induction l as [|x l IH]; cbn [dec_value app length]; [lia|]. rewrite IH, Nat2Z.inj_succ, Z.pow_succ_r by lia. lia.
Qed.

(** Reading digits, the most significant first. *)
Lemma atoi_digits l : forall n rest,
  Forall (fun c => 48 <= c <= 57) l -> 0 <= n -> n * 10 ^ Z.of_nat (length l) + dec_value (rev l) < 2 ^ 31 ->
  atoi_loop n (l ++ rest) = atoi_loop (n * 10 ^ Z.of_nat (length l) + dec_value (rev l)) rest.
Proof.
  induction l as [|c l IH]; intros n rest Hl Hn Hb; [cbn; f_equal; lia|].
  apply Forall_cons in Hl as [Hc Hl]. cbn [rev] in *.
  rewrite dec_value_snoc, length_rev in *. cbn [length] in *.
  rewrite Nat2Z.inj_succ, Z.pow_succ_r in * by lia. set (k := 10 ^ Z.of_nat (length l)) in *.
  assert (Hk : 0 < k) by (apply Z.pow_pos_nonneg; lia).
  assert (Hv : 0 <= dec_value (rev l)) by (apply dec_value_nonneg; by apply Forall_rev).
  cbn [app atoi_loop]. rewrite (proj2 (Z.leb_le 48 c)), (proj2 (Z.leb_le c 57)) by lia. cbn [andb].
  rewrite s32_id by nia. rewrite IH by (done || lia || (fold k; nia)). f_equal. fold k. lia.
Qed.

(** A number printed by [printf] reads back with [atoi], whatever
    follows it. *)
Theorem printint_atoi xx rest :
  0 <= xx < 2 ^ 31 -> atoi (printint xx 10 true ++ 0 :: rest) = Some xx.
Proof.
  intros Hx. unfold printint. rewrite (proj2 (Z.ltb_ge xx 0)) by lia. cbn [andb]. rewrite app_nil_r.
  rewrite (u32_id xx) by lia. destruct (udigits_value 32 xx) as [Ev Hf]; [lia|].
  unfold atoi. rewrite atoi_digits.
  - by rewrite rev_involutive, Ev.
  - by apply Forall_rev.
  - lia.
  - rewrite rev_involutive, Ev. lia.
Qed.
Lemma printint_atoi_witness : atoi (printint 2147483647 10 true ++ [0]) = Some 2147483647.
Proof. apply (printint_atoi 2147483647 []). lia. Defined.
