(* ===== verification/Grep.v ===== *)
(** [grep.c]: a regular expression matcher and the loop that prints the
    matching lines of a stream.  Strings are lists of characters without the
    terminating zero.  The matcher is proved equivalent to a language defined
    by the pattern's syntax, and the loop to printing exactly the lines that
    match. *)
From S2P Require Import Prelude Kstate Sched Mem.

(** * The matcher *)

(** The loop of [matchstar]; [mh] is [matchhere] of the rest of the pattern. *)
Fixpoint star_loop (c : Z) (mh : list Z -> bool) (text : list Z) : bool :=
  if mh text then true
  else match text with
       | [] => false
       | x :: text => if (x =? c) || (c =? 46) then star_loop c mh text else false
       end.

Fixpoint matchhere (re text : list Z) : bool :=
  match re with
  | [] => true
  | c :: re1 =>
      match re1 with
      | s :: re2 =>
          if s =? 42 then star_loop c (matchhere re2) text
          else match text with
               | [] => false
               | x :: text => if (c =? 46) || (c =? x) then matchhere re1 text else false
               end
      | [] =>
          if c =? 36 then match text with [] => true | _ => false end
          else match text with
               | [] => false
               | x :: text => if (c =? 46) || (c =? x) then matchhere re1 text else false
               end
      end
  end.

Definition matchstar (c : Z) (re text : list Z) : bool := star_loop c (matchhere re) text.

(** The [do ... while ( *text++ )] loop of [match]. *)
Fixpoint match_loop (re text : list Z) : bool :=
  if matchhere re text then true
  else match text with [] => false | _ :: text => match_loop re text end.

Definition match_re (re text : list Z) : bool :=
  match re with
  | c :: re1 => if c =? 94 then matchhere re1 text else match_loop re text
  | [] => match_loop re text
  end.

(** * grep *)

(** The position of the first newline of a zero-terminated string. *)
Fixpoint find_nl (l : list Z) : option nat :=
  match l with
  | [] => None
  | x :: l => if x =? 0 then None else if x =? 10 then Some O else S <$> find_nl l
  end.

(** The inner loop: the lines of the buffer from [p] on.  Returns what was
    written and where [p] ends; every turn moves [p] past a newline. *)
Fixpoint grep_lines (fuel : nat) (pattern buf : list Z) (p : nat) (out : list (list Z))
    : list (list Z) * nat :=
  match fuel with
  | O => (out, p)
  | S fuel =>
      match find_nl (drop p buf) with
      | None => (out, p)
      | Some k =>
          let line := take k (drop p buf) in
          grep_lines fuel pattern buf (p + k + 1)
            (if match_re pattern line then out ++ [line ++ [10]] else out)
      end
  end.

Section Grep.
(** A file descriptor, and what [read(fd, buf, n)] delivers. *)
Context {fd : Type} (read : fd -> nat -> list Z * fd).

(** [buf] holds the [m] bytes that are kept from the last turn. *)
Fixpoint grep_loop (fuel : nat) (pattern buf : list Z) (f : fd) (out : list (list Z))
    : option (list (list Z)) :=
  match fuel with
  | O => None
  | S fuel =>
      let '(data, f) := read f (1024 - length buf - 1)%nat in
      match data with
      | [] => Some out
      | _ =>
          let buf := buf ++ data in
          let '(out, p) := grep_lines (length buf) pattern buf 0 out in
          grep_loop fuel pattern (if (p =? 0)%nat then [] else drop p buf) f out
      end
  end.
Definition grep (fuel : nat) (pattern : list Z) (f : fd) : option (list (list Z)) :=
  grep_loop fuel pattern [] f [].
End Grep.

(** * The language of a pattern *)

Inductive atom : Type := Any | Lit (c : Z).
Inductive item : Type := One (a : atom) | Star (a : atom).

Definition atom_of (c : Z) : atom := if c =? 46 then Any else Lit c.
Definition in_atom (a : atom) (x : Z) : Prop :=
  match a with Any => True | Lit c => x = c end.

Inductive in_item : item -> list Z -> Prop :=
| in_one a x : in_atom a x -> in_item (One a) [x]
| in_star a l : Forall (in_atom a) l -> in_item (Star a) l.

(** Words of a sequence of items. *)
Inductive in_items : list item -> list Z -> Prop :=
| in_nil : in_items [] []
| in_cons i l u v : in_item i u -> in_items l v -> in_items (i :: l) (u ++ v).

(** The items of a pattern, and whether it ends in a dollar sign. *)
Fixpoint parse (re : list Z) : list item * bool :=
  match re with
  | [] => ([], false)
  | c :: re1 =>
      match re1 with
      | s :: re2 =>
          if s =? 42 then let '(l, e) := parse re2 in (Star (atom_of c) :: l, e)
          else let '(l, e) := parse re1 in (One (atom_of c) :: l, e)
      | [] => if c =? 36 then ([], true) else ([One (atom_of c)], false)
      end
  end.

(** [text] begins with a word of the pattern, and is one when the pattern is
    anchored at its end. *)
Definition begins (p : list item * bool) (text : list Z) : Prop :=
  exists u v, text = u ++ v /\ in_items p.1 u /\ (p.2 = true -> v = []).

Lemma atom_test c x : (c =? 46) || (c =? x) = true <-> in_atom (atom_of c) x.
Proof.
  unfold atom_of. destruct (Z.eqb_spec c 46); cbn; [done|]. rewrite Z.eqb_eq. split; congruence.
Qed.
Lemma atom_test' c x : (x =? c) || (c =? 46) = true <-> in_atom (atom_of c) x.
Proof. rewrite <- atom_test, !orb_true_iff, !Z.eqb_eq. intuition congruence. Qed.

Lemma star_loop_spec c mh text :
  star_loop c mh text = true <->
  exists u v, text = u ++ v /\ Forall (in_atom (atom_of c)) u /\ mh v = true.
Proof.
  induction text as [|x text IH]; cbn [star_loop]; destruct (mh _) eqn:E.
  - split; [|done]. intros _. by exists [], [].
  - split; [done|]. intros (u & v & Huv & _ & Hv). symmetry in Huv. apply app_eq_nil in Huv as [-> ->]. congruence.
  - split; [|done]. intros _. by exists [], (x :: text).
  - destruct ((x =? c) || (c =? 46)) eqn:Ex.
    + apply atom_test' in Ex. rewrite IH. split.
      * intros (u & v & -> & Hu & Hv). exists (x :: u), v. by repeat constructor.
      * intros ([|y u] & v & Huv & Hu & Hv); cbn in Huv; simplify_eq; [congruence|].
        apply Forall_cons in Hu as [_ Hu]. by exists u, v.
    + split; [done|]. intros ([|y u] & v & Huv & Hu & Hv); cbn in Huv; simplify_eq; [congruence|].
      apply Forall_cons in Hu as [Hu%atom_test' _]. congruence.
Qed.

Lemma in_items_star a l w :
  in_items (Star a :: l) w <-> exists u v, w = u ++ v /\ Forall (in_atom a) u /\ in_items l v.
Proof.
  split.
  - inversion 1 as [|? ? u v Hi Hl]; subst. inversion Hi; subst. by exists u, v.
  - intros (u & v & -> & Hu & Hv). by repeat constructor.
Qed.
Lemma in_items_one a l w :
  in_items (One a :: l) w <-> exists x v, w = x :: v /\ in_atom a x /\ in_items l v.
Proof.
  split.
  - inversion 1 as [|? ? u v Hi Hl]; subst. inversion Hi; subst. eexists _, v. split; [reflexivity|done].
  - intros (x & v & -> & Hx & Hv). change (x :: v) with ([x] ++ v). by repeat constructor.
Qed.

Lemma begins_star a l e text :
  begins (Star a :: l, e) text <-> exists u v, text = u ++ v /\ Forall (in_atom a) u /\ begins (l, e) v.
Proof.
  unfold begins. cbn. split.
  - intros (w & v & -> & (u & w' & -> & Hu & Hw)%in_items_star & He).
    exists u, (w' ++ v). rewrite <- app_assoc. split; [done|]. split; [done|]. by exists w', v.
  - intros (u & ? & -> & Hu & (w & v & -> & Hw & He)). exists (u ++ w), v. rewrite app_assoc.
    split; [done|]. split; [|done]. apply in_items_star. by exists u, w.
Qed.
Lemma begins_one a l e text :
  begins (One a :: l, e) text <-> exists x t, text = x :: t /\ in_atom a x /\ begins (l, e) t.
Proof.
  unfold begins. cbn. split.
  - intros (w & v & -> & (x & w' & -> & Hx & Hw)%in_items_one & He).
    exists x, (w' ++ v). split; [done|]. split; [done|]. by exists w', v.
  - intros (x & ? & -> & Hx & (w & v & -> & Hw & He)). exists (x :: w), v.
    split; [done|]. split; [|done]. apply in_items_one. by exists x, w.
Qed.
Lemma begins_nil e text : begins ([], e) text <-> (e = true -> text = []).
Proof.
  unfold begins. cbn. split.
  - intros (u & v & -> & Hu & He). inversion Hu; subst. done.
  - intros H. exists [], text. repeat constructor; done.
Qed.

(** The step of [matchhere] on an unstarred character. *)
Lemma one_step c l e (mh : list Z -> bool) text :
  (forall t, mh t = true <-> begins (l, e) t) ->
  match text with
  | [] => false
  | x :: t => if (c =? 46) || (c =? x) then mh t else false
  end = true <-> begins (One (atom_of c) :: l, e) text.
Proof.
  intros Hmh. rewrite begins_one. destruct text as [|x t].
  - split; [done|]. by intros (? & ? & ? & _).
  - destruct (_ || _) eqn:E.
    + apply atom_test in E. rewrite Hmh. split; [by exists x, t|]. intros (? & ? & ? & _ & ?). by simplify_eq.
    + split; [done|]. intros (y & t' & Hy & Ha%atom_test & _). simplify_eq. congruence.
Qed.

Lemma matchhere_two c s re text :
  matchhere (c :: s :: re) text =
    if s =? 42 then star_loop c (matchhere re) text
    else match text with
         | [] => false
         | x :: t => if (c =? 46) || (c =? x) then matchhere (s :: re) t else false
         end.
Proof. done. Qed.
Lemma parse_two c s re :
  parse (c :: s :: re) =
    if s =? 42 then let '(l, e) := parse re in (Star (atom_of c) :: l, e)
    else let '(l, e) := parse (s :: re) in (One (atom_of c) :: l, e).
Proof. done. Qed.

(** By induction on the length of the pattern, two characters at a time. *)
Lemma matchhere_spec re text : matchhere re text = true <-> begins (parse re) text.
Proof.
  remember (length re) as n eqn:En. assert (Hn : (length re <= n)%nat) by lia. clear En.
  revert re text Hn. induction n as [|n IH]; intros re text Hn.
  { destruct re; [|cbn in Hn; lia]. cbn. by rewrite begins_nil. }
  destruct re as [|c re1]; [cbn; by rewrite begins_nil|]. cbn [length] in Hn.
  destruct re1 as [|s re2].
  - cbn [matchhere parse]. destruct (c =? 36).
    + rewrite begins_nil. by destruct text; naive_solver.
    + apply (one_step c [] false (fun _ => true)). intros t. by rewrite begins_nil.
  - cbn [length] in Hn. rewrite matchhere_two, parse_two. destruct (s =? 42).
    + destruct (parse re2) as [l e] eqn:Ep. rewrite star_loop_spec, begins_star.
      setoid_rewrite (IH re2); [|lia]. by rewrite Ep.
    + destruct (parse (s :: re2)) as [l e] eqn:Ep. apply one_step.
      intros t. rewrite IH by (cbn; lia). by rewrite Ep.
Qed.

(** Whether a pattern is anchored at its start, and the rest of it. *)
Definition anchor (re : list Z) : bool * list Z :=
  match re with
  | c :: re1 => if c =? 94 then (true, re1) else (false, re)
  | [] => (false, re)
  end.

Lemma match_loop_spec re text :
  match_loop re text = true <-> exists pre rest, text = pre ++ rest /\ matchhere re rest = true.
Proof.
  induction text as [|x text IH]; cbn [match_loop]; destruct (matchhere _ _) eqn:E.
  - split; [|done]. intros _. by exists [], [].
  - split; [done|]. intros (u & v & Huv & Hv). symmetry in Huv. apply app_eq_nil in Huv as [-> ->]. congruence.
  - split; [|done]. intros _. by exists [], (x :: text).
  - rewrite IH. split.
    + intros (u & v & -> & Hv). by exists (x :: u), v.
    + intros ([|y u] & v & Huv & Hv); cbn in Huv; simplify_eq; [congruence|]. by exists u, v.
Qed.

(** C39: the matcher decides the language of the pattern: a text matches
    exactly when it contains a word of the pattern's items, a dot standing for
    any character and a starred character for any repetition of it, with the
    anchors where the pattern has them. *)
Theorem match_equiv re text :
  match_re re text = true <->
  exists pre u post, text = pre ++ u ++ post /\ in_items (parse (anchor re).2).1 u /\
    ((anchor re).1 = true -> pre = []) /\ ((parse (anchor re).2).2 = true -> post = []).
Proof.
  assert (H : match_loop re text = true <-> exists pre rest, text = pre ++ rest /\ begins (parse re) rest).
  { rewrite match_loop_spec. by setoid_rewrite matchhere_spec. }
  unfold match_re, anchor. destruct re as [|c re1]; [rewrite H; unfold begins; naive_solver|].
  destruct (c =? 94); cbn.
  - rewrite matchhere_spec. unfold begins. split.
    + intros (u & v & -> & Hu & Hv). by exists [], u, v.
    + intros (pre & u & v & -> & Hu & Hp & Hv). rewrite Hp by done. by exists u, v.
  - rewrite H. unfold begins. naive_solver.
Qed.
(** Anchored at both ends: [^a*b$]. *)
Lemma match_equiv_example : match_re [94; 97; 42; 98; 36] [97; 97; 98] = true.
Proof. reflexivity. Qed.

(** * Lines *)

(** The lines of a text that end in a newline, without it. *)
Fixpoint lines (cur text : list Z) : list (list Z) :=
  match text with
  | [] => []
  | x :: text => if x =? 10 then cur :: lines [] text else lines (cur ++ [x]) text
  end.

(** What a correct [grep] writes: the lines that match, each with its newline. *)
Definition selected (pattern : list Z) (ls : list (list Z)) : list (list Z) :=
  (fun l => l ++ [10]) <$> filter (fun l => match_re pattern l = true) ls.

Lemma selected_app pat l1 l2 : selected pat (l1 ++ l2) = selected pat l1 ++ selected pat l2.
Proof. unfold selected. by rewrite filter_app, fmap_app. Qed.

Lemma lines_line cur a b : 10 ∉ a -> lines cur (a ++ 10 :: b) = (cur ++ a) :: lines [] b.
Proof.
  revert cur. induction a as [|x a IH]; intros cur Ha; cbn.
  - by rewrite app_nil_r.
  - apply not_elem_of_cons in Ha as [Hx Ha]. rewrite (proj2 (Z.eqb_neq x 10)) by done.
    rewrite IH by done. by rewrite <- app_assoc.
Qed.
Lemma lines_none cur a : 10 ∉ a -> lines cur a = [].
Proof.
  revert cur. induction a as [|x a IH]; intros cur Ha; cbn; [done|].
  apply not_elem_of_cons in Ha as [Hx Ha]. rewrite (proj2 (Z.eqb_neq x 10)) by done. by apply IH.
Qed.

Lemma find_nl_spec l :
  0 ∉ l ->
  match find_nl l with
  | Some k => exists a b, l = a ++ 10 :: b /\ length a = k /\ 10 ∉ a
  | None => 10 ∉ l
  end.
Proof.
  induction l as [|x l IH]; intros H0; cbn [find_nl]; [apply not_elem_of_nil|].
  apply not_elem_of_cons in H0 as [Hx H0]. rewrite (proj2 (Z.eqb_neq x 0)) by done.
  destruct (Z.eqb_spec x 10) as [->|Hne].
  - exists [], l. repeat split. apply not_elem_of_nil.
  - specialize (IH H0). destruct (find_nl l) as [k|]; cbn.
    + destruct IH as (a & b & -> & <- & Ha). exists (x :: a), b. repeat split. by rewrite not_elem_of_cons.
    + by rewrite not_elem_of_cons.
Qed.

Lemma elem_of_drop_in (x : Z) n l : x ∈ drop n l -> x ∈ l.
Proof. intros H. rewrite <- (take_drop n l), elem_of_app. by right. Qed.

(** The inner loop writes the selected lines of the buffer and stops behind
    the last newline. *)
Lemma grep_lines_spec pat buf fuel : forall p out,
  0 ∉ buf -> (length buf - p <= fuel)%nat ->
  exists ls q, grep_lines fuel pat buf p out = (out ++ selected pat ls, q) /\ (p <= q)%nat /\
    (10 ∉ drop q buf) /\ (forall tail, lines [] (drop p buf ++ tail) = ls ++ lines [] (drop q buf ++ tail)).
Proof.
  induction fuel as [|fuel IH]; intros p out H0 Hf; cbn [grep_lines].
  - exists [], p. rewrite app_nil_r. split; [done|]. split; [done|]. split; [|done].
    rewrite drop_ge by lia. apply not_elem_of_nil.
  - assert (H0' : 0 ∉ drop p buf) by (intros Hin; apply H0; by eapply elem_of_drop_in).
    pose proof (find_nl_spec _ H0') as Hnl. destruct (find_nl (drop p buf)) as [k|].
    + destruct Hnl as (a & b & Eb & Hk & Ha).
      assert (Ed : drop (p + k + 1) buf = b).
      { replace (p + k + 1)%nat with (p + (k + 1))%nat by lia. rewrite <- drop_drop, Eb.
        rewrite drop_app_ge by lia. by replace (k + 1 - length a)%nat with 1%nat by lia. }
      assert (Hlen : length (drop p buf) = (k + 1 + length b)%nat) by (rewrite Eb, length_app; cbn; lia).
      rewrite length_drop in Hlen. rewrite Eb, take_app_length' by done.
      destruct (IH (p + k + 1)%nat (if match_re pat a then out ++ [a ++ [10]] else out) H0) as (ls & q & Eg & Hq & Hr & Ht);
        [lia|].
      exists (a :: ls), q. split; [|split; [lia|split; [done|]]].
      * rewrite Eg. f_equal. unfold selected. rewrite filter_cons.
        destruct (match_re pat a); cbn; [by rewrite <- app_assoc|done].
      * intros tail. rewrite <- app_assoc. cbn [app]. rewrite lines_line by done. cbn. f_equal.
        rewrite <- Ht. by rewrite Ed.
    + exists [], p. rewrite app_nil_r. auto.
Qed.

(** * The whole of grep on a file *)

(** [read] of a file delivers as much as is asked for and there is. *)
Definition read_file (inp : list Z) (n : nat) : list Z * list Z := (take n inp, drop n inp).

Lemma grep_loop_spec pat fuel : forall buf inp out,
  0 ∉ buf ++ inp -> 10 ∉ buf -> (length buf <= 1022)%nat -> (length inp < fuel)%nat ->
  Forall (fun l => (length l <= 1022)%nat) (lines [] (buf ++ inp)) ->
  grep_loop read_file fuel pat buf inp out = Some (out ++ selected pat (lines [] (buf ++ inp))).
Proof.
  induction fuel as [|fuel IH]; intros buf inp out H0 H10 Hb Hf Hl; [lia|]. cbn [grep_loop read_file].
  destruct inp as [|x inp0].
  { rewrite take_nil, app_nil_r, lines_none by done. cbn. by rewrite app_nil_r. }
  set (inp := x :: inp0) in *. set (n := (1024 - length buf - 1)%nat).
  destruct (take n inp) as [|y data] eqn:Ed.
  { exfalso. subst n inp. replace (1024 - length buf - 1)%nat with (S (1022 - length buf)) in Ed by lia. done. }
  rewrite <- Ed. clear y data Ed. set (rest := drop n inp).
  assert (Ei : buf ++ inp = (buf ++ take n inp) ++ rest) by (rewrite <- app_assoc; by unfold rest; rewrite take_drop).
  set (buf' := buf ++ take n inp) in *. rewrite Ei in *.
  assert (Hlb : (length buf' <= 1023)%nat) by (unfold buf', n; rewrite length_app, length_take; lia).
  assert (Hlr : (length rest < fuel)%nat).
  { unfold rest. rewrite length_drop. unfold n, inp in *. cbn [length] in *. lia. }
  destruct (grep_lines_spec pat buf' (length buf') 0 out) as (ls & q & Eg & _ & Hr & Ht); [set_solver|lia|].
  rewrite Eg. rewrite drop_0 in Ht. rewrite Ht in Hl |- *. apply Forall_app in Hl as [Hls Hl].
  rewrite selected_app, app_assoc. destruct (Nat.eqb_spec q 0) as [->|Hq].
  - rewrite drop_0 in *. specialize (IH [] rest (out ++ selected pat ls)). cbn [app] in IH.
    assert (Hno : 10 ∉ rest).
    { intros (l1 & l2 & Er & Hl1)%list_elem_of_split_l. rewrite Er, app_assoc, lines_line in Hl; [|set_solver].
      apply Forall_cons in Hl as [Hl _]. rewrite app_nil_l, length_app in Hl.
      assert (Hfull : length buf' = 1023%nat); [|lia]. unfold buf'. rewrite length_app, length_take_le; [lia|].
      assert (0 < length rest)%nat by (rewrite Er, length_app; cbn; lia).
      unfold rest in *. rewrite length_drop in *. lia. }
    rewrite IH; try done.
    + by rewrite !lines_none by set_solver.
    + set_solver.
    + apply not_elem_of_nil.
    + cbn. lia.
    + by rewrite lines_none.
  - rewrite IH; [done| |done| |done|done].
    + intros Hin. apply H0. rewrite elem_of_app in *. destruct Hin as [Hin|Hin]; [left; by eapply elem_of_drop_in|by right].
    + rewrite length_drop. lia.
Qed.

(** C40: on a file without zero bytes whose lines have at most 1022
    characters, [grep] ends and writes exactly the lines that match the
    pattern, in order and whole, however they fall into the buffer. *)
Theorem grep_file pat inp :
  0 ∉ inp -> Forall (fun l => (length l <= 1022)%nat) (lines [] inp) ->
  grep read_file (S (length inp)) pat inp = Some (selected pat (lines [] inp)).
Proof.
  intros H0 Hl. apply (grep_loop_spec pat _ [] inp []); [done|apply not_elem_of_nil|cbn; lia|lia|done].
Qed.
Lemma grep_file_witness :
  grep read_file 8 [98] [97; 98; 10; 99; 10; 98; 10] = Some [[97; 98; 10]; [98; 10]].
Proof.
  apply (grep_file [98] [97; 98; 10; 99; 10; 98; 10]).
  - by apply (bool_decide_unpack _); vm_compute.
  - by apply (bool_decide_unpack _); vm_compute.
Defined.

(** A short read loses the beginning of a line: the bytes that are in the
    buffer without a newline are dropped.  Here [read] delivers one byte at a
    time, as a pipe may. *)
Lemma grep_short_read :
  grep (fun inp (n : nat) => (take (min n 1) inp, drop (min n 1) inp)) 9 [97] [97; 98; 10] = Some [] /\
  selected [97] (lines [] [97; 98; 10]) = [[97; 98; 10]].
Proof. split; reflexivity. Qed.
