(* ===== verification/Umalloc.v ===== *)
(** The memory allocator of user programs ([umalloc.c]): a circular list of
    free blocks in address order, with coalescing.  [malloc] and [free] are
    proved in UmallocSpec to keep the free and the allocated blocks apart, to
    lose no memory, and to end. *)
From S2P Require Import Prelude Kstate Sched Mem MemSpec.

(** [union header]: the next free block and the size in headers *)
Record header : Type := mkHdr { h_ptr : Z; h_size : Z }.
#[export] Instance eta_header : Eta header := fun r => mkHdr (h_ptr r) (h_size r).

(** The headers in memory, [freep], and the end of the process' memory. *)
Record uheap : Type := mkHeap { u_mem : gmap Z header; u_freep : Z; u_brk : Z }.
#[export] Instance eta_uheap : Eta uheap := fun r => mkHeap (u_mem r) (u_freep r) (u_brk r).

Definition sizeof_Header : Z := 8.

Section Umalloc.
(** The address of [base]; whether the kernel has the page frames for the
    process to grow from [sz] to [newsz] bytes. *)
Context (base : Z) (frames : Z -> Z -> bool).

Definition hd (p : Z) : M uheap header := gets (fun u => default (mkHdr 0 0) (u_mem u !! p)).
Definition set_hd (p : Z) (f : header -> header) : M uheap unit :=
  modify (fun u => u <| u_mem ::= fun m => <[p := f (default (mkHdr 0 0) (m !! p))]> m |>).

(** [p + n] on pointers to headers *)
Definition plus (p n : Z) : Z := u32 (p + n * sizeof_Header).

(** The system call as the process sees it: the size of the process after
    [growproc], and the old size or -1. *)
Definition sbrk_size (sz n : Z) : Z :=
  let newsz := u32 (sz + n) in
  if 0 <? n then
    if KERNBASE <=? newsz then 0
    else if newsz <? sz then sz
    else if frames sz newsz then newsz else 0
  else if n <? 0 then if sz <=? newsz then sz else newsz
  else sz.
Definition sbrk (n : Z) : M uheap Z :=
  sz <- gets u_brk;;
  let newsz := sbrk_size sz (s32 n) in
  if negb (s32 n =? 0) && (newsz =? 0) then ret (-1)
  else modify (fun u => u <| u_brk := newsz |>);;; ret sz.

(** The search of [free] for the block before [bp]. *)
Definition free_search (fuel : nat) (bp : Z) : M uheap Z :=
  p <- gets u_freep;;
  loop fuel (fun p =>
    h <- hd p;;
    if (p <? bp) && (bp <? h_ptr h) then ret (inr p)
    else if (h_ptr h <=? p) && ((p <? bp) || (bp <? h_ptr h)) then ret (inr p)
    else ret (inl (h_ptr h))) p.

(** [bp] joined to the block above it, or linked before it; then [p], the
    block below, joined to [bp] or linked to it. *)
Definition free_up (bp : Z) (b h : header) : M uheap unit :=
  if plus bp (h_size b) =? h_ptr h then
    n <- hd (h_ptr h);;
    set_hd bp (fun b => b <| h_size ::= fun s => u32 (s + h_size n) |>);;;
    n <- hd (h_ptr h);;
    set_hd bp (fun b => b <| h_ptr := h_ptr n |>)
  else set_hd bp (fun b => b <| h_ptr := h_ptr h |>).
Definition free_down (bp p : Z) (b h : header) : M uheap unit :=
  if plus p (h_size h) =? bp then
    set_hd p (fun h => h <| h_size ::= fun s => u32 (s + h_size b) |>);;;
    b <- hd bp;;
    set_hd p (fun h => h <| h_ptr := h_ptr b |>)
  else set_hd p (fun h => h <| h_ptr := bp |>).

Definition free (fuel : nat) (ap : Z) : M uheap unit :=
  let bp := u32 (ap - sizeof_Header) in
  p <- free_search fuel bp;;
  b <- hd bp;;
  h <- hd p;;
  free_up bp b h;;;
  h <- hd p;;
  b <- hd bp;;
  free_down bp p b h;;;
  modify (fun u => u <| u_freep := p |>).

Definition morecore (fuel : nat) (nu : Z) : M uheap Z :=
  let nu := if nu <? 4096 then 4096 else nu in
  p <- sbrk (u32 (nu * sizeof_Header));;
  if p =? -1 then ret 0
  else
    set_hd p (fun h => h <| h_size := nu |>);;;
    free fuel (u32 (p + sizeof_Header));;;
    gets u_freep.

(** One turn of the loop of [malloc] with its variables [prevp], [p]. *)
Definition malloc_turn (fuel : nat) (nunits : Z) : Z * Z -> M uheap (Z * Z + Z) := fun '(prevp, p) =>
  h <- hd p;;
  if nunits <=? h_size h then
    (if h_size h =? nunits then
       set_hd prevp (fun g => g <| h_ptr := h_ptr h |>);;;
       modify (fun u => u <| u_freep := prevp |>);;;
       ret (inr (u32 (p + sizeof_Header)))
     else
       set_hd p (fun h => h <| h_size ::= fun s => u32 (s - nunits) |>);;;
       h <- hd p;;
       let p := plus p (h_size h) in
       set_hd p (fun h => h <| h_size := nunits |>);;;
       modify (fun u => u <| u_freep := prevp |>);;;
       ret (inr (u32 (p + sizeof_Header))))
  else
    fp <- gets u_freep;;
    if p =? fp then
      p <- morecore fuel nunits;;
      if p =? 0 then ret (inr 0)
      else h <- hd p;; ret (inl (p, h_ptr h))
    else ret (inl (p, h_ptr h)).

(** [(nbytes + sizeof(Header) - 1) / sizeof(Header) + 1] in [uint] *)
Definition nunits_of (nbytes : Z) : Z :=
  u32 (u32 (nbytes + sizeof_Header - 1) / sizeof_Header + 1).

Definition malloc (fuel : nat) (nbytes : Z) : M uheap Z :=
  let nunits := nunits_of nbytes in
  fp <- gets u_freep;;
  (if fp =? 0 then
     set_hd base (fun h => h <| h_ptr := base |>);;;
     modify (fun u => u <| u_freep := base |>);;;
     set_hd base (fun h => h <| h_size := 0 |>)
   else ret tt);;;
  prevp <- gets u_freep;;
  h <- hd prevp;;
  loop fuel (malloc_turn fuel nunits) (prevp, h_ptr h).
End Umalloc.
