(* ===== verification/UmallocSpec.v ===== *)
(** Correctness of [malloc] and [free]: the heap is a circular list of free
    blocks in address order together with the allocated blocks, no byte
    belongs to two blocks, and the operations move bytes between the two
    without losing any. *)
From stdpp Require Import sorting.
From S2P Require Import Prelude Kstate Sched Mem MemSpec Umalloc.

(** * Blocks *)

(** A block: the address of its header and its size in headers. *)
Abbreviation block := (Z * Z)%type.

(** How many of the blocks contain the byte at [x]. *)
Fixpoint cover (x : Z) (l : list block) : Z :=
  match l with
  | [] => 0
  | (a, n) :: l => (if within a (8 * n) x then 1 else 0) + cover x l
  end.

Lemma cover_app x l1 l2 : cover x (l1 ++ l2) = cover x l1 + cover x l2.
Proof. induction l1 as [|[a n] l1 IH]; cbn; [done|]. rewrite IH. lia. Qed.
#[export] Instance cover_perm x : Proper ((≡ₚ) ==> (=)) (cover x).
Proof.
  induction 1 as [|[a n] l l' _ IH|[a n] [b k] l|? ? ? _ IH1 _ IH2]; cbn; lia.
Qed.
Lemma cover_nonneg x l : 0 <= cover x l.
Proof. induction l as [|[a n] l IH]; cbn; [done|]. destruct (within _ _ _); lia. Qed.
Lemma cover_in x l a n : (a, n) ∈ l -> a <= x < a + 8 * n -> 1 <= cover x l.
Proof.
  induction l as [|[b k] l IH]; [by intros ?%elem_of_nil|]. intros [Hin|Hin]%elem_of_cons Hx; cbn.
  - simplify_eq. pose proof (cover_nonneg x l). by_range.
  - specialize (IH Hin Hx). destruct (within _ _ _); lia.
Qed.

(** A block cut in two, or two adjacent ones joined. *)
Lemma cover_split x a n k :
  0 <= k <= n -> cover x [(a, n)] = cover x [(a, n - k); (a + 8 * (n - k), k)].
Proof. intros H. cbn. by_range. Qed.

(** * The free list *)

Definition next_of (l : list block) (nxt : Z) : Z :=
  match l with [] => nxt | (b, _) :: _ => b end.
Fixpoint linked (m : gmap Z header) (l : list block) (nxt : Z) : Prop :=
  match l with
  | [] => True
  | (a, n) :: l => m !! a = Some (mkHdr (next_of l nxt) n) /\ linked m l nxt
  end.

Lemma linked_app m l1 l2 nxt :
  linked m (l1 ++ l2) nxt <-> linked m l1 (next_of l2 nxt) /\ linked m l2 nxt.
Proof.
  induction l1 as [|[a n] l1 IH]; cbn [app linked]; [tauto|]. rewrite IH.
  assert (next_of (l1 ++ l2) nxt = next_of l1 (next_of l2 nxt)) as -> by (by destruct l1 as [|[]]). tauto.
Qed.
Lemma linked_frame m m' l nxt :
  (forall a, a ∈ l.*1 -> m' !! a = m !! a) -> linked m l nxt -> linked m' l nxt.
Proof.
  induction l as [|[a n] l IH]; cbn [linked]; [done|]. intros He [Ha Hl]. split.
  - rewrite He; [done|]. left.
  - apply IH; [|done]. intros b Hb. apply He. by right.
Qed.
Lemma linked_lookup m l nxt i a n :
  linked m l nxt -> l !! i = Some (a, n) ->
  m !! a = Some (mkHdr (default nxt (fst <$> l !! S i)) n).
Proof.
  revert i. induction l as [|[b k] l IH]; intros [|i]; cbn [linked lookup list_lookup]; try done.
  - intros [Hb _] [= -> ->]. rewrite Hb. by destruct l as [|[]].
  - intros [_ Hl] Hi. by rewrite (IH i Hl Hi).
Qed.

Definition below : block -> block -> Prop := fun x y => x.1 < y.1.

Lemma sorted_lookup l i j x y :
  StronglySorted below l -> l !! i = Some x -> l !! j = Some y -> (i < j)%nat -> x.1 < y.1.
Proof.
  intros Hs. revert i j. induction Hs as [|z l Hs IH Hz]; intros [|i] [|j]; cbn; try done; try lia.
  - intros [= ->] Hj _. exact (Forall_lookup_1 _ _ _ _ Hz Hj).
  - intros Hi Hj Hij. apply (IH i j); done || lia.
Qed.

(** Where a new address belongs in a sorted list. *)
Lemma sorted_split l b :
  StronglySorted below l -> b ∉ l.*1 ->
  exists l1 l2, l = l1 ++ l2 /\ Forall (fun y => y.1 < b) l1 /\ Forall (fun y => b < y.1) l2.
Proof.
  intros Hs. induction Hs as [|[a n] l Hs IH Hz]; intros Hb; [by exists [], []|].
  rewrite fmap_cons, not_elem_of_cons in Hb. destruct Hb as [Hba Hb]. cbn in Hba.
  destruct (Z.lt_ge_cases a b) as [Hlt|Hge].
  - destruct (IH Hb) as (l1 & l2 & -> & H1 & H2). exists ((a, n) :: l1), l2. by repeat constructor.
  - exists [], ((a, n) :: l). repeat constructor; cbn; [lia|].
    eapply Forall_impl; [exact Hz|]. unfold below. cbn. intros y Hy. lia.
Qed.

Section Spec.
Context (base lo : Z).

(** The heap with free blocks [L] and allocated blocks [A]; [base] heads the
    free list and lies below the heap, which starts at [lo]. *)
Record heap_ok (u : uheap) (L A : list block) : Prop := mkHeapOk {
  hp_link : linked (u_mem u) ((base, 0) :: L) base;
  hp_sorted : StronglySorted below ((base, 0) :: L);
  hp_freep : u_freep u ∈ ((base, 0) :: L).*1;
  hp_blocks : Forall (fun b => 0 < b.2 /\ lo <= b.1 /\ b.1 + 8 * b.2 <= u_brk u) (L ++ A);
  hp_alloc : forall a n, (a, n) ∈ A -> exists h, u_mem u !! a = Some h /\ h_size h = n;
  hp_cover : forall x, cover x (L ++ A) <= 1;
  hp_brk : lo <= u_brk u < 2 ^ 31;
  hp_base : 0 < base < lo;
}.

Lemma heap_block u L A a n :
  heap_ok u L A -> (a, n) ∈ L ++ A -> 0 < n /\ lo <= a /\ a + 8 * n <= u_brk u.
Proof. intros H Hin. exact (proj1 (Forall_forall _ _) (hp_blocks _ _ _ H) _ Hin). Qed.

(** An allocated block starts at none of the headers of the free list. *)
Lemma alloc_not_free u L A a n : heap_ok u L A -> (a, n) ∈ A -> a ∉ ((base, 0) :: L).*1.
Proof.
  intros H Hin. assert (Hb := heap_block u L A a n H ltac:(apply elem_of_app; by right)).
  pose proof (hp_base _ _ _ H). rewrite fmap_cons, not_elem_of_cons. cbn [fst]. split; [lia|].
  intros ([b k] & -> & Hl)%list_elem_of_fmap. cbn [fst] in *.
  assert (Hk := heap_block u L A b k H ltac:(apply elem_of_app; by left)).
  pose proof (hp_cover _ _ _ H b) as Hc. rewrite cover_app in Hc.
  assert (1 <= cover b L) by (by apply (cover_in b L b k); [|lia]).
  assert (1 <= cover b A) by (by apply (cover_in b A b n); [|lia]). lia.
Qed.

(** * The search of free *)

Lemma bind_hd {B} p h (k : header -> M uheap B) u :
  u_mem u !! p = Some h -> bind (hd p) k u = k h u.
Proof. intros H. unfold hd. mrun. by rewrite H. Qed.

Section Search.
Context (u : uheap) (L A : list block) (b : Z).
Context (H : heap_ok u L A) (Hb : base < b).
Context (l1 l2 : list block) (p k : Z).
Context (El : (base, 0) :: L = l1 ++ (p, k) :: l2) (Hp : p < b) (Hl2 : Forall (fun y => b < y.1) l2).
Let nodes := (base, 0) :: L.

Definition search_turn : Z -> M uheap (Z + Z) := fun p =>
  h <- hd p;;
  if (p <? b) && (b <? h_ptr h) then ret (inr p)
  else if (h_ptr h <=? p) && ((p <? b) || (b <? h_ptr h)) then ret (inr p)
  else ret (inl (h_ptr h)).

Lemma node_header i a n :
  nodes !! i = Some (a, n) -> u_mem u !! a = Some (mkHdr (default base (fst <$> nodes !! S i)) n).
Proof. intros Hi. exact (linked_lookup _ _ _ _ _ _ (hp_link _ _ _ H) Hi). Qed.
Lemma node_order i j x y : nodes !! i = Some x -> nodes !! j = Some y -> (i < j)%nat -> x.1 < y.1.
Proof. apply sorted_lookup, (hp_sorted _ _ _ H). Qed.
Lemma node_base i x : nodes !! i = Some x -> base <= x.1.
Proof.
  intros Hi. destruct i as [|i]; [by injection Hi as <-|].
  pose proof (node_order 0 (S i) (base, 0) x eq_refl Hi ltac:(lia)) as Ho. cbn in Ho. lia.
Qed.
Lemma node_p : nodes !! length l1 = Some (p, k).
Proof. unfold nodes. rewrite El. by rewrite list_lookup_middle. Qed.
Lemma node_after i x : nodes !! i = Some x -> (length l1 < i)%nat -> b < x.1.
Proof.
  unfold nodes. rewrite El. intros Hi Hlt. rewrite lookup_app_r in Hi by lia.
  destruct (i - length l1)%nat as [|j] eqn:Ej; [lia|]. cbn in Hi. exact (Forall_lookup_1 _ _ _ _ Hl2 Hi).
Qed.

(** At the block before [b] the search stops; elsewhere it goes on. *)
Lemma search_stop : search_turn p u = Ret (inr p) u.
Proof.
  unfold search_turn. rewrite (bind_hd p _ _ _ (node_header _ _ _ node_p)). cbn [h_ptr].
  rewrite (proj2 (Z.ltb_lt p b)) by done. destruct (nodes !! S (length l1)) as [x|] eqn:Ex; cbn.
  - pose proof (node_after _ _ Ex ltac:(lia)). rewrite (proj2 (Z.ltb_lt b x.1)) by done. done.
  - pose proof (node_base _ _ node_p) as Hpb. cbn in Hpb. destruct (b <? base); [done|].
    rewrite (proj2 (Z.leb_le base p)) by done. done.
Qed.
Lemma search_next i a n :
  nodes !! i = Some (a, n) -> i <> length l1 ->
  search_turn a u = Ret (inl (default base (fst <$> nodes !! S i))) u.
Proof.
  intros Hi Hne. unfold search_turn. rewrite (bind_hd a _ _ _ (node_header _ _ _ Hi)). cbn [h_ptr].
  pose proof (node_base _ _ Hi) as Hab. cbn in Hab.
  destruct (Nat.lt_ge_cases i (length l1)) as [Hlt|Hge].
  - pose proof (node_order _ _ _ _ Hi node_p Hlt) as Hap. cbn in Hap.
    destruct (lookup_lt_is_Some_2 nodes (S i)) as [x Hx].
    { apply Nat.le_lt_trans with (length l1); [done|]. apply (lookup_lt_Some _ _ _ node_p). }
    rewrite Hx. cbn. pose proof (node_order _ _ _ _ Hi Hx ltac:(lia)) as Hax. cbn in Hax.
    assert (x.1 <= p).
    { destruct (decide (S i = length l1)) as [E|E]; [rewrite E, node_p in Hx; by simplify_eq|].
      pose proof (node_order _ _ _ _ Hx node_p ltac:(lia)) as Hxp. cbn in Hxp. lia. }
    rewrite (proj2 (Z.ltb_ge b x.1)), (proj2 (Z.leb_gt x.1 a)) by lia. by rewrite andb_false_r.
  - pose proof (node_after _ _ Hi ltac:(lia)) as Hba. cbn in Hba.
    rewrite (proj2 (Z.ltb_ge a b)) by lia. rewrite andb_false_l, orb_false_l.
    destruct (nodes !! S i) as [x|] eqn:Ex.
    + pose proof (node_order _ _ _ _ Hi Ex ltac:(lia)) as Hax. cbn in Hax.
      change (default base (fst <$> Some x)) with x.1.
      by rewrite (proj2 (Z.leb_gt x.1 a)) by lia.
    + change (default base (fst <$> None)) with base.
      rewrite (proj2 (Z.ltb_ge b base)) by lia. by rewrite andb_false_r.
Qed.

Lemma search_up d i a n fuel :
  nodes !! i = Some (a, n) -> (i + d = length l1)%nat -> (d < fuel)%nat ->
  loop fuel search_turn a u = Ret p u.
Proof.
  revert i a n fuel. induction d as [|d IH]; intros i a n [|fuel] Hi Hd Hf; try lia; cbn [loop].
  - replace i with (length l1) in Hi by lia. rewrite node_p in Hi. assert (a = p) as -> by congruence.
    by rewrite (bind_eq _ _ _ _ _ search_stop).
  - rewrite (bind_eq _ _ _ _ _ (search_next i a n Hi ltac:(lia))).
    destruct (lookup_lt_is_Some_2 nodes (S i)) as [[a' n'] Hx].
    { apply Nat.le_lt_trans with (length l1); [lia|]. apply (lookup_lt_Some _ _ _ node_p). }
    rewrite Hx. cbn. apply (IH (S i) a' n'); done || lia.
Qed.
Lemma search_down d i a n fuel :
  nodes !! i = Some (a, n) -> (length l1 < i)%nat -> (i + d = length nodes)%nat ->
  (d + length l1 < fuel)%nat -> loop fuel search_turn a u = Ret p u.
Proof.
  revert i a n fuel. induction d as [|d IH]; intros i a n [|fuel] Hi Hlt Hd Hf; try lia; cbn [loop].
  - apply lookup_lt_Some in Hi. lia.
  - rewrite (bind_eq _ _ _ _ _ (search_next i a n Hi ltac:(lia))).
    destruct (nodes !! S i) as [[a' n']|] eqn:Hx; cbn.
    + apply (IH (S i) a' n'); done || lia.
    + apply (search_up (length l1) 0 base 0); done || lia.
Qed.

Lemma free_search_run fuel :
  (length nodes < fuel)%nat -> free_search fuel b u = Ret p u.
Proof.
  intros Hf. unfold free_search. mrun. change (loop fuel _) with (loop fuel search_turn).
  pose proof (hp_freep _ _ _ H) as (i & Hi)%list_elem_of_lookup.
  rewrite list_lookup_fmap in Hi. destruct (((base, 0) :: L) !! i) as [[a n]|] eqn:Ei; [|done].
  cbn in Hi. injection Hi as <-. assert (Hlt := lookup_lt_Some _ _ _ Ei). assert (Hlp := lookup_lt_Some _ _ _ node_p).
  destruct (Nat.le_gt_cases i (length l1)).
  - apply (search_up (length l1 - i) i a n); done || (unfold nodes in *; lia).
  - apply (search_down (length nodes - i) i a n); done || (unfold nodes in *; lia).
Qed.
End Search.

(** * Free *)

Lemma set_hd_run p h f u :
  u_mem u !! p = Some h -> set_hd p f u = Ret tt (u <| u_mem := <[p := f h]> (u_mem u) |>).
Proof.
  intros H. destruct u as [m fp br]. cbn in H.
  change (set_hd p f _) with (Ret tt (mkHeap (<[p := f (default (mkHdr 0 0) (m !! p))]> m) fp br)).
  by rewrite H.
Qed.
Lemma bind_set_hd {B} p h f (k : unit -> M uheap B) u :
  u_mem u !! p = Some h -> bind (set_hd p f) k u = k tt (u <| u_mem := <[p := f h]> (u_mem u) |>).
Proof. intros H. exact (bind_eq _ _ _ _ _ (set_hd_run p h f u H)). Qed.

Lemma plus_id p n : 0 <= p -> 0 <= n -> p + 8 * n < 2 ^ 31 -> plus p n = p + 8 * n.
Proof. intros. unfold plus, sizeof_Header. width_lia. Qed.

Lemma heap_perm u L A A' : A ≡ₚ A' -> heap_ok u L A -> heap_ok u L A'.
Proof.
  intros Hp [? ? ? Hb Ha Hc ? ?]. split; try done.
  - by rewrite <- Hp.
  - intros a n Hin. apply Ha. by rewrite Hp.
  - intros x. by rewrite <- Hp.
Qed.

(** The block [(b, n)] joined with the one after it, where they touch; a
    block joined with the one before it. *)
Definition join_up (b n : Z) (r : list block) : list block :=
  match r with
  | (c, k) :: r' => if b + 8 * n =? c then (b, n + k) :: r' else (b, n) :: r
  | [] => [(b, n)]
  end.
Definition join_down (p k : Z) (r : list block) : list block :=
  match r with
  | (b, n) :: r' => if p + 8 * k =? b then (p, k + n) :: r' else (p, k) :: r
  | [] => [(p, k)]
  end.

Lemma join_up_spec b n r :
  0 <= n -> Forall (fun y => 0 <= y.2) r ->
  exists n' r', join_up b n r = (b, n') :: r' /\ n <= n' /\ r' `suffix_of` r /\ (length r' <= length r)%nat /\
    (forall x, cover x ((b, n') :: r') = cover x ((b, n) :: r)) /\
    (n' = n \/ exists k, b + 8 * n' = b + 8 * n + 8 * k /\ (b + 8 * n, k) ∈ r).
Proof.
  intros Hn Hr. destruct r as [|[c k] r]; cbn [join_up].
  { exists n, []. split_and!; done || lia || by left. }
  destruct (Z.eqb_spec (b + 8 * n) c) as [<-|Hne].
  - inversion_clear Hr as [|? ? Hk]. cbn in Hk. exists (n + k), r. split_and!; try done; try (cbn; lia).
    + by apply suffix_cons_r.
    + intros x. cbn. by_range.
    + right. exists k. split; [lia|left].
  - exists n, ((c, k) :: r). split_and!; done || lia || by left.
Qed.

Lemma join_down_spec p k b n r :
  0 <= k -> 0 <= n ->
  exists k' r', join_down p k ((b, n) :: r) = (p, k') :: r' /\
    (forall x, cover x ((p, k') :: r') = cover x ((p, k) :: (b, n) :: r)) /\
    ((k' = k /\ r' = (b, n) :: r) \/ (b = p + 8 * k /\ k' = k + n /\ r' = r)).
Proof.
  intros Hk Hn. cbn [join_down]. destruct (Z.eqb_spec (p + 8 * k) b) as [<-|Hne].
  - exists (k + n), r. split_and!; try done; [|by right]. intros x. cbn. by_range.
  - exists k, ((b, n) :: r). split_and!; try done. by left.
Qed.

Lemma free_up_run u b hb l2 n' r k :
  u_mem u !! b = Some hb -> linked (u_mem u) l2 base -> join_up b (h_size hb) l2 = (b, n') :: r ->
  0 <= b -> 0 < h_size hb -> Forall (fun y => b < y.1 /\ 0 < y.2 /\ y.1 + 8 * y.2 < 2 ^ 31) l2 ->
  b + 8 * h_size hb < 2 ^ 31 -> base < b ->
  free_up b hb (mkHdr (next_of l2 base) k) u =
    Ret tt (u <| u_mem := <[b := mkHdr (next_of r base) n']> (u_mem u) |>).
Proof.
  intros Hb Hl Hj Hb0 Hn Hf Hlt Hbase. unfold free_up. cbn [h_ptr h_size].
  rewrite plus_id by lia. destruct l2 as [|[c kc] l2]; cbn [join_up next_of] in *.
  - rewrite (proj2 (Z.eqb_neq _ base)) by lia. injection Hj as <- <-.
    rewrite (set_hd_run b hb) by done. by destruct hb.
  - destruct (Z.eqb_spec (b + 8 * h_size hb) c) as [E|Hne]; injection Hj as <- <-.
    + destruct Hl as [Hc Hl]. inversion_clear Hf as [|? ? (Hbc & Hkc & Hcu) _]. cbn [fst snd] in *.
      rewrite (bind_hd c _ _ _ Hc), (bind_set_hd b hb) by done.
      assert (b <> c) by lia.
      rewrite (bind_hd c (mkHdr (next_of l2 base) kc)) by (cbn; by rewrite lookup_insert_ne).
      erewrite set_hd_run by (cbn; apply lookup_insert_eq). destruct u as [m fp br]. cbn in *.
      destruct hb as [nx s]. cbn in *. f_equal.
      transitivity (mkHeap (<[b := mkHdr (next_of l2 base) (u32 (s + kc))]> (<[b := mkHdr nx (u32 (s + kc))]> m)) fp br); [done|].
      rewrite insert_insert_eq, u32_id by lia. done.
    + rewrite (set_hd_run b hb) by done. by destruct hb.
Qed.

Lemma free_down_run u b p k n r nx k' r' :
  u_mem u !! b = Some (mkHdr (next_of r base) n) -> u_mem u !! p = Some (mkHdr nx k) ->
  join_down p k ((b, n) :: r) = (p, k') :: r' ->
  0 <= p -> 0 <= k -> 0 < n -> p < b -> p + 8 * k < 2 ^ 31 -> b + 8 * n < 2 ^ 31 ->
  free_down b p (mkHdr (next_of r base) n) (mkHdr nx k) u =
    Ret tt (u <| u_mem := <[p := mkHdr (next_of r' base) k']> (u_mem u) |>).
Proof.
  intros Hb Hp Hj ? ? ? ? ? ?. unfold free_down. cbn [h_ptr h_size]. rewrite plus_id by lia.
  cbn [join_down] in Hj. destruct (Z.eqb_spec (p + 8 * k) b) as [E|Hne]; injection Hj as <- <-.
  - rewrite (bind_set_hd p (mkHdr nx k)) by done.
    rewrite (bind_hd b (mkHdr (next_of r base) n)) by (cbn; by rewrite lookup_insert_ne by lia).
    erewrite set_hd_run by (cbn; apply lookup_insert_eq). destruct u as [m fp br]. f_equal.
    transitivity (mkHeap (<[p := mkHdr (next_of r base) (u32 (k + n))]> (<[p := mkHdr nx (u32 (k + n))]> m)) fp br); [done|].
    rewrite insert_insert_eq, u32_id by lia. done.
  - by rewrite (set_hd_run p (mkHdr nx k)) by done.
Qed.

Section FreeSpec.
Context (u : uheap) (L A : list block) (b n : Z) (H : heap_ok u L ((b, n) :: A)).
Context (l1 l2 : list block) (p k : Z) (El : (base, 0) :: L = l1 ++ (p, k) :: l2).
Context (Hl1 : Forall (fun y => y.1 < b) l1) (Hp : p < b) (Hl2 : Forall (fun y => b < y.1) l2).
Context (n' : Z) (r : list block) (Eu : join_up b n l2 = (b, n') :: r).
Context (k' : Z) (r' : list block) (Ed : join_down p k ((b, n') :: r) = (p, k') :: r').

Lemma freed_block : 0 < n /\ lo <= b /\ b + 8 * n <= u_brk u.
Proof. apply (heap_block _ _ _ b n H), elem_of_app. right. left. Qed.
Lemma old_node y : y ∈ l1 ++ (p, k) :: l2 -> y = (base, 0) \/ y ∈ L.
Proof. rewrite <- El. by intros ?%elem_of_cons. Qed.
Lemma old_block a m : (a, m) ∈ L -> 0 < m /\ lo <= a /\ a + 8 * m <= u_brk u.
Proof. intros Hin. apply (heap_block _ _ _ a m H), elem_of_app. by left. Qed.
Lemma after_block y : y ∈ l2 -> b < y.1 /\ 0 < y.2 /\ y.1 + 8 * y.2 <= u_brk u.
Proof.
  intros Hy. pose proof freed_block. pose proof (hp_base _ _ _ H). pose proof (proj1 (Forall_forall _ _) Hl2 y Hy).
  destruct (old_node y) as [->|Hin]; [apply elem_of_app; right; by right|cbn in *; lia|].
  destruct y as [a m]. pose proof (old_block a m Hin). cbn in *. lia.
Qed.
Lemma before_block : 0 < p /\ 0 <= k /\ p + 8 * k <= u_brk u /\ ((p, k) ∈ L \/ (p, k) = (base, 0)).
Proof using H El Hp.
  pose proof freed_block. pose proof (hp_base _ _ _ H).
  destruct (old_node (p, k)) as [[= Ep Ek]|Hin]; [apply elem_of_app; right; left| |].
  - split_and!; [lia..|right; congruence].
  - pose proof (old_block _ _ Hin). split_and!; [lia..|by left].
Qed.
Lemma up_facts : n <= n' /\ r `suffix_of` l2 /\ (length r <= length l2)%nat /\ b + 8 * n' <= u_brk u /\
  (forall x, cover x ((b, n') :: r) = cover x ((b, n) :: l2)).
Proof using H El Hl2 Eu.
  pose proof freed_block. destruct (join_up_spec b n l2) as (n1 & r1 & E & Hn & Hs & Hlen & Hc & Hm); [lia| |].
  { apply Forall_forall. intros y ?%after_block. lia. }
  rewrite Eu in E. injection E as <- <-. split_and!; try done.
  destruct Hm as [En|(m & Em & [Hm1 Hm2]%after_block)]; [lia|]. cbn in *. lia.
Qed.
Lemma down_facts :
  (forall x, cover x ((p, k') :: r') = cover x ((p, k) :: (b, n') :: r)) /\
  ((k' = k /\ r' = (b, n') :: r) \/ (b = p + 8 * k /\ k' = k + n' /\ r' = r)).
Proof using H El Hp Hl2 Eu Ed.
  pose proof freed_block. pose proof before_block. pose proof up_facts.
  destruct (join_down_spec p k b n' r) as (k1 & r1 & E & Hc & Hm); [lia..|].
  rewrite Ed in E. by injection E as <- <-.
Qed.
Lemma rest_in y : y ∈ r' -> y = (b, n') \/ y ∈ l2.
Proof.
  destruct up_facts as (_ & Hs & _). destruct down_facts as [_ [(_ & ->)|(_ & _ & ->)]].
  - intros [->|Hy]%elem_of_cons; [by left|]. right. by eapply elem_of_suffix.
  - intros Hy. right. by eapply elem_of_suffix.
Qed.

Lemma freed_sorted : StronglySorted below (l1 ++ (p, k') :: r').
Proof.
  pose proof (hp_sorted _ _ _ H) as Hs. rewrite El in Hs.
  apply StronglySorted_app in Hs as (Hx & Hs1 & Hs2). inversion_clear Hs2 as [|? ? Hs3 Hp2].
  assert (Hr : forall y, y ∈ r' -> b <= y.1).
  { intros y [->|[? _]%after_block]%rest_in; cbn; lia. }
  apply StronglySorted_app_2; [|done|constructor].
  - intros x y Hxl [->|Hy]%elem_of_cons.
    + exact (Hx x (p, k) Hxl ltac:(left)).
    + pose proof (proj1 (Forall_forall _ _) Hl1 x Hxl). pose proof (Hr y Hy). unfold below. cbn in *. lia.
  - destruct up_facts as (_ & [q Hq] & _). rewrite Hq in Hs3. apply StronglySorted_app in Hs3 as (_ & _ & Hs3).
    destruct down_facts as [_ [(_ & ->)|(_ & _ & ->)]]; [|done]. constructor; [done|].
    apply Forall_forall. intros y Hy. apply (after_block y). rewrite Hq. apply elem_of_app. by right.
  - apply Forall_forall. intros y ?%Hr. unfold below. cbn. lia.
Qed.

Definition freed_mem : gmap Z header :=
  <[p := mkHdr (next_of r' base) k']> (<[b := mkHdr (next_of r base) n']> (u_mem u)).

Lemma freed_linked : linked freed_mem (l1 ++ (p, k') :: r') base.
Proof.
  pose proof (hp_link _ _ _ H) as Hk. rewrite El in Hk. apply linked_app in Hk as [Hk1 [_ Hk2]].
  pose proof freed_sorted as Hs. apply StronglySorted_app in Hs as (Hx & _ & Hs). inversion_clear Hs as [|? ? _ Hpr].
  assert (Hfr : forall l, (forall y, y ∈ l -> y.1 <> p /\ y.1 <> b) -> forall nxt, linked (u_mem u) l nxt -> linked freed_mem l nxt).
  { intros l Hl nxt. apply linked_frame. intros a ([c m] & -> & [? ?]%Hl)%list_elem_of_fmap. cbn in *.
    unfold freed_mem. by rewrite !lookup_insert_ne by done. }
  apply linked_app. cbn [linked next_of]. split_and!.
  - apply Hfr; [|done]. intros y Hy. pose proof (Hx y (p, k') Hy ltac:(left)). unfold below in *.
    pose proof (proj1 (Forall_forall _ _) Hl1 y Hy). cbn in *. lia.
  - apply lookup_insert_eq.
  - assert (Hlr : linked freed_mem r base).
    { destruct up_facts as (_ & [q Hq] & _). apply Hfr; [|rewrite Hq in Hk2; by apply linked_app in Hk2 as [_ ?]].
      intros y Hy. destruct (after_block y); [rewrite Hq; apply elem_of_app; by right|]. lia. }
    destruct down_facts as [_ [(_ & ->)|(_ & _ & ->)]]; [|done]. split; [|done].
    unfold freed_mem. rewrite lookup_insert_ne by lia. apply lookup_insert_eq.
Qed.

Lemma freed_nodes : exists L', (base, 0) :: L' = l1 ++ (p, k') :: r'.
Proof using H El Hl1 Hp Hl2 Eu Ed.
  pose proof freed_block. pose proof (hp_base _ _ _ H).
  pose proof El as E. destruct down_facts as [_ Hd].
  assert (l1 = [] -> p = base /\ k = 0) as Hn by (intros El1; rewrite El1 in E; by injection E as -> ->).
  assert (forall x l, l1 = x :: l -> x = (base, 0)) as Hx by (intros x l El1; rewrite El1 in E; by injection E as ->).
  destruct l1 as [|x l]; [|rewrite (Hx x l) by done; by eexists].
  destruct Hn as [-> ->]; [done|]. destruct Hd as [(-> & _)|(? & _)]; [by eexists|lia].
Qed.

Lemma cover_base x l : cover x ((base, 0) :: l) = cover x l.
Proof. cbn. by_range. Qed.

Section Freed.
Context (L' : list block) (El' : (base, 0) :: L' = l1 ++ (p, k') :: r').

Lemma freed_cover x : cover x L' = cover x ((b, n) :: L).
Proof using H El Hl1 Hp Hl2 Eu Ed El'.
  destruct up_facts as (_ & _ & _ & _ & Hu). destruct down_facts as [Hd _]. specialize (Hu x). specialize (Hd x).
  rewrite <- (cover_base x L'), El', cover_app. pose proof (cover_base x L) as HL. rewrite El, cover_app in HL.
  cbn [cover] in *. lia.
Qed.
Lemma freed_length : (length L' <= S (length L))%nat.
Proof using H El Hl1 Hp Hl2 Eu Ed El'.
  assert (length ((base, 0) :: L') = length (l1 ++ (p, k') :: r')) as E1 by (by rewrite El').
  assert (length ((base, 0) :: L) = length (l1 ++ (p, k) :: l2)) as E2 by (by rewrite El).
  destruct up_facts as (_ & _ & Hl & _). rewrite length_app in E1, E2.
  destruct down_facts as [_ [(_ & Er)|(_ & _ & Er)]]; rewrite Er in E1; cbn in *; lia.
Qed.
(** The freed block is whole in one of the free blocks. *)
Lemma freed_whole : exists a m, (a, m) ∈ L' /\ n <= m.
Proof using H El Hl1 Hp Hl2 Eu Ed El'.
  destruct up_facts as (Hn & _). pose proof freed_block. pose proof before_block as (_ & Hk & _). pose proof (hp_base _ _ _ H).
  destruct down_facts as [_ [(_ & Er)|(Eb & Ek & Er)]].
  - exists b, n'. split; [|done]. assert (Hin : (b, n') ∈ (base, 0) :: L').
    { rewrite El', Er. apply elem_of_app. right. right. left. }
    apply elem_of_cons in Hin as [[= -> ->]|]; [lia|done].
  - exists p, k'. split; [|lia]. assert (Hin : (p, k') ∈ (base, 0) :: L').
    { rewrite El'. apply elem_of_app. right. left. }
    apply elem_of_cons in Hin as [[= ]|]; [lia|done].
Qed.

Lemma freed_blocks y : y ∈ L' -> 0 < y.2 /\ lo <= y.1 /\ y.1 + 8 * y.2 <= u_brk u.
Proof.
  intros Hy. pose proof freed_sorted as Hs. rewrite <- El' in Hs. inversion_clear Hs as [|? ? _ Hbs].
  pose proof (proj1 (Forall_forall _ _) Hbs y Hy) as Hby. unfold below in Hby. cbn in Hby.
  pose proof freed_block as Hb. destruct up_facts as (Hn & _ & _ & Hu & _).
  assert (Hin : y ∈ l1 ++ (p, k') :: r') by (rewrite <- El'; by right).
  assert (Hold : y ∈ l1 ++ (p, k) :: l2 -> 0 < y.2 /\ lo <= y.1 /\ y.1 + 8 * y.2 <= u_brk u).
  { intros [->|Ho]%old_node; [cbn in Hby; lia|]. destruct y as [a m]. exact (old_block a m Ho). }
  apply elem_of_app in Hin as [Hin|[->|[->|Hin]%rest_in]%elem_of_cons].
  - apply Hold, elem_of_app. by left.
  - cbn [fst snd] in *. destruct down_facts as [_ [(Ek & _)|(Eb & Ek & _)]]; rewrite Ek in Hold |- *.
    + apply Hold, elem_of_app. right. left.
    + destruct before_block as (_ & Hk & _ & [Ho|[= ]]); [pose proof (old_block _ _ Ho); lia|lia].
  - cbn. lia.
  - apply Hold, elem_of_app. right. by right.
Qed.

Lemma freed_ok : heap_ok (mkHeap freed_mem p (u_brk u)) L' A.
Proof.
  split; cbn [u_mem u_freep u_brk].
  - rewrite El'. apply freed_linked.
  - rewrite El'. apply freed_sorted.
  - rewrite El', fmap_app. apply elem_of_app. right. left.
  - pose proof (hp_blocks _ _ _ H) as Hb. apply Forall_app in Hb as [_ Hb]. inversion_clear Hb as [|? ? _ HA].
    apply Forall_app. split; [|done]. apply Forall_forall, freed_blocks.
  - intros a m Hin. destruct (hp_alloc _ _ _ H a m) as (h & Ha & Hs); [by right|]. exists h. split; [|done].
    assert (a <> b).
    { intros ->. pose proof (hp_cover _ _ _ H b) as Hc. rewrite cover_app in Hc. pose proof freed_block.
      assert (Hm : 0 < m) by (apply (heap_block _ _ _ b m H), elem_of_app; right; by right).
      pose proof (cover_nonneg b L). pose proof (cover_in b A b m Hin ltac:(lia)). revert Hc. cbn. by_range. }
    assert (a <> p).
    { intros ->. apply (alloc_not_free _ _ _ p m H); [by right|]. rewrite El, fmap_app. apply elem_of_app. right. left. }
    unfold freed_mem. by rewrite !lookup_insert_ne.
  - intros x. rewrite cover_app, freed_cover. pose proof (hp_cover _ _ _ H x) as Hc. rewrite cover_app in Hc. cbn in *. lia.
  - exact (hp_brk _ _ _ H).
  - exact (hp_base _ _ _ H).
Qed.
End Freed.
End FreeSpec.

Lemma join_up_shape b n l : exists n' r, join_up b n l = (b, n') :: r.
Proof. destruct l as [|[c k] l]; cbn; [|destruct (_ =? c)]; by eexists _, _. Qed.
Lemma join_down_shape p k l : exists k' r, join_down p k l = (p, k') :: r.
Proof. destruct l as [|[c n] l]; cbn; [|destruct (_ =? c)]; by eexists _, _. Qed.

(** Where the search of [free] stops for an allocated block. *)
Lemma free_place u L A b n :
  heap_ok u L ((b, n) :: A) ->
  exists l1 p k l2, (base, 0) :: L = l1 ++ (p, k) :: l2 /\
    Forall (fun y => y.1 < b) l1 /\ p < b /\ Forall (fun y => b < y.1) l2.
Proof.
  intros H. assert (Hb := heap_block u L _ b n H ltac:(apply elem_of_app; right; left)). pose proof (hp_base _ _ _ H).
  destruct (sorted_split ((base, 0) :: L) b) as (l & l2 & El & Hl & Hl2).
  { apply (hp_sorted _ _ _ H). } { apply (alloc_not_free _ _ _ b n H). left. }
  destruct l as [|[p k] l1 _] using rev_ind.
  { cbn in El. rewrite <- El in Hl2. inversion_clear Hl2. cbn in *. lia. }
  rewrite <- app_assoc in El. apply Forall_app in Hl as [Hl1 Hp]. inversion_clear Hp as [|? ? Hp' _].
  by exists l1, p, k, l2.
Qed.

Lemma free_run u L A b n fuel :
  heap_ok u L ((b, n) :: A) -> (S (length L) < fuel)%nat ->
  exists u' L', free fuel (b + 8) u = Ret tt u' /\ heap_ok u' L' A /\ u_brk u' = u_brk u /\
    (forall x, cover x L' = cover x ((b, n) :: L)) /\ (length L' <= S (length L))%nat /\
    exists a m, (a, m) ∈ L' /\ n <= m.
Proof.
  intros H Hf. destruct (free_place u L A b n H) as (l1 & p & k & l2 & El & Hl1 & Hp & Hl2).
  destruct (join_up_shape b n l2) as (n' & r & Eu). destruct (join_down_shape p k ((b, n') :: r)) as (k' & r' & Ed).
  assert (Hfb := freed_block _ _ _ _ _ H). assert (Hbb := before_block _ _ _ _ _ H _ _ _ _ El Hp).
  destruct (up_facts _ _ _ _ _ H _ _ _ _ El Hl2 _ _ Eu) as (Hn & _ & _ & Hu & _).
  pose proof (hp_brk _ _ _ H) as Hbrk. pose proof (hp_base _ _ _ H) as Hbase.
  assert (Hlk := hp_link _ _ _ H). rewrite El in Hlk. apply linked_app in Hlk as [_ [Hlp Hlk]].
  destruct (hp_alloc _ _ _ H b n ltac:(left)) as (hb & Hb & <-).
  assert (Haft : Forall (fun y => b < y.1 /\ 0 < y.2 /\ y.1 + 8 * y.2 < 2 ^ 31) l2).
  { apply Forall_forall. intros y ?%(after_block _ _ _ _ _ H _ _ _ _ El Hl2). lia. }
  destruct (freed_nodes _ _ _ _ _ H _ _ _ _ El Hl1 Hp Hl2 _ _ Eu _ _ Ed) as (L' & El').
  exists (mkHeap (freed_mem u b p n' r k' r') p (u_brk u)), L'. split_and!.
  - unfold free. replace (u32 (b + 8 - sizeof_Header)) with b by (unfold sizeof_Header; width_lia). cbv zeta.
    rewrite (bind_eq _ _ _ _ _ (free_search_run u L _ b H ltac:(lia) l1 l2 p k El Hp Hl2 fuel ltac:(cbn; lia))).
    rewrite (bind_hd b _ _ _ Hb), (bind_hd p _ _ _ Hlp).
    rewrite (bind_eq (free_up b hb (mkHdr (next_of l2 base) k)) _ _ _ _ (free_up_run u b hb l2 n' r k Hb Hlk Eu ltac:(lia) ltac:(lia)
      Haft ltac:(lia) ltac:(lia))).
    rewrite (bind_hd p (mkHdr (next_of l2 base) k)) by (cbn; by rewrite lookup_insert_ne by lia).
    rewrite (bind_hd b (mkHdr (next_of r base) n')) by (cbn; apply lookup_insert_eq).
    change (bind _ _ ?v) with (bind (free_down b p (mkHdr (next_of r base) n') (mkHdr (next_of l2 base) k))
      (fun _ => modify (fun u => u <| u_freep := p |>)) v).
    erewrite bind_eq; [|apply (free_down_run _ b p k n' r (next_of l2 base) k' r')]; [|try done; try lia..].
    + done.
    + cbn. apply lookup_insert_eq.
    + cbn. by rewrite lookup_insert_ne by lia.
  - by apply (freed_ok _ _ _ _ _ H _ _ _ _ El Hl1 Hp Hl2 _ _ Eu _ _ Ed).
  - done.
  - apply (freed_cover _ _ _ _ _ H _ _ _ _ El Hl1 Hp Hl2 _ _ Eu _ _ Ed _ El').
  - apply (freed_length _ _ _ _ _ H _ _ _ _ El Hl1 Hp Hl2 _ _ Eu _ _ Ed _ El').
  - apply (freed_whole _ _ _ _ _ H _ _ _ _ El Hl1 Hp Hl2 _ _ Eu _ _ Ed _ El').
Qed.


(** * More memory *)

Context (frames : Z -> Z -> bool).

Lemma cover_out B l x : Forall (fun y => y.1 + 8 * y.2 <= B) l -> B <= x -> cover x l = 0.
Proof.
  intros Hl Hx. induction Hl as [|[a n] l Ha Hl IH]; cbn in *; [done|]. rewrite IH. by_range.
Qed.

Definition grown_heap (u : uheap) (n : Z) : uheap :=
  mkHeap (<[u_brk u := (default (mkHdr 0 0) (u_mem u !! u_brk u)) <| h_size := n |>]> (u_mem u))
    (u_freep u) (u_brk u + 8 * n).

(** The memory [sbrk] returns is an allocated block until [free] has it. *)
Lemma grown_ok u L A n :
  heap_ok u L A -> 0 < n -> u_brk u + 8 * n < 2 ^ 31 ->
  heap_ok (grown_heap u n) L ((u_brk u, n) :: A).
Proof.
  intros H Hn Hlt. pose proof (hp_base _ _ _ H) as Hbase. pose proof (hp_brk _ _ _ H) as Hbrk.
  assert (Hne : forall a m, (a, m) ∈ L ++ A -> a <> u_brk u).
  { intros a m ?%(heap_block _ _ _ _ _ H). lia. }
  split; cbn [grown_heap u_mem u_freep u_brk].
  - apply (linked_frame (u_mem u)); [|apply (hp_link _ _ _ H)]. intros a Ha. apply lookup_insert_ne.
    apply elem_of_cons in Ha as [->|([c m] & -> & Hin)%list_elem_of_fmap]; cbn; [lia|].
    symmetry. apply (Hne c m), elem_of_app. by left.
  - apply (hp_sorted _ _ _ H).
  - apply (hp_freep _ _ _ H).
  - rewrite Permutation_app_comm. cbn. constructor; [cbn; lia|]. rewrite Permutation_app_comm.
    eapply Forall_impl; [apply (hp_blocks _ _ _ H)|]. cbn. intros y. lia.
  - intros a m [[= -> ->]|Hin]%elem_of_cons.
    + rewrite lookup_insert_eq. by eexists.
    + rewrite lookup_insert_ne; [by apply (hp_alloc _ _ _ H)|]. symmetry. apply (Hne a m), elem_of_app. by right.
  - intros x. rewrite cover_app. cbn. pose proof (hp_cover _ _ _ H x) as Hc. rewrite cover_app in Hc.
    destruct (within_spec (u_brk u) (8 * n) x); [|lia].
    pose proof (cover_out (u_brk u) (L ++ A) x) as Hz. rewrite cover_app in Hz. rewrite Z.add_comm, <- Z.add_assoc.
    rewrite (Z.add_comm (cover x A)), Hz; [lia| |lia].
    eapply Forall_impl; [apply (hp_blocks _ _ _ H)|]. cbn. intros y. lia.
  - lia.
  - done.
Qed.

Lemma sbrk_run u n :
  0 < n < 2 ^ 31 -> 0 <= u_brk u < 2 ^ 31 ->
  sbrk frames n u = Ret (-1) u \/
  (u_brk u + n < 2 ^ 31 /\ sbrk frames n u = Ret (u_brk u) (u <| u_brk := u_brk u + n |>)).
Proof.
  intros Hn Hb. unfold sbrk. mrun. rewrite s32_id by lia. unfold sbrk_size, KERNBASE.
  rewrite (proj2 (Z.ltb_lt 0 n)), (proj2 (Z.eqb_neq n 0)), u32_id by lia.
  destruct (Z.leb_spec 0x80000000 (u_brk u + n)); [by left|].
  rewrite (proj2 (Z.ltb_ge (u_brk u + n) (u_brk u))) by lia. destruct (frames _ _); [|by left].
  rewrite (proj2 (Z.eqb_neq (u_brk u + n) 0)) by lia. right. by split; [|mrun].
Qed.

Lemma morecore_run u L A nu fuel :
  heap_ok u L A -> 0 <= nu < 2 ^ 28 -> (S (length L) < fuel)%nat ->
  morecore frames fuel nu u = Ret 0 u \/
  exists u' L', morecore frames fuel nu u = Ret (u_freep u') u' /\ heap_ok u' L' A /\
    u_brk u < u_brk u' /\
    (forall x, cover x L' = cover x ((u_brk u, Z.max nu 4096) :: L)) /\
    u_brk u' = u_brk u + 8 * Z.max nu 4096 /\ (length L' <= S (length L))%nat /\
    exists a m, (a, m) ∈ L' /\ nu <= m.
Proof.
  intros H Hnu Hf. unfold morecore. replace (if nu <? 4096 then 4096 else nu) with (Z.max nu 4096) by (destruct (Z.ltb_spec nu 4096); lia).
  pose proof (hp_base _ _ _ H). pose proof (hp_brk _ _ _ H). unfold sizeof_Header. cbv zeta.
  rewrite u32_id by lia. set (n := Z.max nu 4096) in *.
  destruct (sbrk_run u (n * 8)) as [E|[Hlt E]]; [lia..|left; by rewrite (bind_eq _ _ _ _ _ E)|].
  right. rewrite (bind_eq _ _ _ _ _ E). rewrite (proj2 (Z.eqb_neq (u_brk u) (-1))) by lia.
  destruct (free_run (grown_heap u n) L A (u_brk u) n fuel) as (u' & L' & Ef & Hok & Hb & Hc & Hl & Hw).
  { apply grown_ok; done || lia. } { done. }
  exists u', L'. rewrite u32_id by lia.
  assert (Es : set_hd (u_brk u) (fun h => h <| h_size := n |>) (u <| u_brk := u_brk u + n * 8 |>) = Ret tt (grown_heap u n)).
  { unfold grown_heap. rewrite (Z.mul_comm n 8). by destruct u. }
  rewrite (bind_eq _ _ _ _ _ Es), (bind_eq _ _ _ _ _ Ef). rewrite Hb. cbn [grown_heap u_brk].
  split_and!; try done; try lia. destruct Hw as (a & m & Hin & Hm). exists a, m. split; [done|lia].
Qed.

(** * The scan of malloc *)

Section Take.
Context (u : uheap) (L A : list block) (H : heap_ok u L A).
Context (x y : list block) (q j : Z) (El : L = x ++ (q, j) :: y).
Context (l1 : list block) (pv kv : Z) (Ex : (base, 0) :: x = l1 ++ [(pv, kv)]).
Context (nu : Z) (Hnu : 0 < nu <= j).

Lemma take_nodes : (base, 0) :: L = l1 ++ (pv, kv) :: (q, j) :: y.
Proof using El Ex. rewrite El. change ((base, 0) :: x ++ (q, j) :: y) with (((base, 0) :: x) ++ (q, j) :: y). by rewrite Ex, <- app_assoc. Qed.
Lemma take_nodes' r : (base, 0) :: x ++ r = l1 ++ (pv, kv) :: r.
Proof using Ex. change ((base, 0) :: x ++ r) with (((base, 0) :: x) ++ r). by rewrite Ex, <- app_assoc. Qed.
Lemma take_block : 0 < j /\ lo <= q /\ q + 8 * j <= u_brk u.
Proof using H El. apply (heap_block _ _ _ _ _ H). rewrite El. apply elem_of_app. left. apply elem_of_app. right. left. Qed.
Lemma take_sorted :
  StronglySorted below l1 /\ StronglySorted below y /\ (forall z, z ∈ l1 -> z.1 < pv) /\ pv < q /\
  (forall z, z ∈ y -> q < z.1).
Proof using H El Ex.
  pose proof (hp_sorted _ _ _ H) as Hs. rewrite take_nodes in Hs. apply StronglySorted_app in Hs as (Hx & Hs1 & Hs).
  inversion_clear Hs as [|? ? Hs' Hpv]. inversion_clear Hs' as [|? ? Hs2 Hq]. split_and!; try done.
  - intros z Hz. exact (Hx z (pv, kv) Hz ltac:(left)).
  - inversion_clear Hpv as [|? ? Hlt _]. exact Hlt.
  - intros z Hz. exact (proj1 (Forall_forall _ _) Hq z Hz).
Qed.
(** The free list without the block, or with a shorter one in its place. *)
Lemma shorter_sorted r :
  (forall z, z ∈ r -> z.1 = q \/ z ∈ y) -> StronglySorted below r -> StronglySorted below ((base, 0) :: x ++ r).
Proof using H El Ex.
  intros Hr Hs. destruct take_sorted as (Hs1 & _ & Hl & Hpq & Hy). rewrite take_nodes'.
  assert (Hq : forall z, z ∈ r -> q <= z.1) by (intros z [->|?%Hy]%Hr; lia).
  apply StronglySorted_app_2; [|done|constructor; [done|]].
  - intros a b Ha%Hl [->|?%Hq]%elem_of_cons; unfold below; cbn in *; lia.
  - apply Forall_forall. intros b ?%Hq. unfold below. cbn. lia.
Qed.
Lemma take_links : linked (u_mem u) l1 pv /\ u_mem u !! pv = Some (mkHdr q kv) /\
  u_mem u !! q = Some (mkHdr (next_of y base) j) /\ linked (u_mem u) y base.
Proof using H El Ex.
  pose proof (hp_link _ _ _ H) as Hk. rewrite take_nodes in Hk. apply linked_app in Hk as [Hk1 (Hp & Hq & Hy)].
  by split_and!.
Qed.
Lemma take_perm : L ++ A ≡ₚ (q, j) :: (x ++ y ++ A).
Proof using El. rewrite El, <- app_assoc, <- app_comm_cons. symmetry. apply Permutation_middle. Qed.
(** Nothing else starts inside the block. *)
Lemma take_inside a n : q <= a < q + 8 * j -> (a, n) ∈ x ++ y ++ A -> False.
Proof using H El.
  intros Ha Hin. pose proof (hp_cover _ _ _ H a) as Hc. rewrite take_perm in Hc. cbn [cover] in Hc.
  assert (Hn : 0 < n) by (apply (heap_block _ _ _ a n H); rewrite take_perm; by right).
  pose proof (cover_in a _ a n Hin ltac:(lia)). revert Hc. by_range.
Qed.
Lemma take_freep r : pv ∈ ((base, 0) :: x ++ r).*1.
Proof using Ex. rewrite take_nodes', fmap_app. apply elem_of_app. right. left. Qed.

Definition taken_exact : uheap := mkHeap (<[pv := mkHdr (next_of y base) kv]> (u_mem u)) pv (u_brk u).

Lemma taken_exact_ok : heap_ok taken_exact (x ++ y) ((q, j) :: A).
Proof using H El Ex.
  destruct take_sorted as (_ & Hsy & Hl & Hpq & Hy). destruct take_links as (Hk1 & Hkp & Hkq & Hky).
  assert (Ep : (x ++ y) ++ (q, j) :: A ≡ₚ L ++ A).
  { rewrite take_perm, <- app_assoc. rewrite Permutation_app_comm, <- app_assoc. cbn. rewrite Permutation_app_comm. solve_Permutation. }
  split; cbn [taken_exact u_mem u_freep u_brk].
  - rewrite take_nodes'. apply linked_app. cbn [linked next_of]. split_and!.
    + apply (linked_frame (u_mem u)); [|done]. intros a (z & -> & Hz%Hl)%list_elem_of_fmap. apply lookup_insert_ne. lia.
    + apply lookup_insert_eq.
    + apply (linked_frame (u_mem u)); [|done]. intros a (z & -> & Hz%Hy)%list_elem_of_fmap. apply lookup_insert_ne. lia.
  - apply shorter_sorted; [|done]. intros z Hz. by right.
  - apply take_freep.
  - rewrite Ep. apply (hp_blocks _ _ _ H).
  - intros a n [[= -> ->]|Hin]%elem_of_cons.
    + rewrite lookup_insert_ne by lia. rewrite Hkq. by eexists.
    + destruct (hp_alloc _ _ _ H a n Hin) as (h & Ha & Hn). exists h. split; [|done].
      rewrite lookup_insert_ne; [done|]. intros Epv. apply (alloc_not_free _ _ _ a n H Hin).
      rewrite take_nodes, fmap_app, <- Epv. apply elem_of_app. right. left.
  - intros z. rewrite Ep. apply (hp_cover _ _ _ H).
  - apply (hp_brk _ _ _ H).
  - apply (hp_base _ _ _ H).
Qed.

Definition taken_split : uheap :=
  let q2 := q + 8 * (j - nu) in
  mkHeap (<[q2 := (default (mkHdr 0 0) (u_mem u !! q2)) <| h_size := nu |>]>
    (<[q := mkHdr (next_of y base) (j - nu)]> (u_mem u))) pv (u_brk u).

Lemma split_cover z :
  cover z ((x ++ (q, j - nu) :: y) ++ (q + 8 * (j - nu), nu) :: A) = cover z (L ++ A).
Proof using El Hnu.
  rewrite take_perm. rewrite !cover_app. cbn [cover]. pose proof (cover_split z q j nu ltac:(lia)) as Hs. cbn [cover] in Hs.
  rewrite !cover_app. lia.
Qed.

Lemma taken_split_ok :
  nu < j -> heap_ok taken_split (x ++ (q, j - nu) :: y) ((q + 8 * (j - nu), nu) :: A).
Proof using H El Ex Hnu.
  intros Hlt. destruct take_sorted as (_ & Hsy & Hl & Hpq & Hy). destruct take_links as (Hk1 & Hkp & Hkq & Hky).
  destruct take_block as (_ & Hlo & Hhi). set (q2 := q + 8 * (j - nu)). assert (Hq2 : q < q2 < q + 8 * j) by lia.
  assert (Hnew : forall a n, (a, n) ∈ x ++ y ++ A -> a <> q /\ a <> q2).
  { intros a n Hin. split; intros ->; eapply (take_inside _ n); try exact Hin; lia. }
  assert (Hfr : forall l nxt, (forall a n, (a, n) ∈ l -> a <> q /\ a <> q2) -> linked (u_mem u) l nxt -> linked (u_mem taken_split) l nxt).
  { intros l nxt Hln. apply linked_frame. intros a ([c n] & -> & [? ?]%Hln)%list_elem_of_fmap. cbn.
    fold q2. by rewrite !lookup_insert_ne. }
  assert (Hpv : pv <> q2) by lia.
  split.
  - rewrite take_nodes'. apply linked_app. cbn [linked next_of]. split_and!.
    + apply Hfr; [|done]. intros a n Hz%Hl. cbn in Hz. lia.
    + cbn. fold q2. by rewrite !lookup_insert_ne by lia.
    + cbn. fold q2. rewrite lookup_insert_ne by lia. apply lookup_insert_eq.
    + apply Hfr; [|done]. intros a n Hz. apply (Hnew a n), elem_of_app. right. apply elem_of_app. by left.
  - apply shorter_sorted; [intros z [->|Hz]%elem_of_cons; [by left|by right]|].
    constructor; [done|]. apply Forall_forall. exact Hy.
  - apply take_freep.
  - pose proof (hp_blocks _ _ _ H) as Hb. rewrite take_perm in Hb. inversion_clear Hb as [|? ? _ Hb'].
    apply Forall_app in Hb' as [Hbx [Hby HbA]%Forall_app]. cbn [taken_split u_brk].
    rewrite Forall_app, !Forall_app, !Forall_cons. cbn [fst snd]. split_and!; done || lia.
  - intros a n [[= -> ->]|Hin]%elem_of_cons; cbn; fold q2.
    + rewrite lookup_insert_eq. by eexists.
    + destruct (hp_alloc _ _ _ H a n Hin) as (h & Ha & Hn). exists h. split; [|done].
      destruct (Hnew a n) as [? ?]; [apply elem_of_app; right; apply elem_of_app; by right|].
      by rewrite !lookup_insert_ne.
  - intros z. rewrite split_cover. apply (hp_cover _ _ _ H).
  - apply (hp_brk _ _ _ H).
  - apply (hp_base _ _ _ H).
Qed.

(** The turn that finds the block takes it, whole or its upper end. *)
Lemma turn_takes fuel :
  malloc_turn frames fuel nu (pv, q) u =
    if j =? nu then Ret (inr (q + 8)) taken_exact else Ret (inr (q + 8 * (j - nu) + 8)) taken_split.
Proof using H El Ex Hnu.
  destruct take_links as (_ & Hkp & Hkq & _). destruct take_block as (_ & Hlo & Hhi).
  pose proof (hp_brk _ _ _ H). pose proof (hp_base _ _ _ H). destruct take_sorted as (_ & _ & _ & Hpq & _).
  unfold malloc_turn. rewrite (bind_hd q _ _ _ Hkq). cbn [h_size h_ptr]. rewrite (proj2 (Z.leb_le nu j)) by lia.
  unfold sizeof_Header. destruct (Z.eqb_spec j nu) as [E|Hne].
  - rewrite (bind_set_hd pv _ _ _ _ Hkp). mrun. rewrite u32_id by lia. by unfold taken_exact.
  - rewrite (bind_set_hd q _ _ _ _ Hkq). rewrite (bind_hd q (mkHdr (next_of y base) (j - nu))).
    2:{ transitivity (Some (mkHdr (next_of y base) (u32 (j - nu)))); [cbn; apply lookup_insert_eq|by rewrite u32_id by lia]. }
    cbn [h_size]. rewrite plus_id by lia. cbv zeta. unfold set_hd. mrun. rewrite u32_id by lia.
    unfold taken_split. f_equal. cbn. destruct u as [m fp br]. cbn in *.
    set (m1 := <[q := mkHdr (next_of y base) (u32 (j - nu))]> m). set (q2 := q + 8 * (j - nu)).
    transitivity (mkHeap (<[q2 := (default (mkHdr 0 0) (m1 !! q2)) <| h_size := nu |>]> m1) pv br); [done|].
    unfold m1. rewrite u32_id by lia. by rewrite lookup_insert_ne by lia.
Qed.
End Take.

(** The free list as [malloc] meets it, from [freep] around. *)
Lemma heap_rotation u L A :
  heap_ok u L A -> exists kf v, linked (u_mem u) ((u_freep u, kf) :: v) (u_freep u) /\
    (u_freep u ∉ v.*1) /\ (u_freep u, kf) :: v ≡ₚ (base, 0) :: L.
Proof.
  intros H. pose proof (hp_freep _ _ _ H) as ([fp kf] & Efp & (a & c & El)%list_elem_of_split)%list_elem_of_fmap.
  cbn in Efp. pose proof (hp_link _ _ _ H) as Hk. pose proof (hp_sorted _ _ _ H) as Hs. rewrite El in Hk, Hs.
  rewrite Efp. exists kf, (c ++ a). apply linked_app in Hk as [Hka Hkc]. apply StronglySorted_app in Hs as (Hx & _ & Hs).
  inversion_clear Hs as [|? ? _ Hfc]. split_and!.
  - rewrite app_comm_cons. apply linked_app. split; [|done].
    assert (next_of a fp = base) as ->; [|done]. destruct a as [|[b n] a]; cbn in El; by injection El.
  - rewrite fmap_app. intros [(z & E & Hz)%list_elem_of_fmap|(z & E & Hz)%list_elem_of_fmap]%elem_of_app.
    + pose proof (proj1 (Forall_forall _ _) Hfc z Hz). unfold below in *. cbn in *. lia.
    + pose proof (Hx z (fp, kf) Hz ltac:(left)). unfold below in *. cbn in *. lia.
  - rewrite El, app_comm_cons. apply Permutation_app_comm.
Qed.

(** A predecessor of a large block of the circular list is its predecessor in
    address order. *)
Lemma node_found u L A pv kv q h j :
  heap_ok u L A -> pv ∈ ((base, 0) :: L).*1 -> u_mem u !! pv = Some (mkHdr q kv) ->
  u_mem u !! q = Some (mkHdr h j) -> 0 < j ->
  exists x y l1, L = x ++ (q, j) :: y /\ (base, 0) :: x = l1 ++ [(pv, kv)].
Proof.
  intros H (i & Hi)%list_elem_of_lookup Hpv Hq Hj. rewrite list_lookup_fmap in Hi.
  destruct (((base, 0) :: L) !! i) as [[pv' kv']|] eqn:Ei; [|done]. cbn in Hi. injection Hi as ->.
  pose proof (hp_link _ _ _ H) as Hk. rewrite (linked_lookup _ _ _ _ _ _ Hk Ei) in Hpv. injection Hpv as Eq <-.
  destruct Hk as [Hk0 Hk]. destruct (L !! i) as [[q' j']|] eqn:Es; cbn in Eq; subst q.
  2:{ rewrite Hk0 in Hq. injection Hq as _ <-. lia. }
  rewrite (linked_lookup _ _ _ (S i) _ _ (hp_link _ _ _ H) Es) in Hq. injection Hq as _ <-.
  exists (take i L), (drop (S i) L), (take i ((base, 0) :: L)). split.
  - by rewrite (take_drop_middle L i (q', j') Es).
  - rewrite <- take_S_r by done. done.
Qed.

(** The scan stops at a block that is large enough, or at [freep] when none is. *)
Lemma malloc_scan u nu kf fuel0 v : forall pv kv fuel,
  linked (u_mem u) ((pv, kv) :: v) (u_freep u) -> (u_freep u ∉ v.*1) ->
  (exists h, u_mem u !! u_freep u = Some (mkHdr h kf)) -> (length v < fuel)%nat ->
  exists pv' kv' q j h fuel', (fuel <= S fuel' + length v)%nat /\ pv' ∈ pv :: v.*1 /\
    loop fuel (malloc_turn frames fuel0 nu) (pv, next_of v (u_freep u)) u =
      loop (S fuel') (malloc_turn frames fuel0 nu) (pv', q) u /\
    u_mem u !! pv' = Some (mkHdr q kv') /\ u_mem u !! q = Some (mkHdr h j) /\
    (nu <= j \/ (q = u_freep u /\ j < nu /\ Forall (fun y => y.2 < nu) v /\ kf < nu)).
Proof.
  induction v as [|[q j] v IH]; intros pv kv [|fuel] Hk Hnf [h Hf] Hlen; try (cbn in Hlen; lia).
  - destruct Hk as [Hp _]. exists pv, kv, (u_freep u), kf, h, fuel. split_and!; try done; [cbn; lia|left|].
    destruct (Z.le_gt_cases nu kf); [by left|]. right. by split_and!.
  - destruct Hk as [Hp [Hq Hk]]. cbn [next_of] in *. rewrite fmap_cons, not_elem_of_cons in Hnf. destruct Hnf as [Hqf Hnf].
    cbn [fst] in Hqf. destruct (Z.le_gt_cases nu j).
    + exists pv, kv, q, j, (next_of v (u_freep u)), fuel. split_and!; try done; [cbn; lia|left|by left].
    + destruct (IH q j fuel) as (pv' & kv' & q' & j' & h' & fuel' & Hle & Hin & El & Hp' & Hq' & Hc);
        [by split|done|by exists h|cbn in Hlen; lia|].
      exists pv', kv', q', j', h', fuel'. split_and!; try done; [cbn; lia|by right| |].
      * rewrite <- El. cbn [loop]. unfold malloc_turn at 1. rewrite bind_assoc, (bind_hd q _ _ _ Hq). cbn [h_size h_ptr].
        rewrite (proj2 (Z.leb_gt nu j)) by lia. mrun. by rewrite (proj2 (Z.eqb_neq q (u_freep u))) by done.
      * destruct Hc as [Hc|(? & ? & Hv & ?)]; [by left|]. right. split_and!; try done. by constructor.
Qed.

(** * malloc *)

(** The block [(q, nu)] is taken from the free blocks [L]; nothing is lost. *)
Definition takes (u : uheap) (L A : list block) (nu q : Z) (u' : uheap) (L' : list block) : Prop :=
  heap_ok u' L' ((q, nu) :: A) /\ u_brk u' = u_brk u /\
  (forall z, cover z (L' ++ [(q, nu)]) = cover z L) /\ (length L' <= length L)%nat.

Lemma found_takes u L A pv kv q h j nu fuel0 fuel :
  heap_ok u L A -> pv ∈ ((base, 0) :: L).*1 -> u_mem u !! pv = Some (mkHdr q kv) ->
  u_mem u !! q = Some (mkHdr h j) -> 0 < nu <= j ->
  exists q' u' L', loop (S fuel) (malloc_turn frames fuel0 nu) (pv, q) u = Ret (q' + 8) u' /\ takes u L A nu q' u' L'.
Proof.
  intros H Hin Hp Hq Hnu. destruct (node_found _ _ _ _ _ _ _ _ H Hin Hp Hq) as (x & y & l1 & El & Ex); [lia|].
  cbn [loop]. pose proof (turn_takes _ _ _ H x y q j El l1 pv kv Ex nu Hnu fuel0) as Et.
  assert (Hl : length L = (length x + S (length y))%nat) by (by rewrite El, length_app).
  destruct (Z.eqb_spec j nu) as [E|Hne]; rewrite (bind_eq _ _ _ _ _ Et).
  - exists q, (taken_exact u y pv kv), (x ++ y). split; [done|split_and!; try done].
    + rewrite <- E. by apply (taken_exact_ok _ _ _ H _ _ _ _ El l1).
    + intros z. rewrite El, !cover_app. cbn [cover]. rewrite E. lia.
    + rewrite length_app. lia.
  - exists (q + 8 * (j - nu)), (taken_split u y q j pv nu), (x ++ (q, j - nu) :: y). split; [done|split_and!; try done].
    + apply (taken_split_ok _ _ _ H _ _ _ _ El l1 pv kv Ex nu Hnu). lia.
    + intros z. pose proof (split_cover L A x y q j El nu Hnu z) as Hs. revert Hs. rewrite !cover_app. cbn [cover]. lia.
    + rewrite length_app. cbn. lia.
Qed.

Lemma scan_run u L A nu fuel0 fuel h kf :
  heap_ok u L A -> 0 < nu -> (length L < fuel)%nat -> u_mem u !! u_freep u = Some (mkHdr h kf) ->
  (exists q u' L', loop fuel (malloc_turn frames fuel0 nu) (u_freep u, h) u = Ret (q + 8) u' /\ takes u L A nu q u' L') \/
  (Forall (fun y => y.2 < nu) L /\ kf < nu /\ exists pv fuel', (fuel <= S fuel' + length L)%nat /\
    loop fuel (malloc_turn frames fuel0 nu) (u_freep u, h) u = loop (S fuel') (malloc_turn frames fuel0 nu) (pv, u_freep u) u).
Proof.
  intros H Hnu Hf Hfp. destruct (heap_rotation u L A H) as (kf' & v & Hk & Hnf & Ep).
  assert (Hlen : length v = length L) by (apply Permutation_length in Ep; cbn in Ep; lia).
  assert (Eh : kf' = kf /\ h = next_of v (u_freep u)) by (destruct Hk as [Hk _]; rewrite Hk in Hfp; by injection Hfp).
  destruct Eh as [-> ->].
  destruct (malloc_scan u nu kf fuel0 v (u_freep u) kf fuel Hk Hnf ltac:(eauto) ltac:(lia))
    as (pv & kv & q & j & h & fuel' & Hle & Hin & El & Hp & Hq & Hc).
  destruct Hc as [Hj|(-> & Hj & Hv & Hkf)].
  - left. assert (Hin' : pv ∈ ((base, 0) :: L).*1) by (by rewrite <- Ep).
    rewrite El. by apply (found_takes u L A pv kv q h j nu fuel0 fuel').
  - right. assert (Hall : Forall (fun y : block => y.2 < nu) ((u_freep u, kf) :: v)) by (by constructor).
    rewrite Ep in Hall. inversion_clear Hall. split_and!; try done. exists pv, fuel'. rewrite <- Hlen. done.
Qed.

Lemma freep_header u L A :
  heap_ok u L A -> 0 < u_freep u /\ exists h k, u_mem u !! u_freep u = Some (mkHdr h k).
Proof.
  intros H. split.
  - pose proof (hp_base _ _ _ H). pose proof (hp_freep _ _ _ H) as ([a n] & -> & Hin)%list_elem_of_fmap.
    apply elem_of_cons in Hin as [[= -> ->]|Hin]; [cbn; lia|].
    pose proof (heap_block _ _ _ a n H ltac:(apply elem_of_app; by left)). cbn. lia.
  - destruct (heap_rotation u L A H) as (kf & v & [Hk _] & _). eauto.
Qed.

(** [malloc] of [nu] headers from the heap [u]: nothing, or a block and the
    [g] headers of memory the kernel added for it. *)
Definition malloc_result (u : uheap) (L A : list block) (nu : Z) (o : outcome uheap Z) : Prop :=
  o = Ret 0 u \/
  exists q u' L' g, o = Ret (q + 8) u' /\ heap_ok u' L' ((q, nu) :: A) /\
    0 <= g /\ u_brk u' = u_brk u + 8 * g /\ (g = 0 \/ Forall (fun y => y.2 < nu) L) /\
    (forall z, cover z (L' ++ [(q, nu)]) = cover z (L ++ [(u_brk u, g)])).

Lemma malloc_loop_run u L A nu fuel h kf :
  heap_ok u L A -> 0 < nu < 2 ^ 28 -> (2 * length L + 4 <= fuel)%nat -> u_mem u !! u_freep u = Some (mkHdr h kf) ->
  malloc_result u L A nu (loop fuel (malloc_turn frames fuel nu) (u_freep u, h) u).
Proof.
  intros H Hnu Hf Hfp.
  destruct (scan_run u L A nu fuel fuel h kf H ltac:(lia) ltac:(lia) Hfp)
    as [(q & u' & L' & E & Hok & Hb & Hc & _)|(Hall & Hkf & pv & fuel' & Hle & E)]; rewrite E.
  { right. exists q, u', L', 0. split_and!; try done; try lia. intros z. rewrite Hc, cover_app. cbn. by_range. }
  cbn [loop]. unfold malloc_turn at 1. rewrite bind_assoc, (bind_hd _ _ _ _ Hfp). cbn [h_size h_ptr].
  rewrite (proj2 (Z.leb_gt nu kf)) by lia. mrun. rewrite Z.eqb_refl.
  destruct (morecore_run u L A nu fuel H ltac:(lia) ltac:(lia))
    as [Em|(u1 & L1 & Em & H1 & Hlt & Hc1 & Hb1 & Hl1 & a & m & Hin & Hm)].
  { left. by rewrite bind_assoc, (bind_eq _ _ _ _ _ Em). }
  destruct (freep_header u1 L1 A H1) as (Hpos & h1 & k1 & Hfp1).
  rewrite bind_assoc, (bind_eq _ _ _ _ _ Em), (proj2 (Z.eqb_neq (u_freep u1) 0)) by lia.
  rewrite bind_assoc, (bind_hd _ _ _ _ Hfp1). mrun. cbn [h_ptr].
  destruct (scan_run u1 L1 A nu fuel fuel' h1 k1 H1 ltac:(lia) ltac:(lia) Hfp1)
    as [(q & u' & L' & E' & Hok & Hb & Hc & _)|(Hall1 & _)].
  - right. exists q, u', L', (Z.max nu 4096). rewrite Hb, Hb1. split_and!; try done; try lia; [by right|].
    intros z. rewrite Hc, Hc1, cover_app. cbn. lia.
  - pose proof (proj1 (Forall_forall _ _) Hall1 _ Hin). cbn in *. lia.
Qed.

(** Before the first [malloc]. *)
Definition fresh_heap (u : uheap) : Prop :=
  u_freep u = 0 /\ lo <= u_brk u < 2 ^ 31 /\ 0 < base < lo.
Definition first_heap (u : uheap) : uheap := mkHeap (<[base := mkHdr base 0]> (u_mem u)) base (u_brk u).
Lemma first_heap_ok u : fresh_heap u -> heap_ok (first_heap u) [] [].
Proof.
  intros (_ & Hb & Hbase). split; cbn; try done.
  - by rewrite lookup_insert_eq.
  - by repeat constructor.
  - left.
  - by intros a n ?%elem_of_nil.
Qed.

Lemma nunits_bounds n : 0 <= n < 2 ^ 31 - 15 -> n + 8 <= 8 * nunits_of n < n + 16 /\ 0 < nunits_of n < 2 ^ 28.
Proof. intros Hn. unfold nunits_of, sizeof_Header. rewrite !(u32_id (n + _ - _)) by lia. rewrite u32_id; width_lia. Qed.

(** C34: [malloc] of any size up to 2 GB keeps the heap well formed (the free
    list circular and in address order, no byte in two blocks) and returns
    either 0, with the heap as it was, or a block of at least the bytes asked
    for that was free, or that the kernel just added, and that no other
    allocated block overlaps; the bytes of the free blocks and of the new block
    are exactly those that were free and the added ones; memory is asked of the
    kernel only when no free block is large enough; and the search ends. *)
Theorem malloc_spec u L A nbytes fuel :
  (heap_ok u L A \/ (fresh_heap u /\ L = [] /\ A = [])) ->
  0 <= nbytes < 2 ^ 31 - 15 -> (2 * length L + 4 <= fuel)%nat ->
  nbytes + 8 <= 8 * nunits_of nbytes < nbytes + 16 /\
  exists u0, (if u_freep u =? 0 then u0 = first_heap u else u0 = u) /\
    malloc_result u0 L A (nunits_of nbytes) (malloc base frames fuel nbytes u).
Proof.
  intros Hu Hn Hf. destruct (nunits_bounds nbytes Hn) as [Hb Hnu]. split; [done|]. unfold malloc. cbv zeta. mrun.
  destruct Hu as [H|(Hfr & -> & ->)].
  - destruct (freep_header u L A H) as (Hpos & h & k & Hfp). exists u.
    rewrite (proj2 (Z.eqb_neq (u_freep u) 0)) by lia. split; [done|]. mrun. rewrite (bind_hd _ _ _ _ Hfp). cbn [h_ptr].
    by apply (malloc_loop_run u L A _ fuel h k).
  - exists (first_heap u). destruct (Hfr) as [-> _]. rewrite Z.eqb_refl. split; [done|].
    pose proof (first_heap_ok u Hfr) as H. destruct (freep_header _ _ _ H) as (Hpos & h & k & Hfp).
    erewrite bind_eq; [|instantiate (1 := first_heap u); instantiate (1 := tt)].
    + mrun. rewrite (bind_hd _ _ _ _ Hfp). cbn [h_ptr]. by apply (malloc_loop_run (first_heap u) [] [] _ fuel h k).
    + unfold set_hd. mrun. unfold first_heap. destruct u as [m fp br]. cbn.
      transitivity (Ret tt (mkHeap (<[base := mkHdr (h_ptr (default (mkHdr 0 0) (<[base := mkHdr base (h_size (default (mkHdr 0 0) (m !! base)))]> m !! base))) 0]>
        (<[base := mkHdr base (h_size (default (mkHdr 0 0) (m !! base)))]> m)) base br)); [done|].
      by rewrite lookup_insert_eq, insert_insert_eq.
Qed.

End Spec.

(** * Examples *)

Definition demo_fresh : uheap := mkHeap ∅ 0 8192.
Definition demo_heap : uheap :=
  mkHeap {[ 4096 := mkHdr 8192 0; 8192 := mkHdr 4096 4082; 40848 := mkHdr 0 14 ]} 4096 40960.
Definition all_frames (_ _ : Z) : bool := true.

Lemma demo_fresh_ok : fresh_heap 4096 8192 demo_fresh.
Proof. by repeat split. Qed.
Lemma demo_heap_ok : heap_ok 4096 8192 demo_heap [(8192, 4082)] [(40848, 14)].
Proof.
  split; cbn [u_mem u_freep u_brk demo_heap]; try done.
  - by repeat constructor.
  - left.
  - by repeat constructor.
  - intros a n [[= -> ->]|?%elem_of_nil]%elem_of_cons; [|done]. by eexists.
  - intros x. cbn. by_range.
Qed.

(** The first [malloc] of 100 bytes asks the kernel for 32 kB and returns their
    upper end. *)
Example malloc_100 : malloc 4096 all_frames 4 100 demo_fresh = Ret (40848 + 8) demo_heap.
Proof. vm_compute. reflexivity. Qed.

(** The size of a request wraps around: [malloc(0xffffffff)] succeeds with a
    block that holds no byte. *)
Lemma malloc_wraps :
  exists p u', malloc 4096 all_frames 10 (2 ^ 32 - 1) demo_heap = Ret p u' /\ p <> 0 /\ nunits_of (2 ^ 32 - 1) = 1.
Proof. eexists _, _. split; [vm_compute; reflexivity|done]. Qed.
(** A request of 2 GB becomes a negative argument of [sbrk], which succeeds
    without adding memory: the block returned is not memory of the process. *)
Lemma malloc_2GB :
  exists p u', malloc 4096 all_frames 10 (2 ^ 31) demo_fresh = Ret p u' /\ p <> 0 /\ u_brk u' = u_brk demo_fresh.
Proof. eexists _, _. split; [vm_compute; reflexivity|done]. Qed.

Lemma malloc_spec_witness :
  exists u0, u0 = first_heap 4096 demo_fresh /\
    malloc_result 4096 8192 u0 [] [] (nunits_of 100) (malloc 4096 all_frames 4 100 demo_fresh).
Proof.
  destruct (malloc_spec 4096 8192 all_frames demo_fresh [] [] 100 4) as (_ & u0 & E & Hm).
  - right. split; [apply demo_fresh_ok|done].
  - lia.
  - cbn. lia.
  - exists u0. split; [exact E|exact Hm].
Defined.

