(* ===== verification/Sh.v ===== *)
(** The shell ([sh.c]): the tokenizer and the recursive descent parser, which
    work on positions in the line that was read, the termination of the words
    in place, and the program of system calls a command runs. *)
From S2P Require Import Ulib Prelude Kstate.

(** * Commands *)

(** A command over words of type [W]: positions of a line while it is parsed,
    strings when it runs. *)
Inductive cmd (W : Type) : Type :=
| EXEC (argv : list W)
| REDIR (c : cmd W) (file : W) (mode fd : Z)
| PIPE (left right : cmd W)
| LIST (left right : cmd W)
| BACK (c : cmd W).
Arguments EXEC {W}.
Arguments REDIR {W}.
Arguments PIPE {W}.
Arguments LIST {W}.
Arguments BACK {W}.

Definition MAXARGS : nat := 10.

(** A counted string: [q] and [eq]. *)
Abbreviation span := (nat * nat)%type.

Definition execcmd : cmd span := EXEC [].
Definition redircmd (subcmd : cmd span) (file : span) (mode fd : Z) : cmd span := REDIR subcmd file mode fd.
Definition pipecmd (left right : cmd span) : cmd span := PIPE left right.
Definition listcmd (left right : cmd span) : cmd span := LIST left right.
Definition backcmd (subcmd : cmd span) : cmd span := BACK subcmd.

(** * Tokens *)

Definition whitespace : list Z := [32; 9; 13; 10; 11].
Definition symbols : list Z := str_bytes "<|>&;()".

(** Whether [strchr] finds [c]. *)
Definition found (toks : list Z) (c : Z) : bool :=
  match strchr (toks ++ [0]) c with Some i => 0 <=? i | None => false end.

Section Parser.
(** The line with its terminating zero, and the address of the zero; the state
    of the parser is the position [*ps]. *)
Context (buf : list Z) (es : nat).

Definition char_at (s : nat) : Z := default 0 (buf !! s).

(** [while(s < es && P( *s)) s++] *)
Fixpoint skip_loop (P : Z -> bool) (n s : nat) : nat :=
  match n with
  | O => s
  | S n => if P (char_at s) then skip_loop P n (S s) else s
  end.
Definition skip (P : Z -> bool) (s : nat) : nat := skip_loop P (es - s) s.

Definition is_space (c : Z) : bool := found whitespace c.
Definition is_word (c : Z) : bool := negb (found whitespace c) && negb (found symbols c).

(** The token and the span of its characters. *)
Definition gettoken : M nat (Z * span) :=
  s <- gets (fun s => s);;
  let s := skip is_space s in
  let q := s in
  let c := char_at s in
  let '(r, s) :=
    if c =? 0 then (0, s)
    else if found (str_bytes "|();&<") c then (c, S s)
    else if c =? 62 then if char_at (S s) =? 62 then (43, S (S s)) else (62, S s)
    else (97, skip is_word s) in
  let eq := s in
  let s := skip is_space s in
  modify (fun _ => s);;; ret (r, (q, eq)).

Definition peek (toks : string) : M nat bool :=
  s <- gets (fun s => s);;
  let s := skip is_space s in
  modify (fun _ => s);;;
  ret (negb (char_at s =? 0) && found (str_bytes toks) (char_at s)).

(** * Parsing *)

Definition parseredirs (fuel : nat) (c : cmd span) : M nat (cmd span) :=
  loop fuel (fun c =>
    b <- peek "<>";;
    if b then
      '(tok, _) <- gettoken;;
      '(r, file) <- gettoken;;
      if negb (r =? 97) then panic "missing file for redirection"
      else if tok =? 60 then ret (inl (redircmd c file O_RDONLY 0))
      else if tok =? 62 then ret (inl (redircmd c file (Z.lor O_WRONLY O_CREATE) 1))
      else if tok =? 43 then ret (inl (redircmd c file (Z.lor O_WRONLY O_CREATE) 1))
      else ret (inl c)
    else ret (inr c)) c.

(** [cmd->argv[argc] = q; cmd->eargv[argc] = eq] for the [execcmd] below the
    redirections of [c]. *)
Fixpoint add_arg (c : cmd span) (a : span) : cmd span :=
  match c with
  | EXEC argv => EXEC (argv ++ [a])
  | REDIR c file mode fd => REDIR (add_arg c a) file mode fd
  | _ => c
  end.

(** The arguments of a simple command: one turn of the loop. *)
Definition parseexec_turn (fuel : nat) : nat * cmd span -> M nat (nat * cmd span + cmd span) := fun '(argc, c) =>
  b <- peek "|)&;";;
  if b then ret (inr c)
  else
    '(tok, a) <- gettoken;;
    if tok =? 0 then ret (inr c)
    else if negb (tok =? 97) then panic "syntax"
    else
      let c := add_arg c a in
      let argc := S argc in
      if (MAXARGS <=? argc)%nat then panic "too many args"
      else
        c <- parseredirs fuel c;;
        ret (inl (argc, c)).

(** [while(peek(ps, es, "&"))] of [parseline] *)
Definition parsebacks (fuel : nat) (c : cmd span) : M nat (cmd span) :=
  loop fuel (fun c =>
    b <- peek "&";;
    if b then gettoken;;; ret (inl (backcmd c)) else ret (inr c)) c.

Fixpoint parseline (fuel : nat) : M nat (cmd span) :=
  match fuel with
  | O => nofuel
  | S fuel =>
      c <- parsepipe fuel;;
      c <- parsebacks fuel c;;
      b <- peek ";";;
      if b then
        gettoken;;;
        r <- parseline fuel;;
        ret (listcmd c r)
      else ret c
  end
with parsepipe (fuel : nat) : M nat (cmd span) :=
  match fuel with
  | O => nofuel
  | S fuel =>
      c <- parseexec fuel;;
      b <- peek "|";;
      if b then
        gettoken;;;
        r <- parsepipe fuel;;
        ret (pipecmd c r)
      else ret c
  end
with parseexec (fuel : nat) : M nat (cmd span) :=
  match fuel with
  | O => nofuel
  | S fuel =>
      b <- peek "(";;
      if b then parseblock fuel
      else
        c <- parseredirs fuel execcmd;;
        loop fuel (parseexec_turn fuel) (O, c)
  end
with parseblock (fuel : nat) : M nat (cmd span) :=
  match fuel with
  | O => nofuel
  | S fuel =>
      b <- peek "(";;
      if negb b then panic "parseblock"
      else
        gettoken;;;
        c <- parseline fuel;;
        b <- peek ")";;
        if negb b then panic "syntax - missing )"
        else
          gettoken;;;
          parseredirs fuel c
  end.
End Parser.

(** [*eq = 0] for every counted string *)
Fixpoint nulterminate (c : cmd span) (buf : list Z) : list Z :=
  match c with
  | EXEC argv => foldl (fun b a => <[a.2 := 0]> b) buf argv
  | REDIR c file _ _ => <[file.2 := 0]> (nulterminate c buf)
  | PIPE l r => nulterminate r (nulterminate l buf)
  | LIST l r => nulterminate r (nulterminate l buf)
  | BACK c => nulterminate c buf
  end.

(** The command and the line with its words terminated. *)
Definition parsecmd (fuel : nat) (buf : list Z) : M nat (cmd span * list Z) :=
  n <- deref (strlen buf);;
  let es := Z.to_nat n in
  modify (fun _ => O);;;
  c <- parseline buf es fuel;;
  peek buf es "";;;
  s <- gets (fun s => s);;
  if negb (s =? es)%nat then panic "syntax"
  else ret (c, nulterminate c buf).

(** * Running *)

(** A process as the system calls it makes, up to its end: [exec] goes on only
    when it fails, [open], [dup], [pipe], [fork] and [chdir] with their result. *)
Inductive prog : Type :=
| P_exit
| P_exec (path : list Z) (argv : list (list Z)) (k : prog)
| P_printf (fd : Z) (msg : list Z) (k : prog)
| P_close (fd : Z) (k : prog)
| P_open (file : list Z) (mode : Z) (k : Z -> prog)
| P_dup (fd : Z) (k : Z -> prog)
| P_pipe (k : option (Z * Z) -> prog)
| P_fork (k : Z -> prog)
| P_wait (k : prog)
| P_chdir (path : list Z) (k : Z -> prog).

Definition sh_panic (msg : string) : prog := P_printf 2 (str_bytes msg ++ [10]) P_exit.

Definition fork1 (k : Z -> prog) : prog :=
  P_fork (fun pid => if pid =? -1 then sh_panic "fork" else k pid).

(** Never returns. *)
Fixpoint runcmd (c : cmd (list Z)) : prog :=
  match c with
  | EXEC [] => P_exit
  | EXEC ((path :: _) as argv) =>
      P_exec path argv (P_printf 2 (str_bytes "exec " ++ path ++ str_bytes " failed" ++ [10]) P_exit)
  | REDIR c file mode fd =>
      P_close fd (P_open file mode (fun r =>
        if r <? 0 then P_printf 2 (str_bytes "open " ++ file ++ str_bytes " failed" ++ [10]) P_exit
        else runcmd c))
  | LIST l r =>
      fork1 (fun pid => if pid =? 0 then runcmd l else P_wait (runcmd r))
  | PIPE l r =>
      P_pipe (fun p =>
        match p with
        | None => sh_panic "pipe"
        | Some (p0, p1) =>
            fork1 (fun pid =>
              if pid =? 0 then
                P_close 1 (P_dup p1 (fun _ => P_close p0 (P_close p1 (runcmd l))))
              else
                fork1 (fun pid =>
                  if pid =? 0 then
                    P_close 0 (P_dup p0 (fun _ => P_close p0 (P_close p1 (runcmd r))))
                  else P_close p0 (P_close p1 (P_wait (P_wait P_exit)))))
        end)
  | BACK c =>
      fork1 (fun pid => if pid =? 0 then runcmd c else P_exit)
  end.

(** The string at a position of the line. *)
Fixpoint c_string (l : list Z) : list Z :=
  match l with
  | [] => []
  | c :: l => if c =? 0 then [] else c :: c_string l
  end.
Definition string_at (buf : list Z) (a : span) : list Z := c_string (drop a.1 buf).
Fixpoint map_words {V W} (f : V -> W) (c : cmd V) : cmd W :=
  match c with
  | EXEC argv => EXEC (f <$> argv)
  | REDIR c file mode fd => REDIR (map_words f c) (f file) mode fd
  | PIPE l r => PIPE (map_words f l) (map_words f r)
  | LIST l r => LIST (map_words f l) (map_words f r)
  | BACK c => BACK (map_words f c)
  end.

(** The parser's calls of [panic] end the process. *)
Definition run_line (fuel : nat) (buf : list Z) : prog :=
  match parsecmd fuel buf O with
  | Ret (c, buf') _ => runcmd (map_words (string_at buf') c)
  | Panic msg => sh_panic msg
  | _ => P_exit
  end.

(** The line read, with its zero, and what is left of the input. *)
Definition getcmd (nbuf : Z) (inp : list Z) : option (list Z) * list Z :=
  let '(buf, rest) := Ulib.gets nbuf inp in
  (if default 0 (buf !! O) =? 0 then None else Some buf, rest).

Fixpoint sh_consoles (fuel : nat) (k : prog) : prog :=
  match fuel with
  | O => k
  | S fuel =>
      P_open (str_bytes "console") O_RDWR (fun fd =>
        if fd <? 0 then k
        else if 3 <=? fd then P_close fd k
        else sh_consoles fuel k)
  end.

Definition sizeof_buf : Z := 100.

(** [inp] is what standard input delivers. *)
Fixpoint sh_loop (fuel : nat) (inp : list Z) : prog :=
  match fuel with
  | O => P_exit
  | S fuel =>
      P_printf 2 (str_bytes "$ ")
        (match getcmd sizeof_buf inp with
         | (None, _) => P_exit
         | (Some buf, rest) =>
             if (default 0 (buf !! 0%nat) =? 99) && (default 0 (buf !! 1%nat) =? 100) && (default 0 (buf !! 2%nat) =? 32) then
               let buf := <[(length (c_string buf) - 1)%nat := 0]> buf in
               let dir := c_string (drop 3 buf) in
               P_chdir dir (fun r =>
                 if r <? 0 then P_printf 2 (str_bytes "cannot cd " ++ dir ++ [10]) (sh_loop fuel rest)
                 else sh_loop fuel rest)
             else
               fork1 (fun pid =>
                 if pid =? 0 then run_line 408 buf else P_wait (sh_loop fuel rest))
         end)
  end.

Definition sh_main (inp : list Z) : prog := sh_consoles 4 (sh_loop (S (length inp)) inp).
