(* ===== verification/ShSpec.v ===== *)
(** Correctness of the shell's parser: on every line it ends, with an error or
    with a command whose words are exact pieces of the line; and every command
    can be written as a line that is parsed to it. *)
From S2P Require Import Ulib Prelude Kstate Sh.

(** * Characters *)

Lemma found_spec toks c : 0 ∉ toks -> found toks c = bool_decide (c ∈ toks).
Proof.
  intros H0. unfold found.
  assert (Hs : exists i, strchr (toks ++ [0]) c = Some i /\ -1 <= i /\ (0 <= i <-> c ∈ toks)).
  { induction toks as [|x toks IH]; cbn [app strchr].
    - exists (-1). split_and!; [done|lia|]. split; [lia|by intros ?%elem_of_nil].
    - apply not_elem_of_cons in H0 as [H0x H0]. destruct (IH H0) as (i & Ei & Hi & Hin).
      rewrite (proj2 (Z.eqb_neq x 0)) by done. destruct (Z.eqb_spec x c) as [->|Hne].
      + exists 0. split_and!; [done|lia|]. rewrite elem_of_cons. split; [by left|lia].
      + rewrite Ei. cbn. exists (if i <? 0 then i else i + 1). split; [done|]. rewrite elem_of_cons.
        destruct (Z.ltb_spec i 0); (split; [lia|]); split; intros Hx; try (right; apply Hin; lia); try lia;
          destruct Hx as [->|Hx]; try done; apply Hin in Hx; lia. }
  destruct Hs as (i & -> & _ & Hin). case_bool_decide as Hc; destruct (Z.leb_spec 0 i); try done; exfalso.
  - apply Hin in Hc. lia.
  - tauto.
Qed.

Lemma is_space_spec c : is_space c = bool_decide (c ∈ whitespace).
Proof. apply found_spec. by apply (bool_decide_unpack _); vm_compute. Qed.
Lemma symbols_nz : 0 ∉ symbols.
Proof. by apply (bool_decide_unpack _); vm_compute. Qed.
Lemma is_word_spec c : is_word c = bool_decide ((c ∉ whitespace) /\ (c ∉ symbols)).
Proof.
  unfold is_word. rewrite (found_spec symbols) by apply symbols_nz. fold (is_space c). rewrite is_space_spec.
  repeat case_bool_decide; cbn; tauto.
Qed.

Lemma not_symbol c : found (str_bytes "|();&<") c = false -> c <> 62 -> c ∉ symbols.
Proof.
  rewrite found_spec by (by apply (bool_decide_unpack _); vm_compute). intros Hc%bool_decide_eq_false Hne.
  unfold symbols. vm_compute in Hc |- *. set_solver.
Qed.

Section Line.
(** A line and the position of its end. *)
Context (buf : list Z) (es : nat).
Context (Hes : buf !! es = Some 0) (Hnz : forall i, (i < es)%nat -> char_at buf i <> 0).

Lemma char_es : char_at buf es = 0.
Proof. unfold char_at. by rewrite Hes. Qed.

Lemma skip_loop_spec P n s :
  let s' := skip_loop buf P n s in
  (s <= s' <= s + n)%nat /\ (forall i, (s <= i < s')%nat -> P (char_at buf i) = true) /\
  (s' = (s + n)%nat \/ P (char_at buf s') = false).
Proof.
  cbv zeta. revert s. induction n as [|n IH]; intros s; cbn [skip_loop]; [split_and!; try lia; by intros|].
  destruct (P (char_at buf s)) eqn:E; [|split_and!; try lia; auto; intros; lia].
  destruct (IH (S s)) as (H1 & H2 & H3). split_and!; try lia.
  - intros i Hi. destruct (decide (i = s)) as [->|]; [done|]. apply H2. lia.
  - destruct H3 as [->|]; [left; lia|by right].
Qed.
Lemma skip_spec P s :
  (s <= es)%nat -> let s' := skip buf es P s in
  (s <= s' <= es)%nat /\ (forall i, (s <= i < s')%nat -> P (char_at buf i) = true) /\
  (s' = es \/ P (char_at buf s') = false).
Proof.
  intros Hs. destruct (skip_loop_spec P (es - s) s) as (H1 & H2 & H3). cbv zeta in *. unfold skip.
  split_and!; try lia; [done|]. destruct H3 as [->|]; [left; lia|by right].
Qed.

(** * Words of the line *)

Definition wf_span (a : span) : Prop :=
  (a.1 < a.2 <= es)%nat /\ (forall i, (a.1 <= i < a.2)%nat -> is_word (char_at buf i) = true) /\
  (a.2 = es \/ is_word (char_at buf a.2) = false).

Fixpoint wf_cmd (c : cmd span) : Prop :=
  match c with
  | EXEC argv => (length argv < MAXARGS)%nat /\ Forall wf_span argv
  | REDIR c file mode fd =>
      wf_cmd c /\ wf_span file /\ ((mode = O_RDONLY /\ fd = 0) \/ (mode = Z.lor O_WRONLY O_CREATE /\ fd = 1))
  | PIPE l r | LIST l r => wf_cmd l /\ wf_cmd r
  | BACK c => wf_cmd c
  end.

(** [m] from position [s] moves forward and ends in [Q], or reports an error. *)
Definition ends {A} (m : M nat A) (s : nat) (Q : A -> nat -> Prop) : Prop :=
  match m s with
  | Ret a s' => (s <= s' <= es)%nat /\ Q a s'
  | Panic _ => True
  | _ => False
  end.

Lemma ends_bind {A B} (m : M nat A) (f : A -> M nat B) s Q Q' :
  ends m s Q -> (forall a s', (s <= s' <= es)%nat -> Q a s' -> ends (f a) s' Q') -> ends (bind m f) s Q'.
Proof.
  unfold ends, bind. destruct (m s) as [a s1| | | |]; try done. intros [Hs HQ] Hf. specialize (Hf a s1 Hs HQ).
  destruct (f a s1) as [b s2| | | |]; try done. destruct Hf as [? ?]. split; [lia|done].
Qed.
Lemma ends_ret {A} (a : A) s (Q : A -> nat -> Prop) : (s <= es)%nat -> Q a s -> ends (ret a) s Q.
Proof. intros. by split. Qed.
Lemma ends_weaken {A} (m : M nat A) s (Q Q' : A -> nat -> Prop) :
  (forall a s', (s <= s' <= es)%nat -> Q a s' -> Q' a s') -> ends m s Q -> ends m s Q'.
Proof. unfold ends. intros HQ. destruct (m s); try done. intros [? ?]. split; [done|]. by apply HQ. Qed.

(** What [peek] saw. *)
Lemma peek_ends toks s :
  (s <= es)%nat -> ends (peek buf es toks) s (fun b s' =>
    is_space (char_at buf s') = false /\ (b = true -> (s' < es)%nat)).
Proof.
  intros Hs. unfold peek. destruct (skip_spec is_space s Hs) as (H1 & _ & H3). unfold ends. mrun. split; [done|].
  split.
  - destruct H3 as [->|]; [|done]. by rewrite char_es.
  - intros [Hb _]%andb_prop. apply negb_true_iff, Z.eqb_neq in Hb.
    destruct (decide (skip buf es is_space s = es)) as [E|]; [|lia]. rewrite E, char_es in Hb. done.
Qed.

(** [gettoken] moves on unless it is at the end of the line. *)
Definition token_ok (s : nat) : Z * span -> nat -> Prop := fun '(r, a) s' =>
  (r = 97 -> wf_span a) /\ (r <> 0 -> (s < s')%nat) /\
  ((s < es)%nat -> is_space (char_at buf s) = false -> r <> 0).

Lemma gettoken_ends s : (s <= es)%nat -> ends (gettoken buf es) s (token_ok s).
Proof.
  intros Hs. unfold gettoken. destruct (skip_spec is_space s Hs) as (H1 & _ & H3).
  set (q := skip buf es is_space s) in *. unfold ends. mrun. fold q. destruct (Z.eqb_spec (char_at buf q) 0) as [E0|E0].
  { mrun. destruct (skip_spec is_space q ltac:(lia)) as (? & _). split; [lia|]. split_and!; try done.
    intros Hlt Hsp. destruct (decide (q = s)) as [Eq|]; [rewrite Eq in E0; by destruct (Hnz s Hlt)|].
    destruct (skip_spec is_space s Hs) as (_ & H2 & _). rewrite (H2 s) in Hsp by (fold q; lia). done. }
  assert (Hq : (q < es)%nat) by (destruct (decide (q = es)) as [Eq|]; [rewrite Eq, char_es in E0; done|lia]).
  assert (Hend : forall r e, (q < e <= es)%nat -> r <> 0 -> (r = 97 -> wf_span (q, e)) ->
    ends (modify (fun _ => skip buf es is_space e);;; ret (r, (q, e))) s (token_ok s)).
  { intros r e He Hr Hw. unfold ends. mrun. destruct (skip_spec is_space e ltac:(lia)) as (? & _). split; [lia|]. split_and!; try done. lia. }
  destruct (found _ _) eqn:Ef.
  { apply (Hend (char_at buf q) (S q)); [lia|done|]. intros E. rewrite E in Ef. done. }
  destruct (Z.eqb_spec (char_at buf q) 62) as [Eg|Eg].
  { destruct (Z.eqb_spec (char_at buf (S q)) 62) as [Eh|]; [|by apply (Hend 62 (S q)); [lia|..]].
    apply (Hend 43 (S (S q))); [|done..]. destruct (decide (S q = es)) as [E|]; [rewrite E, char_es in Eh; done|lia]. }
  destruct (skip_spec is_word q ltac:(lia)) as (K1 & K2 & K3). cbv zeta in *.
  assert (Hw : is_word (char_at buf q) = true).
  { rewrite is_word_spec. apply bool_decide_eq_true. split; [|by apply not_symbol].
    destruct H3 as [|Hsp]; [lia|]. rewrite is_space_spec in Hsp. by apply bool_decide_eq_false in Hsp. }
  assert (Hgt : (q < skip buf es is_word q)%nat).
  { destruct (decide (skip buf es is_word q = q)) as [E|]; [|lia]. rewrite E in K3. destruct K3 as [|K3]; [lia|congruence]. }
  apply (Hend 97); [lia|done|]. intros _. split_and!; cbn; done || lia.
Qed.

(** [peek], then a token if it saw one. *)
Lemma peek_gettoken {A} toks s (f : M nat A) (g : Z * span -> M nat A) Q :
  (s <= es)%nat ->
  (forall s', (s <= s' <= es)%nat -> ends f s' Q) ->
  (forall r a s', (s < s' <= es)%nat -> (r = 97 -> wf_span a) -> ends (g (r, a)) s' Q) ->
  ends (b <- peek buf es toks;; if b then bind (gettoken buf es) g else f) s Q.
Proof.
  intros Hs Hf Hg. eapply ends_bind; [by apply peek_ends|]. intros b s1 H1 [Hsp Hb]. destruct b; [|by apply Hf].
  eapply ends_bind; [by apply gettoken_ends; lia|]. intros [r a] s2 H2 (Hw & Hlt & Hr).
  specialize (Hb eq_refl). specialize (Hlt (Hr Hb Hsp)). apply Hg; [lia|done].
Qed.

(** ** The parser *)

(** The arguments of the simple command below the redirections. *)
Fixpoint args_of (c : cmd span) : option (list span) :=
  match c with EXEC argv => Some argv | REDIR c _ _ _ => args_of c | _ => None end.

Lemma redirs_end fuel c s :
  (s <= es)%nat -> (es - s < fuel)%nat -> wf_cmd c ->
  ends (parseredirs buf es fuel c) s (fun c' _ => wf_cmd c' /\ args_of c' = args_of c).
Proof.
  intros Hs Hf Hc. unfold parseredirs.
  enough (Hgen : forall c0, wf_cmd c0 -> args_of c0 = args_of c -> forall s, (s <= es)%nat -> (es - s < fuel)%nat ->
    ends (loop fuel _ c0) s (fun c' _ => wf_cmd c' /\ args_of c' = args_of c)) by (by apply Hgen).
  clear Hs Hf Hc s. induction fuel as [|fuel IH]; intros c0 Hc0 Ha s Hs Hf; [lia|]. cbn [loop].
  eapply (ends_bind _ _ _ (fun x s' => match x with
    | inl c1 => wf_cmd c1 /\ args_of c1 = args_of c /\ (s < s')%nat
    | inr c1 => wf_cmd c1 /\ args_of c1 = args_of c end)).
  - apply peek_gettoken; [done|intros; by apply ends_ret; [lia|]|]. intros tok _ s1 H1 _.
    eapply ends_bind; [apply gettoken_ends; lia|]. intros [r file] s2 H2 (Hw & _).
    destruct (Z.eqb_spec r 97) as [Er|]; [|done]. cbn [negb]. specialize (Hw Er).
    repeat (match goal with |- context [tok =? ?v] => destruct (tok =? v) end); apply ends_ret; try lia;
      cbn; split_and!; try done; try lia; auto.
  - intros [c1|c1] s1 H1; [|intros; by apply ends_ret; [lia|]]. intros (Hc1 & Ha1 & Hlt). apply IH; done || lia.
Qed.

Lemma add_arg_wf c a argv :
  wf_cmd c -> args_of c = Some argv -> wf_span a -> (S (length argv) < MAXARGS)%nat ->
  wf_cmd (add_arg c a) /\ args_of (add_arg c a) = Some (argv ++ [a]).
Proof.
  intros Hc Ha Hw Hlen. induction c as [av|c IH file mode fd| | |]; cbn in *; try done.
  - injection Ha as ->. destruct Hc as [_ Hc]. split; [split|done]; [rewrite length_app; cbn; lia|].
    apply Forall_app. by split; [|constructor].
  - destruct Hc as (Hc & Hf & Hm). destruct (IH Hc Ha) as [? ?]. done.
Qed.

Lemma args_end fuel fuel0 : forall argc c argv s,
  (s <= es)%nat -> (es - s < fuel)%nat -> (es - s < fuel0)%nat ->
  wf_cmd c -> args_of c = Some argv -> length argv = argc ->
  ends (loop fuel (parseexec_turn buf es fuel0) (argc, c)) s (fun c' _ => wf_cmd c').
Proof.
  induction fuel as [|fuel IH]; intros argc c argv s Hs Hf Hf0 Hc Ha Hl; [lia|]. cbn [loop].
  eapply (ends_bind _ _ _ (fun x s' => match x with
    | inl (argc', c1) => wf_cmd c1 /\ (exists av, args_of c1 = Some av /\ length av = argc') /\ (s < s')%nat
    | inr c1 => wf_cmd c1 end)).
  - unfold parseexec_turn. eapply ends_bind; [by apply peek_ends|]. intros b s1 H1 _. destruct b; [by apply ends_ret; [lia|]|].
    eapply ends_bind; [apply gettoken_ends; lia|]. intros [tok a] s2 H2 (Hw & Hlt & _).
    destruct (Z.eqb_spec tok 0); [by apply ends_ret; [lia|]|]. destruct (Z.eqb_spec tok 97) as [E|]; [|done]. cbn [negb].
    destruct (Nat.leb_spec MAXARGS (S argc)); [done|]. destruct (add_arg_wf c a argv) as [Hc' Ha']; auto; [lia|].
    eapply ends_bind; [apply redirs_end; [lia|lia|done]|]. intros c2 s3 H3 [Hc2 Ha2]. specialize (Hlt ltac:(done)).
    apply ends_ret; [lia|]. split_and!; [done| |lia]. exists (argv ++ [a]). rewrite Ha2, length_app. cbn. split; [done|lia].
  - intros [[argc' c1]|c1] s1 H1; [|by intros; apply ends_ret; [lia|]]. intros (Hc1 & (av & Hav & Hlav) & Hlt).
    apply (IH argc' c1 av); done || lia.
Qed.

Lemma backs_end fuel c s :
  (s <= es)%nat -> (es - s < fuel)%nat -> wf_cmd c -> ends (parsebacks buf es fuel c) s (fun c' _ => wf_cmd c').
Proof.
  unfold parsebacks. revert c s. induction fuel as [|fuel IH]; intros c s Hs Hf Hc; [lia|]. cbn [loop].
  eapply (ends_bind _ _ _ (fun x s' => match x with inl c1 => wf_cmd c1 /\ (s < s')%nat | inr c1 => wf_cmd c1 end)).
  - apply peek_gettoken; [done|intros; by apply ends_ret; [lia|]|]. intros r a s1 H1 _. apply ends_ret; [lia|]. split; [done|lia].
  - intros [c1|c1] s1 H1; [|by intros; apply ends_ret; [lia|]]. intros (Hc1 & Hlt). apply IH; done || lia.
Qed.

(** On every line the parser ends, and what it builds is well formed. *)
Lemma parse_ends fuel :
  (forall s, (s <= es)%nat -> (4 * (es - s) + 4 <= fuel)%nat -> ends (parseline buf es fuel) s (fun c _ => wf_cmd c)) /\
  (forall s, (s <= es)%nat -> (4 * (es - s) + 3 <= fuel)%nat -> ends (parsepipe buf es fuel) s (fun c _ => wf_cmd c)) /\
  (forall s, (s <= es)%nat -> (4 * (es - s) + 2 <= fuel)%nat -> ends (parseexec buf es fuel) s (fun c _ => wf_cmd c)) /\
  (forall s, (s <= es)%nat -> (4 * (es - s) + 1 <= fuel)%nat -> ends (parseblock buf es fuel) s (fun c _ => wf_cmd c)).
Proof.
  induction fuel as [|fuel (IHl & IHp & IHe & IHb)]; [split_and!; intros; lia|].
  split_and!; intros s Hs Hf; cbn [parseline parsepipe parseexec parseblock].
  - eapply ends_bind; [apply IHp; lia|]. intros c s1 H1 Hc. eapply ends_bind; [apply backs_end; done || lia|].
    intros c2 s2 H2 Hc2. apply peek_gettoken; [lia|intros; by apply ends_ret; [lia|]|]. intros _ _ s3 H3 _.
    eapply ends_bind; [apply IHl; lia|]. intros c4 s4 H4 Hc4. by apply ends_ret; [lia|].
  - eapply ends_bind; [apply IHe; lia|]. intros c s1 H1 Hc.
    apply peek_gettoken; [lia|intros; by apply ends_ret; [lia|]|]. intros _ _ s3 H3 _.
    eapply ends_bind; [apply IHp; lia|]. intros c4 s4 H4 Hc4. by apply ends_ret; [lia|].
  - eapply ends_bind; [by apply peek_ends|]. intros b s1 H1 _. destruct b; [apply IHb; lia|].
    eapply ends_bind; [apply redirs_end; [lia|lia|by split; [apply Nat.lt_0_succ|]]|]. intros c s2 H2 [Hc Ha].
    apply (args_end fuel fuel 0 c []); done || lia.
  - eapply ends_bind; [by apply peek_ends|]. intros b s1 H1 [Hsp Hb]. destruct b; [|done]. cbn [negb].
    eapply ends_bind; [apply gettoken_ends; lia|]. intros [r a] s2 H2 (_ & Hlt & Hr).
    specialize (Hlt (Hr (Hb eq_refl) Hsp)).
    eapply ends_bind; [apply IHl; lia|]. intros c s3 H3 Hc.
    eapply ends_bind; [apply peek_ends; lia|]. intros b s4 H4 _. destruct b; [|done]. cbn [negb].
    eapply ends_bind; [apply gettoken_ends; lia|]. intros _ s5 H5 _.
    eapply ends_weaken; [|apply redirs_end; done || lia]. by intros c' s' _ [? _].
Qed.
End Line.

(** * The words after nulterminate *)

Fixpoint spans {W} (c : cmd W) : list W :=
  match c with
  | EXEC argv => argv
  | REDIR c file _ _ => spans c ++ [file]
  | PIPE l r | LIST l r => spans l ++ spans r
  | BACK c => spans c
  end.
(** The characters of a word as they were typed. *)
Definition slice (buf : list Z) (a : span) : list Z := take (a.2 - a.1) (drop a.1 buf).

Lemma map_words_ext {V W} (f g : V -> W) c : (forall a, a ∈ spans c -> f a = g a) -> map_words f c = map_words g c.
Proof.
  induction c as [argv|c IH file mode fd|l IHl r IHr|l IHl r IHr|c IH]; cbn; intros H.
  - f_equal. apply list_fmap_ext. intros i a Ha. apply H. by eapply list_elem_of_lookup_2.
  - rewrite IH, (H file); [done| |]; [apply elem_of_app; right; left|]. intros a Ha. apply H, elem_of_app. by left.
  - rewrite IHl, IHr; [done| |]; intros a Ha; apply H, elem_of_app; auto.
  - rewrite IHl, IHr; [done| |]; intros a Ha; apply H, elem_of_app; auto.
  - by rewrite IH.
Qed.

Lemma wf_spans buf es c a : wf_cmd buf es c -> a ∈ spans c -> wf_span buf es a.
Proof.
  induction c as [argv|c IH file mode fd|l IHl r IHr|l IHl r IHr|c IH]; cbn.
  - intros [_ H] Ha. exact (proj1 (Forall_forall _ _) H a Ha).
  - intros (Hc & Hf & _) [Ha|[->|?%elem_of_nil]%elem_of_cons]%elem_of_app; auto. done.
  - intros [? ?] [?|?]%elem_of_app; auto.
  - intros [? ?] [?|?]%elem_of_app; auto.
  - auto.
Qed.

Definition zero_at (E : list nat) (b b' : list Z) : Prop :=
  length b' = length b /\
  forall i, (i < length b)%nat -> b' !! i = if decide (i ∈ E) then Some 0 else b !! i.

Lemma zero_at_nil b : zero_at [] b b.
Proof. split; [done|]. intros i Hi. case_decide as Hin; [by apply elem_of_nil in Hin|done]. Qed.
Lemma zero_at_insert E e b b' : zero_at E b b' -> zero_at (E ++ [e]) b (<[e := 0]> b').
Proof.
  intros [Hl H]. split; [by rewrite length_insert|]. intros i Hi. destruct (decide (i = e)) as [->|Hne].
  - rewrite list_lookup_insert_eq by lia. rewrite decide_True; [done|]. apply elem_of_app. right. left.
  - rewrite list_lookup_insert_ne, H by done. repeat case_decide; try done; set_solver.
Qed.
Lemma zero_at_trans E1 E2 b b1 b2 : zero_at E1 b b1 -> zero_at E2 b1 b2 -> zero_at (E1 ++ E2) b b2.
Proof.
  intros [Hl1 H1] [Hl2 H2]. split; [congruence|]. intros i Hi. rewrite H2, H1 by lia. repeat case_decide; try done; set_solver.
Qed.

Lemma nulterminate_zero c b : zero_at (spans c).*2 b (nulterminate c b).
Proof.
  revert b. induction c as [argv|c IH file mode fd|l IHl r IHr|l IHl r IHr|c IH]; intros b; cbn.
  - induction argv as [|a argv IH] using rev_ind; [apply zero_at_nil|].
    rewrite foldl_app, fmap_app. by apply zero_at_insert.
  - rewrite fmap_app. by apply zero_at_insert.
  - rewrite fmap_app. by eapply zero_at_trans.
  - rewrite fmap_app. by eapply zero_at_trans.
  - done.
Qed.

Lemma c_string_slice b q e :
  (q <= e)%nat -> (forall i, (q <= i < e)%nat -> exists x, b !! i = Some x /\ x <> 0) -> b !! e = Some 0 ->
  c_string (drop q b) = take (e - q) (drop q b).
Proof.
  intros Hq. remember (e - q)%nat as n eqn:En. revert q Hq En. induction n as [|n IH]; intros q Hq En H He.
  - replace q with e by lia. by rewrite (drop_S _ 0 _ He).
  - destruct (H q) as (x & Hx & Hnz); [lia|]. rewrite (drop_S _ x _ Hx). cbn. rewrite (proj2 (Z.eqb_neq x 0)) by done.
    f_equal. apply IH; [lia|lia| |done]. intros i Hi. apply H. lia.
Qed.

(** Terminating the words of a well formed command in place leaves each as it
    was typed. *)
Lemma words_kept buf es c :
  buf !! es = Some 0 -> (forall i, (i < es)%nat -> char_at buf i <> 0) -> wf_cmd buf es c ->
  map_words (string_at (nulterminate c buf)) c = map_words (slice buf) c.
Proof.
  intros Hes Hnz Hc. apply map_words_ext. intros [q e] Ha. destruct (nulterminate_zero c buf) as [Hl Hz].
  destruct (wf_spans _ _ _ _ Hc Ha) as ([Hqe Hee] & Hw & _). cbn [fst snd] in *.
  assert (Hlen : (es < length buf)%nat) by (by eapply lookup_lt_Some).
  assert (Hold : forall i, (q <= i < e)%nat -> nulterminate c buf !! i = buf !! i).
  { intros i Hi. rewrite Hz by lia. rewrite decide_False; [done|]. intros ([q' e'] & E & Hin)%list_elem_of_fmap. cbn in E.
    destruct (wf_spans _ _ _ _ Hc Hin) as (_ & _ & [He'|He']); cbn in He'; [lia|]. rewrite <- E, Hw in He' by lia. done. }
  unfold string_at, slice. cbn [fst snd]. rewrite (c_string_slice _ q e).
  - apply list_eq. intros i. destruct (decide (i < e - q)%nat); [|by rewrite !lookup_take_ge by lia].
    rewrite !lookup_take_lt, !lookup_drop by lia. apply Hold. lia.
  - lia.
  - intros i Hi. rewrite Hold by lia. destruct (lookup_lt_is_Some_2 buf i) as [x Hx]; [lia|]. exists x. split; [done|].
    pose proof (Hnz i ltac:(lia)) as H. unfold char_at in H. by rewrite Hx in H.
  - rewrite Hz by lia. rewrite decide_True; [done|]. apply list_elem_of_fmap. by exists (q, e).
Qed.

Lemma strlen_spec buf n :
  strlen buf = Some n -> 0 <= n /\ buf !! Z.to_nat n = Some 0 /\ forall i, (i < Z.to_nat n)%nat -> char_at buf i <> 0.
Proof.
  revert n. induction buf as [|c buf IH]; intros n; cbn [strlen]; [done|].
  destruct (Z.eqb_spec c 0) as [->|Hne]; [intros [= <-]; split_and!; [lia|done|intros; lia]|].
  destruct (strlen buf) as [m|]; [|done]. cbn. intros [= <-]. destruct (IH m eq_refl) as (Hm & Hz & Hn).
  replace (Z.to_nat (m + 1)) with (S (Z.to_nat m)) by lia. split_and!; [lia|done|].
  intros [|i] Hi; [done|]. apply (Hn i). lia.
Qed.

(** C38: on every line, however malformed, the parser ends, with an error message or with
    a command in which every simple command has fewer than [MAXARGS] arguments,
    every redirection is one of the two kinds, and every word, after its
    termination in place, is exactly the characters typed: no terminating zero
    falls into another word or outside the line. *)
Theorem parsecmd_type buf n fuel s :
  strlen buf = Some n -> (4 * Z.to_nat n + 4 <= fuel)%nat ->
  match parsecmd fuel buf s with
  | Ret (c, buf') _ => wf_cmd buf (Z.to_nat n) c /\ length buf' = length buf /\
      map_words (string_at buf') c = map_words (slice buf) c
  | Panic _ => True
  | _ => False
  end.
Proof.
  intros Hn Hf. destruct (strlen_spec buf n Hn) as (_ & Hes & Hnz). unfold parsecmd. rewrite Hn. mrun.
  set (es := Z.to_nat n) in *. destruct (parse_ends buf es Hes Hnz fuel) as (Hl & _).
  assert (He : ends es (c <- parseline buf es fuel;; peek buf es "";;; s <- gets (fun s => s);;
    if negb (s =? es)%nat then panic "syntax" else ret (c, nulterminate c buf)) 0 (fun '(c, buf') _ =>
      wf_cmd buf es c /\ length buf' = length buf /\ map_words (string_at buf') c = map_words (slice buf) c)).
  { eapply ends_bind; [apply Hl; lia|]. intros c s1 H1 Hc. eapply ends_bind; [apply peek_ends; done || lia|].
    intros _ s2 H2 _. unfold ends. mrun. destruct (negb _); [done|]. split; [lia|]. split_and!; [done| |by apply (words_kept buf es)].
    apply nulterminate_zero. }
  revert He. unfold ends. match goal with |- match ?o with _ => _ end -> _ => destruct o as [[c buf'] s'| | | |] end; try done.
  by intros [_ H].
Qed.
