(* ===== verification/ShPrint.v ===== *)
(** Every shell command can be written as a line that the parser turns back
    into the command. *)
From S2P Require Import Ulib Prelude Kstate Sh ShSpec.

(** * Commands as lines *)

Inductive token : Type := W (w : list Z) | Sy (c : Z).

(** Each token is followed by a space. *)
Definition render_token (t : token) : list Z := (match t with W w => w | Sy c => [c] end) ++ [32].
Definition render (ts : list token) : list Z := t ← ts; render_token t.

Definition wf_word (w : list Z) : Prop := w <> [] /\ Forall (fun c => c <> 0 /\ is_word c = true) w.
Definition wf_token (t : token) : Prop :=
  match t with W w => wf_word w | Sy c => c ∈ symbols end.

(** Parentheses where the grammar needs them: [lvl] is 0 for a command of a
    pipeline, 1 for a pipeline, 2 for an element of a list and 3 for a line. *)
Definition paren (b : bool) (ts : list token) : list token := if b then [Sy 40] ++ ts ++ [Sy 41] else ts.
Definition redir_sym (fd : Z) : Z := if fd =? 0 then 60 else 62.
Fixpoint pr (lvl : nat) (c : cmd (list Z)) : list token :=
  match c with
  | EXEC argv => W <$> argv
  | REDIR c file mode fd => pr 0 c ++ [Sy (redir_sym fd); W file]
  | PIPE l r => paren (lvl <? 1)%nat (pr 0 l ++ [Sy 124] ++ pr 1 r)
  | BACK c => paren (lvl <? 2)%nat (pr 2 c ++ [Sy 38])
  | LIST l r => paren (lvl <? 3)%nat (pr 2 l ++ [Sy 59] ++ pr 3 r)
  end.
Definition print_line (c : cmd (list Z)) : list Z := render (pr 3 c) ++ [0].

(** The commands the shell's language has. *)
Fixpoint printable (c : cmd (list Z)) : Prop :=
  match c with
  | EXEC argv => (length argv < MAXARGS)%nat /\ Forall wf_word argv
  | REDIR c file mode fd =>
      printable c /\ wf_word file /\ ((mode = O_RDONLY /\ fd = 0) \/ (mode = Z.lor O_WRONLY O_CREATE /\ fd = 1))
  | PIPE l r | LIST l r => printable l /\ printable r
  | BACK c => printable c
  end.

(** * Reading tokens back *)

Section Line.
Context (buf : list Z) (es : nat).
Context (Hes : buf !! es = Some 0) (Hnz : forall i, (i < es)%nat -> char_at buf i <> 0).

(** The parser is in front of the tokens [ts]. *)
Definition at_toks (ts : list token) (s : nat) : Prop :=
  drop s buf = render ts ++ [0] /\ es = (s + length (render ts))%nat /\ Forall wf_token ts.

Lemma char_drop s l x : drop s buf = x :: l -> char_at buf s = x.
Proof. intros H. unfold char_at. rewrite <- (Nat.add_0_r s) at 1. rewrite <- lookup_drop, H. done. Qed.

Lemma skip_stop P s : P (char_at buf s) = false -> skip buf es P s = s.
Proof. intros H. unfold skip. destruct (es - s)%nat; cbn; [done|]. by rewrite H. Qed.
Lemma skip_one P s : (s < es)%nat -> P (char_at buf s) = true -> skip buf es P s = skip buf es P (S s).
Proof.
  intros Hs H. unfold skip. replace (es - s)%nat with (S (es - S s)) by lia. cbn. by rewrite H.
Qed.
Lemma skip_list P w s l :
  drop s buf = w ++ l -> Forall (fun c => P c = true) w -> (s + length w <= es)%nat ->
  skip buf es P s = skip buf es P (s + length w)%nat.
Proof.
  revert s. induction w as [|c w IH]; intros s Hd Hw Hs; cbn [length] in *; [by rewrite Nat.add_0_r|].
  inversion_clear Hw. rewrite skip_one; [|lia|by rewrite (char_drop s (w ++ l) c)].
  rewrite (IH (S s)); [f_equal; lia| |done|lia]. rewrite <- Nat.add_1_r, <- drop_drop, Hd. done.
Qed.

Lemma symbol_not_space c : c ∈ symbols -> is_space c = false.
Proof.
  intros Hc. rewrite is_space_spec. apply bool_decide_eq_false. revert Hc. vm_compute (symbols). unfold whitespace. set_solver.
Qed.
Lemma word_not_space c : is_word c = true -> is_space c = false.
Proof. unfold is_word. by intros [H%negb_true_iff _]%andb_prop. Qed.
Lemma word_not_symbol c : is_word c = true -> c ∉ symbols.
Proof. rewrite is_word_spec. by intros [_ H]%bool_decide_eq_true. Qed.

Lemma token_char t ts s :
  at_toks (t :: ts) s -> (s < es)%nat /\ is_space (char_at buf s) = false /\ char_at buf s <> 0 /\
    match t with W w => is_word (char_at buf s) = true | Sy c => char_at buf s = c end.
Proof.
  intros (Hd & He & Ht). inversion_clear Ht as [|? ? Ht1 _].
  assert (Hlt : (s < es)%nat).
  { rewrite He. unfold render. cbn. rewrite length_app. unfold render_token. rewrite length_app. cbn. lia. }
  split; [done|]. destruct t as [w|c].
  - destruct Ht1 as [Hne Hw]. destruct w as [|c w]; [done|]. inversion_clear Hw as [|? ? [Hc0 Hc] _].
    rewrite (char_drop s _ c Hd). split_and!; [by apply word_not_space|done..].
  - cbn in Ht1. rewrite (char_drop s _ c Hd). split_and!; [by apply symbol_not_space| |done].
    intros ->. by apply symbols_nz.
Qed.
Lemma end_char s : at_toks [] s -> s = es /\ char_at buf s = 0.
Proof. intros (_ & He & _). cbn in He. assert (s = es) as -> by lia. split; [done|]. unfold char_at. by rewrite Hes. Qed.

Lemma toks_not_space ts s : at_toks ts s -> is_space (char_at buf s) = false.
Proof.
  destruct ts as [|t ts]; [|by intros (_ & ? & _)%token_char]. intros [_ E]%end_char. by rewrite E.
Qed.

Definition sees (toks : string) (ts : list token) : bool :=
  match ts with Sy c :: _ => found (str_bytes toks) c | _ => false end.

Lemma peek_at toks ts s :
  bool_decide (Forall (fun c => c ∈ symbols) (str_bytes toks)) = true ->
  at_toks ts s -> peek buf es toks s = Ret (sees toks ts) s.
Proof.
  intros Hsub%bool_decide_eq_true Hat. rewrite Forall_forall in Hsub. unfold peek. mrun. rewrite (skip_stop _ _ (toks_not_space ts s Hat)). unfold modify, bind, ret. cbv beta iota. f_equal.
  assert (H0 : 0 ∉ str_bytes toks) by (intros ?%Hsub; by apply symbols_nz).
  destruct ts as [|[w|c] ts]; cbn [sees].
  - apply end_char in Hat as [_ ->]. done.
  - apply token_char in Hat as (_ & _ & _ & Hw). rewrite found_spec by done. rewrite bool_decide_false; [by rewrite andb_false_r|].
    intros ?%Hsub. by apply (word_not_symbol (char_at buf s)).
  - apply token_char in Hat as (_ & _ & Hn & Ec). rewrite (proj2 (Z.eqb_neq _ 0)) by done. by rewrite Ec.
Qed.

Lemma next_at t ts s n :
  at_toks (t :: ts) s -> n = length (match t with W w => w | Sy c => [c] end) ->
  drop (s + n) buf = 32 :: render ts ++ [0] /\ (s + n < es)%nat /\ at_toks ts (s + n + 1).
Proof.
  intros (Hd & He & Ht) ->. inversion_clear Ht as [|? ? _ Ht']. set (w := match t with W w => w | Sy c => [c] end) in *.
  assert (Er : render (t :: ts) = w ++ 32 :: render ts).
  { unfold render. cbn. unfold render_token. fold w. by rewrite <- app_assoc. }
  rewrite Er in Hd, He. rewrite length_app in He. cbn [length] in He.
  assert (Hd1 : drop (s + length w) buf = 32 :: render ts ++ [0]).
  { rewrite <- drop_drop, Hd, <- app_assoc. cbn. by rewrite drop_app_length. }
  split; [done|]. split; [lia|]. split; [|split; [lia|done]].
  rewrite <- drop_drop, Hd1. done.
Qed.
Lemma after_at ts s :
  drop s buf = 32 :: render ts ++ [0] -> (s < es)%nat -> at_toks ts (s + 1) -> skip buf es is_space s = (s + 1)%nat.
Proof.
  intros Hd Hs Hat. rewrite skip_one; [|done|by rewrite (char_drop s _ 32 Hd)]. rewrite Nat.add_1_r in *.
  by apply skip_stop, (toks_not_space ts).
Qed.

Lemma gettoken_word w ts s :
  at_toks (W w :: ts) s -> gettoken buf es s = Ret (97, (s, (s + length w)%nat)) (s + length w + 1)%nat.
Proof.
  intros Hat. destruct (next_at _ _ _ _ Hat eq_refl) as (Hd & Hlt & Hn). destruct (token_char _ _ _ Hat) as (Hs & Hsp & H0 & Hw).
  unfold gettoken. mrun. rewrite (skip_stop _ _ Hsp). rewrite (proj2 (Z.eqb_neq _ 0)) by done.
  assert (Hns := word_not_symbol _ Hw).
  rewrite found_spec by (by apply (bool_decide_unpack _); vm_compute).
  rewrite bool_decide_false by (intros Hin; apply Hns; revert Hin; vm_compute (symbols); vm_compute (str_bytes _); set_solver).
  rewrite (proj2 (Z.eqb_neq _ 62)) by (intros E; apply Hns; rewrite E; by apply (bool_decide_unpack _); vm_compute).
  destruct Hat as (Hd0 & He & Ht). inversion_clear Ht as [|? ? Hwt _]. destruct Hwt as [_ Hww].
  assert (Ew : skip buf es is_word s = (s + length w)%nat).
  { rewrite (skip_list is_word w s (32 :: render ts ++ [0])); [apply skip_stop| | |lia].
    - by rewrite (char_drop _ _ 32 Hd).
    - rewrite Hd0. unfold render. cbn. unfold render_token. by rewrite <- !app_assoc.
    - eapply Forall_impl; [exact Hww|]. by intros c [_ ?]. }
  rewrite Ew. mrun. by rewrite (after_at ts).
Qed.
Lemma gettoken_sym c ts s :
  at_toks (Sy c :: ts) s -> gettoken buf es s = Ret (c, (s, S s)) (s + 2)%nat.
Proof.
  intros Hat. destruct (next_at _ _ _ 1 Hat eq_refl) as (Hd & Hlt & Hn). destruct (token_char _ _ _ Hat) as (Hs & Hsp & H0 & Ec).
  destruct Hat as (_ & _ & Ht). inversion_clear Ht as [|? ? Hc _]. change (c ∈ symbols) in Hc.
  unfold gettoken. mrun. rewrite (skip_stop _ _ Hsp). rewrite (proj2 (Z.eqb_neq _ 0)) by done. rewrite Ec in *.
  rewrite Nat.add_1_r in *. pose proof (after_at ts (S s) Hd Hlt Hn) as Ha. replace (S s + 1)%nat with (s + 2)%nat in Ha by lia.
  destruct (found _ _) eqn:Ef; [mrun; by rewrite Ha|]. destruct (Z.eqb_spec c 62) as [->|Hne].
  - rewrite (char_drop _ _ 32 Hd). change (32 =? 62) with false. cbv iota. mrun. by rewrite Ha.
  - by destruct (not_symbol c Ef Hne).
Qed.
Lemma gettoken_end s : at_toks [] s -> gettoken buf es s = Ret (0, (s, s)) s.
Proof.
  intros Hat. pose proof (toks_not_space _ _ Hat) as Hsp. destruct (end_char _ Hat) as [_ E0].
  unfold gettoken. mrun. rewrite (skip_stop _ _ Hsp), E0, Z.eqb_refl. mrun. by rewrite (skip_stop _ _ Hsp).
Qed.

Lemma bind_peek {A} toks ts s (f : bool -> M nat A) :
  bool_decide (Forall (fun c => c ∈ symbols) (str_bytes toks)) = true ->
  at_toks ts s -> bind (peek buf es toks) f s = f (sees toks ts) s.
Proof. intros H1 H2. exact (bind_eq _ _ _ _ _ (peek_at toks ts s H1 H2)). Qed.
Lemma bind_sym {A} c ts s (f : Z * span -> M nat A) :
  at_toks (Sy c :: ts) s -> bind (gettoken buf es) f s = f (c, (s, S s)) (s + 2)%nat /\ at_toks ts (s + 2).
Proof.
  intros Hat. split; [exact (bind_eq _ _ _ _ _ (gettoken_sym c ts s Hat))|].
  destruct (next_at _ _ _ 1 Hat eq_refl) as (_ & _ & Hn). by replace (s + 2)%nat with (s + 1 + 1)%nat by lia.
Qed.
Lemma bind_word {A} w ts s (f : Z * span -> M nat A) :
  at_toks (W w :: ts) s -> bind (gettoken buf es) f s = f (97, (s, (s + length w)%nat)) (s + length w + 1)%nat /\
    at_toks ts (s + length w + 1) /\ slice buf (s, (s + length w)%nat) = w.
Proof.
  intros Hat. split; [exact (bind_eq _ _ _ _ _ (gettoken_word w ts s Hat))|].
  destruct (next_at _ _ _ (length w) Hat eq_refl) as (_ & _ & Hn). split; [done|].
  destruct Hat as (Hd & _). unfold slice. cbn [fst snd]. rewrite Hd. replace (s + length w - s)%nat with (length w) by lia.
  unfold render. cbn. unfold render_token. rewrite <- !app_assoc. by rewrite take_app_length.
Qed.

(** * Redirections *)

Abbreviation redir := (list Z * Z * Z)%type.
Definition pr_redirs (rs : list redir) : list token := '(file, _, fd) ← rs; [Sy (redir_sym fd); W file].
Definition wrap (c : cmd (list Z)) (rs : list redir) : cmd (list Z) :=
  foldl (fun c '(file, mode, fd) => REDIR c file mode fd) c rs.
Definition wf_redir (r : redir) : Prop :=
  let '(file, mode, fd) := r in
  (mode = O_RDONLY /\ fd = 0) \/ (mode = Z.lor O_WRONLY O_CREATE /\ fd = 1).

Abbreviation reads c := (map_words (slice buf) c).

Lemma redirs_at rs : forall ts fuel c s,
  at_toks (pr_redirs rs ++ ts) s -> sees "<>" ts = false -> Forall wf_redir rs -> (es - s < fuel)%nat ->
  exists c' s', parseredirs buf es fuel c s = Ret c' s' /\ at_toks ts s' /\ (s <= s')%nat /\
    reads c' = wrap (reads c) rs /\ (rs = [] -> c' = c).
Proof.
  induction rs as [|[[file mode] fd] rs IH]; intros ts fuel c s Hat Hts Hrs Hf; (destruct fuel as [|fuel]; [lia|]);
    unfold parseredirs; cbn [loop]; rewrite bind_assoc, (bind_peek "<>" _ _ _ eq_refl Hat).
  { cbn [pr_redirs mbind list_bind app]. rewrite Hts. mrun. by exists c, s. }
  inversion_clear Hrs as [|? ? Hr Hrs']. cbn [pr_redirs mbind list_bind app] in Hat |- *. unfold sees, redir_sym.
  assert (Hsy : found (str_bytes "<>") (if fd =? 0 then 60 else 62) = true) by (by destruct (fd =? 0)). rewrite Hsy.
  destruct (token_char _ _ _ Hat) as (Hlt & _).
  rewrite bind_assoc. edestruct (bind_sym (A := cmd span)) as [E Hat1]; [exact Hat|]. rewrite E. clear E.
  rewrite bind_assoc. edestruct (bind_word (A := cmd span)) as (E & Hat2 & Hsl); [exact Hat1|]. rewrite E. clear E.
  cbn [negb Z.eqb Pos.eqb].
  set (a := ((s + 2)%nat, (s + 2 + length file)%nat)) in *. set (s2 := (s + 2 + length file + 1)%nat) in *.
  destruct (IH ts fuel (redircmd c a mode fd) s2 Hat2 Hts Hrs' ltac:(unfold s2; lia)) as (c' & s' & E & Hat' & Hs' & Hc' & _).
  exists c', s'. split_and!; [|done|unfold s2 in *; lia|rewrite Hc'; unfold wrap, redircmd; cbn [foldl map_words]; by rewrite Hsl|done].
  rewrite <- E. unfold parseredirs. destruct Hr as [[-> ->]|[-> ->]]; cbn; mrun; done.
Qed.

(** * Simple commands *)

(** What may follow a simple command. *)
Definition stops (ts : list token) : Prop := ts = [] \/ sees "|)&;" ts = true.
Lemma stops_sees ts : stops ts -> sees "<>" ts = false /\ sees "(" ts = false.
Proof.
  intros [->|H]; [done|]. destruct ts as [|[w|c] ts]; try done. cbn [sees] in *.
  rewrite found_spec in H by (by apply (bool_decide_unpack _); vm_compute). apply bool_decide_eq_true in H.
  assert (Hc : c ∈ [124; 41; 38; 59]) by exact H.
  repeat (apply elem_of_cons in Hc as [->|Hc]; [done|]). by apply elem_of_nil in Hc.
Qed.

Lemma turn_stops fuel argc c ts s :
  at_toks ts s -> stops ts -> exists s', parseexec_turn buf es fuel (argc, c) s = Ret (inr c) s' /\ at_toks ts s' /\ (s <= s')%nat.
Proof.
  intros Hat Hst. exists s. split; [|done]. unfold parseexec_turn. rewrite (bind_peek "|)&;" _ _ _ eq_refl Hat).
  destruct Hst as [-> | E]; [|by rewrite E]. cbn [sees]. by rewrite (bind_eq _ _ _ _ _ (gettoken_end s Hat)).
Qed.

Lemma words_at argv : forall w rs ts fuel fuel0 sp s,
  at_toks (W w :: (W <$> argv) ++ pr_redirs rs ++ ts) s -> stops ts -> Forall wf_redir rs ->
  (length sp + length (w :: argv) < MAXARGS)%nat -> (es - s < fuel)%nat -> (es - s < fuel0)%nat ->
  exists c' s', loop fuel (parseexec_turn buf es fuel0) (length sp, EXEC sp) s = Ret c' s' /\ at_toks ts s' /\ (s <= s')%nat /\
    reads c' = wrap (EXEC ((slice buf <$> sp) ++ w :: argv)) rs.
Proof.
  induction argv as [|w2 argv IH]; intros w rs ts fuel fuel0 sp s Hat Hst Hrs Hlen Hf Hf0; (destruct fuel as [|fuel]; [lia|]);
    cbn [loop length] in *; destruct (token_char _ _ _ Hat) as (Hlt & _);
    unfold parseexec_turn at 1; rewrite bind_assoc, (bind_peek "|)&;" _ _ _ eq_refl Hat); cbn [sees];
    rewrite bind_assoc; (edestruct (bind_word (A := cmd span)) as (E & Hat1 & Hsl); [exact Hat|]); rewrite E; clear E;
    cbn [negb Z.eqb Pos.eqb add_arg];
    rewrite (proj2 (Nat.leb_gt MAXARGS (S (length sp)))) by lia;
    set (a := (s, (s + length w)%nat)) in *; set (s1 := (s + length w + 1)%nat) in *.
  - destruct (stops_sees _ Hst) as [Hn _].
    destruct (redirs_at rs ts fuel0 (EXEC (sp ++ [a])) s1 Hat1 Hn Hrs ltac:(unfold s1; lia)) as (c' & s' & E & Hat' & Hs' & Hc' & _).
    rewrite bind_assoc, (bind_eq _ _ _ _ _ E). mrun. destruct fuel as [|fuel]; [unfold s1 in *; lia|]. cbn [loop].
    destruct (turn_stops fuel0 (S (length sp)) c' ts s' Hat' Hst) as (s2 & E2 & Hat2 & Hs2). rewrite (bind_eq _ _ _ _ _ E2).
    exists c', s2. split_and!; [done|done|unfold s1 in *; lia|]. rewrite Hc'. cbn [map_words]. by rewrite fmap_app; cbn [fmap list_fmap]; rewrite Hsl.
  - assert (Hn : sees "<>" ((W <$> w2 :: argv) ++ pr_redirs rs ++ ts) = false) by done.
    destruct (redirs_at [] _ fuel0 (EXEC (sp ++ [a])) s1 Hat1 Hn (Forall_nil_2 _) ltac:(unfold s1; lia)) as (c' & s' & E & Hat' & Hs' & _ & Hc'). specialize (Hc' eq_refl). subst c'.
    rewrite bind_assoc, (bind_eq _ _ _ _ _ E). mrun.
    replace (S (length sp)) with (length (sp ++ [a])) by (rewrite length_app; cbn; lia).
    destruct (IH w2 rs ts fuel fuel0 (sp ++ [a]) s') as (c'' & s'' & E2 & Hat2 & Hs2 & Hc2); try done;
      [rewrite length_app; cbn; lia|unfold s1 in *; lia..|].
    exists c'', s''. split_and!; [done|done|unfold s1 in *; lia|]. rewrite Hc2, fmap_app. cbn [fmap list_fmap].
    by rewrite Hsl, <- app_assoc.
Qed.

(** * The parser on the tokens of a command *)

Fixpoint base (c : cmd (list Z)) : cmd (list Z) := match c with REDIR c _ _ _ => base c | _ => c end.
Fixpoint redirs (c : cmd (list Z)) : list redir :=
  match c with REDIR c file mode fd => redirs c ++ [(file, mode, fd)] | _ => [] end.

Lemma wrap_base c : c = wrap (base c) (redirs c).
Proof. induction c; try done. cbn. unfold wrap in *. rewrite foldl_app. cbn. congruence. Qed.
Lemma pr_base c : pr 0 c = pr 0 (base c) ++ pr_redirs (redirs c).
Proof.
  induction c; try (cbn; by rewrite app_nil_r). cbn. unfold pr_redirs in *. rewrite bind_app, IHc, <- app_assoc. done.
Qed.
Lemma printable_base c : printable c -> printable (base c) /\ Forall wf_redir (redirs c).
Proof.
  induction c; try done. cbn. intros (Hc & _ & Hr). destruct (IHc Hc) as [? ?]. split; [done|].
  apply Forall_app. split; [done|]. by constructor.
Qed.
Lemma base_simple c : match base c with REDIR _ _ _ _ => False | _ => True end.
Proof. by induction c. Qed.
Lemma pr_paren c : match c with PIPE _ _ | LIST _ _ | BACK _ => pr 0 c = [Sy 40] ++ pr 3 c ++ [Sy 41] | _ => True end.
Proof. by destruct c. Qed.

Definition parsed (m : M nat (cmd span)) (s : nat) (ts : list token) (c : cmd (list Z)) : Prop :=
  exists c' s', m s = Ret c' s' /\ at_toks ts s' /\ (s <= s')%nat /\ reads c' = c.

Definition ends_pipe (ts : list token) : Prop := stops ts /\ sees "|" ts = false.

Lemma backs_at fuel F c : forall ts s,
  (forall c ts s, printable c -> at_toks (pr 1 c ++ ts) s -> ends_pipe ts -> (4 * (es - s) + 3 <= fuel)%nat ->
    parsed (parsepipe buf es fuel) s ts c) ->
  printable c -> at_toks (pr 2 c ++ ts) s -> ends_pipe ts -> (4 * (es - s) + 3 <= fuel)%nat -> (es - s < F)%nat ->
  exists c' s' F', (c0 <- parsepipe buf es fuel;; parsebacks buf es F c0) s = parsebacks buf es F' c' s' /\
    at_toks ts s' /\ (s <= s')%nat /\ (es - s' < F')%nat /\ reads c' = c.
Proof.
  induction c as [argv|c _ file mode fd|l _ r _|l _ r _|c IH]; intros ts s Hpipe Hp Hat Hts Hf HF.
  1-4: destruct (Hpipe _ ts s Hp Hat Hts Hf) as (c' & s' & E & Hat' & Hs' & Hc'); exists c', s', F;
    rewrite (bind_eq _ _ _ _ _ E); split_and!; done || lia.
  cbn [pr paren Nat.ltb Nat.leb] in Hat. rewrite <- app_assoc in Hat.
  destruct (IH ([Sy 38] ++ ts) s Hpipe Hp Hat) as (c' & s' & F' & E & Hat' & Hs' & HF' & Hc'); [by split; [right|]|done..|].
  destruct F' as [|F']; [lia|]. destruct (token_char _ _ _ Hat') as (Hlt & _).
  exists (backcmd c'), (s' + 2)%nat, F'. rewrite E. edestruct (bind_sym (A := cmd span)) as [Eg Hat2]; [exact Hat'|].
  split_and!; [|done|lia|lia|cbn; by rewrite Hc'].
  unfold parsebacks. cbn [loop]. rewrite bind_assoc, (bind_peek "&" _ _ _ eq_refl Hat'). cbn [app sees].
  change (found (str_bytes "&") 38) with true. cbv iota. rewrite bind_assoc, Eg. mrun. done.
Qed.

Lemma backs_stop F c ts s : at_toks ts s -> sees "&" ts = false -> (0 < F)%nat -> parsebacks buf es F c s = Ret c s.
Proof.
  intros Hat Hts HF. destruct F as [|F]; [lia|]. unfold parsebacks. cbn [loop].
  by rewrite bind_assoc, (bind_peek "&" _ _ _ eq_refl Hat), Hts.
Qed.

Definition ends_line (ts : list token) : Prop := ts = [] \/ exists ts', ts = Sy 41 :: ts'.
Lemma ends_line_pipe ts : ends_line ts -> ends_pipe ts /\ sees "&" ts = false /\ sees ";" ts = false.
Proof. intros [->|(ts' & ->)]; (split; [split; [|done]|done]); [by left|by right]. Qed.

Definition line_at (fuel : nat) : Prop := forall c ts s,
  printable c -> at_toks (pr 3 c ++ ts) s -> ends_line ts -> (4 * (es - s) + 4 <= fuel)%nat -> parsed (parseline buf es fuel) s ts c.
Definition pipe_at (fuel : nat) : Prop := forall c ts s,
  printable c -> at_toks (pr 1 c ++ ts) s -> ends_pipe ts -> (4 * (es - s) + 3 <= fuel)%nat -> parsed (parsepipe buf es fuel) s ts c.
Definition exec_at (fuel : nat) : Prop := forall c ts s,
  printable c -> at_toks (pr 0 c ++ ts) s -> stops ts -> (4 * (es - s) + 2 <= fuel)%nat -> parsed (parseexec buf es fuel) s ts c.
Definition block_at (fuel : nat) : Prop := forall c rs ts s,
  printable c -> at_toks ([Sy 40] ++ pr 3 c ++ [Sy 41] ++ pr_redirs rs ++ ts) s -> stops ts -> Forall wf_redir rs ->
  (4 * (es - s) + 1 <= fuel)%nat -> parsed (parseblock buf es fuel) s ts (wrap c rs).

Lemma block_step fuel : line_at fuel -> block_at (S fuel).
Proof.
  intros HL c rs ts s Hc Hat Hst Hrs Hf. unfold parsed. cbn [parseblock]. rewrite (bind_peek "(" _ _ _ eq_refl Hat).
  change (sees "(" _) with true. cbn [negb]. destruct (token_char _ _ _ Hat) as (Hlt & _).
  edestruct (bind_sym (A := cmd span)) as [E Hat1]; [exact Hat|]. rewrite E. clear E.
  destruct (HL c ([Sy 41] ++ pr_redirs rs ++ ts) (s + 2)%nat Hc Hat1) as (c1 & s1 & E & Hat2 & Hs1 & Hc1); [right; by eexists|lia|].
  rewrite (bind_eq _ _ _ _ _ E). clear E. rewrite (bind_peek ")" _ _ _ eq_refl Hat2). change (sees ")" _) with true. cbn [negb].
  edestruct (bind_sym (A := cmd span)) as [E Hat3]; [exact Hat2|]. rewrite E. clear E.
  destruct (stops_sees _ Hst) as [Hn _].
  destruct (redirs_at rs ts fuel c1 (s1 + 2)%nat Hat3 Hn Hrs ltac:(lia)) as (c' & s' & E & Hat' & Hs' & Hc' & _).
  exists c', s'. rewrite Hc', Hc1. split_and!; done || lia.
Qed.

Lemma exec_words_at fuel argv rs ts s :
  (length argv < MAXARGS)%nat -> Forall wf_redir rs -> stops ts -> at_toks ((W <$> argv) ++ pr_redirs rs ++ ts) s ->
  (es - s < fuel)%nat -> parsed (c <- parseredirs buf es fuel execcmd;; loop fuel (parseexec_turn buf es fuel) (O, c)) s ts (wrap (EXEC argv) rs).
Proof.
  intros Hl Hrs Hst Hat Hf. unfold parsed. destruct argv as [|w argv].
  - destruct (stops_sees _ Hst) as [Hn _].
    destruct (redirs_at rs ts fuel execcmd s Hat Hn Hrs Hf) as (c' & s' & E & Hat' & Hs' & Hc' & _). rewrite (bind_eq _ _ _ _ _ E).
    destruct fuel as [|fuel]; [lia|]. cbn [loop].
    destruct (turn_stops (S fuel) 0 c' ts s' Hat' Hst) as (s2 & E2 & Hat2 & Hs2). rewrite (bind_eq _ _ _ _ _ E2).
    exists c', s2. split_and!; done || lia.
  - assert (Hn : sees "<>" ((W <$> w :: argv) ++ pr_redirs rs ++ ts) = false) by done.
    destruct (redirs_at [] _ fuel execcmd s Hat Hn (Forall_nil_2 _) Hf) as (c' & s' & E & Hat' & Hs' & _ & Hc').
    specialize (Hc' eq_refl). subst c'. rewrite (bind_eq _ _ _ _ _ E).
    destruct (words_at argv w rs ts fuel fuel [] s' Hat' Hst Hrs) as (c2 & s2 & E2 & Hat2 & Hs2 & Hc2); [cbn in *; lia|lia..|].
    exists c2, s2. split_and!; done || lia.
Qed.

Lemma no_block argv rs ts : stops ts -> sees "(" ((W <$> argv) ++ pr_redirs rs ++ ts) = false.
Proof.
  intros Hst. destruct argv; [|done]. destruct rs as [|[[file mode] fd] rs]; [by destruct (stops_sees _ Hst)|].
  cbn. unfold redir_sym. by destruct (fd =? 0).
Qed.

Lemma exec_step fuel : block_at fuel -> exec_at (S fuel).
Proof.
  intros HB c ts s Hc Hat Hst Hf. destruct (printable_base c Hc) as [Hb Hrs]. rewrite pr_base, <- app_assoc in Hat.
  rewrite (wrap_base c). generalize (redirs c) (base c) (base_simple c) Hat Hb Hrs. clear c Hc Hat Hb Hrs. intros rs b Hbs Hat Hb Hrs.
  unfold parsed. cbn [parseexec]. rewrite (bind_peek "(" _ _ _ eq_refl Hat). pose proof (pr_paren b) as Epar.
  destruct b as [argv|c file mode fd|l r|l r|c].
  - change (pr 0 (EXEC argv)) with (W <$> argv) in *. rewrite no_block by done. apply exec_words_at; try done; [by destruct Hb|lia].
  - done.
  - rewrite Epar in Hat |- *. change (sees "(" _) with true. rewrite <- !app_assoc in Hat. apply HB; done || lia.
  - rewrite Epar in Hat |- *. change (sees "(" _) with true. rewrite <- !app_assoc in Hat. apply HB; done || lia.
  - rewrite Epar in Hat |- *. change (sees "(" _) with true. rewrite <- !app_assoc in Hat. apply HB; done || lia.
Qed.

Lemma pipe_step fuel : exec_at fuel -> pipe_at fuel -> pipe_at (S fuel).
Proof.
  intros HE HP c ts s Hc Hat [Hst Hnp] Hf. unfold parsed. cbn [parsepipe].
  assert (Hsingle : at_toks (pr 0 c ++ ts) s -> parsed (c <- parseexec buf es fuel;; b <- peek buf es "|";;
    if b then gettoken buf es;;; r <- parsepipe buf es fuel;; ret (pipecmd c r) else ret c) s ts c).
  { intros Hat0. destruct (HE c ts s Hc Hat0 Hst ltac:(lia)) as (c' & s' & E & Hat' & Hs' & Hc'). exists c', s'.
    rewrite (bind_eq _ _ _ _ _ E), (bind_peek "|" _ _ _ eq_refl Hat'), Hnp. done. }
  destruct c as [argv|c file mode fd|l r|l r|c]; try (by apply Hsingle).
  destruct Hc as [Hl Hr]. cbn [pr paren Nat.ltb Nat.leb] in Hat. rewrite <- !app_assoc in Hat.
  destruct (HE l ([Sy 124] ++ pr 1 r ++ ts) s Hl Hat ltac:(by right) ltac:(lia)) as (c1 & s1 & E & Hat1 & Hs1 & Hc1).
  rewrite (bind_eq _ _ _ _ _ E), (bind_peek "|" _ _ _ eq_refl Hat1). clear E. change (sees "|" _) with true. cbv iota.
  destruct (token_char _ _ _ Hat1) as (Hlt & _). edestruct (bind_sym (A := cmd span)) as [E Hat2]; [exact Hat1|]. rewrite E. clear E.
  destruct (HP r ts (s1 + 2)%nat Hr Hat2 (conj Hst Hnp) ltac:(lia)) as (c2 & s2 & E & Hat3 & Hs2 & Hc2).
  rewrite (bind_eq _ _ _ _ _ E). exists (pipecmd c1 c2), s2. cbn. rewrite Hc1, Hc2. split_and!; done || lia.
Qed.

Lemma line_step fuel : pipe_at fuel -> line_at fuel -> line_at (S fuel).
Proof.
  intros HP HL c ts s Hc Hat Hel Hf. destruct (ends_line_pipe _ Hel) as (Hep & Hnb & Hns). unfold parsed. cbn [parseline].
  assert (Hstage : forall l ts', printable l -> at_toks (pr 2 l ++ ts') s -> ends_pipe ts' -> sees "&" ts' = false ->
    exists c1 s1, (c0 <- parsepipe buf es fuel;; parsebacks buf es fuel c0) s = Ret c1 s1 /\ at_toks ts' s1 /\ (s <= s1)%nat /\ reads c1 = l).
  { intros l ts' Hl Hatl He Hb. destruct (backs_at fuel fuel l ts' s HP Hl Hatl He ltac:(lia) ltac:(lia)) as (c1 & s1 & F & E & Hat1 & Hs1 & HF & Hc1).
    exists c1, s1. rewrite E, (backs_stop F c1 ts') by (done || lia). done. }
  assert (Hlast : at_toks (pr 2 c ++ ts) s -> parsed (c <- (c0 <- parsepipe buf es fuel;; parsebacks buf es fuel c0);; b <- peek buf es ";";;
    if b then gettoken buf es;;; r <- parseline buf es fuel;; ret (listcmd c r) else ret c) s ts c).
  { intros Hat2. destruct (Hstage c ts Hc Hat2 Hep Hnb) as (c1 & s1 & E & Hat1 & Hs1 & Hc1). exists c1, s1.
    rewrite (bind_eq _ _ _ _ _ E), (bind_peek ";" _ _ _ eq_refl Hat1), Hns. done. }
  destruct c as [argv|c file mode fd|l r|l r|c].
  4:{ destruct Hc as [Hl Hr]. cbn [pr paren Nat.ltb Nat.leb] in Hat. rewrite <- !app_assoc in Hat.
      destruct (Hstage l ([Sy 59] ++ pr 3 r ++ ts) Hl Hat ltac:(by split; [right|]) eq_refl) as (c1 & s1 & E & Hat1 & Hs1 & Hc1).
      rewrite <- bind_assoc, (bind_eq _ _ _ _ _ E), (bind_peek ";" _ _ _ eq_refl Hat1). clear E. change (sees ";" _) with true. cbv iota.
      destruct (token_char _ _ _ Hat1) as (Hlt & _). edestruct (bind_sym (A := cmd span)) as [E Hat2]; [exact Hat1|]. rewrite E. clear E.
      destruct (HL r ts (s1 + 2)%nat Hr Hat2 Hel ltac:(lia)) as (c2 & s2 & E & Hat3 & Hs2 & Hc2).
      rewrite (bind_eq _ _ _ _ _ E). exists (listcmd c1 c2), s2. cbn. rewrite Hc1, Hc2. split_and!; done || lia. }
  all: rewrite <- bind_assoc; by apply Hlast.
Qed.

Lemma parse_at fuel : line_at fuel /\ pipe_at fuel /\ exec_at fuel /\ block_at fuel.
Proof.
  induction fuel as [|fuel (IHl & IHp & IHe & IHb)].
  - split_and!; intros c; [intros ts s|intros ts s|intros ts s|intros rs ts s]; intros; lia.
  - split_and!; [by apply line_step|by apply pipe_step|by apply exec_step|by apply block_step].
Qed.
End Line.

(** * Printing and parsing *)

Lemma wf_render ts : Forall wf_token ts -> Forall (fun c => c <> 0) (render ts).
Proof.
  intros Hts. induction Hts as [|t ts Ht Hts IH]; [constructor|]. unfold render in *. cbn. apply Forall_app. split; [|done].
  unfold render_token. apply Forall_app. split; [|by repeat constructor]. destruct t as [w|c].
  - destruct Ht as [_ Hw]. eapply Forall_impl; [exact Hw|]. by intros c [? _].
  - repeat constructor. intros ->. by apply symbols_nz.
Qed.
Lemma sym_wf c : bool_decide (c ∈ symbols) = true -> wf_token (Sy c).
Proof. by intros ?%bool_decide_eq_true. Qed.
Lemma paren_wf b ts : Forall wf_token ts -> Forall wf_token (paren b ts).
Proof.
  intros H. destruct b; [|done]. cbn. constructor; [by apply sym_wf|]. apply Forall_app. split; [done|]. constructor; [by apply sym_wf|done].
Qed.
Lemma pr_wf c lvl : printable c -> Forall wf_token (pr lvl c).
Proof.
  revert lvl. induction c as [argv|c IH file mode fd|l IHl r IHr|l IHl r IHr|c IH]; intros lvl; cbn [printable pr].
  - intros [_ H]. by apply Forall_fmap.
  - intros (Hc & Hf & _). apply Forall_app. split; [by apply IH|]. constructor; [|by constructor].
    unfold redir_sym. destruct (fd =? 0); by apply sym_wf.
  - intros [Hl Hr]. apply paren_wf, Forall_app. split; [by apply IHl|]. apply Forall_cons. split; [by apply sym_wf|by apply IHr].
  - intros [Hl Hr]. apply paren_wf, Forall_app. split; [by apply IHl|]. apply Forall_cons. split; [by apply sym_wf|by apply IHr].
  - intros Hc. apply paren_wf, Forall_app. split; [by apply IH|]. apply Forall_cons. by split; [apply sym_wf|].
Qed.
Lemma strlen_line l : Forall (fun c => c <> 0) l -> strlen (l ++ [0]) = Some (Z.of_nat (length l)).
Proof.
  induction 1 as [|c l Hc Hl IH]; [done|]. cbn [app strlen]. rewrite (proj2 (Z.eqb_neq c 0)) by done. rewrite IH. cbn [mbind option_bind length].
  f_equal. lia.
Qed.

(** C36: every command of the shell's language can be written as a line, with
    parentheses only where the grammar needs them, that the parser reads back as that
    command, so that the shell runs it; the words survive their termination in place. *)
Theorem parse_print c fuel :
  printable c -> (4 * length (print_line c) <= fuel)%nat ->
  (exists c' buf' s', parsecmd fuel (print_line c) 0%nat = Ret (c', buf') s' /\ map_words (string_at buf') c' = c) /\
  run_line fuel (print_line c) = runcmd c.
Proof.
  intros Hc Hf. pose proof (wf_render _ (pr_wf c 3 Hc)) as Hnz. pose proof (strlen_line _ Hnz) as Hlen. fold (print_line c) in Hlen.
  assert (H4 : (4 * Z.to_nat (Z.of_nat (length (render (pr 3 c)))) + 4 <= fuel)%nat).
  { unfold print_line in Hf. rewrite length_app in Hf. cbn in Hf. lia. }
  pose proof (parsecmd_type (print_line c) _ fuel 0%nat Hlen H4) as Htype.
  enough (Hrun : exists c' buf' s', parsecmd fuel (print_line c) 0%nat = Ret (c', buf') s' /\ map_words (slice (print_line c)) c' = c).
  { destruct Hrun as (c' & buf' & s' & E & Hr). unfold run_line. rewrite E in *. destruct Htype as (_ & _ & Hw). rewrite Hw, Hr.
    split; [|done]. exists c', buf', s'. by rewrite Hw. }
  unfold parsecmd. rewrite Hlen. mrun. rewrite Nat2Z.id. set (es := length (render (pr 3 c))) in *.
  destruct (strlen_spec _ _ Hlen) as (_ & Hes & Hnz'). rewrite Nat2Z.id in Hes, Hnz'. fold es in Hes, Hnz'.
  assert (Hat : at_toks (print_line c) es (pr 3 c ++ []) 0).
  { rewrite app_nil_r. split_and!; [done|done|by apply pr_wf]. }
  destruct (parse_at (print_line c) es Hes Hnz' fuel) as (HL & _).
  destruct (HL c [] 0%nat Hc Hat ltac:(by left) ltac:(lia)) as (c' & s' & E & Hat' & _ & Hr).
  rewrite (bind_eq _ _ _ _ _ E), (bind_peek _ _ Hes Hnz' "" _ _ _ eq_refl Hat').
  destruct (end_char _ _ Hes _ Hat') as [Es _]. mrun. rewrite Es, Nat.eqb_refl. cbn [negb]. by eexists _, _, _.
Qed.

(** * Examples *)

(** [ls -l|wc >f& (a;b)] *)
Definition demo_line : list Z := str_bytes "ls -l|wc >f& (a;b)" ++ [10; 0].

Lemma parsecmd_type_witness :
  match parsecmd 100 demo_line 0%nat with
  | Ret (c, buf') _ => wf_cmd demo_line (Z.to_nat 19) c /\ length buf' = length demo_line /\
      map_words (string_at buf') c = map_words (slice demo_line) c
  | Panic _ => True
  | _ => False
  end.
Proof.
  apply (parsecmd_type demo_line 19 100 0%nat).
  - vm_compute. reflexivity.
  - apply Nat.leb_le. vm_compute. reflexivity.
Defined.

Definition demo_cmd : cmd (list Z) :=
  LIST (BACK (PIPE (EXEC [str_bytes "ls"; str_bytes "-l"]) (REDIR (EXEC [str_bytes "wc"]) (str_bytes "f") (Z.lor O_WRONLY O_CREATE) 1)))
    (REDIR (LIST (EXEC [str_bytes "a"]) (EXEC [])) (str_bytes "g") O_RDONLY 0).
Lemma demo_cmd_printable : printable demo_cmd.
Proof.
  assert (Hw : forall w, bool_decide (w <> [] /\ Forall (fun c => c <> 0 /\ is_word c = true) w) = true -> wf_word w)
    by (by intros w ?%bool_decide_eq_true).
  unfold demo_cmd. cbn [printable]. split_and!; try (apply Hw; vm_compute; reflexivity); try (apply Nat.ltb_lt; reflexivity);
    try (by left); try (by right);
    repeat (apply Forall_cons; split; [apply Hw; vm_compute; reflexivity|]); apply Forall_nil_2.
Qed.

(** It is written [ls -l | wc > f & ; ( a ; ) < g]. *)
Lemma parse_print_witness :
  print_line demo_cmd = str_bytes "ls -l | wc > f & ; ( a ; ) < g " ++ [0] /\
  run_line 200 (print_line demo_cmd) = runcmd demo_cmd.
Proof.
  split; [vm_compute; reflexivity|]. apply (parse_print demo_cmd 200); [apply demo_cmd_printable|].
  apply Nat.leb_le. vm_compute. reflexivity.
Defined.
