(* ===== verification/ShRun.v ===== *)
(** What the shell runs: the programs a command starts and the files their
    descriptors stand for.  The system calls of [runcmd] are given the effect
    they have on a descriptor table (close, and the lowest free descriptor for
    open, dup and pipe), and the result is compared with a direct definition. *)
From S2P Require Import Ulib Prelude Kstate Sh ShSpec ShPrint.

(** What a descriptor stands for: an open file of the shell, a file opened for
    a redirection, or an end of the pipe with the given number. *)
Inductive desc : Type :=
| D_given (n : nat)
| D_file (name : list Z) (mode : Z)
| D_read (pipe : nat)
| D_write (pipe : nat).
Abbreviation fdtable := (list (option desc)).
(** A program that was started: its arguments and its descriptors. *)
Abbreviation launch := (list (list Z) * fdtable)%type.

Definition is_free (o : option desc) : bool := match o with None => true | Some _ => false end.
Definition lowest (fds : fdtable) : option nat := find_index is_free fds.

Section Run.
(** Whether the file can be opened, and whether the program can be run. *)
Context (open_ok : list Z -> Z -> bool) (exec_ok : list Z -> bool).

(** The programs a process and its children start, children first; [id]
    numbers the pipes. *)
Fixpoint eval (p : prog) (fds : fdtable) (id : nat) : list launch * nat :=
  match p with
  | P_exit => ([], id)
  | P_exec path argv k => if exec_ok path then ([(argv, fds)], id) else eval k fds id
  | P_printf _ _ k => eval k fds id
  | P_close fd k => eval k (<[Z.to_nat fd := None]> fds) id
  | P_open file mode k =>
      match lowest fds with
      | Some n =>
          if open_ok file mode then eval (k (Z.of_nat n)) (<[n := Some (D_file file mode)]> fds) id
          else eval (k (-1)) fds id
      | None => eval (k (-1)) fds id
      end
  | P_dup fd k =>
      match lowest fds, fds !! Z.to_nat fd with
      | Some n, Some (Some d) => eval (k (Z.of_nat n)) (<[n := Some d]> fds) id
      | _, _ => eval (k (-1)) fds id
      end
  | P_pipe k =>
      match lowest fds with
      | Some n =>
          let fds1 := <[n := Some (D_read id)]> fds in
          match lowest fds1 with
          | Some m => eval (k (Some (Z.of_nat n, Z.of_nat m))) (<[m := Some (D_write id)]> fds1) (S id)
          | None => eval (k None) fds id
          end
      | None => eval (k None) fds id
      end
  | P_fork k =>
      let '(l1, id) := eval (k 0) fds id in
      let '(l2, id) := eval (k 1) fds id in
      (l1 ++ l2, id)
  | P_wait k => eval k fds id
  | P_chdir _ k => eval (k 0) fds id
  end.

(** What a command should start. *)
Fixpoint launches (c : cmd (list Z)) (fds : fdtable) (id : nat) : list launch * nat :=
  match c with
  | EXEC [] => ([], id)
  | EXEC ((path :: _) as argv) => if exec_ok path then ([(argv, fds)], id) else ([], id)
  | REDIR c file mode fd =>
      if open_ok file mode then launches c (<[Z.to_nat fd := Some (D_file file mode)]> fds) id else ([], id)
  | PIPE l r =>
      let '(l1, id1) := launches l (<[1%nat := Some (D_write id)]> fds) (S id) in
      let '(l2, id2) := launches r (<[0%nat := Some (D_read id)]> fds) id1 in
      (l1 ++ l2, id2)
  | LIST l r =>
      let '(l1, id1) := launches l fds id in
      let '(l2, id2) := launches r fds id1 in
      (l1 ++ l2, id2)
  | BACK c => launches c fds id
  end.

(** ** Descriptor tables *)

(** The standard descriptors are open, and two others are free. *)
Definition wf_fds (fds : fdtable) : Prop :=
  (forall i, (i < 3)%nat -> exists d, fds !! i = Some (Some d)) /\
  exists a b, (a < b)%nat /\ fds !! a = Some None /\ fds !! b = Some None.

Lemma lowest_first fds n :
  fds !! n = Some None -> (forall i, (i < n)%nat -> exists d, fds !! i = Some (Some d)) -> lowest fds = Some n.
Proof.
  intros Hn Hlt. apply find_index_Some. exists None. split_and!; try done. intros j o Hj Ho.
  destruct (Hlt j Hj) as [d Hd]. by simplify_eq.
Qed.
Lemma lowest_exists fds a : fds !! a = Some None -> exists n, lowest fds = Some n /\ fds !! n = Some None /\ (n <= a)%nat.
Proof.
  intros Ha. destruct (lowest fds) as [n|] eqn:E.
  - apply find_index_Some in E as (o & Ho & Hf & Hmin). destruct o; [done|]. exists n. split_and!; try done.
    destruct (Nat.le_gt_cases n a) as [|Hgt]; [done|]. by specialize (Hmin a None Hgt Ha).
  - unfold lowest, find_index in E. rewrite find_from_None in E. by specialize (E a None Ha).
Qed.

(** Closing a standard descriptor and opening something puts it there. *)
Lemma reopen fds fd d :
  wf_fds fds -> (fd < 3)%nat ->
  lowest (<[fd := None]> fds) = Some fd /\ <[fd := Some d]> (<[fd := None]> fds) = <[fd := Some d]> fds.
Proof.
  intros [Hstd _] Hfd. split; [|apply list_insert_insert_eq]. destruct (Hstd fd Hfd) as [d0 H0].
  apply lowest_first; [apply list_lookup_insert_eq; by eapply lookup_lt_Some|].
  intros i Hi. rewrite list_lookup_insert_ne by lia. apply Hstd. lia.
Qed.
Lemma wf_reopen fds fd d : wf_fds fds -> (fd < 3)%nat -> wf_fds (<[fd := Some d]> fds).
Proof.
  intros [Hstd (a & b & Hab & Ha & Hb)] Hfd.
  assert (H3 : forall x, fds !! x = Some None -> x <> fd) by (intros x Hx ->; destruct (Hstd fd Hfd); congruence).
  split.
  - intros i Hi. destruct (decide (i = fd)) as [->|]; [|rewrite list_lookup_insert_ne by done; by apply Hstd].
    exists d. apply list_lookup_insert_eq. destruct (Hstd fd Hfd). by eapply lookup_lt_Some.
  - pose proof (H3 a Ha). pose proof (H3 b Hb). exists a, b. rewrite !list_lookup_insert_ne by done. done.
Qed.

(** The descriptors of a pipe. *)
Lemma pipe_fds fds id :
  wf_fds fds -> exists n m, (3 <= n)%nat /\ (n < m)%nat /\ lowest fds = Some n /\ fds !! n = Some None /\
    lowest (<[n := Some (D_read id)]> fds) = Some m /\ fds !! m = Some None.
Proof.
  intros [Hstd (a & b & Hab & Ha & Hb)]. destruct (lowest_exists fds a Ha) as (n & En & Hn & Hna).
  assert (Hn3 : (3 <= n)%nat) by (destruct (Nat.le_gt_cases 3 n) as [|Hlt]; [done|]; destruct (Hstd n Hlt); congruence).
  assert (Hb' : <[n := Some (D_read id)]> fds !! b = Some None) by (rewrite list_lookup_insert_ne by lia; done).
  destruct (lowest_exists _ b Hb') as (m & Em & Hm & _). exists n, m.
  assert (Hnm : n <> m).
  { intros <-. rewrite list_lookup_insert_eq in Hm by (by eapply lookup_lt_Some). done. }
  rewrite list_lookup_insert_ne in Hm by done. split_and!; try done.
  apply find_index_Some in En as (_ & _ & _ & Hmin). destruct (Nat.lt_trichotomy m n) as [Hlt|[|]]; [|done..].
  by specialize (Hmin m None Hlt Hm).
Qed.

(** A child of a pipeline: the end of the pipe in place of the standard
    descriptor, and neither end left open. *)
Lemma child_fds fds n m fd d r w :
  wf_fds fds -> (fd < 3)%nat -> (3 <= n)%nat -> (n < m)%nat -> fds !! n = Some None -> fds !! m = Some None ->
  let fds2 := <[m := Some w]> (<[n := Some r]> fds) in
  lowest (<[fd := None]> fds2) = Some fd /\
  <[m := None]> (<[n := None]> (<[fd := Some d]> (<[fd := None]> fds2))) = <[fd := Some d]> fds.
Proof.
  intros Hwf Hfd Hn Hnm En Em. cbv zeta. destruct Hwf as [Hstd _].
  assert (Hln := lookup_lt_Some _ _ _ En). assert (Hlm := lookup_lt_Some _ _ _ Em). split.
  - apply lowest_first; [apply list_lookup_insert_eq; rewrite !length_insert; lia|].
    intros i Hi. rewrite !list_lookup_insert_ne by lia. apply Hstd. lia.
  - rewrite list_insert_insert_eq. apply list_eq. intros i.
    destruct (decide (i = m)) as [->|]; [rewrite list_lookup_insert_eq, list_lookup_insert_ne by (rewrite ?length_insert; lia); done|].
    rewrite list_lookup_insert_ne by done.
    destruct (decide (i = n)) as [->|]; [rewrite list_lookup_insert_eq, list_lookup_insert_ne by (rewrite ?length_insert; lia); done|].
    rewrite list_lookup_insert_ne by done. destruct (decide (i = fd)) as [->|]; [|by rewrite !list_lookup_insert_ne by done].
    by rewrite !list_lookup_insert_eq by (rewrite ?length_insert; lia).
Qed.

(** Redirections of the standard input and output only. *)
Fixpoint std_redirs (c : cmd (list Z)) : Prop :=
  match c with
  | EXEC _ => True
  | REDIR c _ _ fd => std_redirs c /\ 0 <= fd < 3
  | PIPE l r | LIST l r => std_redirs l /\ std_redirs r
  | BACK c => std_redirs c
  end.

Lemma eval_fork1 k fds id :
  eval (fork1 k) fds id = let '(l1, id) := eval (k 0) fds id in let '(l2, id) := eval (k 1) fds id in (l1 ++ l2, id).
Proof. done. Qed.

End Run.

(** * Examples *)

Definition demo_fds : fdtable := [Some (D_given 0); Some (D_given 1); Some (D_given 2)] ++ replicate 13 None.

Lemma demo_fds_wf : wf_fds demo_fds.
Proof.
  split; [|exists 3%nat, 4%nat; split; [lia|done]].
  intros [|[|[|i]]] Hi; [by eexists..|lia].
Qed.

(** [ls -l | wc > f]: [wc] reads from the pipe and writes to the file. *)
Definition demo_pipe : cmd (list Z) :=
  PIPE (EXEC [str_bytes "ls"; str_bytes "-l"]) (REDIR (EXEC [str_bytes "wc"]) (str_bytes "f") (Z.lor O_WRONLY O_CREATE) 1).

(** [>>] is the same as [>]: the file is written from its beginning. *)
Lemma append_is_overwrite :
  run_line 100 (str_bytes "echo x >> f" ++ [10; 0]) = run_line 100 (str_bytes "echo x > f" ++ [10; 0]).
Proof. vm_compute. reflexivity. Qed.
